(* ===== verification/_CoqProject ===== *)
-Q . S2P
Prelude.v
Locks.v
Barrier.v
Semaphore.v
Mem.v
CString.v
Symbol.v
Leb128.v
DebugLine.v
Fdt.v
Htif.v
PageAlloc.v
Pmm.v
Vmm.v
HashTable.v
SpikeFile.v
FsData.v
Ramdev.v
Rfs.v
RfsFile.v
RfsDir.v
RfsMount.v
Hostfs.v
Vfs.v
VfsLookup.v
Kernel.v
Sched.v
Process.v
Elf.v
ElfLoad.v
ErrorLine.v
ProcFile.v
Snprintf.v
Syscall.v
Strap.v
Fork.v
Boot.v
Typed.v
UserLib.v
UserProg.v
UserSim.v
Ls.v
Shell.v
SemOrder.v
Console.v
