(* ===== verification/Prelude.v ===== *)
(** * A model of the cabbagePKE kernel

    cabbagePKE is a small RISC-V (Sv39, two harts) teaching kernel in C, run under the
    Spike simulator.  This library translates its core to Rocq functions and proves what
    those functions do.

    ** The parts of the program and the files that model them

    - util/string.c: [CString].  Every routine, on byte-addressed memory ([Mem]).
    - kernel/pmm.c: [Pmm].  The state is the record [pmm]: memory, the head of the free
      list that is threaded through the free pages, and the sorted table of owners.
      [PageAlloc] is the interface (with laws) that the hash tables and the file system
      use; [Pmm] implements it.
    - kernel/vmm.c, kernel/riscv.h: [Vmm].  Page tables are words in memory; [entry] is the
      entry a table denotes for an address.
    - util/hash_table.c: [HashTable], generic in the key and the allocator.
    - kernel/vfs.h, rfs.h, ramdev.h: [FsData].  The file-system objects (dentries, vinodes,
      files, superblocks, devices) are records in maps keyed by the page they occupy;
      pointers are addresses, so that aliasing is kept.
    - kernel/ramdev.c and the block and inode layer of kernel/rfs.c: [Ramdev]; the rest of
      kernel/rfs.c: [Rfs].  The disk is a list of blocks of bytes; disk inodes and
      directory entries are encoded to bytes.  Properties of files in [RfsFile], of
      directories in [RfsDir], of formatting and mounting in [RfsMount].
    - spike_interface/spike_file.c: [SpikeFile].  The host is the interface [Host]: it
      answers each call from the log of the calls it has served.
    - kernel/hostfs.c: [Hostfs], over [SpikeFile].
    - kernel/vfs.c: [Vfs], which dispatches to [Rfs] and [Hostfs]; properties of path lookup
      in [VfsLookup].
    - kernel/process.h and the global state: [Kernel] (the record [kern]).
    - kernel/sched.c, with [switch_to]: [Sched].  The ready queue and the queues of the
      semaphores are threaded through the process table by [queue_next].  [Semaphore] is the
      counter and the queue of one semaphore as a value; [Sched.acquire_sem_down] and
      [Sched.release_sem_up] prove that the code works on it.
    - kernel/process.c: [Process] (processes and the user heap); its [print_error_line]:
      [ErrorLine].  Properties of the heap of a forked process in [Fork].
    - kernel/elf.c: [Leb128] and [DebugLine] (the .debug_line section), [Elf] (the loader),
      with the properties of the loader in [ElfLoad].
    - kernel/proc_file.c: [ProcFile]; kernel/syscall.c: [Syscall]; kernel/strap.c: [Strap].
      [Strap.user_trap] is the kernel as a whole: a trap from user mode, dispatched to the
      system calls, the scheduler or the page-fault handler.
    - kernel/symbol.c: [Symbol]; util/snprintf.c: [Snprintf], used by [Syscall] and
      [Console].
    - spike_interface/atomic.h: [Locks], the spinlock as several harts execute it;
      kernel/sync_utils.h: [Barrier], likewise.
    - spike_interface/dts_parse.c, spike_memory.c and the discovery of HTIF in spike_htif.c:
      [Fdt], the scan of the device tree.
    - the rest of spike_interface/spike_htif.c, spike_utils.c: [Htif].  What the simulator
      does between two accesses of the kernel is a script, of which the theorems assume
      only that a command is served once and answered.  The console and the messages the
      kernel dies with: [Console], over [Snprintf], [SpikeFile] and [Htif].
    - kernel/machine/minit.c, kernel/machine/mtrap.c, kernel/kernel.c: [Boot].  The record
      [board] adds to [kern] the machine-mode registers of the harts, the timer and the
      globals of start-up; [take_trap] is what the hardware does with a trap.  The supervisor
      handler takes the number of its hart from the register [tp] as the program left it
      ([as_hart]).
    - user/deps/user_lib.c: [UserLib], the calls as the user programs make them.
    - user/*.c: [UserProg] (the programs but three), [Shell] (sh.c) and [SemOrder]
      (c_3_2.c).  A program works on its own memory and makes calls; what the kernel answers
      is the interface [System], from the log of the calls made.  [UserSim] relates a
      program to a specification that makes the same calls and works on strings; [Ls] and
      [Shell] prove it for ls.c and sh.c.  [SemOrder] has three processes that interleave at
      every call, on the values of [Semaphore].
    - [Typed] models no further code: it follows the whole kernel through the definitions
      of the other files.

    ** How code becomes definitions

    A routine is a function of the kernel monad [M S A] below: it takes the state and
    returns a value, leaves for user mode ([Switch]), shuts down, panics, waits for ever
    ([Hang]) or performs an access the machine traps on or that is undefined in C
    ([Fault]: NULL, an index outside an array, a string that overruns its array).  Fixed-
    width integers are [Z] with the wrap-around written out.  Each definition has the name
    of the routine it translates; a loop is a [Fixpoint] of its own.  What a page or the
    stack held before is an argument ([Stale]).  What a system call prints for its caller
    (print, printpa, backtrace) is sent to the host; the messages the kernel prints for itself
    are left out of its routines, and [Console] is what prints them.

    [Fault] ends a run because C gives it no meaning from there on; it is not a test that the
    code makes.  Where the code misses one, as in [sem_init] and [sys_user_free_page], the
    index past the array is a [Fault] and a theorem says so ([Typed.kernel_typed]).

    The kernel is followed one hart at a time.  A lock that is held is never released while
    its holder spins on it, so that [spinlock_lock] on a held lock is [Hang].  [Locks]
    and [Barrier] are the exception: there the harts take turns at every access to the word.

    ** What the theorems show

    - [Pmm]: allocation and release of pages, the invariant of the allocator under every
      sequence of operations, start-up, and the one order of insertions that breaks the
      table of owners.
    - [Vmm]: mapping, lookup, unmapping and sharing of pages as operations on the function
      from addresses to entries, with the tables kept a tree; the kernel's map.
    - [HashTable]: insertion and removal refine a finite map.
    - [Sched]: the queues as lists, scheduling, semaphores.
    - [Process]: wait (with what the parent link of a reaped child does), exit, the heap (with
      its overruns), [alloc_process].
    - [Ramdev], [RfsFile], [RfsDir], [RfsMount]: reading and writing files as operations on
      byte sequences, directories as lists of entries, formatting.
    - [Symbol]: the sort terminates and sorts; bisection agrees with a scan.
    - [Snprintf]: [vsnprintf] prints the described text and stays in its buffer.  The text of
      the system call print is the same ([Syscall.print_text_render]).
    - [Strap]: the copy-on-write fault, and fairness of round-robin scheduling.
    - [Fork]: which pages of the heap a child shares, with which rights, and that the tables
      of the parent stay as they are.
    - [VfsLookup]: a path that was found is cached.
    - [Leb128], [DebugLine], [ErrorLine]: the readers invert their encodings, the line table
      holds the rows that the line number programs describe, and the line reported for an
      address is the one the table gives.
    - [ElfLoad]: [elf_load] fills an address space from the file the host serves.
    - [SpikeFile]: what closing a host file does.
    - [Locks]: mutual exclusion as far as the swap is atomic, and the two races it has.
    - [Barrier]: no hart passes before all have arrived, and then each can.
    - [Fdt]: the scan finds in an encoded device tree what the tree says.
    - [Htif]: a call waits for the command before it and returns the simulator's answer, and
      which key the console buffer then holds.
    - [Console]: what of a message reaches the host, and what a panic prints.
    - [Boot]: the state in which a hart leaves machine mode, and where each trap from user
      mode ends.
    - [Typed]: an invariant of the whole machine (sizes of tables, pointers, free locks) that
      start-up establishes and every trap keeps, whatever is in [tp], and the two operations
      that leave their arrays.
    - [UserLib]: library and dispatcher agree on numbers and arguments, and a call through
      registers, trap and trapframe is a call of the handler.
    - [Shell], [Ls]: the calls of these programs are those of their specifications on
      strings, in order, and they end.
    - [SemOrder]: in every interleaving the lines come in turn; no deadlock; every run ends.

    Several theorems state what the code does where that is not what it is meant to do:
    pages lost or clobbered ([Strap.cow_fault_spec], [RfsFile.rfs_write_spec]), files
    that stay open ([SpikeFile.spike_file_close_leaks]), a process woken from the wrong
    queue ([Process.wakeup_steals_waiter]), a wait that never ends ([Process.do_wait_any]), locks held twice ([Locks.spinlock_spec]), a
    forked heap the parent can still write ([Fork.fork_region_heap]), a panic that misreads
    its arguments ([Console.do_panic_spec]).

    ** Fuel and bounds

    Loops bounded by a number in the source take it as fuel.  The others take a bound
    computed from the state that the proofs show to be enough (the length of a queue or of
    the table of owners, the number of pages of a range, the number of dentries for a walk
    up the tree); the theorems about such routines state that they return.  [do_wait],
    [vm_malloc] and the transfer loop of [Syscall], whose length the user controls, take
    their fuel as an argument, and exhausting it is [Hang].  The readers of the .debug_line
    section take fuel as well; [make_addr_line_spec] shows that the length of the section
    and twelve are enough.  The scan of the device tree takes fuel above the length of its
    encoding ([device_tree_spec]).  The loops of ls and of the shell take fuel above the
    number of entries and of lines that the system has to give ([ls_refines],
    [sh_refines]); a string of a program has less than a page.

    The table of owners has 16384 entries, fewer than the pages of the machine.  The theorems
    on routines that allocate ask for room for the pages they take and not for all that are
    free, so that they hold on the machine with 128 MiB ([Vmm.kern_vm_init_identity] is applied
    to it).

    ** Not modelled

    - The messages the routines of the kernel print for themselves.  The file
      model calls the host through [SpikeFile.frontend_syscall], which abstracts from the
      words [Htif] exchanges.
    - [print_proc_vmspace] of kernel/vmm.c, a debugging routine that nothing calls.
    - The interleaving of two harts in the kernel as a whole, and the assembly code
      (strap_vector.S, load_store.S).
    - The composition of the user programs with the kernel: a program meets the kernel as a
      [System] with the laws its theorem names ([Shell.Replies], [Ls.Entries]). *)

From Stdlib Require Export ZArith Lia.
From stdpp Require Export base numbers list gmap option strings.

Global Open Scope Z_scope.

(** * The kernel monad *)

(** Every kernel routine runs on some state [S] and ends in one of six ways:
    it returns, it hands the hart to user mode and never comes back
    ([switch_to]), it shuts the machine down, it calls [panic], it waits for
    ever on a lock that it holds itself, or it performs an access the machine
    traps on (a load through a null or dangling pointer, an index outside an
    array). *)
Inductive outcome (S A : Type) : Type :=
  | Ret (a : A) (s : S)
  | Switch (s : S)
  | Shutdown (code : Z)
  | Panic (msg : string)
  | Hang
  | Fault.

Arguments Ret {S A} a s.
Arguments Switch {S A} s.
Arguments Shutdown {S A} code.
Arguments Panic {S A} msg.
Arguments Hang {S A}.
Arguments Fault {S A}.

Definition M (S A : Type) : Type := S -> outcome S A.

Definition ret {S A} (a : A) : M S A := fun s => Ret a s.

Definition bind {S A B} (c : M S A) (k : A -> M S B) : M S B := fun s =>
  match c s with
  | Ret a s' => k a s'
  | Switch s' => Switch s'
  | Shutdown code => Shutdown code
  | Panic msg => Panic msg
  | Hang => Hang
  | Fault => Fault
  end.

Definition panic {S A} (msg : string) : M S A := fun _ => Panic msg.
Definition fault {S A} : M S A := fun _ => Fault.
Definition hang {S A} : M S A := fun _ => Hang.
Definition shutdown {S A} (code : Z) : M S A := fun _ => Shutdown code.
Definition gets {S A} (f : S -> A) : M S A := fun s => Ret (f s) s.
Definition modify {S} (f : S -> S) : M S unit := fun s => Ret tt (f s).

(** [kassert] and [assert] stop the machine through [do_panic]. *)
Definition kassert {S} (b : bool) (msg : string) : M S unit :=
  if b then ret tt else panic msg.

(** A pointer or an index that must denote something. *)
Definition deref {S A} (o : option A) : M S A :=
  match o with Some a => ret a | None => fault end.

(** Running a routine on a component [T] of a larger state [S]. *)
Definition zoom {S T A} (get : S -> T) (put : T -> S -> S) (c : M T A) : M S A :=
  fun s =>
    match c (get s) with
    | Ret a t => Ret a (put t s)
    | Switch t => Switch (put t s)
    | Shutdown code => Shutdown code
    | Panic msg => Panic msg
    | Hang => Hang
    | Fault => Fault
    end.

Declare Scope kernel_scope.
Delimit Scope kernel_scope with kernel.
Notation "x <- c ;; k" := (bind c (fun x => k))
  (at level 100, c at next level, right associativity) : kernel_scope.
Notation "c ;;; k" := (bind c (fun _ => k))
  (at level 100, right associativity) : kernel_scope.
Global Open Scope kernel_scope.

(** ** Rules of the monad *)

Section monad_rules.
Context {S A B : Type}.
Implicit Types (c : M S A) (k : A -> M S B) (s : S).

Lemma bind_ret_eq c k s a s' : c s = Ret a s' -> bind c k s = k a s'.
Proof. intros E. unfold bind. by rewrite E. Qed.

Lemma bind_Ret_inv c k s b s' :
  bind c k s = Ret b s' -> exists a s1, c s = Ret a s1 /\ k a s1 = Ret b s'.
Proof. unfold bind. destruct (c s) eqn:E; intros H; simplify_eq; eauto. Qed.

Lemma bind_panic_eq c k s msg : c s = Panic msg -> bind c k s = Panic msg.
Proof. intros E. unfold bind. by rewrite E. Qed.

Lemma bind_fault_eq c k s : c s = Fault -> bind c k s = Fault.
Proof. intros E. unfold bind. by rewrite E. Qed.

Lemma bind_switch_eq c k s s' : c s = Switch s' -> bind c k s = Switch s'.
Proof. intros E. unfold bind. by rewrite E. Qed.

(** Continuations that agree on what the first part returns. *)
Lemma bind_ext c (k k' : A -> M S B) s :
  (forall a s', c s = Ret a s' -> k a s' = k' a s') -> bind c k s = bind c k' s.
Proof. intros H. unfold bind. destruct (c s); auto. Qed.

Lemma bind_assoc {C} c k (k' : B -> M S C) s : bind (bind c k) k' s = bind c (fun a => bind (k a) k') s.
Proof. unfold bind. by destruct (c s). Qed.
End monad_rules.

Lemma zoom_ret_eq {S T A} (get : S -> T) (put : T -> S -> S) (c : M T A) s a t :
  c (get s) = Ret a t -> zoom get put c s = Ret a (put t s).
Proof. intros E. unfold zoom. by rewrite E. Qed.

(** * Field update *)

(** [Eta R] is the identity of the record type [R] written field by field;
    from it [Upd proj] derives the functional update of one field. *)
Class Eta (R : Type) : Type := eta : R -> R.
Class Upd {R T : Type} (proj : R -> T) : Type := upd : (T -> T) -> R -> R.
Arguments upd {R T} proj {_} f r.

Ltac derive_upd :=
  lazymatch goal with
  | |- @Upd ?R ?T ?proj =>
      let e := eval hnf in (_ : Eta R) in
      let p := eval pattern proj in e in
      lazymatch p with
      | ?body _ => exact (fun (f : T -> T) => body (fun r => f (proj r)))
      end
  end.
Global Hint Extern 1 (Upd _) => derive_upd : typeclass_instances.

Notation "r <| f := v |>" := (upd f (fun _ => v) r)
  (at level 1, f at next level, v at level 200, left associativity,
   format "r  <| f  :=  v |>") : kernel_scope.

(** * Machine integers *)

(** Fixed-width integers are [Z] with the wrap-around written out. *)
Definition u8 (z : Z) : Z := z mod 256.
Definition u32 (z : Z) : Z := z mod 4294967296.
Definition u64 (z : Z) : Z := z mod 18446744073709551616.
Definition i32 (z : Z) : Z := (z + 2147483648) mod 4294967296 - 2147483648.
Definition i64 (z : Z) : Z :=
  (z + 9223372036854775808) mod 18446744073709551616 - 9223372036854775808.

(** [ROUNDUP] and [ROUNDDOWN] of util/functions.h, on [uint64]. *)
Definition ROUNDUP (a b : Z) : Z := u64 ((u64 (a - 1) / b + 1) * b).
Definition ROUNDDOWN (a b : Z) : Z := a / b * b.
Definition MIN (a b : Z) : Z := if a <? b then a else b.

Definition PGSIZE : Z := 4096.

Lemma u64_small z : 0 <= z < 18446744073709551616 -> u64 z = z.
Proof. apply Z.mod_small. Qed.

Lemma u64_range z : 0 <= u64 z < 18446744073709551616.
Proof. by apply Z.mod_pos_bound. Qed.

Lemma i32_small z : -2147483648 <= z < 2147483648 -> i32 z = z.
Proof. intros. unfold i32. rewrite Z.mod_small; lia. Qed.

Lemma i32_range z : -2147483648 <= i32 z < 2147483648.
Proof.
  unfold i32. pose proof (Z.mod_pos_bound (z + 2147483648) 4294967296). lia.
Qed.

Lemma ROUNDDOWN_le a b : 0 < b -> ROUNDDOWN a b <= a < ROUNDDOWN a b + b.
Proof.
  intros. unfold ROUNDDOWN. pose proof (Z.mod_pos_bound a b).
  rewrite (Z.div_mod a b) at 2 3; lia.
Qed.

Lemma ROUNDUP_le a :
  0 < a < 18446744073709547520 ->
  a <= ROUNDUP a PGSIZE < a + PGSIZE /\ ROUNDUP a PGSIZE mod PGSIZE = 0.
Proof.
  intros. unfold ROUNDUP, PGSIZE.
  rewrite (u64_small (a - 1)) by lia.
  pose proof (Z.div_mod (a - 1) 4096). pose proof (Z.mod_pos_bound (a - 1) 4096).
  rewrite u64_small by lia. split; [lia|]. by rewrite Z_mod_mult.
Qed.

(** * Automation *)

Create HintDb kernel discriminated.
Create Rewrite HintDb kernel.

(** Take apart a computation that is known to return. *)
Ltac inv_bind :=
  repeat match goal with
  | H : bind _ _ _ = Ret _ _ |- _ =>
      let x := fresh "x" in let s := fresh "s" in
      let H1 := fresh "Hstep" in let H2 := fresh "Hrest" in
      apply bind_Ret_inv in H as (x & s & H1 & H2); cbn beta in H2
  | H : ret _ _ = Ret _ _ |- _ => unfold ret in H; simplify_eq H; clear H; intros; subst
  end.

(** Run the first routine of a sequence, known to return by [E]. *)
Ltac step E := rewrite (bind_ret_eq _ _ _ _ _ E); cbn beta.

(** Boolean comparisons in the context become propositions. *)
Ltac bools :=
  repeat match goal with
  | H : (_ && _)%bool = true |- _ => apply andb_true_iff in H as [? ?]
  | H : (_ || _)%bool = false |- _ => apply orb_false_iff in H as [? ?]
  | H : negb _ = true |- _ => apply negb_true_iff in H
  | H : negb _ = false |- _ => apply negb_false_iff in H
  | H : (_ =? _) = true |- _ => apply Z.eqb_eq in H
  | H : (_ =? _) = false |- _ => apply Z.eqb_neq in H
  | H : (_ <? _) = true |- _ => apply Z.ltb_lt in H
  | H : (_ <? _) = false |- _ => apply Z.ltb_ge in H
  | H : (_ <=? _) = true |- _ => apply Z.leb_le in H
  | H : (_ <=? _) = false |- _ => apply Z.leb_gt in H
  end.

(** Split on the innermost boolean test of the goal. *)
Ltac case_if :=
  match goal with
  | |- context [if ?b then _ else _] => destruct b eqn:?
  end; bools.

(** Linear arithmetic with division and modulo by literals. *)
Ltac zdiv := Z.div_mod_to_equations; lia.

(** * Lists used as arrays *)

Section lists.
Context {A : Type}.
Implicit Types (l k : list A) (n i : nat) (x : A).

(** Overwrite the elements of [l] from position [n] on with [k]; the source
    writes [k] with [memcpy] into an array that has room for it. *)
Definition splice (n : nat) (k l : list A) : list A :=
  take n l ++ k ++ drop (n + length k) l.

Lemma length_splice n k l :
  (n + length k <= length l)%nat -> length (splice n k l) = length l.
Proof. intros. unfold splice. rewrite !length_app, length_take, length_drop. lia. Qed.

Lemma lookup_splice_in n k l i :
  (n + length k <= length l)%nat -> (i < length k)%nat ->
  splice n k l !! (n + i)%nat = k !! i.
Proof.
  intros. unfold splice. rewrite lookup_app_r; rewrite length_take; [|lia].
  rewrite lookup_app_l by lia. f_equal. lia.
Qed.

Lemma lookup_splice_out n k l i :
  (n + length k <= length l)%nat -> (i < n \/ n + length k <= i)%nat ->
  splice n k l !! i = l !! i.
Proof.
  intros Hle [Hi|Hi]; unfold splice.
  - rewrite lookup_app_l by (rewrite length_take; lia). by rewrite lookup_take_lt.
  - rewrite lookup_app_r; rewrite length_take; [|lia].
    rewrite lookup_app_r by lia. rewrite lookup_drop. f_equal. lia.
Qed.

Lemma take_drop_splice n k l :
  (n + length k <= length l)%nat -> take (length k) (drop n (splice n k l)) = k.
Proof.
  intros. unfold splice. rewrite drop_app_ge; rewrite length_take; [|lia].
  replace (n - n `min` length l)%nat with 0%nat by lia. rewrite drop_0.
  by rewrite take_app_length.
Qed.

Lemma take_drop_splice_ne n k l i j :
  (n + length k <= length l)%nat -> (i + j <= n \/ n + length k <= i)%nat ->
  take j (drop i (splice n k l)) = take j (drop i l).
Proof.
  intros Hle Hd. apply list_eq. intros m.
  destruct (decide (m < j)%nat).
  - rewrite !lookup_take_lt, !lookup_drop by lia. apply lookup_splice_out; lia.
  - by rewrite !lookup_take_ge by lia.
Qed.

(** Two adjacent writes are one. *)
Lemma splice_splice n k1 k2 l :
  (n + length k1 + length k2 <= length l)%nat ->
  splice (n + length k1) k2 (splice n k1 l) = splice n (k1 ++ k2) l.
Proof.
  intros Hle. apply list_eq. intros i.
  assert (length (splice n k1 l) = length l) as Hl by (apply length_splice; lia).
  destruct (decide (i < n)%nat).
  { rewrite !lookup_splice_out; rewrite ?length_app; auto; lia. }
  destruct (decide (i < n + length k1)%nat).
  { rewrite (lookup_splice_out (n + length k1)) by lia. replace i with (n + (i - n))%nat by lia.
    rewrite !lookup_splice_in by (rewrite ?length_app; lia). by rewrite lookup_app_l by lia. }
  destruct (decide (i < n + length k1 + length k2)%nat).
  - replace i with (n + length k1 + (i - n - length k1))%nat at 1 by lia. rewrite lookup_splice_in by lia.
    replace i with (n + (i - n))%nat at 2 by lia. rewrite lookup_splice_in by (rewrite length_app; lia).
    rewrite lookup_app_r by lia. f_equal.
  - rewrite !lookup_splice_out; rewrite ?length_app; auto; lia.
Qed.

(** Insertion at a position, as [memmove] makes room for it. *)
Lemma lookup_insert_at n x l i :
  (n <= length l)%nat ->
  (take n l ++ x :: drop n l) !! i =
  if (i <? n)%nat then l !! i else if (i =? n)%nat then Some x else l !! (i - 1)%nat.
Proof.
  intros Hn. destruct (Nat.ltb_spec i n).
  - rewrite lookup_app_l by (rewrite length_take; lia). by rewrite lookup_take_lt.
  - rewrite lookup_app_r; rewrite length_take; [|lia].
    replace (n `min` length l)%nat with n by lia.
    destruct (Nat.eqb_spec i n) as [->|].
    + by rewrite Nat.sub_diag.
    + rewrite lookup_cons_ne_0 by lia. rewrite lookup_drop. f_equal. lia.
Qed.

Lemma length_insert_at n x l :
  (n <= length l)%nat -> length (take n l ++ x :: drop n l) = S (length l).
Proof. intros. rewrite length_app, length_take. cbn. rewrite length_drop. lia. Qed.

Lemma lookup_delete_at n l i :
  delete n l !! i = if (i <? n)%nat then l !! i else l !! (S i).
Proof.
  destruct (Nat.ltb_spec i n);
    [by apply list_lookup_delete_lt | by apply list_lookup_delete_ge].
Qed.
End lists.

#[export] Hint Rewrite @length_splice using lia : kernel.

(** * Arrays indexed by C integers *)

(** An array access. *)
Definition at_index {T} (l : list T) (i : Z) : option T := if i <? 0 then None else l !! Z.to_nat i.
Definition set_index {T} (l : list T) (i : Z) (x : T) : option (list T) :=
  if (0 <=? i) && (i <? Z.of_nat (length l)) then Some (<[Z.to_nat i := x]> l) else None.

Lemma at_index_nat {T} (l : list T) i : 0 <= i -> at_index l i = l !! Z.to_nat i.
Proof. intros. unfold at_index. by destruct (Z.ltb_spec i 0); [lia|]. Qed.

Lemma at_index_None {T} (l : list T) i : Z.of_nat (length l) <= i -> at_index l i = None.
Proof. intros. unfold at_index. destruct (Z.ltb_spec i 0); [done|]. apply lookup_ge_None. lia. Qed.

Lemma at_index_is_Some {T} (l : list T) i :
  0 <= i < Z.of_nat (length l) -> exists x, at_index l i = Some x.
Proof. intros. rewrite at_index_nat by lia. apply lookup_lt_is_Some. lia. Qed.

Lemma at_index_Some {T} (l : list T) i x : at_index l i = Some x -> 0 <= i < Z.of_nat (length l).
Proof.
  unfold at_index. destruct (Z.ltb_spec i 0); [done|]. intros Hx%lookup_lt_Some. lia.
Qed.

Lemma set_index_eq {T} (l : list T) i x :
  0 <= i < Z.of_nat (length l) -> set_index l i x = Some (<[Z.to_nat i := x]> l).
Proof.
  intros. unfold set_index. destruct (Z.leb_spec 0 i); [|lia].
  by destruct (Z.ltb_spec i (Z.of_nat (length l))); [|lia].
Qed.

Lemma at_index_insert {T} (l : list T) i j x :
  0 <= i < Z.of_nat (length l) ->
  at_index (<[Z.to_nat i := x]> l) j = if j =? i then Some x else at_index l j.
Proof.
  intros Hi. unfold at_index. destruct (Z.ltb_spec j 0), (Z.eqb_spec j i); try lia; try done.
  - subst. apply list_lookup_insert_eq. lia.
  - apply list_lookup_insert_ne. lia.
Qed.

Lemma at_index_splice o (k l : list Z) j :
  0 <= o -> o + Z.of_nat (length k) <= Z.of_nat (length l) -> 0 <= j ->
  at_index (splice (Z.to_nat o) k l) j =
  if (o <=? j) && (j <? o + Z.of_nat (length k)) then at_index k (j - o) else at_index l j.
Proof.
  intros Ho Hl Hj. rewrite (at_index_nat l), (at_index_nat (splice _ _ _)) by done.
  destruct (Z.leb_spec o j), (Z.ltb_spec j (o + Z.of_nat (length k))); cbn [andb];
    try (apply lookup_splice_out; lia).
  rewrite at_index_nat by lia.
  replace (Z.to_nat j) with (Z.to_nat o + Z.to_nat (j - o))%nat by lia. apply lookup_splice_in; lia.
Qed.

Lemma at_index_sub (l : list Z) o n j :
  0 <= o -> 0 <= j < n -> at_index (take (Z.to_nat n) (drop (Z.to_nat o) l)) j = at_index l (o + j).
Proof.
  intros Ho Hj. rewrite !at_index_nat by lia. rewrite lookup_take_lt, lookup_drop by lia. f_equal. lia.
Qed.

Lemma at_index_app_l {T} (l k : list T) j :
  j < Z.of_nat (length l) -> at_index (l ++ k) j = at_index l j.
Proof. intros. unfold at_index. destruct (Z.ltb_spec j 0); [done|]. apply lookup_app_l. lia. Qed.

Lemma at_index_app_r {T} (l k : list T) j :
  Z.of_nat (length l) <= j -> at_index (l ++ k) j = at_index k (j - Z.of_nat (length l)).
Proof.
  intros. unfold at_index. destruct (Z.ltb_spec j 0); [lia|].
  destruct (Z.ltb_spec (j - Z.of_nat (length l)) 0); [lia|]. rewrite lookup_app_r by lia. f_equal. lia.
Qed.
