(* ===== verification/Locks.v ===== *)
(** spike_interface/atomic.h: the spinlock as several harts execute it, one access to the
    lock word at a time. *)

From S2P Require Import Prelude.

(** * The lock *)

(** Where a hart is in a round of [spinlock_lock], critical section, [spinlock_unlock]:
    before the call; at the [atomic_read] of the inner loop; at the read and at the write
    of the [atomic_swap] of [spinlock_trylock], with the value it read; in the critical
    section. *)
Inductive lock_pc := Outside | Waiting | Reading | Writing (res : Z) | Holding.
#[export] Instance lock_pc_eq_dec : EqDecision lock_pc.
Proof. solve_decision. Defined.

(** The next access of a hart, and the lock word after it. *)
Definition lock_step (p : lock_pc) (lock : Z) : lock_pc * Z :=
  match p with
  | Outside => (Waiting, lock)
  | Waiting => (if lock =? 0 then Reading else Waiting, lock)
  | Reading => (Writing lock, lock)
  | Writing res => (if res =? 0 then Holding else Waiting, -1)
  | Holding => (Outside, 0)
  end.

(** All harts and the lock word. *)
Record lock_state := { harts : list lock_pc; lock_word : Z }.

Definition hart_step (i : nat) (s : lock_state) : lock_state :=
  match harts s !! i with
  | None => s
  | Some p => let '(p', l) := lock_step p (lock_word s) in {| harts := <[i := p']> (harts s); lock_word := l |}
  end.

(** A schedule is the order in which the harts take their steps. *)
Definition run_harts (sched : list nat) (s : lock_state) : lock_state := fold_left (fun s i => hart_step i s) sched s.

Definition unlocked (n : nat) : lock_state := {| harts := replicate n Outside; lock_word := 0 |}.

(** * Properties *)

(** The schedule does not separate the read and the write of a swap. *)
Fixpoint swaps_whole (sched : list nat) (s : lock_state) : Prop :=
  match sched with
  | [] => True
  | i :: sched' => (forall j res, harts s !! j = Some (Writing res) -> j = i) /\ swaps_whole sched' (hart_step i s)
  end.

(** The lock word tells whether a hart is inside, and there is at most one. *)
Record lock_inv (s : lock_state) : Prop := {
  li_word : lock_word s = 0 \/ lock_word s = -1;
  li_free i : lock_word s = 0 -> harts s !! i <> Some Holding;
  li_held : lock_word s = -1 -> exists i, harts s !! i = Some Holding;
  li_one i j : harts s !! i = Some Holding -> harts s !! j = Some Holding -> i = j;
  li_swap i res : harts s !! i = Some (Writing res) -> res = lock_word s;
}.

Lemma unlocked_inv n : lock_inv (unlocked n).
Proof.
  assert (forall i p, harts (unlocked n) !! i = Some p -> p = Outside) as H by (by intros i p [-> _]%lookup_replicate).
  split; cbn [lock_word unlocked].
  - by left.
  - by intros i _ E%H.
  - done.
  - by intros i j E%H.
  - by intros i res E%H.
Qed.

(** A hart after a step of another or the same hart. *)
Lemma harts_insert s i p l j q :
  harts s !! i = Some p -> harts {| harts := <[i := q]> (harts s); lock_word := l |} !! j = if decide (i = j) then Some q else harts s !! j.
Proof.
  intros Hi. cbn. destruct (decide (i = j)) as [<-|]; [|by apply list_lookup_insert_ne].
  apply list_lookup_insert_eq. by eapply lookup_lt_Some.
Qed.

(** A step that neither enters nor leaves the critical section. *)
Lemma quiet_step s i p q :
  lock_inv s -> harts s !! i = Some p -> p <> Holding -> q <> Holding ->
  (forall res, q = Writing res -> res = lock_word s) ->
  lock_inv {| harts := <[i := q]> (harts s); lock_word := lock_word s |}.
Proof.
  intros [Hw Hf Hh Ho Hs] Hi Hp Hq Hr.
  assert (forall j, <[i := q]> (harts s) !! j = Some Holding <-> harts s !! j = Some Holding) as Hj.
  { intros j. pose proof (harts_insert s i p 0 j q Hi) as E. cbn in E. rewrite E. destruct (decide (i = j)) as [<-|]; [|done].
    split; intros; congruence. }
  split; cbn [lock_word harts].
  - done.
  - intros j Hl. rewrite Hj. by apply Hf.
  - intros Hl. destruct (Hh Hl) as [j E]. exists j. by apply Hj.
  - intros j j'. rewrite !Hj. apply Ho.
  - intros j res. pose proof (harts_insert s i p 0 j q Hi) as E. cbn in E. rewrite E.
    destruct (decide (i = j)) as [<-|]; [intros [= ->]; by apply Hr|apply Hs].
Qed.

(** When the word is [l] and hart [i] is the only one that can be inside or swapping. *)
Lemma sole_hart s i q l :
  (exists p, harts s !! i = Some p) -> (forall j p, harts s !! j = Some p -> j <> i -> p <> Holding /\ forall res, p <> Writing res) ->
  (forall res, q <> Writing res) -> (l = 0 /\ q <> Holding \/ l = -1 /\ q = Holding) ->
  lock_inv {| harts := <[i := q]> (harts s); lock_word := l |}.
Proof.
  intros [p Hi] Hoth Hq Hl. assert (forall j, <[i := q]> (harts s) !! j = if decide (i = j) then Some q else harts s !! j) as E
    by (intros j; exact (harts_insert s i p l j q Hi)).
  assert (forall j, <[i := q]> (harts s) !! j = Some Holding -> j = i /\ q = Holding) as Hh.
  { intros j. rewrite E. destruct (decide (i = j)) as [<-|]; [by intros [= ->]|]. intros Hj. by destruct (Hoth j _ Hj). }
  split; cbn [lock_word harts].
  - destruct Hl as [[? _]|[? _]]; auto.
  - intros j H0 Hj. destruct (Hh j Hj). destruct Hl as [[_ ?]|[? _]]; [done|lia].
  - intros H1. exists i. destruct Hl as [[? _]|[_ ->]]; [lia|]. rewrite E. by rewrite decide_True.
  - intros j j' Hj Hj'. destruct (Hh j Hj), (Hh j' Hj'). congruence.
  - intros j res. rewrite E. destruct (decide (i = j)) as [<-|]; [intros [= ->]; by destruct (Hq res)|].
    intros Hj. by destruct (proj2 (Hoth j _ Hj ltac:(done)) res).
Qed.

Lemma hart_step_inv i s :
  lock_inv s -> (forall j res, harts s !! j = Some (Writing res) -> j = i) -> lock_inv (hart_step i s).
Proof.
  intros Hinv Hatom. pose proof Hinv as [Hw Hf Hh Ho Hs]. unfold hart_step.
  destruct (harts s !! i) as [p|] eqn:Hi; [|done]. destruct p as [| | |res|]; cbn [lock_step].
  - by apply (quiet_step s i Outside).
  - destruct (lock_word s =? 0); by apply (quiet_step s i Waiting).
  - apply (quiet_step s i Reading); try done. by intros res [= ->].
  - pose proof (Hs i res Hi) as ->. destruct (Z.eqb_spec (lock_word s) 0) as [E|E].
    + apply sole_hart; [by eexists| |done|by right]. intros j q Hj Hne. split; [intros ->; by apply (Hf j E)|].
      intros r ->. apply Hne. by eapply Hatom.
    + destruct Hw as [?|Hw]; [done|]. pose proof (quiet_step s i _ Waiting Hinv Hi) as H. rewrite Hw in H at 2. by apply H.
  - apply sole_hart; [by eexists| |done|by left]. intros j q Hj Hne. split; [intros ->; apply Hne; by eapply Ho|].
    intros r ->. apply Hne. by eapply Hatom.
Qed.

Lemma run_harts_inv sched : forall s, lock_inv s -> swaps_whole sched s -> lock_inv (run_harts sched s).
Proof.
  induction sched as [|i sched IH]; intros s Hs Hw; [done|]. destruct Hw as [Hi Hw].
  apply (IH (hart_step i s)); [by apply hart_step_inv|done].
Qed.

(** As long as no other hart comes between the read and the write of a swap, the lock
    excludes and is not lost. *)
Lemma spinlock_mutex (n : nat) (sched : list nat) :
  swaps_whole sched (unlocked n) ->
  let s := run_harts sched (unlocked n) in
  (forall i j, harts s !! i = Some Holding -> harts s !! j = Some Holding -> i = j) /\
  (lock_word s = 0 <-> forall i, harts s !! i <> Some Holding).
Proof.
  intros Hw s. pose proof (run_harts_inv sched _ (unlocked_inv n) Hw) as [H1 H2 H3 H4 _]. fold s in H1, H2, H3, H4.
  split; [done|]. split; [intros H0 i; by apply H2|]. intros Hn. destruct H1 as [?|E]; [done|].
  destruct (H3 E) as [i Hi]. by destruct (Hn i).
Qed.

(** Harts that wait for a lock nobody holds. *)
Definition stuck (s : lock_state) : Prop :=
  lock_word s = -1 /\ forall i p, harts s !! i = Some p -> p = Outside \/ p = Waiting.

Lemma stuck_step i s : stuck s -> stuck (hart_step i s).
Proof.
  intros [Hl Hp]. unfold hart_step. destruct (harts s !! i) as [p|] eqn:Hi; [|by split].
  destruct (Hp i p Hi) as [-> | ->]; cbn [lock_step]; rewrite Hl; split; try done; intros j q;
    rewrite (harts_insert s i _ _ j _ Hi); (destruct (decide (i = j)); [intros [= <-]; by right|apply Hp]).
Qed.

Lemma stuck_run sched : forall s, stuck s -> stuck (run_harts sched s).
Proof. induction sched as [|i sched IH]; intros s Hs; [done|]. apply (IH (hart_step i s)). by apply stuck_step. Qed.

(** With two harts that take turns in the middle of a swap both fail. *)
Lemma spinlock_race :
  (exists sched, harts (run_harts sched (unlocked 2)) = [Holding; Holding]) /\
  (exists sched, let s := run_harts sched (unlocked 2) in
     harts s = [Outside; Waiting] /\ forall sched' i, harts (run_harts sched' s) !! i <> Some Holding).
Proof.
  split.
  - by exists [0; 1; 0; 1; 0; 1; 0; 1]%nat.
  - exists [0; 1; 0; 1; 0; 0; 1; 0; 1]%nat. split; [reflexivity|]. intros sched' i.
    assert (stuck (run_harts [0; 1; 0; 1; 0; 0; 1; 0; 1]%nat (unlocked 2))) as Hs.
    { split; [reflexivity|]. intros [|[|j]] p Hp; cbn in Hp; simplify_eq; auto. }
    intros Hi. by destruct (proj2 (stuck_run sched' _ Hs) i _ Hi).
Qed.

(** C33.  The spinlock is correct exactly as far as its swap is atomic.  As long as no
    other hart comes between the read and the write of a swap, two harts are never in the
    critical section together, and the lock word is 0 exactly when none is.  The swap of
    the code is a read and a write, and with two harts both things the lock must exclude
    happen: both harts enter the critical section; and an unlock between the read and the
    write of a waiting hart is overwritten, after which no hart enters it ever again. *)
Theorem spinlock_spec :
  (forall (n : nat) (sched : list nat), swaps_whole sched (unlocked n) ->
     let s := run_harts sched (unlocked n) in
     (forall i j, harts s !! i = Some Holding -> harts s !! j = Some Holding -> i = j) /\
     (lock_word s = 0 <-> forall i, harts s !! i <> Some Holding)) /\
  (exists sched, harts (run_harts sched (unlocked 2)) = [Holding; Holding]) /\
  (exists sched, let s := run_harts sched (unlocked 2) in
     harts s = [Outside; Waiting] /\ forall sched' i, harts (run_harts sched' s) !! i <> Some Holding).
Proof. split; [exact spinlock_mutex|exact spinlock_race]. Qed.

(** Hart 0 takes the lock, hart 1 waits. *)
Lemma spinlock_spec_witness :
  let s := run_harts [0; 1; 0; 0; 0; 1]%nat (unlocked 2) in
  harts s = [Holding; Waiting] /\ (lock_word s = 0 <-> forall i, harts s !! i <> Some Holding).
Proof.
  split; [reflexivity|]. apply (proj1 spinlock_spec 2%nat [0; 1; 0; 0; 0; 1]%nat).
  cbn. repeat split; try (intros [|[|j]] res Hj; cbn in Hj; congruence || done).
Defined.
