(* ===== verification/Barrier.v ===== *)
(** kernel/sync_utils.h: the barrier that harts pass together.  The harts take turns at every
    access to the counter. *)

From stdpp Require Import relations.
From S2P Require Import Prelude.

(** Where a hart is in [sync_barrier]. *)
Inductive barrier_pc := Arriving | Spinning | Passed.

Record barrier := { counter : Z; b_harts : list barrier_pc }.
#[export] Instance eta_barrier : Eta barrier := fun b => Build_barrier (counter b) (b_harts b).

Section barrier.
(** [all], an [int]. *)
Context (all : Z).

(** [amoadd.w] returns the counter as it was and adds one; [lw] reads it again. *)
Definition sync_barrier (i : nat) (b : barrier) : option barrier :=
  match b_harts b !! i with
  | Some Arriving =>
      let local := counter b in
      let b' := b <| counter := i32 (counter b + 1) |> in
      Some (b' <| b_harts := <[i := if i32 (local + 1) <? all then Spinning else Passed]> (b_harts b) |>)
  | Some Spinning =>
      let local := counter b in
      Some (b <| b_harts := <[i := if local <? all then Spinning else Passed]> (b_harts b) |>)
  | Some Passed | None => None
  end.

Definition barrier_step (b b' : barrier) : Prop := exists i, sync_barrier i b = Some b'.
End barrier.

Definition at_barrier (n : nat) : barrier := {| counter := 0; b_harts := replicate n Arriving |}.

Definition has_arrived (p : barrier_pc) : nat := match p with Arriving => 0 | _ => 1 end.
Fixpoint arrived (l : list barrier_pc) : nat :=
  match l with [] => 0 | p :: l' => has_arrived p + arrived l' end.

Lemma arrived_insert l i p q : l !! i = Some p -> (arrived (<[i := q]> l) + has_arrived p = arrived l + has_arrived q)%nat.
Proof.
  revert i. induction l as [|x l IH]; intros [|i] H; [done..| |].
  - injection H as ->. change (<[0%nat := q]> (p :: l)) with (q :: l). cbn [arrived]. lia.
  - change (<[S i := q]> (x :: l)) with (x :: <[i := q]> l). cbn [arrived]. specialize (IH i H). lia.
Qed.

Lemma arrived_le l : (arrived l <= length l)%nat.
Proof. induction l as [|[] l IH]; cbn; lia. Qed.

Lemma arrived_all l i : arrived l = length l -> l !! i <> Some Arriving.
Proof.
  revert i. induction l as [|x l IH]; intros [|i] H; cbn in *; [done..| |];
    pose proof (arrived_le l); destruct x; cbn in *; try lia; try done; apply IH; lia.
Qed.

Lemma arrived_start n : arrived (replicate n Arriving) = 0%nat.
Proof. induction n; [done|exact IHn]. Qed.

(** The counter is the number of the harts that have arrived, and none is past before all
    have. *)
Record barrier_inv (n : nat) (b : barrier) : Prop := {
  bi_harts : length (b_harts b) = n;
  bi_counter : counter b = Z.of_nat (arrived (b_harts b));
  bi_passed i : b_harts b !! i = Some Passed -> arrived (b_harts b) = n }.

Section inv.
Context (n : nat).
Hypothesis small : Z.of_nat n < 2147483648.

Lemma barrier_start : barrier_inv n (at_barrier n).
Proof.
  split; cbn; [apply length_replicate|by rewrite arrived_start|].
  intros i Hi. by apply lookup_replicate in Hi as [? _].
Qed.

Lemma barrier_inv_step b b' : barrier_inv n b -> barrier_step (Z.of_nat n) b b' -> barrier_inv n b'.
Proof.
  intros [Hl Hc Hp] [i Hs]. unfold sync_barrier in Hs. pose proof (arrived_le (b_harts b)) as Hle.
  destruct (b_harts b !! i) as [[| |]|] eqn:Ei; simplify_eq.
  - pose proof (arrived_insert _ i _ Passed Ei) as Ha. pose proof (arrived_le (<[i := Passed]> (b_harts b))) as Hle'.
    rewrite length_insert in Hle'. cbn [has_arrived] in Ha.
    split; cbn [counter b_harts upd eta_barrier]; rewrite (i32_small (counter b + 1)) by lia.
    all: set (q := if _ <? _ then Spinning else Passed).
    all: assert (arrived (<[i := q]> (b_harts b)) = S (arrived (b_harts b))) as Eq
      by (pose proof (arrived_insert _ i _ q Ei) as Hq; unfold q in *; destruct (_ <? _); cbn [has_arrived] in Hq; lia).
    + apply length_insert.
    + rewrite Eq. lia.
    + intros j Hj. rewrite Eq. destruct (decide (i = j)) as [<-|Hne].
      * rewrite list_lookup_insert_eq in Hj by (by eapply lookup_lt_Some). unfold q in Hj.
        destruct (Z.ltb_spec (counter b + 1) (Z.of_nat (length (b_harts b)))); [done|lia].
      * rewrite list_lookup_insert_ne in Hj by done. apply Hp in Hj. lia.
  - pose proof (arrived_insert _ i _ (if counter b <? Z.of_nat (length (b_harts b)) then Spinning else Passed) Ei) as Ha.
    assert (has_arrived (if counter b <? Z.of_nat (length (b_harts b)) then Spinning else Passed) = 1%nat) as E1 by (by case_if).
    rewrite E1 in Ha. cbn [has_arrived] in Ha. split; cbn [counter b_harts upd eta_barrier].
    + apply length_insert.
    + lia.
    + intros j Hj. destruct (decide (i = j)) as [<-|Hne].
      * rewrite list_lookup_insert_eq in Hj by (by eapply lookup_lt_Some). destruct (Z.ltb_spec (counter b) (Z.of_nat (length (b_harts b)))); [done|lia].
      * rewrite list_lookup_insert_ne in Hj by done. apply Hp in Hj. lia.
Qed.

Lemma barrier_reachable b : rtc (barrier_step (Z.of_nat n)) (at_barrier n) b -> barrier_inv n b.
Proof. intros H. apply (rtc_ind_r _ (at_barrier n)) with (1 := barrier_start) (3 := H). eauto using barrier_inv_step. Qed.
End inv.

(** [sync_barrier] on a counter that starts at 0, called by as many harts as it waits for:
    however they interleave, no hart is past the barrier before each has arrived; once all
    have, the next look at the counter takes a waiting hart past it; and a hart that is not
    past can always go on. *)
Theorem sync_barrier_spec (n : nat) (b : barrier) :
  Z.of_nat n < 2147483648 -> rtc (barrier_step (Z.of_nat n)) (at_barrier n) b ->
  (forall i j, b_harts b !! i = Some Passed -> b_harts b !! j <> Some Arriving) /\
  (arrived (b_harts b) = n -> forall i, b_harts b !! i = Some Spinning ->
    exists b', sync_barrier (Z.of_nat n) i b = Some b' /\ b_harts b' !! i = Some Passed) /\
  (forall i p, b_harts b !! i = Some p -> p <> Passed -> exists b', sync_barrier (Z.of_nat n) i b = Some b').
Proof.
  intros Hn Hr. pose proof (barrier_reachable n Hn b Hr) as [Hl Hc Hp]. split_and!.
  - intros i j Hi. apply arrived_all. rewrite Hl. by eapply Hp.
  - intros Ha i Hi. unfold sync_barrier. rewrite Hi. eexists. split; [done|]. cbn [b_harts upd eta_barrier].
    rewrite list_lookup_insert_eq by (by eapply lookup_lt_Some). destruct (Z.ltb_spec (counter b) (Z.of_nat n)); [lia|done].
  - intros i p Hi Hne. unfold sync_barrier. rewrite Hi. destruct p; [by eexists..|done].
Qed.

(** Two harts: the first waits for the second. *)
Example sync_barrier_two :
  (b1 ← sync_barrier 2 0 (at_barrier 2); b2 ← sync_barrier 2 0 b1; b3 ← sync_barrier 2 1 b2; b4 ← sync_barrier 2 0 b3;
   Some (b_harts b2, b_harts b3, b_harts b4)) = Some ([Spinning; Arriving], [Spinning; Passed], [Passed; Passed]).
Proof. reflexivity. Qed.
