(* ===== verification/Semaphore.v ===== *)
(** The counting semaphore of kernel/sched.c as a value: the counter [sems[sem]] and the
    processes in [waiting_queue[sem]], in order.  [Sched] proves that [__acquire] and
    [__release] do to the arrays and the linked queues of the kernel what [sem_down] and [sem_up]
    do to such a value; the programs that synchronise with semaphores are modelled with the
    values. *)

From S2P Require Import Prelude.

Section semaphore.
Context {A : Type}.

(** [__acquire]: the counter goes down first, and a caller that finds it below zero waits
    behind the others.  The boolean says whether the caller goes on. *)
Definition sem_down (x : A) (s : Z * list A) : bool * (Z * list A) :=
  let v := fst s - 1 in
  if v <? 0 then (false, (v, snd s ++ [x])) else (true, (v, snd s)).

(** [__release]: the counter goes up first, and when it is not above zero the first waiter is
    taken from the queue.  [None] when nobody is woken. *)
Definition sem_up (s : Z * list A) : option A * (Z * list A) :=
  let v := fst s + 1 in
  if v <=? 0 then match snd s with x :: l => (Some x, (v, l)) | [] => (None, (v, [])) end
  else (None, (v, snd s)).

(** Below zero the counter is the number of waiters. *)
Definition sem_ok (s : Z * list A) : Prop := Z.of_nat (length (snd s)) = Z.max 0 (- fst s).

Lemma sem_down_ok x s : sem_ok s -> sem_ok (snd (sem_down x s)) /\ (fst (sem_down x s) = true <-> 0 < fst s).
Proof.
  unfold sem_ok, sem_down. intros H. destruct (Z.ltb_spec (fst s - 1) 0); cbn [fst snd]; rewrite ?length_app; cbn [length];
    (split; [lia|]); split; done || lia.
Qed.

Lemma sem_up_ok s : sem_ok s -> sem_ok (snd (sem_up s)) /\ fst (sem_up s) = head (snd s).
Proof.
  unfold sem_ok, sem_up. intros H. destruct s as [v [|x l]]; cbn [fst snd length] in *;
    destruct (Z.leb_spec (v + 1) 0); cbn [fst snd length head]; (split; [lia|done]) || lia.
Qed.
End semaphore.
