(* ===== verification/Mem.v ===== *)
(** Byte-addressed physical memory: little-endian loads and stores and the
    frame lemmas the page allocator, the page tables and the heap rely on. *)

From S2P Require Import Prelude.

(** Memory maps an address to a byte; an address that was never written reads
    as zero.  All reads go through [load8], so two memories that agree on every
    [load8] are interchangeable. *)
Abbreviation mem := (gmap Z Z).

Definition load8 (m : mem) (a : Z) : Z := u8 (default 0 (m !! a)).
Definition store8 (m : mem) (a v : Z) : mem := <[a := u8 v]> m.

Fixpoint load_le (n : nat) (m : mem) (a : Z) : Z :=
  match n with
  | O => 0
  | S n' => load8 m a + 256 * load_le n' m (a + 1)
  end.

Fixpoint store_le (n : nat) (m : mem) (a v : Z) : mem :=
  match n with
  | O => m
  | S n' => store_le n' (store8 m a v) (a + 1) (v / 256)
  end.

Definition load64 (m : mem) (a : Z) : Z := load_le 8 m a.
Definition store64 (m : mem) (a v : Z) : mem := store_le 8 m a v.
Definition load32 (m : mem) (a : Z) : Z := load_le 4 m a.
Definition store32 (m : mem) (a v : Z) : mem := store_le 4 m a v.

Arguments load8 : simpl never.
Arguments store8 : simpl never.
Arguments load64 : simpl never.
Arguments store64 : simpl never.
Arguments load32 : simpl never.
Arguments store32 : simpl never.

(** The bytes [l] from [a] on. *)
Fixpoint store_bytes (m : mem) (a : Z) (l : list Z) : mem :=
  match l with [] => m | c :: l' => store_bytes (store8 m a c) (a + 1) l' end.

(** Physical memory ends at PHYS_TOP (kernel/config.h) and starts at DRAM_BASE
    (kernel/memlayout.h); the kernel reaches nothing else. *)
Definition DRAM_BASE : Z := 2147483648.
Definition PHYS_TOP : Z := DRAM_BASE + 128 * 1024 * 1024.

Definition in_dram (a n : Z) : bool := (DRAM_BASE <=? a) && (a + n <=? PHYS_TOP).

(** * Observational equality of memories *)

#[export] Instance mem_equiv : Equiv mem := fun m m' => forall a, load8 m a = load8 m' a.

#[export] Instance mem_equivalence : Equivalence (≡@{mem}).
Proof.
  split.
  - intros m a. done.
  - intros m m' E a. done.
  - intros m1 m2 m3 E1 E2 a. by rewrite E1.
Qed.

Lemma u8_u8 v : u8 (u8 v) = u8 v.
Proof. apply Z.mod_mod. lia. Qed.

Lemma load8_range m a : 0 <= load8 m a < 256.
Proof. by apply Z.mod_pos_bound. Qed.

Lemma load8_store8_eq m a v : load8 (store8 m a v) a = u8 v.
Proof. unfold load8, store8. rewrite lookup_insert_eq. apply u8_u8. Qed.

Lemma load8_store8_ne m a b v : a <> b -> load8 (store8 m b v) a = load8 m a.
Proof. intros. unfold load8, store8. by rewrite lookup_insert_ne. Qed.

Lemma load8_store8 m a b v :
  load8 (store8 m b v) a = if a =? b then u8 v else load8 m a.
Proof.
  destruct (Z.eqb_spec a b) as [->|]; [apply load8_store8_eq|by apply load8_store8_ne].
Qed.

#[export] Instance load8_proper : Proper ((≡@{mem}) ==> eq ==> eq) load8.
Proof. intros m m' E a ? <-. apply E. Qed.

#[export] Instance store8_proper : Proper ((≡@{mem}) ==> eq ==> eq ==> (≡@{mem})) store8.
Proof. intros m m' E a ? <- v ? <- b. by rewrite !load8_store8, (E b). Qed.

(** * Multi-byte accesses *)

Lemma load_le_ext n m m' a :
  (forall i, a <= i < a + Z.of_nat n -> load8 m i = load8 m' i) ->
  load_le n m a = load_le n m' a.
Proof.
  revert a. induction n as [|n IH]; intros a H; [done|]. cbn [load_le].
  rewrite (H a), (IH (a + 1)); [done| |lia]. intros. apply H. lia.
Qed.

#[export] Instance load_le_proper n : Proper ((≡@{mem}) ==> eq ==> eq) (load_le n).
Proof. intros m m' E a ? <-. apply load_le_ext. intros. apply E. Qed.

Lemma load_le_range n m a : 0 <= load_le n m a < 256 ^ Z.of_nat n.
Proof.
  revert a. induction n as [|n IH]; intros a; [simpl; lia|]. cbn [load_le].
  pose proof (load8_range m a). specialize (IH (a + 1)).
  rewrite Nat2Z.inj_succ, Z.pow_succ_r by lia. lia.
Qed.

Lemma load8_store_le_out n m b v a :
  a < b \/ b + Z.of_nat n <= a -> load8 (store_le n m b v) a = load8 m a.
Proof.
  revert m b v. induction n as [|n IH]; intros m b v H; [done|]. cbn [store_le].
  rewrite IH by lia. apply load8_store8_ne. lia.
Qed.

Lemma load_le_store_le_ne n k m a b v :
  a + Z.of_nat n <= b \/ b + Z.of_nat k <= a ->
  load_le n (store_le k m b v) a = load_le n m a.
Proof. intros. apply load_le_ext. intros. apply load8_store_le_out. lia. Qed.

Lemma load_le_store_le_eq n m a v :
  load_le n (store_le n m a v) a = v mod 256 ^ Z.of_nat n.
Proof.
  revert m a v. induction n as [|n IH]; intros m a v.
  - simpl. by rewrite Z.mod_1_r.
  - cbn [load_le store_le]. rewrite IH, load8_store_le_out by lia.
    rewrite load8_store8_eq. unfold u8.
    rewrite Nat2Z.inj_succ, Z.pow_succ_r by lia.
    rewrite (Z.mul_comm 256 (256 ^ _)).
    rewrite (Z.mul_comm (256 ^ _) 256), Z.rem_mul_r by lia. lia.
Qed.

Lemma load64_range m a : 0 <= load64 m a < 18446744073709551616.
Proof. apply (load_le_range 8). Qed.

Lemma load64_store64_eq m a v : load64 (store64 m a v) a = u64 v.
Proof. apply (load_le_store_le_eq 8). Qed.

Lemma load64_store64_ne m a b v :
  a + 8 <= b \/ b + 8 <= a -> load64 (store64 m b v) a = load64 m a.
Proof. intros. apply load_le_store_le_ne. lia. Qed.

Lemma load64_ext m m' a :
  (forall i, a <= i < a + 8 -> load8 m i = load8 m' i) -> load64 m a = load64 m' a.
Proof. intros. apply load_le_ext. intros. apply H. lia. Qed.

(** * Framing *)

(** [unchanged_outside lo hi m m'] : the two memories agree off [lo, hi). *)
Definition unchanged_outside (lo hi : Z) (m m' : mem) : Prop :=
  forall a, a < lo \/ hi <= a -> load8 m' a = load8 m a.

Lemma unchanged_refl lo hi m : unchanged_outside lo hi m m.
Proof. intros a _. done. Qed.

Lemma unchanged_trans lo hi m1 m2 m3 :
  unchanged_outside lo hi m1 m2 -> unchanged_outside lo hi m2 m3 ->
  unchanged_outside lo hi m1 m3.
Proof. intros H1 H2 a Ha. by rewrite H2, H1. Qed.

Lemma unchanged_mono lo hi lo' hi' m m' :
  lo' <= lo -> hi <= hi' ->
  unchanged_outside lo hi m m' -> unchanged_outside lo' hi' m m'.
Proof. intros ?? H a ?. apply H. lia. Qed.

Lemma unchanged_store8 m a v : unchanged_outside a (a + 1) m (store8 m a v).
Proof. intros b ?. apply load8_store8_ne. lia. Qed.

Lemma unchanged_store64 m a v : unchanged_outside a (a + 8) m (store64 m a v).
Proof. intros b ?. apply load8_store_le_out. lia. Qed.

Lemma unchanged_load64 lo hi m m' a :
  unchanged_outside lo hi m m' -> a + 8 <= lo \/ hi <= a -> load64 m' a = load64 m a.
Proof. intros H ?. apply load64_ext. intros. apply H. lia. Qed.

Lemma store_bytes_unchanged l m a : unchanged_outside a (a + Z.of_nat (length l)) m (store_bytes m a l).
Proof.
  revert m a. induction l as [|c l IH]; intros m a; [intros b _; done|]. cbn [store_bytes length].
  eapply unchanged_trans; eapply unchanged_mono; [| |apply unchanged_store8| | |apply IH]; lia.
Qed.

Lemma load8_store_bytes l m a i c :
  l !! i = Some c -> load8 (store_bytes m a l) (a + Z.of_nat i) = u8 c.
Proof.
  revert m a i. induction l as [|d l IH]; intros m a i Hi; [done|]. cbn [store_bytes]. destruct i as [|i]; cbn in Hi.
  - simplify_eq. rewrite Z.add_0_r, (store_bytes_unchanged l _ (a + 1)) by lia. apply load8_store8_eq.
  - rewrite <- (IH (store8 m a d) (a + 1) i Hi). f_equal. lia.
Qed.

#[export] Hint Resolve load8_range load64_range unchanged_refl unchanged_store8
  unchanged_store64 : kernel.
