(* ===== verification/CString.v ===== *)
(** util/string.c: the memory and string routines, on byte-addressed memory.
    Loops that a terminating NUL ends take fuel and return [None] when it runs
    out; loops that a length bounds take that length as their fuel. *)

From S2P Require Import Prelude Mem.

(** * Block operations *)

Fixpoint memset_words (fuel : nat) (m : mem) (d e word : Z) : mem :=
  match fuel with
  | O => m
  | S f => if d <? e then memset_words f (store64 m d word) (d + 8) e word else m
  end.

Fixpoint memset_bytes (fuel : nat) (m : mem) (d e byte : Z) : mem :=
  match fuel with
  | O => m
  | S f => if d <? e then memset_bytes f (store8 m d byte) (d + 1) e byte else m
  end.

(** The byte replicated over a 64-bit word. *)
Definition memset_word (byte : Z) : Z :=
  let word := Z.land byte 255 in
  let word := Z.lor word (u64 (Z.shiftl word 8)) in
  let word := Z.lor word (u64 (Z.shiftl word 16)) in
  Z.lor word (u64 (Z.shiftl (u64 (Z.shiftl word 16)) 16)).

Definition memset (m : mem) (dest byte len : Z) : mem :=
  if Z.land (Z.lor dest len) 7 =? 0
  then memset_words (Z.to_nat len) m dest (dest + len) (memset_word byte)
  else memset_bytes (Z.to_nat len) m dest (dest + len) byte.

Fixpoint memcpy_words (fuel : nat) (m : mem) (d s e : Z) : mem * Z * Z :=
  match fuel with
  | O => (m, d, s)
  | S f =>
      if d <? e then memcpy_words f (store64 m d (load64 m s)) (d + 8) (s + 8) e
      else (m, d, s)
  end.

Fixpoint memcpy_bytes (fuel : nat) (m : mem) (d s e : Z) : mem :=
  match fuel with
  | O => m
  | S f => if d <? e then memcpy_bytes f (store8 m d (load8 m s)) (d + 1) (s + 1) e else m
  end.

Definition memcpy (m : mem) (dest src len : Z) : mem :=
  let '(m1, d, s) :=
    if Z.land (Z.lor dest src) 7 =? 0
    then memcpy_words (Z.to_nat len) m dest src (dest + len - 7)
    else (m, dest, src) in
  memcpy_bytes (Z.to_nat len) m1 d s (dest + len).

Fixpoint memmove_down (n : nat) (m : mem) (d s : Z) : mem :=
  match n with
  | O => m
  | S n' => memmove_down n' (store8 m (d - 1) (load8 m (s - 1))) (d - 1) (s - 1)
  end.

Fixpoint memmove_up (n : nat) (m : mem) (d s : Z) : mem :=
  match n with
  | O => m
  | S n' => memmove_up n' (store8 m d (load8 m s)) (d + 1) (s + 1)
  end.

Definition memmove (m : mem) (dst src n : Z) : mem :=
  if (src <? dst) && (dst <? src + n)
  then memmove_down (Z.to_nat n) m (dst + n) (src + n)
  else memmove_up (Z.to_nat n) m dst src.

(** * NUL-terminated strings *)

Fixpoint strlen_from (fuel : nat) (m : mem) (p : Z) : option Z :=
  match fuel with
  | O => None
  | S f => if load8 m p =? 0 then Some p else strlen_from f m (p + 1)
  end.

Definition strlen (fuel : nat) (m : mem) (s : Z) : option Z :=
  p ← strlen_from fuel m s; Some (p - s).

Fixpoint strcmp (fuel : nat) (m : mem) (s1 s2 : Z) : option Z :=
  match fuel with
  | O => None
  | S f =>
      let c1 := load8 m s1 in
      let c2 := load8 m s2 in
      if negb (c1 =? 0) && (c1 =? c2) then strcmp f m (s1 + 1) (s2 + 1)
      else Some (c1 - c2)
  end.

Fixpoint strncmp (n : nat) (m : mem) (s1 s2 : Z) : Z :=
  match n with
  | O => 0
  | S n' =>
      let c1 := load8 m s1 in
      let c2 := load8 m s2 in
      if (c1 =? 0) || negb (c1 =? c2) then c1 - c2
      else strncmp n' m (s1 + 1) (s2 + 1)
  end.

Fixpoint strcpy (fuel : nat) (m : mem) (dest src : Z) : option mem :=
  match fuel with
  | O => None
  | S f =>
      let c := load8 m src in
      let m' := store8 m dest c in
      if c =? 0 then Some m' else strcpy f m' (dest + 1) (src + 1)
  end.

Definition strcat (fuel : nat) (m : mem) (dst src : Z) : option mem :=
  n ← strlen fuel m dst; strcpy fuel m (dst + n) src.

(** [Some None] is the NULL result. *)
Fixpoint strchr (fuel : nat) (m : mem) (p ch : Z) : option (option Z) :=
  match fuel with
  | O => None
  | S f =>
      if load8 m p =? u8 ch then Some (Some p)
      else if load8 m p =? 0 then Some None
      else strchr f m (p + 1) ch
  end.

(** The two scanning loops of [strtok]: advance while the byte is not NUL and
    its membership in [delim] is [want]. *)
Fixpoint strtok_skip (fuel : nat) (want : bool) (m : mem) (p delim : Z) : option Z :=
  match fuel with
  | O => None
  | S f =>
      if load8 m p =? 0 then Some p
      else
        r ← strchr fuel m delim (load8 m p);
        if eqb (bool_decide (is_Some r)) want
        then strtok_skip f want m (p + 1) delim else Some p
  end.

(** [strtok] keeps its position in a static variable; the state is that
    variable ([None] for NULL) and the memory it writes terminators into. *)
Definition strtok (fuel : nat) (m : mem) (current str : option Z) (delim : Z)
    : option (mem * option Z * option Z) :=
  let current := match str with Some p => Some p | None => current end in
  match current with
  | None => Some (m, None, None)
  | Some c =>
      start ← strtok_skip fuel true m c delim;
      if load8 m start =? 0 then Some (m, None, None)
      else
        e ← strtok_skip fuel false m start delim;
        if load8 m e =? 0 then Some (m, None, Some start)
        else Some (store8 m e 0, Some (e + 1), Some start)
  end.

Fixpoint atol_skip (fuel : nat) (m : mem) (p : Z) : option Z :=
  match fuel with
  | O => None
  | S f => if load8 m p =? 32 then atol_skip f m (p + 1) else Some p
  end.

Fixpoint atol_digits (fuel : nat) (m : mem) (p res : Z) : option Z :=
  match fuel with
  | O => None
  | S f =>
      if load8 m p =? 0 then Some res
      else atol_digits f m (p + 1) (i64 (i64 (res * 10) + (load8 m p - 48)))
  end.

Definition atol (fuel : nat) (m : mem) (str : Z) : option Z :=
  p ← atol_skip fuel m str;
  let c := load8 m p in
  let signed := (c =? 45) || (c =? 43) in
  let sign := signed && (c =? 45) in
  res ← atol_digits fuel m (if signed then p + 1 else p) 0;
  Some (if sign then i64 (- res) else res).

Fixpoint safestrcpy_loop (n : nat) (m : mem) (s t : Z) : mem * Z :=
  match n with
  | O => (m, s)
  | S n' =>
      let c := load8 m t in
      let m' := store8 m s c in
      if c =? 0 then (m', s + 1) else safestrcpy_loop n' m' (s + 1) (t + 1)
  end.

Definition safestrcpy (m : mem) (s t n : Z) : mem :=
  if n <=? 0 then m
  else let '(m', s') := safestrcpy_loop (Z.to_nat (n - 1)) m s t in store8 m' s' 0.

(** * Block operations meet their specification *)

Lemma load8_store_le_in n m a v i :
  0 <= i < Z.of_nat n -> load8 (store_le n m a v) (a + i) = (v / 256 ^ i) mod 256.
Proof.
  revert m a v i. induction n as [|n IH]; intros m a v i Hi; [lia|]. cbn [store_le].
  destruct (decide (i = 0)) as [->|].
  - rewrite load8_store_le_out by lia. rewrite Z.add_0_r, load8_store8_eq.
    by rewrite Z.pow_0_r, Z.div_1_r.
  - replace (a + i) with (a + 1 + (i - 1)) by lia. rewrite IH by lia.
    rewrite Z.div_div by lia. do 2 f_equal.
    rewrite <-Z.pow_succ_r by lia. f_equal. lia.
Qed.

Lemma load8_store64_in m a v i :
  0 <= i < 8 -> load8 (store64 m a v) (a + i) = (v / 256 ^ i) mod 256.
Proof. apply (load8_store_le_in 8). Qed.

Lemma load_le_byte n m a i :
  0 <= i < Z.of_nat n -> (load_le n m a / 256 ^ i) mod 256 = load8 m (a + i).
Proof.
  revert a i. induction n as [|n IH]; intros a i Hi; [lia|]. cbn [load_le].
  pose proof (load8_range m a).
  destruct (decide (i = 0)) as [->|].
  - rewrite Z.pow_0_r, Z.div_1_r, Z.add_0_r, Z.mul_comm, Z_mod_plus_full.
    by apply Z.mod_small.
  - replace (256 ^ i) with (256 * 256 ^ (i - 1))
      by (rewrite <-Z.pow_succ_r by lia; f_equal; lia).
    rewrite <-Z.div_div by lia.
    replace ((load8 m a + 256 * load_le n m (a + 1)) / 256) with (load_le n m (a + 1)) by zdiv.
    rewrite IH by lia. f_equal. lia.
Qed.

Lemma memset_word_byte byte i :
  0 <= i < 8 -> (memset_word byte / 256 ^ i) mod 256 = u8 byte.
Proof.
  intros Hi.
  assert (Z.land byte 255 = u8 byte) as Eb.
  { change 255 with (Z.ones 8). by rewrite Z.land_ones. }
  assert (memset_word byte = memset_word (u8 byte)) as ->.
  { unfold memset_word. rewrite Eb. change 255 with (Z.ones 8).
    rewrite Z.land_ones by lia. change (2 ^ 8) with 256. fold (u8 (u8 byte)).
    by rewrite u8_u8. }
  assert (forallb (fun b => forallb (fun i =>
    (memset_word (Z.of_nat b) / 256 ^ Z.of_nat i) mod 256 =? Z.of_nat b)
    (seq 0 8)) (seq 0 256) = true) as Hall by (vm_compute; reflexivity).
  pose proof (Z.mod_pos_bound byte 256 ltac:(lia)) as Hb. fold (u8 byte) in Hb.
  rewrite forallb_forall in Hall. specialize (Hall (Z.to_nat (u8 byte))).
  rewrite forallb_forall in Hall.
  assert (In (Z.to_nat (u8 byte)) (seq 0 256)) as H1 by (apply in_seq; lia).
  specialize (Hall H1 (Z.to_nat i)).
  rewrite !Z2Nat.id in Hall by lia.
  apply Z.eqb_eq, Hall. apply in_seq. lia.
Qed.

Lemma memset_words_spec fuel m d e byte a :
  (e - d) mod 8 = 0 -> e - d <= Z.of_nat fuel ->
  load8 (memset_words fuel m d e (memset_word byte)) a =
  if (d <=? a) && (a <? e) then u8 byte else load8 m a.
Proof.
  revert m d. induction fuel as [|f IH]; intros m d Hm Hf; cbn [memset_words].
  - destruct (Z.leb_spec d a), (Z.ltb_spec a e); simpl; try done; lia.
  - destruct (Z.ltb_spec d e) as [Hlt|Hge].
    + assert (d + 8 <= e) by zdiv. rewrite IH; [|zdiv|lia].
      destruct (Z.leb_spec (d + 8) a), (Z.ltb_spec a e), (Z.leb_spec d a); simpl;
        try done; try lia; try (apply load8_store_le_out; lia).
      replace a with (d + (a - d)) by lia.
      rewrite load8_store64_in by lia. apply memset_word_byte. lia.
    + destruct (Z.leb_spec d a), (Z.ltb_spec a e); simpl; try done; lia.
Qed.

Lemma memset_bytes_spec fuel m d e byte a :
  e - d <= Z.of_nat fuel ->
  load8 (memset_bytes fuel m d e byte) a =
  if (d <=? a) && (a <? e) then u8 byte else load8 m a.
Proof.
  revert m d. induction fuel as [|f IH]; intros m d Hf; cbn [memset_bytes].
  - destruct (Z.leb_spec d a), (Z.ltb_spec a e); simpl; try done; lia.
  - destruct (Z.ltb_spec d e) as [Hlt|Hge].
    + rewrite IH by lia. rewrite load8_store8.
      destruct (Z.leb_spec (d + 1) a), (Z.ltb_spec a e), (Z.leb_spec d a),
        (Z.eqb_spec a d); simpl; try done; lia.
    + destruct (Z.leb_spec d a), (Z.ltb_spec a e); simpl; try done; lia.
Qed.

Lemma lor_land7 a b : Z.land (Z.lor a b) 7 = 0 -> a mod 8 = 0 /\ b mod 8 = 0.
Proof.
  change 7 with (Z.ones 3). rewrite Z.land_lor_distr_l. intros H.
  apply Z.lor_eq_0_iff in H as [H1 H2]. rewrite Z.land_ones in H1, H2 by lia. done.
Qed.

(** Both paths of [memset] write the byte to [dest, dest + len) and nothing else. *)
Lemma load8_memset m dest byte len a :
  0 <= len ->
  load8 (memset m dest byte len) a =
  if (dest <=? a) && (a <? dest + len) then u8 byte else load8 m a.
Proof.
  intros. unfold memset. destruct (Z.eqb_spec (Z.land (Z.lor dest len) 7) 0) as [E|_].
  - apply lor_land7 in E as [_ E]. apply memset_words_spec; [|lia].
    by replace (dest + len - dest) with len by lia.
  - apply memset_bytes_spec. lia.
Qed.

Lemma memset_unchanged m dest byte len :
  0 <= len -> unchanged_outside dest (dest + len) m (memset m dest byte len).
Proof.
  intros ? a Ha. rewrite load8_memset by lia.
  destruct (Z.leb_spec dest a), (Z.ltb_spec a (dest + len)); simpl; try done; lia.
Qed.

(** A zeroed block reads as zero words. *)
Lemma load64_memset_zero m dest len a :
  0 <= len -> dest <= a -> a + 8 <= dest + len -> load64 (memset m dest 0 len) a = 0.
Proof.
  intros. transitivity (load64 ∅ a); [|done]. apply load64_ext. intros.
  rewrite load8_memset by lia. change (load8 ∅ i) with 0.
  destruct (Z.leb_spec dest i), (Z.ltb_spec i (dest + len)); simpl; try done; lia.
Qed.

(** The bytes of [m'] on [d, d+n) are those of [m] on [s, s+n); the rest is kept. *)
Definition copied (m m' : mem) (d s n : Z) : Prop :=
  forall a, load8 m' a =
    if (d <=? a) && (a <? d + n) then load8 m (a - d + s) else load8 m a.

Ltac in_range :=
  repeat match goal with
  | |- context [?x <=? ?y] => destruct (Z.leb_spec x y)
  | |- context [?x <? ?y] => destruct (Z.ltb_spec x y)
  | |- context [?x =? ?y] => destruct (Z.eqb_spec x y)
  end; simpl; try lia; try done.

Lemma copied_0 m d s n : n <= 0 -> copied m m d s n.
Proof. intros ? a. in_range. Qed.

Lemma copied_step m m1 m2 d s k n :
  0 <= k -> d + n <= s \/ s + n <= d -> k <= n ->
  copied m m1 d s k -> copied m1 m2 (d + k) (s + k) (n - k) -> copied m m2 d s n.
Proof.
  intros ? Hdisj ? H1 H2 a. rewrite H2. in_range; rewrite H1; in_range; f_equal; lia.
Qed.

Lemma copied_store64 m d s : copied m (store64 m d (load64 m s)) d s 8.
Proof.
  intros a. destruct ((d <=? a) && (a <? d + 8)) eqn:E; bools.
  - replace a with (d + (a - d)) at 1 by lia. rewrite load8_store64_in by lia.
    unfold load64. rewrite load_le_byte by lia. f_equal. lia.
  - apply load8_store_le_out. apply andb_false_iff in E as [?|?]; bools; lia.
Qed.

Lemma copied_store8 m d s : copied m (store8 m d (load8 m s)) d s 1.
Proof.
  intros a. rewrite load8_store8. in_range.
  subst a. replace (d - d + s) with s by lia. unfold u8. apply Z.mod_small, load8_range.
Qed.

Lemma memcpy_bytes_spec fuel m d s e :
  e - d <= Z.of_nat fuel -> e <= s \/ s + (e - d) <= d ->
  copied m (memcpy_bytes fuel m d s e) d s (e - d).
Proof.
  revert m d s. induction fuel as [|f IH]; intros m d s Hf Hd; cbn [memcpy_bytes].
  - apply copied_0. lia.
  - destruct (Z.ltb_spec d e); [|apply copied_0; lia].
    apply (copied_step m (store8 m d (load8 m s)) _ d s 1); try lia; [apply copied_store8|].
    replace (e - d - 1) with (e - (d + 1)) by lia. apply IH; lia.
Qed.

Lemma memcpy_words_spec fuel m d s e :
  e + 7 - d <= Z.of_nat fuel -> e + 7 <= s \/ s + (e + 7 - d) <= d ->
  exists k, 0 <= k <= Z.max 0 (e + 7 - d) /\
    let '(m', d', s') := memcpy_words fuel m d s e in
    d' = d + k /\ s' = s + k /\ copied m m' d s k.
Proof.
  revert m d s. induction fuel as [|f IH]; intros m d s Hf Hd; cbn [memcpy_words].
  - exists 0. repeat split; try lia. apply copied_0. lia.
  - destruct (Z.ltb_spec d e).
    + destruct (IH (store64 m d (load64 m s)) (d + 8) (s + 8)) as (k & Hk & IHk); [lia..|].
      destruct (memcpy_words f _ _ _ _) as [[m' d'] s']. destruct IHk as (-> & -> & Hc).
      exists (k + 8). repeat split; try lia.
      apply (copied_step m (store64 m d (load64 m s)) m' d s 8); try lia;
        [apply copied_store64|]. by replace (k + 8 - 8) with k by lia.
    + exists 0. repeat split; try lia. apply copied_0. lia.
Qed.

(** [memcpy] copies disjoint blocks, whichever mix of words and bytes it uses. *)
Lemma memcpy_spec m dest src len :
  0 <= len -> dest + len <= src \/ src + len <= dest ->
  copied m (memcpy m dest src len) dest src len.
Proof.
  intros Hl Hd. unfold memcpy.
  destruct (Z.land (Z.lor dest src) 7 =? 0).
  - destruct (memcpy_words_spec (Z.to_nat len) m dest src (dest + len - 7))
      as (k & Hk & Hw); [lia..|].
    destruct (memcpy_words _ _ _ _ _) as [[m1 d] s]. destruct Hw as (-> & -> & Hc).
    apply (copied_step m m1 _ dest src k); [lia..|done|].
    replace (len - k) with (dest + len - (dest + k)) by lia.
    apply memcpy_bytes_spec; lia.
  - pose proof (memcpy_bytes_spec (Z.to_nat len) m dest src (dest + len)) as H.
    replace (dest + len - dest) with len in H by lia. apply H; lia.
Qed.

Lemma memmove_up_spec n m d s :
  d <= s \/ s + Z.of_nat n <= d -> copied m (memmove_up n m d s) d s (Z.of_nat n).
Proof.
  revert m d s. induction n as [|n IH]; intros m d s Hd; cbn [memmove_up].
  - apply copied_0. lia.
  - assert (d = s \/ d < s \/ s + Z.of_nat (S n) <= d) as Hc by lia.
    intros a. rewrite (IH (store8 m d (load8 m s)) (d + 1) (s + 1) ltac:(lia)).
    pose proof (copied_store8 m d s) as H1.
    in_range; rewrite H1; in_range; f_equal; lia.
Qed.

Lemma memmove_down_spec n m d s :
  s <= d -> copied m (memmove_down n m (d + Z.of_nat n) (s + Z.of_nat n)) d s (Z.of_nat n).
Proof.
  revert m. induction n as [|n IH]; intros m Hd; cbn [memmove_down].
  - apply copied_0. lia.
  - replace (d + Z.of_nat (S n) - 1) with (d + Z.of_nat n) by lia.
    replace (s + Z.of_nat (S n) - 1) with (s + Z.of_nat n) by lia.
    intros a. rewrite IH by done.
    pose proof (copied_store8 m (d + Z.of_nat n) (s + Z.of_nat n)) as H1.
    in_range; rewrite H1; in_range; f_equal; lia.
Qed.

(** [memmove] copies correctly however source and destination overlap. *)
Lemma memmove_spec m dst src n : 0 <= n -> copied m (memmove m dst src n) dst src n.
Proof.
  intros Hn. unfold memmove. destruct ((src <? dst) && (dst <? src + n)) eqn:E; bools.
  - pose proof (memmove_down_spec (Z.to_nat n) m dst src) as Hspec.
    rewrite Z2Nat.id in Hspec by done. apply Hspec. lia.
  - pose proof (memmove_up_spec (Z.to_nat n) m dst src) as Hspec.
    rewrite Z2Nat.id in Hspec by done. apply Hspec.
    apply andb_false_iff in E as [?|?]; bools; lia.
Qed.

(** * NUL-terminated strings meet their specification *)

(** [cstr m p l]: the string at [p] is the list of non-NUL bytes [l]. *)
Fixpoint cstr (m : mem) (p : Z) (l : list Z) : Prop :=
  match l with
  | [] => load8 m p = 0
  | c :: l' => load8 m p = c /\ c <> 0 /\ cstr m (p + 1) l'
  end.

Lemma cstr_ext m m' p l :
  (forall a, p <= a <= p + Z.of_nat (length l) -> load8 m' a = load8 m a) ->
  cstr m p l -> cstr m' p l.
Proof.
  revert p. induction l as [|c l IH]; intros p H; cbn [cstr length].
  - intros <-. apply H. cbn. lia.
  - intros (<- & Hc & Hl). rewrite H by (cbn; lia). split_and!; [done..|].
    apply IH; [|done]. intros. apply H. cbn. lia.
Qed.

Lemma cstr_app m p l1 l2 : cstr m p (l1 ++ l2) -> cstr m (p + Z.of_nat (length l1)) l2.
Proof.
  revert p. induction l1 as [|c l1 IH]; intros p; cbn [app cstr length].
  - by rewrite Z.add_0_r.
  - intros (_ & _ & H). apply IH in H.
    by replace (p + Z.of_nat (S (length l1))) with (p + 1 + Z.of_nat (length l1)) by lia.
Qed.

Lemma strlen_from_spec fuel m s l :
  cstr m s l -> (length l < fuel)%nat -> strlen_from fuel m s = Some (s + Z.of_nat (length l)).
Proof.
  revert s l. induction fuel as [|f IH]; intros s l Hs Hf; [lia|].
  destruct l as [|c l]; cbn [cstr length strlen_from] in *.
  - rewrite Hs. cbn. f_equal. lia.
  - destruct Hs as (-> & Hc & Hs). apply Z.eqb_neq in Hc. rewrite Hc.
    rewrite (IH _ l) by (done || lia). f_equal. lia.
Qed.

Lemma strlen_spec fuel m s l :
  cstr m s l -> (length l < fuel)%nat -> strlen fuel m s = Some (Z.of_nat (length l)).
Proof. intros Hs Hf. unfold strlen. rewrite (strlen_from_spec fuel m s l Hs Hf). cbn. f_equal. lia. Qed.

(** The difference of the first bytes at which two strings differ. *)
Fixpoint str_order (l1 l2 : list Z) : Z :=
  match l1, l2 with
  | [], [] => 0
  | [], c :: _ => 0 - c
  | c :: _, [] => c - 0
  | c1 :: l1', c2 :: l2' => if c1 =? c2 then str_order l1' l2' else c1 - c2
  end.

Lemma strcmp_order fuel m p1 p2 l1 l2 :
  cstr m p1 l1 -> cstr m p2 l2 -> (length l1 < fuel)%nat ->
  strcmp fuel m p1 p2 = Some (str_order l1 l2).
Proof.
  revert p1 p2 l1 l2. induction fuel as [|f IH]; intros p1 p2 l1 l2 H1 H2 Hf; [lia|].
  cbn [strcmp].
  destruct l1 as [|c1 l1], l2 as [|c2 l2]; cbn [cstr length str_order] in *;
    destruct_and?; simplify_eq.
  - rewrite H1, H2. done.
  - rewrite H1. done.
  - rewrite H2. in_range.
  - in_range. apply IH; [done..|lia].
Qed.

Lemma str_order_eq m p1 p2 l1 l2 :
  cstr m p1 l1 -> cstr m p2 l2 -> str_order l1 l2 = 0 <-> l1 = l2.
Proof.
  revert p1 p2 l2. induction l1 as [|c1 l1 IH]; intros p1 p2 [|c2 l2] H1 H2;
    cbn [cstr str_order] in *.
  - done.
  - split; [lia|done].
  - split; [lia|done].
  - destruct H1 as (_ & _ & H1), H2 as (_ & _ & H2).
    destruct (Z.eqb_spec c1 c2) as [->|].
    + rewrite (IH (p1 + 1) (p2 + 1) l2) by done. split; congruence.
    + split; [lia|congruence].
Qed.

Lemma strcpy_spec fuel m dest src l :
  cstr m src l -> (length l < fuel)%nat ->
  dest + Z.of_nat (length l) < src \/ src + Z.of_nat (length l) < dest ->
  exists m', strcpy fuel m dest src = Some m' /\
    copied m m' dest src (Z.of_nat (length l) + 1) /\ cstr m' dest l.
Proof.
  revert m dest src l. induction fuel as [|f IH]; intros m dest src l Hs Hf Hd; [lia|].
  cbn [strcpy]. pose proof (copied_store8 m dest src) as Hone.
  destruct l as [|c l]; cbn [cstr length] in *.
  - rewrite Hs in *. cbn. eexists. split_and!; [done|done|]. by rewrite load8_store8_eq.
  - destruct Hs as (Ec & Hc & Hs). rewrite Ec in *.
    destruct (Z.eqb_spec c 0) as [?|_]; [done|].
    destruct (IH (store8 m dest c) (dest + 1) (src + 1) l) as (m' & -> & Hcp & Hstr);
      [|lia..|].
    + eapply cstr_ext; [|done]. intros. apply load8_store8_ne. lia.
    + exists m'. split_and!; [done| | |done..].
      * apply (copied_step m (store8 m dest c) m' dest src 1); [lia..|done|].
        by replace (Z.of_nat (S (length l)) + 1 - 1) with (Z.of_nat (length l) + 1) by lia.
      * rewrite Hcp. in_range. rewrite load8_store8_eq. rewrite <-Ec.
        unfold u8. apply Z.mod_small, load8_range.
Qed.

(** ** Tokens *)

Fixpoint span (f : Z -> bool) (l : list Z) : list Z * list Z :=
  match l with
  | [] => ([], [])
  | c :: l' => if f c then let '(a, b) := span f l' in (c :: a, b) else ([], l)
  end.

Definition in_delims (dl : list Z) (c : Z) : bool := bool_decide (c ∈ dl).

(** What a call of [strtok] yields on the text [l]: the next token and the text
    left for the following call ([None] when the string is used up). *)
Definition next_token (dl l : list Z) : option (list Z * option (list Z)) :=
  let '(_, l1) := span (in_delims dl) l in
  match l1 with
  | [] => None
  | _ :: _ =>
      let '(t, l2) := span (fun c => negb (in_delims dl c)) l1 in
      Some (t, match l2 with [] => None | _ :: rest => Some rest end)
  end.

Lemma span_app f l a b : span f l = (a, b) -> l = a ++ b.
Proof.
  revert a b. induction l as [|c l IH]; intros a b; cbn [span]; [by intros [= <- <-]|].
  destruct (f c); [|by intros [= <- <-]].
  destruct (span f l) as [a' b'] eqn:E. intros [= <- <-]. cbn. by rewrite (IH a' b').
Qed.

Lemma strchr_spec fuel m p l c :
  cstr m p l -> 0 < c < 256 -> (length l < fuel)%nat ->
  exists r, strchr fuel m p c = Some r /\ bool_decide (is_Some r) = in_delims l c.
Proof.
  intros Hl Hc. revert p l Hl. induction fuel as [|f IH]; intros p l Hl Hf; [lia|].
  assert (u8 c = c) as Ec by (apply Z.mod_small; lia).
  destruct l as [|c' l]; cbn [cstr length strchr] in *; rewrite Ec.
  - rewrite Hl. destruct (Z.eqb_spec 0 c); [lia|]. exists None. done.
  - destruct Hl as (-> & Hc' & Hl). destruct (Z.eqb_spec c' c) as [->|Hne].
    + exists (Some p). split; [done|]. unfold in_delims.
      rewrite !bool_decide_eq_true_2; [done|set_solver|eauto].
    + destruct (Z.eqb_spec c' 0); [done|].
      destruct (IH (p + 1) l) as (r & -> & Hr); [done|lia|]. exists r. split; [done|].
      rewrite Hr. unfold in_delims. apply bool_decide_ext. set_solver.
Qed.

Lemma strtok_skip_spec fuel want m p l delim dl a b :
  cstr m p l -> cstr m delim dl -> (length l + length dl < fuel)%nat ->
  span (fun c => eqb (in_delims dl c) want) l = (a, b) ->
  strtok_skip fuel want m p delim = Some (p + Z.of_nat (length a)).
Proof.
  intros Hl Hdl. revert p l a b Hl. induction fuel as [|f IH]; intros p l a b Hl Hf Hsp; [lia|].
  destruct l as [|c l]; cbn [cstr length strtok_skip span] in *.
  - rewrite Hl. injection Hsp as <- <-. cbn. f_equal. lia.
  - destruct Hl as (E & Hc & Hl). rewrite E. destruct (Z.eqb_spec c 0); [done|].
    destruct (strchr_spec (S f) m delim dl c) as (r & -> & Hr); [done| |lia|].
    { pose proof (load8_range m p). lia. }
    cbn [mbind option_bind]. rewrite Hr.
    destruct (eqb (in_delims dl c) want).
    + destruct (span _ l) as [a' b'] eqn:E'. injection Hsp as <- <-.
      rewrite (IH (p + 1) l a' b') by (done || lia). cbn. f_equal. lia.
    + injection Hsp as <- <-. cbn. f_equal. lia.
Qed.

(** The string that [strtok] cuts at [p + |t|] is [t]. *)
Lemma cstr_cut m p t l2 :
  cstr m p (t ++ l2) -> cstr (store8 m (p + Z.of_nat (length t)) 0) p t.
Proof.
  revert p. induction t as [|c t IH]; intros p; cbn [app cstr length].
  - intros _. rewrite Z.add_0_r. apply load8_store8_eq.
  - intros (E & Hc & H). rewrite load8_store8_ne by lia. split_and!; [done..|].
    replace (p + Z.of_nat (S (length t))) with (p + 1 + Z.of_nat (length t)) by lia.
    by apply IH.
Qed.

Lemma span_ext f g l : (forall c, f c = g c) -> span f l = span g l.
Proof. intros H. induction l as [|c l IH]; cbn [span]; [done|]. by rewrite H, IH. Qed.

(** One call of [strtok] on a saved position. *)
Lemma strtok_next fuel m c l delim dl :
  cstr m c l -> cstr m delim dl -> (length l + length dl < fuel)%nat ->
  match next_token dl l with
  | None => strtok fuel m (Some c) None delim = Some (m, None, None)
  | Some (t, rest) =>
      exists m' cur p, strtok fuel m (Some c) None delim = Some (m', cur, Some p) /\
        cstr m' p t /\ unchanged_outside c (c + Z.of_nat (length l)) m m' /\
        match rest with
        | None => cur = None
        | Some r => exists q, cur = Some q /\ cstr m' q r /\ c < q /\
            q + Z.of_nat (length r) = c + Z.of_nat (length l)
        end
  end.
Proof.
  intros Hl Hdl Hf. unfold next_token, strtok.
  destruct (span (in_delims dl) l) as [a l1] eqn:E1.
  rewrite (strtok_skip_spec fuel true m c l delim dl a l1);
    [|done..|by rewrite <-E1; apply span_ext; intros; destruct (in_delims dl _)].
  cbn [mbind option_bind].
  pose proof (span_app _ _ _ _ E1) as ->. apply cstr_app in Hl. rewrite length_app in *.
  set (st := c + Z.of_nat (length a)) in *.
  destruct l1 as [|c1 l1']; [cbn [cstr] in Hl; by rewrite Hl|].
  destruct (span (fun c => negb (in_delims dl c)) (c1 :: l1')) as [t l2] eqn:E2.
  assert ((load8 m st =? 0) = false) as ->.
  { destruct Hl as (-> & ? & _). by apply Z.eqb_neq. }
  rewrite (strtok_skip_spec fuel false m st (c1 :: l1') delim dl t l2);
    [|done..|lia|by rewrite <-E2; apply span_ext; intros; destruct (in_delims dl _)].
  cbn [mbind option_bind].
  pose proof (span_app _ _ _ _ E2) as Eapp. rewrite Eapp in *.
  pose proof (cstr_app _ _ _ _ Hl) as H2. rewrite length_app in *.
  destruct l2 as [|x rest].
  - cbn [cstr] in H2. rewrite H2. eexists _, _, _. split_and!; [done| |apply unchanged_refl|done].
    by rewrite app_nil_r in Hl.
  - destruct H2 as (Hx & Hx0 & H2). rewrite Hx. apply Z.eqb_neq in Hx0. rewrite Hx0.
    eexists _, _, _. split_and!; [done|by eapply cstr_cut| |].
    + intros b Hb. apply load8_store8_ne. cbn [length] in Hb. lia.
    + eexists. split_and!; [done| |lia|cbn [length]; lia].
      eapply cstr_ext; [|done]. intros. apply load8_store8_ne. lia.
Qed.

Lemma safestrcpy_loop_spec k m s t l :
  cstr m t l -> s + Z.of_nat k < t \/ t + Z.of_nat (length l) < s ->
  let '(m', s') := safestrcpy_loop k m s t in
  cstr (store8 m' s' 0) s (take k l) /\ s <= s' <= s + Z.of_nat k /\
  unchanged_outside s (s + Z.of_nat k) m m'.
Proof.
  revert m s t l. induction k as [|k IH]; intros m s t l Hl Hd; cbn [safestrcpy_loop].
  - rewrite take_0. split_and!; [apply load8_store8_eq|lia..|apply unchanged_refl].
  - destruct l as [|c l]; cbn [cstr length take] in *.
    + rewrite Hl. cbn. split_and!; [|lia..|].
      * rewrite load8_store8_ne by lia. apply load8_store8_eq.
      * eapply unchanged_mono; [| |apply unchanged_store8]; lia.
    + destruct Hl as (E & Hc & Hl). rewrite E. destruct (Z.eqb_spec c 0); [done|].
      specialize (IH (store8 m s c) (s + 1) (t + 1) l).
      destruct (safestrcpy_loop k _ _ _) as [m' s'].
      destruct IH as (H1 & H2 & H3); [|lia|].
      { eapply cstr_ext; [|done]. intros. apply load8_store8_ne. lia. }
      split_and!; [|done|done|lia..|].
      * rewrite load8_store8_ne by lia. rewrite H3 by lia. rewrite load8_store8_eq, <-E.
        unfold u8. apply Z.mod_small, load8_range.
      * intros a Ha. rewrite H3 by lia. apply load8_store8_ne. lia.
Qed.

(** [safestrcpy] leaves the longest prefix that fits, always terminated, and
    writes nothing past the [n] bytes of the destination. *)
Lemma safestrcpy_spec m s t n l :
  0 < n -> cstr m t l -> s + n <= t \/ t + Z.of_nat (length l) < s ->
  cstr (safestrcpy m s t n) s (take (Z.to_nat (n - 1)) l) /\
  unchanged_outside s (s + n) m (safestrcpy m s t n).
Proof.
  intros Hn Hl Hd. unfold safestrcpy. destruct (Z.leb_spec n 0); [lia|].
  pose proof (safestrcpy_loop_spec (Z.to_nat (n - 1)) m s t l Hl ltac:(lia)) as H1.
  destruct (safestrcpy_loop _ _ _ _) as [m' s']. destruct H1 as (H1 & H2 & H3).
  split; [done|]. intros a Ha. rewrite load8_store8_ne by lia. apply H3. lia.
Qed.
