(* ===== verification/Symbol.v ===== *)
(** kernel/symbol.c: the table of function symbols, its sort and the search for the
    function an address belongs to. *)

From S2P Require Import Prelude.

(** [struct elf64_sym] of kernel/elf.h *)
Record elf_symbol := {
  st_name : Z; st_info : Z; st_other : Z; st_shndx : Z;
  st_value : Z;
  st_size : Z;
}.

(** Entry [i] of the table is [symbols[i]] with [sym_names[i]]: every statement that
    moves one moves the other. *)
Record sym_entry := { e_sym : elf_symbol; e_name : list Z }.

Definition value (e : sym_entry) : Z := st_value (e_sym e).

(** * quickSort *)

(** [while (i < j && symbols[j].st_value >= x.st_value) j--] *)
Fixpoint scan_down (fuel : nat) (es : list sym_entry) (x : sym_entry) (i j : Z) : option Z :=
  match fuel with
  | O => None
  | S f =>
      if i <? j then
        match at_index es j with
        | None => None
        | Some e => if value x <=? value e then scan_down f es x i (j - 1) else Some j
        end
      else Some j
  end.

(** [while (i < j && symbols[i].st_value < x.st_value) i++] *)
Fixpoint scan_up (fuel : nat) (es : list sym_entry) (x : sym_entry) (i j : Z) : option Z :=
  match fuel with
  | O => None
  | S f =>
      if i <? j then
        match at_index es i with
        | None => None
        | Some e => if value e <? value x then scan_up f es x (i + 1) j else Some i
        end
      else Some i
  end.

(** [if (i < j) symbols[dst] = symbols[src]] *)
Definition move_if (b : bool) (es : list sym_entry) (dst src : Z) : option (list sym_entry) :=
  if b then match at_index es src with Some e => set_index es dst e | None => None end else Some es.

(** The loop of [quickSort]: the table and the final [i]. *)
Fixpoint partition (fuel : nat) (es : list sym_entry) (x : sym_entry) (i j : Z) : option (list sym_entry * Z) :=
  match fuel with
  | O => None
  | S f =>
      if i <? j then
        match scan_down fuel es x i j with
        | None => None
        | Some j =>
            match move_if (i <? j) es i j with
            | None => None
            | Some es =>
                match scan_up fuel es x i j with
                | None => None
                | Some i =>
                    match move_if (i <? j) es j i with
                    | None => None
                    | Some es => partition f es x i j
                    end
                end
            end
        end
      else Some (es, i)
  end.

(** [None] stands for an index outside the table or for exhausted fuel. *)
Fixpoint quickSort (fuel : nat) (es : list sym_entry) (l r : Z) : option (list sym_entry) :=
  match fuel with
  | O => None
  | S f =>
      if r <=? l then Some es else
      match at_index es l with
      | None => None
      | Some x =>
          match partition (S f) es x l r with
          | None => None
          | Some (es, i) =>
              match set_index es i x with
              | None => None
              | Some es =>
                  match quickSort f es l (i - 1) with
                  | None => None
                  | Some es => quickSort f es (i + 1) r
                  end
              end
          end
      end
  end.

(** * func_name_printer *)

(** The search loop: the name that is printed, if any. *)
Fixpoint find_symbol (fuel : nat) (es : list sym_entry) (ret_addr left right : Z) : option (option (list Z)) :=
  match fuel with
  | O => None
  | S f =>
      if left <=? right then
        let mid := left + Z.quot (right - left) 2 in
        match at_index es mid with
        | None => None
        | Some e =>
            let begin_addr := st_value (e_sym e) in
            let end_addr := u64 (st_value (e_sym e) + st_size (e_sym e)) in
            if (begin_addr <=? ret_addr) && (ret_addr <? end_addr) then Some (Some (e_name e))
            else if ret_addr <? begin_addr then find_symbol f es ret_addr left (mid - 1)
            else find_symbol f es ret_addr (mid + 1) right
        end
      else Some None
  end.

Definition func_name_printer (fuel : nat) (es : list sym_entry) (sym_count ret_addr : Z) : option (option (list Z)) :=
  find_symbol fuel es ret_addr 0 (sym_count - 1).

(** * Properties *)

(** ** The scans *)

Lemma scan_down_run fuel : forall es x i j,
  0 <= i <= j -> j < Z.of_nat (length es) -> j - i < Z.of_nat fuel ->
  exists j', scan_down fuel es x i j = Some j' /\ i <= j' <= j /\
    (forall k e, j' < k <= j -> at_index es k = Some e -> value x <= value e) /\
    (i < j' -> exists e, at_index es j' = Some e /\ value e < value x).
Proof.
  induction fuel as [|f IH]; intros es x i j Hij Hj Hf; [lia|]. cbn [scan_down].
  destruct (Z.ltb_spec i j).
  - destruct (at_index_is_Some es j) as [e He]; [lia|]. rewrite He. destruct (Z.leb_spec (value x) (value e)).
    + destruct (IH es x i (j - 1)) as (j' & E & Hr & Hall & Hlast); [lia..|]. exists j'. split_and!; [done|lia|lia| |done].
      intros k e' Hk Ek. destruct (decide (k = j)) as [->|]; [congruence|]. apply (Hall k); [lia|done].
    + exists j. split_and!; [done|lia|lia|intros; lia|]. intros _. by exists e.
  - exists j. split_and!; [done|lia|lia|intros; lia|lia].
Qed.

Lemma scan_up_run fuel : forall es x i j,
  0 <= i <= j -> j < Z.of_nat (length es) -> j - i < Z.of_nat fuel ->
  exists i', scan_up fuel es x i j = Some i' /\ i <= i' <= j /\
    (forall k e, i <= k < i' -> at_index es k = Some e -> value e < value x) /\
    (i' < j -> exists e, at_index es i' = Some e /\ value x <= value e).
Proof.
  induction fuel as [|f IH]; intros es x i j Hij Hj Hf; [lia|]. cbn [scan_up].
  destruct (Z.ltb_spec i j).
  - destruct (at_index_is_Some es i) as [e He]; [lia|]. rewrite He. destruct (Z.ltb_spec (value e) (value x)).
    + destruct (IH es x (i + 1) j) as (i' & E & Hr & Hall & Hlast); [lia..|]. exists i'. split_and!; [done|lia|lia| |done].
      intros k e' Hk Ek. destruct (decide (k = i)) as [->|]; [congruence|]. apply (Hall k); [lia|done].
    + exists i. split_and!; [done|lia|lia|intros; lia|]. intros _. by exists e.
  - exists i. split_and!; [done|lia|lia|intros; lia|lia].
Qed.

(** Moving the hole from [a] to [b] permutes the table. *)
Lemma move_hole {T} (es : list T) a b (x y : T) :
  a <> b -> 0 <= a < Z.of_nat (length es) -> at_index es b = Some y ->
  <[Z.to_nat b := x]> (<[Z.to_nat a := y]> es) ≡ₚ <[Z.to_nat a := x]> es.
Proof.
  intros Hab Ha Hb. pose proof (at_index_Some _ _ _ Hb) as Hbr. rewrite at_index_nat in Hb by lia.
  apply Permutation_inj. rewrite !length_insert. split; [done|].
  exists (fun k => if decide (k = Z.to_nat a) then Z.to_nat b else if decide (k = Z.to_nat b) then Z.to_nat a else k).
  split.
  - intros p q. repeat case_decide; lia.
  - intros k. set (na := Z.to_nat a). set (nb := Z.to_nat b). assert (na <> nb) as Hn by lia.
    destruct (decide (k = na)) as [->|Hka]; [|destruct (decide (k = nb)) as [->|Hkb]].
    + by rewrite list_lookup_insert_ne, list_lookup_insert_eq, list_lookup_insert_ne by lia.
    + rewrite list_lookup_insert_eq by (rewrite length_insert; lia). by rewrite list_lookup_insert_eq by lia.
    + by rewrite !list_lookup_insert_ne by lia.
Qed.

(** ** The partition *)

(** The entries below [i] from [l] on are smaller than [x], those above [j] up to [r]
    are not. *)
Definition split_at (es : list sym_entry) (x : sym_entry) (l i j r : Z) : Prop :=
  (forall k e, l <= k < i -> at_index es k = Some e -> value e < value x) /\
  (forall k e, j < k <= r -> at_index es k = Some e -> value x <= value e).

Definition same_outside (es es' : list sym_entry) (l r : Z) : Prop :=
  length es' = length es /\ forall k, k < l \/ r < k -> at_index es' k = at_index es k.

Lemma same_outside_trans es es1 es2 l r l1 r1 :
  l <= l1 -> r1 <= r -> same_outside es es1 l r -> same_outside es1 es2 l1 r1 -> same_outside es es2 l r.
Proof. intros Hl Hr [L1 H1] [L2 H2]. split; [congruence|]. intros k Hk. rewrite H2, H1 by lia. done. Qed.

Lemma same_outside_insert es k x l r :
  0 <= k < Z.of_nat (length es) -> l <= k <= r -> same_outside es (<[Z.to_nat k := x]> es) l r.
Proof.
  intros Hk Hlr. split; [apply length_insert|]. intros m Hm. rewrite at_index_insert by done.
  by destruct (Z.eqb_spec m k); [lia|].
Qed.

Lemma partition_run fuel : forall es x l i j r,
  0 <= l -> l <= i <= j -> j <= r -> r < Z.of_nat (length es) -> j - i < Z.of_nat fuel -> split_at es x l i j r ->
  exists es' i', partition fuel es x i j = Some (es', i') /\ l <= i' <= r /\
    same_outside es es' l r /\ split_at es' x l i' i' r /\
    <[Z.to_nat i' := x]> es' ≡ₚ <[Z.to_nat i := x]> es.
Proof.
  induction fuel as [|f IH]; intros es x l i j r Hl Hij Hjr Hr Hf Hs; [lia|]. cbn [partition].
  destruct (Z.ltb_spec i j) as [Hlt|Hge].
  2:{ exists es, i. assert (i = j) as -> by lia. split_and!; try done; lia. }
  destruct (scan_down_run (S f) es x i j) as (j1 & Ed & Hj1 & Hdn & Hdl); [lia..|]. rewrite Ed.
  assert (exists es1, move_if (i <? j1) es i j1 = Some es1 /\ same_outside es es1 l r /\ split_at es1 x l i j1 r /\
    <[Z.to_nat j1 := x]> es1 ≡ₚ <[Z.to_nat i := x]> es /\
    (i < j1 -> exists e, at_index es1 i = Some e /\ value e < value x)) as (es1 & Em & So1 & Sp1 & P1 & Hlow).
  { destruct Hs as [S1 S2]. unfold move_if. destruct (Z.ltb_spec i j1) as [Hlt1|Hge1].
    - destruct (Hdl Hlt1) as (e & He & Hev). rewrite He, set_index_eq by lia. eexists. split; [done|].
      assert (forall k, at_index (<[Z.to_nat i := e]> es) k = if k =? i then Some e else at_index es k) as Ha
        by (intros; apply at_index_insert; lia).
      split; [apply same_outside_insert; lia|]. split; [split; intros k e' Hk; rewrite Ha; destruct (Z.eqb_spec k i); try lia|].
      + by apply S1.
      + destruct (decide (k <= j)); [apply Hdn; lia|apply S2; lia].
      + split; [apply move_hole; [lia|lia|done]|]. intros _. exists e. rewrite Ha, Z.eqb_refl. done.
    - assert (j1 = i) as -> by lia. exists es. split_and!; [done|done|..|done|lia].
      split; [done|]. intros k e Hk. destruct (decide (k <= j)); [apply Hdn; lia|apply S2; lia]. }
  rewrite Em. destruct So1 as [Len1 Fr1]. assert (length es1 = length es) as Le1 by done.
  destruct (scan_up_run (S f) es1 x i j1) as (i1 & Eu & Hi1 & Hup & Hul); [lia..|]. rewrite Eu.
  assert (i < j1 -> i < i1) as Hprog.
  { intros Hx. destruct (decide (i1 = i)) as [->|]; [|lia]. destruct (Hlow Hx) as (e & He & Hev).
    destruct (Hul Hx) as (e' & He' & Hev'). assert (e = e') by congruence. subst. lia. }
  assert (exists es2, move_if (i1 <? j1) es1 j1 i1 = Some es2 /\ same_outside es es2 l r /\ split_at es2 x l i1 j1 r /\
    <[Z.to_nat i1 := x]> es2 ≡ₚ <[Z.to_nat i := x]> es) as (es2 & Em2 & So2 & Sp2 & P2).
  { destruct Sp1 as [S1 S2]. unfold move_if. destruct (Z.ltb_spec i1 j1) as [Hlt1|Hge1].
    - destruct (Hul Hlt1) as (e & He & Hev). rewrite He, set_index_eq by lia. eexists. split; [done|].
      assert (forall k, at_index (<[Z.to_nat j1 := e]> es1) k = if k =? j1 then Some e else at_index es1 k) as Ha
        by (intros; apply at_index_insert; lia).
      split; [apply (same_outside_trans es es1 _ l r l r); [lia|lia|done|apply same_outside_insert; lia]|].
      split; [split; intros k e' Hk; rewrite Ha; destruct (Z.eqb_spec k j1); try lia|].
      + destruct (decide (k < i)); [apply S1; lia|apply Hup; lia].
      + by apply S2.
      + rewrite <-P1. apply move_hole; [lia|lia|done].
    - assert (j1 = i1) as -> by lia. exists es1. split_and!; [done|done|..|done].
      split; [|done]. intros k e Hk. destruct (decide (k < i)); [apply S1; lia|apply Hup; lia]. }
  rewrite Em2. destruct So2 as [Len2 Fr2].
  destruct (IH es2 x l i1 j1 r) as (es' & i' & E & Hi' & So' & Sp' & P'); [lia..|done|].
  exists es', i'. split_and!; [done|lia|lia|..|done|by rewrite P'].
  by apply (same_outside_trans es es2 es' l r l r).
Qed.

(** ** Sortedness *)

Definition sorted_between (es : list sym_entry) (l r : Z) : Prop :=
  forall i j a b, l <= i -> i < j -> j <= r -> at_index es i = Some a -> at_index es j = Some b -> value a <= value b.

(** A rearrangement that leaves everything outside [l..r] alone rearranges [l..r]. *)
Lemma range_kept es es' l r (P : sym_entry -> Prop) :
  0 <= l -> l <= r + 1 -> r < Z.of_nat (length es) -> same_outside es es' l r -> es' ≡ₚ es ->
  (forall k e, l <= k <= r -> at_index es k = Some e -> P e) ->
  forall k e, l <= k <= r -> at_index es' k = Some e -> P e.
Proof.
  intros Hl Hlr Hr [Hlen Hout] HP Hall k e Hk He.
  set (a := Z.to_nat l). set (n := Z.to_nat (r + 1 - l)).
  assert (forall m, (m < a \/ a + n <= m)%nat -> es' !! m = es !! m) as Hm.
  { intros m Hm. specialize (Hout (Z.of_nat m)). rewrite !at_index_nat, Nat2Z.id in Hout by lia. apply Hout. lia. }
  assert (take a es' = take a es) as Ht.
  { apply list_eq. intros m. rewrite !lookup_take. case_decide; [apply Hm; lia|done]. }
  assert (drop n (drop a es') = drop n (drop a es)) as Hd.
  { apply list_eq. intros m. rewrite !lookup_drop. apply Hm. lia. }
  assert (take n (drop a es') ≡ₚ take n (drop a es)) as Hmid.
  { apply (Permutation_app_inv_r (drop n (drop a es))). rewrite <-Hd at 1. rewrite !take_drop.
    apply (Permutation_app_inv_l (take a es)). rewrite <-Ht at 1. by rewrite !take_drop. }
  assert (e ∈ take n (drop a es)) as Hin.
  { rewrite <-Hmid. apply list_elem_of_lookup. exists (Z.to_nat k - a)%nat.
    rewrite lookup_take_lt, lookup_drop by lia. rewrite at_index_nat in He by lia.
    rewrite <-He. f_equal. lia. }
  apply list_elem_of_lookup in Hin as [m Hin]. apply lookup_take_Some in Hin as [Hin Hmn].
  rewrite lookup_drop in Hin. apply (Hall (Z.of_nat (a + m))); [lia|]. by rewrite at_index_nat, Nat2Z.id by lia.
Qed.

Lemma sorted_empty es l r : r <= l -> sorted_between es l r.
Proof. intros H i j a b. lia. Qed.

Lemma sorted_same es es' l r l' r' :
  same_outside es es' l' r' -> r < l' \/ r' < l -> sorted_between es l r -> sorted_between es' l r.
Proof. intros [_ Ho] Hd Hs i j a b Hi Hij Hj. rewrite !Ho by lia. by apply Hs. Qed.

Lemma sorted_join es l m r x :
  sorted_between es l (m - 1) -> sorted_between es (m + 1) r -> at_index es m = Some x ->
  (forall k e, l <= k <= m - 1 -> at_index es k = Some e -> value e < value x) ->
  (forall k e, m + 1 <= k <= r -> at_index es k = Some e -> value x <= value e) ->
  sorted_between es l r.
Proof.
  intros S1 S2 Hx Hlo Hhi i j a b Hi Hij Hj Ha Hb.
  destruct (Ztrichotomy i m) as [Him|[->|Him]].
  - assert (value a < value x) by (apply (Hlo i); [lia|done]).
    destruct (Ztrichotomy j m) as [Hjm|[->|Hjm]].
    + apply (S1 i j); (done || lia).
    + rewrite Hx in Hb. injection Hb as <-. lia.
    + assert (value x <= value b) by (apply (Hhi j); [lia|done]). lia.
  - rewrite Hx in Ha. injection Ha as <-. apply (Hhi j); [lia|done].
  - apply (S2 i j); (done || lia).
Qed.

Lemma quickSort_run fuel : forall es l r,
  0 <= l -> r < Z.of_nat (length es) -> Z.max 0 (r - l) < Z.of_nat fuel ->
  exists es', quickSort fuel es l r = Some es' /\ es' ≡ₚ es /\ same_outside es es' l r /\ sorted_between es' l r.
Proof.
  induction fuel as [|f IH]; intros es l r Hl Hr Hf; [lia|]. cbn [quickSort].
  destruct (Z.leb_spec r l); [exists es; split_and!; (done || by apply sorted_empty)|].
  destruct (at_index_is_Some es l) as [x Hx]; [lia|]. rewrite Hx.
  destruct (partition_run (S f) es x l l r r) as (e1 & i & E1 & Hi & [L1 O1] & [Lo1 Hi1] & P1); [lia..|split; intros; lia|].
  rewrite E1, set_index_eq by lia. set (e2 := <[Z.to_nat i := x]> e1) in *.
  assert (length e2 = length es) as L2 by (unfold e2; rewrite length_insert; lia).
  assert (forall k, at_index e2 k = if k =? i then Some x else at_index e1 k) as Ha
    by (intros; apply at_index_insert; lia).
  rewrite (list_insert_id es) in P1 by (rewrite at_index_nat in Hx by lia; done).
  assert (forall k e, l <= k <= i - 1 -> at_index e2 k = Some e -> value e < value x) as Lo2.
  { intros k e Hk. rewrite Ha. destruct (Z.eqb_spec k i); [lia|]. apply Lo1. lia. }
  assert (forall k e, i + 1 <= k <= r -> at_index e2 k = Some e -> value x <= value e) as Hi2.
  { intros k e Hk. rewrite Ha. destruct (Z.eqb_spec k i); [lia|]. apply Hi1. lia. }
  assert (same_outside es e2 l r) as So2.
  { split; [lia|]. intros k Hk. rewrite Ha. destruct (Z.eqb_spec k i); [lia|]. apply O1. lia. }
  destruct (IH e2 l (i - 1)) as (e3 & E3 & P3 & So3 & S3); [lia..|]. rewrite E3.
  pose proof So3 as [L3 O3].
  destruct (IH e3 (i + 1) r) as (e4 & E4 & P4 & So4 & S4); [lia..|]. rewrite E4.
  pose proof So4 as [L4 O4]. exists e4. split; [done|]. split; [by rewrite P4, P3|]. split.
  - apply (same_outside_trans es e3 e4 l r (i + 1) r); [lia|lia| |done].
    apply (same_outside_trans es e2 e3 l r l (i - 1)); (done || lia).
  - apply (sorted_join e4 l i r x).
    + apply (sorted_same e3 e4 l (i - 1) (i + 1) r); (done || lia).
    + done.
    + rewrite O4, O3, Ha, Z.eqb_refl by lia. done.
    + intros k e Hk. rewrite O4 by lia. apply (range_kept e2 e3 l (i - 1) (fun e => value e < value x)); (done || lia).
    + apply (range_kept e3 e4 (i + 1) r (fun e => value x <= value e)); [lia..|done|done|]. intros k e Hk. rewrite O3 by lia. by apply Hi2.
Qed.

(** ** The search *)

(** [begin_addr <= ret_addr && ret_addr < end_addr] *)
Definition contains (ret_addr : Z) (e : sym_entry) : bool :=
  (st_value (e_sym e) <=? ret_addr) && (ret_addr <? u64 (st_value (e_sym e) + st_size (e_sym e))).

(** A function has code and ends within the address space. *)
Definition sym_ok (e : sym_entry) : Prop :=
  0 <= st_value (e_sym e) /\ 0 < st_size (e_sym e) /\ st_value (e_sym e) + st_size (e_sym e) < 2 ^ 64.

Definition before (a b : sym_entry) : Prop := st_value (e_sym a) + st_size (e_sym a) <= st_value (e_sym b).

(** The functions of a program do not overlap. *)
Definition disjoint_syms (es : list sym_entry) : Prop :=
  forall i j a b, i <> j -> es !! i = Some a -> es !! j = Some b -> before a b \/ before b a.

Lemma contains_true a e : sym_ok e -> contains a e = true <-> st_value (e_sym e) <= a < st_value (e_sym e) + st_size (e_sym e).
Proof.
  intros (H1 & H2 & H3). unfold contains. rewrite u64_small by lia.
  rewrite andb_true_iff, Z.leb_le, Z.ltb_lt. done.
Qed.

Lemma find_symbol_run fuel : forall es a left right,
  (forall e, e ∈ es -> sym_ok e) ->
  (forall i j x y, i < j -> at_index es i = Some x -> at_index es j = Some y -> before x y) ->
  0 <= left -> right < Z.of_nat (length es) -> left <= right + 1 -> right - left + 1 < Z.of_nat fuel ->
  (forall k e, k < left \/ right < k -> at_index es k = Some e -> contains a e = false) ->
  exists res, find_symbol fuel es a left right = Some res /\
    match res with
    | Some nm => exists e, e ∈ es /\ contains a e = true /\ nm = e_name e
    | None => forall e, e ∈ es -> contains a e = false
    end.
Proof.
  induction fuel as [|f IH]; intros es a lo hi Hok Hord Hlo Hhi Hlh Hf Hout; [lia|]. cbn [find_symbol].
  destruct (Z.leb_spec lo hi) as [Hle|Hgt].
  2:{ exists None. split; [done|]. intros e He. apply list_elem_of_lookup in He as [k Hk].
      apply (Hout (Z.of_nat k)); [lia|]. by rewrite at_index_nat, Nat2Z.id by lia. }
  rewrite Z.quot_div_nonneg by lia. set (mid := lo + (hi - lo) / 2).
  assert (lo <= mid <= hi) as Hmid by (unfold mid; pose proof (Z.div_pos (hi - lo) 2); pose proof (Z.mul_div_le (hi - lo) 2); lia).
  destruct (at_index_is_Some es mid) as [e He]; [lia|]. rewrite He.
  assert (e ∈ es) as Hin by (rewrite at_index_nat in He by lia; by eapply list_elem_of_lookup_2).
  pose proof (Hok e Hin) as Hoe. fold (contains a e). destruct (contains a e) eqn:Ec.
  { exists (Some (e_name e)). split; [done|]. by exists e. }
  assert (~ (st_value (e_sym e) <= a < st_value (e_sym e) + st_size (e_sym e))) as Hno
    by (rewrite <-contains_true by done; congruence).
  assert (forall k e', (st_value (e_sym e') + st_size (e_sym e') <= a \/ a < st_value (e_sym e')) ->
    at_index es k = Some e' -> contains a e' = false) as Hmiss.
  { intros k e' Hk Ek. apply not_true_iff_false. rewrite contains_true; [lia|]. apply Hok.
    pose proof (at_index_Some _ _ _ Ek). rewrite at_index_nat in Ek by lia. by eapply list_elem_of_lookup_2. }
  destruct Hoe as (? & ? & ?). unfold before in Hord. destruct (Z.ltb_spec a (st_value (e_sym e))).
  - apply IH; try done; try lia. intros k e' Hk Ek. destruct (decide (k < lo \/ hi < k)); [by apply (Hout k)|].
    apply (Hmiss k); [|done]. destruct (decide (k = mid)) as [->|]; [replace e' with e by congruence; lia|].
    specialize (Hord mid k e e'). assert (st_value (e_sym e) + st_size (e_sym e) <= st_value (e_sym e')) by (apply Hord; (done || lia)). lia.
  - apply IH; try done; try lia. intros k e' Hk Ek. destruct (decide (k < lo \/ hi < k)); [by apply (Hout k)|].
    apply (Hmiss k); [|done]. destruct (decide (k = mid)) as [->|]; [replace e' with e by congruence; lia|].
    specialize (Hord k mid e' e). assert (st_value (e_sym e') + st_size (e_sym e') <= st_value (e_sym e)) by (apply Hord; (done || lia)). lia.
Qed.

(** Sorting the symbols of non-overlapping functions orders them. *)
Lemma sorted_ordered es es' :
  (forall e, e ∈ es -> sym_ok e) -> disjoint_syms es -> es' ≡ₚ es ->
  sorted_between es' 0 (Z.of_nat (length es') - 1) ->
  forall i j x y, i < j -> at_index es' i = Some x -> at_index es' j = Some y -> before x y.
Proof.
  intros Hok Hd HP Hs i j x y Hij Hx Hy.
  pose proof (at_index_Some _ _ _ Hx). pose proof (at_index_Some _ _ _ Hy).
  assert (value x <= value y) as Hv by (apply (Hs i j); (done || lia)).
  rewrite at_index_nat in Hx, Hy by lia.
  assert (sym_ok y) as (? & ? & ?) by (apply Hok; rewrite <-HP; by eapply list_elem_of_lookup_2).
  apply Permutation_inj in HP as (_ & g & Hg & Hl). rewrite Hl in Hx, Hy.
  destruct (Hd (g (Z.to_nat i)) (g (Z.to_nat j)) x y) as [|Hb]; [|done..|].
  - intros Eg. apply Hg in Eg. lia.
  - unfold before, value in *. lia.
Qed.

(** At most one function contains an address. *)
Lemma contains_unique es a x y :
  (forall e, e ∈ es -> sym_ok e) -> disjoint_syms es -> x ∈ es -> y ∈ es ->
  contains a x = true -> contains a y = true -> x = y.
Proof.
  intros Hok Hd Hx Hy Cx Cy. rewrite contains_true in Cx, Cy by auto.
  apply list_elem_of_lookup in Hx as [i Hi], Hy as [j Hj]. destruct (decide (i = j)) as [->|Hn]; [congruence|].
  destruct (Hd i j x y) as [Hb|Hb]; [done..| |]; unfold before in Hb; lia.
Qed.

(** ** Claims *)

(** C22.  [quickSort] returns for every range within the table: it rearranges the
    entries between [l] and [r] in the order of their addresses, each name moving with
    its symbol, and leaves the others where they are.  Recursion depth and loop counts
    are bounded by the width of the range. *)
Theorem quickSort_spec fuel es l r :
  0 <= l -> r < Z.of_nat (length es) -> Z.max 0 (r - l) < Z.of_nat fuel ->
  exists es', quickSort fuel es l r = Some es' /\ es' ≡ₚ es /\
    (forall k, k < l \/ r < k -> at_index es' k = at_index es k) /\
    (forall i j a b, l <= i -> i < j -> j <= r -> at_index es' i = Some a -> at_index es' j = Some b ->
      st_value (e_sym a) <= st_value (e_sym b)).
Proof.
  intros Hl Hr Hf. destruct (quickSort_run fuel es l r Hl Hr Hf) as (es' & E & P & [_ O] & S).
  by exists es'.
Qed.

(** C23.  For the symbols of functions that do not overlap, sorting the table and
    searching it by halving finds what a scan of the unsorted table finds: the name of
    the function the address belongs to, or nothing. *)
Theorem func_name_printer_spec fuel1 fuel2 es ret_addr :
  (forall e, e ∈ es -> sym_ok e) -> disjoint_syms es ->
  Z.of_nat (length es) < Z.of_nat fuel1 -> Z.of_nat (length es) < Z.of_nat fuel2 ->
  exists es', quickSort fuel1 es 0 (Z.of_nat (length es) - 1) = Some es' /\
    func_name_printer fuel2 es' (Z.of_nat (length es')) ret_addr = Some (e_name <$> find (contains ret_addr) es).
Proof.
  intros Hok Hd Hf1 Hf2.
  destruct (quickSort_run fuel1 es 0 (Z.of_nat (length es) - 1)) as (es' & E & HP & [HL _] & Hs); [lia..|].
  exists es'. split; [done|]. unfold func_name_printer.
  assert (forall e, e ∈ es' -> sym_ok e) as Hok' by (intros e; rewrite HP; apply Hok).
  rewrite <-HL in Hs. pose proof (sorted_ordered es es' Hok Hd HP Hs) as Hord.
  destruct (find_symbol_run fuel2 es' ret_addr 0 (Z.of_nat (length es') - 1)) as (res & Er & Hres); [done|done|lia..| |].
  { intros k e Hk Ek. apply at_index_Some in Ek. lia. }
  rewrite Er. f_equal. destruct (find (contains ret_addr) es) as [e|] eqn:Ef; cbn.
  - apply find_some in Ef as [Hin Hc]. rewrite <-list_elem_of_In in Hin. destruct res as [nm|].
    + destruct Hres as (e' & Hin' & Hc' & ->). rewrite HP in Hin'. by rewrite (contains_unique es ret_addr e' e).
    + rewrite Hres in Hc; [done|]. by rewrite HP.
  - destruct res as [nm|]; [|done]. destruct Hres as (e & Hin & Hc & _).
    rewrite HP in Hin. apply list_elem_of_In in Hin. pose proof (find_none _ _ Ef e Hin). congruence.
Qed.

(** ** Witnesses *)

(** Three functions, listed out of order. *)
Definition demo_sym (v n : Z) (nm : list Z) : sym_entry := {| e_sym := {| st_name := 0; st_info := 2; st_other := 0;
  st_shndx := 1; st_value := v; st_size := n |}; e_name := nm |}.

Definition demo_table : list sym_entry := [demo_sym 4096 64 [109]; demo_sym 4240 16 [103]; demo_sym 4160 80 [102]].

Lemma quickSort_spec_witness : exists es', quickSort 3 demo_table 0 2 = Some es' /\
  (forall i j a b, 0 <= i -> i < j -> j <= 2 -> at_index es' i = Some a -> at_index es' j = Some b ->
    st_value (e_sym a) <= st_value (e_sym b)) /\ es' <> demo_table.
Proof.
  destruct (quickSort_spec 3 demo_table 0 2) as (es' & E & _ & _ & S); [lia|cbn; lia|lia|].
  exists es'. split; [exact E|]. split; [exact S|]. vm_compute in E. injection E as <-. discriminate.
Defined.

Lemma demo_ok : (forall e, e ∈ demo_table -> sym_ok e) /\ disjoint_syms demo_table.
Proof.
  split.
  - intros e He. repeat (apply elem_of_cons in He as [->|He]; [unfold sym_ok; cbn; lia|]). by apply not_elem_of_nil in He.
  - intros i j a b Hn Hi Hj. unfold before.
    destruct i as [|[|[|i]]], j as [|[|[|j]]]; cbn in Hi, Hj; simplify_eq; cbn; lia.
Qed.

Lemma func_name_printer_spec_witness : exists es', quickSort 4 demo_table 0 2 = Some es' /\
  func_name_printer 4 es' 3 4200 = Some (Some [102]).
Proof.
  destruct (func_name_printer_spec 4 4 demo_table 4200 (proj1 demo_ok) (proj2 demo_ok)) as (es' & E & F); [cbn; lia|cbn; lia|].
  exists es'. split; [exact E|]. assert (es' = [demo_sym 4096 64 [109]; demo_sym 4160 80 [102]; demo_sym 4240 16 [103]]) as ->
    by (vm_compute in E; injection E as <-; reflexivity). exact F.
Defined.
