(* ===== verification/Leb128.v ===== *)
(** kernel/elf.c, the readers of the .debug_line section: LEB128 numbers and little-endian
    integers of fixed width.  [None] stands for exhausted fuel and for undefined
    behaviour of C, a shift by the width of the type or more. *)

From S2P Require Import Prelude Mem.

(** * Readers *)

(** The loop of [read_uleb128] and [read_sleb128]: the value as 64 bits, the final
    [shift], the last byte and the address after it. *)
Fixpoint leb128_loop (fuel : nat) (m : mem) (off value shift : Z) : option (Z * Z * Z * Z) :=
  match fuel with
  | O => None
  | S f =>
      if 64 <=? shift then None
      else
        let b := load8 m off in
        let value := Z.lor value (u64 (Z.shiftl (Z.land b 127) shift)) in
        if Z.land b 128 =? 0 then Some (value, shift + 7, b, off + 1)
        else leb128_loop f m (off + 1) value (shift + 7)
  end.

Definition read_uleb128 (fuel : nat) (m : mem) (off : Z) : option (Z * Z) :=
  match leb128_loop fuel m off 0 0 with
  | Some (value, _, _, off) => Some (value, off)
  | None => None
  end.

(** [1 << shift] is a shift of an [int]. *)
Definition read_sleb128 (fuel : nat) (m : mem) (off : Z) : option (Z * Z) :=
  match leb128_loop fuel m off 0 0 with
  | Some (value, shift, b, off) =>
      if (shift <? 64) && negb (Z.land b 64 =? 0) then
        if 32 <=? shift then None
        else Some (i64 (Z.lor value (u64 (- i32 (Z.shiftl 1 shift)))), off)
      else Some (i64 value, off)
  | None => None
  end.

(** Bytes [i] and up of a little-endian integer; [char] is unsigned on RISC-V. *)
Fixpoint read_uint_loop (n : nat) (i : Z) (m : mem) (off out : Z) : Z * Z :=
  match n with
  | O => (out, off)
  | S n' => read_uint_loop n' (i + 1) m (off + 1) (Z.lor out (Z.shiftl (load8 m off) (Z.shiftl i 3)))
  end.

Definition read_uint64 (m : mem) (off : Z) : Z * Z := read_uint_loop 8 0 m off 0.
Definition read_uint32 (m : mem) (off : Z) : Z * Z := read_uint_loop 4 0 m off 0.
Definition read_uint16 (m : mem) (off : Z) : Z * Z := read_uint_loop 2 0 m off 0.

(** * Properties *)

(** ** Bytes in memory *)

(** The bytes [l] are at [a]. *)
Definition holds (m : mem) (a : Z) (l : list Z) : Prop :=
  forall i b, l !! i = Some b -> load8 m (a + Z.of_nat i) = b.

Lemma holds_cons m a b l : holds m a (b :: l) <-> load8 m a = b /\ holds m (a + 1) l.
Proof.
  split.
  - intros H. split; [rewrite <- (H O b) by done; f_equal; lia|]. intros i c Hi.
    rewrite <- (H (S i) c) by done. f_equal. lia.
  - intros [H0 H] [|i] c Hi; cbn in Hi; [simplify_eq; f_equal; lia|].
    rewrite <- (H i c) by done. f_equal. lia.
Qed.

Lemma holds_app m a l1 l2 : holds m a (l1 ++ l2) <-> holds m a l1 /\ holds m (a + Z.of_nat (length l1)) l2.
Proof.
  revert a. induction l1 as [|b l1 IH]; intros a; cbn [app length].
  - rewrite Z.add_0_r. split; [|tauto]. intros H. split; [|done]. intros i c Hi. done.
  - rewrite !holds_cons, IH. replace (a + 1 + Z.of_nat (length l1)) with (a + Z.of_nat (S (length l1))) by lia.
    tauto.
Qed.

Lemma holds_ext m m' a l :
  (forall b, a <= b < a + Z.of_nat (length l) -> load8 m' b = load8 m b) -> holds m a l -> holds m' a l.
Proof.
  intros E H i b Hi. rewrite E; [by apply H|]. apply lookup_lt_Some in Hi. lia.
Qed.

(** ** LEB128 *)

Lemma lor_disjoint a b n : 0 <= n -> 0 <= a < 2 ^ n -> Z.lor a (b * 2 ^ n) = a + b * 2 ^ n.
Proof.
  intros Hn Ha. rewrite <- Z.add_lor_land. enough (Z.land a (b * 2 ^ n) = 0) as -> by lia.
  apply Z.bits_inj'. intros i Hi. rewrite Z.land_spec, Z.bits_0.
  destruct (Z.ltb_spec i n).
  - by rewrite Z.mul_pow2_bits_low, andb_false_r.
  - rewrite <- (Z.mod_small a (2 ^ n)) by done. by rewrite Z.mod_pow2_bits_high.
Qed.

(** The value of digits in base 128 and their bytes: all but the last are marked. *)
Definition digits (ds : list Z) : Z := foldr (fun d v => d + 128 * v) 0 ds.

Fixpoint leb_bytes (ds : list Z) : list Z :=
  match ds with
  | [] => []
  | [d] => [d]
  | d :: ds' => (d + 128) :: leb_bytes ds'
  end.

Definition digit (d : Z) : Prop := 0 <= d < 128.

Lemma leb_bytes_length ds : length (leb_bytes ds) = length ds.
Proof.
  induction ds as [|d ds IH]; [done|]. destruct ds; [done|]. cbn [leb_bytes length] in *. by rewrite IH.
Qed.

Lemma digits_range ds : Forall digit ds -> 0 <= digits ds < 2 ^ (7 * Z.of_nat (length ds)).
Proof.
  unfold digit. induction 1 as [|d ds Hd _ IH]; [cbn; lia|]. cbn [digits foldr length] in *. fold (digits ds).
  replace (7 * Z.of_nat (S (length ds))) with (7 + 7 * Z.of_nat (length ds)) by lia.
  rewrite Z.pow_add_r by lia. change (2 ^ 7) with 128. fold (digits ds) in IH. lia.
Qed.

Lemma forallb_below n (P : Z -> bool) d :
  forallb P (Z.of_nat <$> seq 0 n) = true -> 0 <= d < Z.of_nat n -> P d = true.
Proof.
  intros H Hd. apply (proj1 (forallb_forall _ _) H). apply list_elem_of_In, list_elem_of_fmap.
  exists (Z.to_nat d). split; [lia|]. apply elem_of_seq. lia.
Qed.

(** The masks the readers apply to a byte. *)
Lemma digit_masks d : digit d ->
  Z.land d 127 = d /\ Z.land (d + 128) 127 = d /\
  (Z.land d 128 =? 0) = true /\ (Z.land (d + 128) 128 =? 0) = false /\ (Z.land d 64 =? 0) = (d <? 64).
Proof.
  intros Hd.
  pose proof (forallb_below 128 (fun d => (Z.land d 127 =? d) && (Z.land (d + 128) 127 =? d) && (Z.land d 128 =? 0)
    && negb (Z.land (d + 128) 128 =? 0) && eqb (Z.land d 64 =? 0) (d <? 64)) d ltac:(by vm_compute) Hd) as H.
  cbn beta in H. rewrite !andb_true_iff, negb_true_iff, eqb_true_iff, !Z.eqb_eq in H. rewrite Z.eqb_eq. tauto.
Qed.

Lemma quad_eq (a a' b b' c c' d d' : Z) :
  a = a' -> b = b' -> c = c' -> d = d' -> Some (a, b, c, d) = Some (a', b', c', d').
Proof. congruence. Qed.

Lemma length_ne {A} (l : list A) n : (0 < length l <= n)%nat -> l <> [].
Proof. intros H ->. cbn in H. lia. Qed.

Lemma leb128_loop_digits ds : forall fuel m off value shift,
  ds <> [] -> Forall digit ds -> (length ds <= fuel)%nat -> holds m off (leb_bytes ds) ->
  0 <= shift -> shift + 7 * (Z.of_nat (length ds) - 1) < 64 ->
  0 <= value < 2 ^ shift -> value + digits ds * 2 ^ shift < 2 ^ 64 ->
  leb128_loop fuel m off value shift =
    Some (value + digits ds * 2 ^ shift, shift + 7 * Z.of_nat (length ds), default 0 (last ds),
          off + Z.of_nat (length ds)).
Proof.
  induction ds as [|d ds IH]; intros fuel m off value shift Hne Hds Hf Hb Hs Hl Hv Ht; [done|].
  destruct fuel as [|f]; [cbn in Hf; lia|]. apply Forall_cons in Hds as [Hd Hds].
  destruct (digit_masks d Hd) as (E1 & E2 & E3 & E4 & _). pose proof (digits_range ds Hds) as Hr.
  cbn [digits foldr] in Ht. fold (digits ds) in Ht. cbn [length] in Hf, Hl.
  assert (d * 2 ^ shift < 2 ^ 64) as Hd64 by nia.
  assert (Z.lor value (u64 (Z.shiftl d shift)) = value + d * 2 ^ shift) as Elor.
  { rewrite Z.shiftl_mul_pow2 by lia. rewrite u64_small by (unfold digit in Hd; nia). by apply lor_disjoint. }
  cbn [leb128_loop]. replace (64 <=? shift) with false by lia.
  destruct ds as [|d' ds].
  - cbn [leb_bytes] in Hb. apply holds_cons in Hb as [Hb _]. rewrite Hb, E1, E3, Elor.
    apply quad_eq; cbn; lia || done.
  - change (leb_bytes (d :: d' :: ds)) with ((d + 128) :: leb_bytes (d' :: ds)) in Hb.
    apply holds_cons in Hb as [Hb Hb']. rewrite Hb, E2, E4, Elor.
    rewrite IH; [..|done|done|lia|done|lia|cbn [length] in *; lia| |].
    + cbn [digits foldr length last]. fold (digits ds). rewrite Z.pow_add_r by lia. change (2 ^ 7) with 128.
      apply quad_eq; lia || done.
    + rewrite Z.pow_add_r by lia. change (2 ^ 7) with 128. unfold digit in Hd. nia.
    + rewrite Z.pow_add_r by lia. change (2 ^ 7) with 128. lia.
Qed.

(** The encoders: [n] bounds the number of digits. *)
Fixpoint uleb_digits (n : nat) (v : Z) : list Z :=
  match n with
  | O => []
  | S n' => if v <? 128 then [v] else v mod 128 :: uleb_digits n' (v / 128)
  end.

Fixpoint sleb_digits (n : nat) (v : Z) : list Z :=
  match n with
  | O => []
  | S n' => if (-64 <=? v) && (v <? 64) then [v mod 128] else v mod 128 :: sleb_digits n' (v / 128)
  end.

Definition uleb128 (v : Z) : list Z := leb_bytes (uleb_digits 10 v).
Definition sleb128 (v : Z) : list Z := leb_bytes (sleb_digits 10 v).

Lemma uleb_digits_spec n : forall v, 0 <= v < 2 ^ (7 * Z.of_nat n) -> (0 < n)%nat ->
  let ds := uleb_digits n v in
  Forall digit ds /\ digits ds = v /\ (0 < length ds <= n)%nat.
Proof.
  unfold digit. induction n as [|n IH]; intros v Hv Hn; [lia|]. cbn [uleb_digits].
  destruct (Z.ltb_spec v 128).
  - cbn. split_and!; [apply Forall_singleton; lia|lia|lia|lia].
  - replace (7 * Z.of_nat (S n)) with (7 + 7 * Z.of_nat n) in Hv by lia. rewrite Z.pow_add_r in Hv by lia.
    change (2 ^ 7) with 128 in Hv.
    destruct n as [|n]; [cbn in Hv; lia|].
    destruct (IH (v / 128)) as (H1 & H2 & H3); [zdiv|lia|]. cbn [digits foldr length]. fold (digits (uleb_digits (S n) (v / 128))).
    split_and!; [|zdiv|lia|lia]. apply Forall_cons. split; [zdiv|done].
Qed.

Lemma sleb_digits_spec n : forall v, - 2 ^ (7 * Z.of_nat n - 1) <= v < 2 ^ (7 * Z.of_nat n - 1) -> (0 < n)%nat ->
  let ds := sleb_digits n v in
  Forall digit ds /\ (0 < length ds <= n)%nat /\
  digits ds = v mod 2 ^ (7 * Z.of_nat (length ds)) /\
  - 2 ^ (7 * Z.of_nat (length ds) - 1) <= v < 2 ^ (7 * Z.of_nat (length ds) - 1) /\
  (default 0 (last ds) <? 64) = (0 <=? v) /\
  ((1 < length ds)%nat -> ~ - 2 ^ (7 * Z.of_nat (length ds) - 8) <= v < 2 ^ (7 * Z.of_nat (length ds) - 8)).
Proof.
  unfold digit. induction n as [|n IH]; intros v Hv Hn; [lia|]. cbn [sleb_digits].
  destruct ((-64 <=? v) && (v <? 64)) eqn:E; bools.
  - cbn. split_and!; [apply Forall_singleton; zdiv|lia|lia|zdiv|lia|lia| |lia].
    apply eq_true_iff_eq. rewrite Z.ltb_lt, Z.leb_le. zdiv.
  - destruct n as [|n]; [cbn in Hv; apply andb_false_iff in E as [?|?]; bools; lia|].
    replace (7 * Z.of_nat (S (S n)) - 1) with (7 + (7 * Z.of_nat (S n) - 1)) in Hv by lia.
    rewrite Z.pow_add_r in Hv by lia. change (2 ^ 7) with 128 in Hv.
    destruct (IH (v / 128)) as (H1 & H2 & H3 & H4 & H5 & H6); [zdiv|lia|].
    set (ds := sleb_digits (S n) (v / 128)) in *.
    cbn [digits foldr length]. fold (digits ds). rewrite H3.
    replace (7 * Z.of_nat (S (length ds))) with (7 + 7 * Z.of_nat (length ds)) by lia.
    replace (7 + 7 * Z.of_nat (length ds) - 1) with (7 + (7 * Z.of_nat (length ds) - 1)) by lia.
    replace (7 + 7 * Z.of_nat (length ds) - 8) with (7 * Z.of_nat (length ds) - 1) by lia.
    rewrite !Z.pow_add_r by lia. change (2 ^ 7) with 128.
    split_and!; [|lia|lia| |zdiv|zdiv| |].
    + apply Forall_cons. split; [zdiv|done].
    + rewrite Z.rem_mul_r by lia. done.
    + rewrite last_cons. destruct (last ds) as [x|] eqn:El.
      * cbn [default] in *. rewrite H5. apply eq_true_iff_eq. rewrite !Z.leb_le. zdiv.
      * apply last_None in El. rewrite El in H2. cbn in H2. lia.
    + intros _ Hc. destruct (decide (length ds = 1%nat)) as [E1|].
      * rewrite E1 in Hc. change (2 ^ (7 * Z.of_nat 1 - 1)) with 64 in Hc.
        apply andb_false_iff in E as [?|?]; bools; lia.
      * apply H6; [lia|]. replace (7 * Z.of_nat (length ds) - 1) with (7 + (7 * Z.of_nat (length ds) - 8)) in Hc by lia.
        rewrite Z.pow_add_r in Hc by lia. change (2 ^ 7) with 128 in Hc. zdiv.
Qed.

Lemma uleb128_length v : 0 <= v < 2 ^ 64 -> (0 < length (uleb128 v) <= 10)%nat.
Proof.
  intros Hv. unfold uleb128. rewrite leb_bytes_length.
  destruct (uleb_digits_spec 10 v) as (_ & _ & H); [cbn in *; lia|lia|]. exact H.
Qed.

Lemma read_uleb128_run fuel m off v :
  0 <= v < 2 ^ 64 -> holds m off (uleb128 v) -> (10 <= fuel)%nat ->
  read_uleb128 fuel m off = Some (v, off + Z.of_nat (length (uleb128 v))).
Proof.
  intros Hv Hm Hf. destruct (uleb_digits_spec 10 v) as (Hd & Ev & Hl); [cbn in *; lia|lia|].
  unfold uleb128 in *. rewrite leb_bytes_length. unfold read_uleb128.
  rewrite (leb128_loop_digits (uleb_digits 10 v)); [|by eapply length_ne|done|lia|done|lia|lia|lia|]; rewrite Ev; [|lia].
  change (2 ^ 0) with 1. do 2 f_equal. lia.
Qed.

(** The loop on a signed number, and the sign bit of its last byte. *)
Lemma sleb128_loop_run fuel m off v :
  - 2 ^ 63 <= v < 2 ^ 63 -> holds m off (sleb128 v) -> (10 <= fuel)%nat ->
  let n := length (sleb128 v) in
  v mod 2 ^ (7 * Z.of_nat n) < 2 ^ 64 ->
  exists b, leb128_loop fuel m off 0 0 =
      Some (v mod 2 ^ (7 * Z.of_nat n), 7 * Z.of_nat n, b, off + Z.of_nat n) /\
    (Z.land b 64 =? 0) = (0 <=? v).
Proof.
  intros Hv Hm Hf n Hn. subst n. destruct (sleb_digits_spec 10 v) as (Hd & Hl & Ev & _ & Hs & _); [cbn in *; lia|lia|].
  unfold sleb128 in *. rewrite leb_bytes_length in *. set (ds := sleb_digits 10 v) in *.
  destruct (last ds) as [b|] eqn:El; [|apply last_None in El; rewrite El in Hl; cbn in Hl; lia].
  assert (digit b) as Hb by (apply (proj1 (Forall_forall _ _) Hd), last_Some_elem_of, El).
  exists b. split; [|by rewrite (proj2 (proj2 (proj2 (proj2 (digit_masks b Hb))))), <- Hs].
  rewrite (leb128_loop_digits ds); [|by eapply length_ne|done|lia|done|lia|lia|lia|rewrite Ev; lia].
  rewrite El, Ev. change (2 ^ 0) with 1. apply quad_eq; cbn; lia.
Qed.

Lemma sleb128_length v : - 2 ^ 63 <= v < 2 ^ 63 ->
  let n := Z.of_nat (length (sleb128 v)) in
  0 < n <= 10 /\ - 2 ^ (7 * n - 1) <= v < 2 ^ (7 * n - 1) /\
  (1 < n -> ~ - 2 ^ (7 * n - 8) <= v < 2 ^ (7 * n - 8)).
Proof.
  intros Hv. unfold sleb128. rewrite leb_bytes_length.
  destruct (sleb_digits_spec 10 v) as (_ & Hl & _ & Hr & _ & Hmin); [cbn in *; lia|lia|].
  split_and!; [lia|lia|lia|lia|]. intros. apply Hmin. lia.
Qed.

Lemma sign_extend v s : 0 <= s < 64 -> - 2 ^ s <= v < 0 -> Z.lor (v mod 2 ^ s) (u64 (- 2 ^ s)) = v + 2 ^ 64.
Proof.
  intros Hs Hv. assert (2 ^ 64 = 2 ^ (64 - s) * 2 ^ s) as E by (rewrite <- Z.pow_add_r by lia; f_equal; lia).
  assert (0 < 2 ^ s) by lia.
  assert (u64 (- 2 ^ s) = (2 ^ (64 - s) - 1) * 2 ^ s) as ->.
  { unfold u64. change 18446744073709551616 with (2 ^ 64).
    symmetry. apply Z.mod_unique_pos with (q := -1); [|lia].
    assert (1 < 2 ^ (64 - s)) by (apply Z.pow_gt_1; lia). nia. }
  rewrite lor_disjoint by (lia || apply Z.mod_pos_bound; lia).
  assert (v mod 2 ^ s = v + 2 ^ s) as ->; [|lia].
  symmetry. apply Z.mod_unique_pos with (q := -1); lia.
Qed.

Lemma read_sleb128_run fuel m off v :
  - 2 ^ 27 <= v < 2 ^ 63 -> holds m off (sleb128 v) -> (10 <= fuel)%nat ->
  read_sleb128 fuel m off = Some (v, off + Z.of_nat (length (sleb128 v))).
Proof.
  intros Hv Hm Hf. destruct (sleb128_length v) as (Hl & Hr & Hmin); [lia|].
  pose proof (sleb128_loop_run fuel m off v ltac:(lia) Hm Hf) as Hrun. cbn zeta in *.
  set (n := Z.of_nat (length (sleb128 v))) in *. unfold read_sleb128.
  destruct (Z.leb_spec 0 v) as [H0|H0].
  - assert (v mod 2 ^ (7 * n) = v) as E.
    { apply Z.mod_small. split; [lia|]. apply (Z.lt_le_trans _ _ _ (proj2 Hr)), Z.pow_le_mono_r; lia. }
    rewrite E in Hrun. destruct Hrun as (b & -> & ->); [lia|]. rewrite andb_false_r. do 2 f_equal.
    unfold i64. zdiv.
  - assert (n = 1 \/ n = 2 \/ n = 3 \/ n = 4) as Hn.
    { destruct (Z.ltb_spec 4 n); [|lia]. exfalso. apply Hmin; [lia|].
      assert (2 ^ 27 <= 2 ^ (7 * n - 8)) by (apply Z.pow_le_mono_r; lia). lia. }
    clearbody n. destruct Hrun as (b & -> & ->).
    + destruct Hn as [-> | [-> | [-> | ->]]]; zdiv.
    + cbn [negb]. rewrite andb_true_r. replace (7 * n <? 64) with true by lia. replace (32 <=? 7 * n) with false by lia.
      rewrite Z.shiftl_1_l, (i32_small (2 ^ _)) by (destruct Hn as [-> | [-> | [-> | ->]]]; cbn; lia).
      rewrite sign_extend; [do 2 f_equal; unfold i64; zdiv|lia|].
      assert (2 ^ (7 * n - 1) <= 2 ^ (7 * n)) by (apply Z.pow_le_mono_r; lia). lia.
Qed.

(** The shift of an [int] that extends the sign of a longer number is undefined. *)
Lemma read_sleb128_undefined fuel m off v :
  - 2 ^ 62 <= v < - 2 ^ 27 -> holds m off (sleb128 v) -> (10 <= fuel)%nat -> read_sleb128 fuel m off = None.
Proof.
  intros Hv Hm Hf. destruct (sleb128_length v) as (Hl & Hr & Hmin); [lia|].
  pose proof (sleb128_loop_run fuel m off v ltac:(lia) Hm Hf) as Hrun. cbn zeta in *.
  set (n := Z.of_nat (length (sleb128 v))) in *. unfold read_sleb128.
  assert (5 <= n).
  { destruct (Z.ltb_spec n 5); [|lia]. assert (2 ^ (7 * n - 1) <= 2 ^ 27) by (apply Z.pow_le_mono_r; lia). lia. }
  assert (n <= 9).
  { destruct (Z.ltb_spec 9 n); [|lia]. exfalso. apply Hmin; [lia|]. replace n with 10 by lia. cbn. lia. }
  destruct Hrun as (b & -> & ->).
  - apply (Z.lt_le_trans _ (2 ^ (7 * n))); [apply Z.mod_pos_bound; lia|apply Z.pow_le_mono_r; lia].
  - replace (7 * n <? 64) with true by lia. replace (32 <=? 7 * n) with true by lia. by replace (0 <=? v) with false by lia.
Qed.

(** ** Fixed-width integers *)

Lemma read_uint_loop_run n : forall i m off out,
  0 <= i -> 0 <= out < 2 ^ (8 * i) ->
  read_uint_loop n i m off out = (out + load_le n m off * 2 ^ (8 * i), off + Z.of_nat n).
Proof.
  induction n as [|n IH]; intros i m off out Hi Ho; cbn [read_uint_loop load_le]; [f_equal; lia|].
  rewrite (Z.shiftl_mul_pow2 i 3) by lia. change (2 ^ 3) with 8. rewrite (Z.mul_comm i 8).
  rewrite Z.shiftl_mul_pow2, lor_disjoint by lia.
  pose proof (load8_range m off). assert (2 ^ (8 * (i + 1)) = 256 * 2 ^ (8 * i)) as E.
  { replace (8 * (i + 1)) with (8 + 8 * i) by lia. by rewrite Z.pow_add_r by lia. }
  rewrite IH; [|lia|rewrite E; nia]. rewrite E. f_equal; lia.
Qed.

Fixpoint le_bytes (n : nat) (v : Z) : list Z :=
  match n with O => [] | S n' => v mod 256 :: le_bytes n' (v / 256) end.

Lemma length_le_bytes n v : length (le_bytes n v) = n.
Proof. revert v. induction n; intros v; cbn; [done|]. by rewrite IHn. Qed.

Lemma load_le_holds n : forall m off v, holds m off (le_bytes n v) -> load_le n m off = v mod 256 ^ Z.of_nat n.
Proof.
  induction n as [|n IH]; intros m off v H; cbn [le_bytes load_le] in *; [by rewrite Z.mod_1_r|].
  apply holds_cons in H as [-> H]. rewrite (IH _ _ _ H), Nat2Z.inj_succ, Z.pow_succ_r, Z.rem_mul_r by lia. lia.
Qed.

Lemma read_uint_run n m off v :
  0 <= v < 256 ^ Z.of_nat n -> holds m off (le_bytes n v) ->
  read_uint_loop n 0 m off 0 = (v, off + Z.of_nat n).
Proof.
  intros Hv H. rewrite read_uint_loop_run by (cbn; lia). rewrite (load_le_holds _ _ _ _ H), Z.mod_small by done.
  f_equal. cbn. lia.
Qed.

(** * The readers invert the encoders *)

Lemma holds_store_bytes m a l : Forall (fun b => 0 <= b < 256) l -> holds (store_bytes m a l) a l.
Proof.
  intros H i b Hi. rewrite (load8_store_bytes l m a i b Hi). apply Z.mod_small.
  by apply (Forall_lookup_1 _ _ _ _ H Hi).
Qed.

(** C28.  The readers invert the encodings of the DWARF format: every 64-bit unsigned
    number, and every signed number from -2^27 up, is read back from its shortest
    encoding, and the offset ends behind it.  Below -2^27 and down to -2^62 the encoding
    takes five to nine bytes and [1 << shift] shifts an [int] by 35 bits or more, which C
    leaves undefined (an encoding of ten bytes fills the word and is not extended). *)
Theorem leb128_roundtrip (fuel : nat) (m : mem) (off : Z) :
  (10 <= fuel)%nat ->
  (forall v, 0 <= v < 2 ^ 64 -> holds m off (uleb128 v) ->
     read_uleb128 fuel m off = Some (v, off + Z.of_nat (length (uleb128 v)))) /\
  (forall v, - 2 ^ 27 <= v < 2 ^ 63 -> holds m off (sleb128 v) ->
     read_sleb128 fuel m off = Some (v, off + Z.of_nat (length (sleb128 v)))) /\
  (forall v, - 2 ^ 62 <= v < - 2 ^ 27 -> holds m off (sleb128 v) -> read_sleb128 fuel m off = None).
Proof.
  intros Hf. split_and!; intros v Hv Hm; [by apply read_uleb128_run|by apply read_sleb128_run|by eapply read_sleb128_undefined].
Qed.

(** -5 takes one byte, a line number delta below -2^27 five. *)
Lemma leb128_roundtrip_witness :
  read_sleb128 10 (store_bytes ∅ 64 (sleb128 (-5))) 64 = Some (-5, 65) /\
  read_uleb128 10 (store_bytes ∅ 64 (uleb128 (2 ^ 64 - 1))) 64 = Some (2 ^ 64 - 1, 74) /\
  read_sleb128 10 (store_bytes ∅ 64 (sleb128 (- 2 ^ 27 - 1))) 64 = None.
Proof.
  split_and!.
  - apply (proj1 (proj2 (leb128_roundtrip 10 _ 64 ltac:(lia)))); [lia|].
    apply holds_store_bytes. repeat constructor; vm_compute; congruence.
  - apply (proj1 (leb128_roundtrip 10 _ 64 ltac:(lia))); [lia|].
    apply holds_store_bytes. repeat constructor; vm_compute; congruence.
  - apply (proj2 (proj2 (leb128_roundtrip 10 _ 64 ltac:(lia)))) with (v := - 2 ^ 27 - 1); [lia|].
    apply holds_store_bytes. repeat constructor; vm_compute; congruence.
Defined.
