(* ===== verification/DebugLine.v ===== *)
(** kernel/elf.c, [make_addr_line]: the line number program of the .debug_line section
    fills the tables of directories, files and rows that follow the section in memory.
    [None] stands for exhausted fuel and for undefined behaviour of C (a division by
    zero, or a shift in a reader). *)

From S2P Require Import Prelude Mem CString Leb128.

(** * Data *)

(** [addr_line] of kernel/process.h: three 64-bit integers. *)
Record addr_line := { al_addr : Z; al_line : Z; al_file : Z }.
#[export] Instance eta_addr_line : Eta addr_line := fun r => Build_addr_line (al_addr r) (al_line r) (al_file r).

Definition load_addr_line (m : mem) (a : Z) : addr_line :=
  {| al_addr := load64 m a; al_line := load64 m (a + 8); al_file := load64 m (a + 16) |}.
Definition store_addr_line (m : mem) (a : Z) (r : addr_line) : mem :=
  store64 (store64 (store64 m a (al_addr r)) (a + 8) (al_line r)) (a + 16) (al_file r).

(** [debug_header] of kernel/elf.h, packed: the fields the program reads. *)
Definition DEBUG_HEADER : Z := 27.
Definition min_instruction_length (m : mem) (dh : Z) : Z := load8 m (dh + 10).
Definition line_base (m : mem) (dh : Z) : Z := (load8 m (dh + 12) + 128) mod 256 - 128.
Definition line_range (m : mem) (dh : Z) : Z := load8 m (dh + 13).
Definition opcode_base (m : mem) (dh : Z) : Z := load8 m (dh + 14).

(** The fields of the process that [make_addr_line] sets. *)
Record line_info := { debugline : Z; dir_tab : Z; file_tab : Z; line_tab : Z; line_cnt : Z }.

(** * make_addr_line *)

(** The directory names: each entry of the table points to its text. *)
Fixpoint read_dirs (fuel : nat) (m : mem) (dir dir_ind off : Z) : option (mem * Z * Z) :=
  match fuel with
  | O => None
  | S f =>
      if load8 m off =? 0 then Some (m, dir_ind, off)
      else
        let m := store64 m (dir + 8 * dir_ind) off in
        e ← strlen_from fuel m off;
        read_dirs f m dir (dir_ind + 1) (e + 1)
  end.

(** The file entries, [struct code_file]: the index of the directory and the name. *)
Fixpoint read_files (fuel : nat) (m : mem) (file file_ind dir_base off : Z) : option (mem * Z * Z) :=
  match fuel with
  | O => None
  | S f =>
      if load8 m off =? 0 then Some (m, file_ind, off)
      else
        let m := store64 m (file + 16 * file_ind + 8) off in
        e ← strlen_from fuel m off;
        '(dir, off) ← read_uleb128 fuel m (e + 1);
        let m := store64 m (file + 16 * file_ind) (u64 (dir - 1 + dir_base)) in
        '(_, off) ← read_uleb128 fuel m off;
        '(_, off) ← read_uleb128 fuel m off;
        read_files f m file (file_ind + 1) dir_base off
  end.

(** The state of the line number program: memory, position, registers and the number of
    rows. *)
Record machine := { mc_mem : mem; mc_off : Z; mc_regs : addr_line; mc_ind : Z }.
#[export] Instance eta_machine : Eta machine := fun c => Build_machine (mc_mem c) (mc_off c) (mc_regs c) (mc_ind c).

(** A row at the address of the last one replaces it. *)
Definition push_row (line file_base : Z) (c : machine) : machine :=
  let m := mc_mem c in
  let r := mc_regs c in
  let i := if (0 <? mc_ind c) && (load64 m (line + 24 * (mc_ind c - 1)) =? al_addr r)
           then mc_ind c - 1 else mc_ind c in
  c <| mc_mem := store_addr_line m (line + 24 * i) (r <| al_file := u64 (al_file r + (file_base - 1)) |>) |>
    <| mc_ind := i + 1 |>.

Definition advance_addr (d : Z) (c : machine) : machine :=
  c <| mc_regs := (mc_regs c) <| al_addr := u64 (al_addr (mc_regs c) + d) |> |>.
Definition advance_line (d : Z) (c : machine) : machine :=
  c <| mc_regs := (mc_regs c) <| al_line := u64 (al_line (mc_regs c) + d) |> |>.
Definition goto (off : Z) (c : machine) : machine := c <| mc_off := off |>.

(** The extended opcodes; [true] is the jump to [endop].  The operands of an opcode that
    is not handled are not skipped. *)
Definition extended_op (fuel : nat) (line file_base : Z) (c : machine) : option (bool * machine) :=
  '(_, off) ← read_uleb128 fuel (mc_mem c) (mc_off c);
  let op := load8 (mc_mem c) off in
  let c := goto (off + 1) c in
  match op with
  | 1 => Some (true, push_row line file_base c)
  | 2 =>
      let '(a, off) := read_uint64 (mc_mem c) (mc_off c) in
      Some (false, goto off (c <| mc_regs := (mc_regs c) <| al_addr := a |> |>))
  | 4 => '(_, off) ← read_uleb128 fuel (mc_mem c) (mc_off c); Some (false, goto off c)
  | _ => Some (false, c)
  end.

(** A special opcode; [int] arithmetic, division rounds towards zero. *)
Definition special_op (dh line file_base op : Z) (c : machine) : option machine :=
  let m := mc_mem c in
  let adjust := op - opcode_base m dh in
  if line_range m dh =? 0 then None
  else
    let addr_delta := Z.quot adjust (line_range m dh) * min_instruction_length m dh in
    let line_delta := line_base m dh + Z.rem adjust (line_range m dh) in
    Some (push_row line file_base (advance_line line_delta (advance_addr addr_delta c))).

(** One round of the loop over the opcodes of a unit. *)
Definition line_step (fuel : nat) (dh line file_base : Z) (c : machine) : option (bool * machine) :=
  let m := mc_mem c in
  let op := load8 m (mc_off c) in
  let c := goto (mc_off c + 1) c in
  match op with
  | 0 => extended_op fuel line file_base c
  | 1 => Some (false, push_row line file_base c)
  | 2 =>
      '(delta, off) ← read_uleb128 fuel m (mc_off c);
      Some (false, goto off (advance_addr (delta * min_instruction_length m dh) c))
  | 3 => '(delta, off) ← read_sleb128 fuel m (mc_off c); Some (false, goto off (advance_line delta c))
  | 4 =>
      '(f, off) ← read_uleb128 fuel m (mc_off c);
      Some (false, goto off (c <| mc_regs := (mc_regs c) <| al_file := f |> |>))
  | 5 => '(_, off) ← read_uleb128 fuel m (mc_off c); Some (false, goto off c)
  | 6 | 7 => Some (false, c)
  | 8 =>
      if line_range m dh =? 0 then None
      else Some (false, advance_addr (Z.quot (255 - opcode_base m dh) (line_range m dh)
                                      * min_instruction_length m dh) c)
  | 9 => let '(delta, off) := read_uint16 m (mc_off c) in Some (false, goto off (advance_addr delta c))
  | _ => c ← special_op dh line file_base op c; Some (false, c)
  end.

Fixpoint line_loop (fuel : nat) (dh line file_base : Z) (c : machine) : option machine :=
  match fuel with
  | O => None
  | S f =>
      '(stop, c) ← line_step fuel dh line file_base c;
      if stop : bool then Some c else line_loop f dh line file_base c
  end.

(** The loop over the compilation units, up to [e]. *)
Fixpoint unit_loop (fuel : nat) (t : line_info) (e : Z) (m : mem) (dir_ind file_ind line_ind off : Z)
    : option (mem * Z) :=
  match fuel with
  | O => None
  | S f =>
      if off <? e then
        '(m, dir_ind', o) ← read_dirs fuel m (dir_tab t) dir_ind (off + DEBUG_HEADER);
        '(m, file_ind', o) ← read_files fuel m (file_tab t) file_ind dir_ind (o + 1);
        c ← line_loop fuel off (line_tab t) file_ind
              {| mc_mem := m; mc_off := o + 1;
                 mc_regs := {| al_addr := 0; al_line := 1; al_file := 1 |}; mc_ind := line_ind |};
        unit_loop f t e (mc_mem c) dir_ind' file_ind' (mc_ind c) (mc_off c)
      else Some (m, line_ind)
  end.

(** The tables follow the section: 64 directories, 64 files and the rows. *)
Definition make_addr_line (fuel : nat) (m : mem) (debug_line length : Z) : option (mem * line_info) :=
  let dir := Z.shiftl (Z.shiftr (u64 (debug_line + length + 7)) 3) 3 in
  let file := dir + 8 * 64 in
  let line := file + 16 * 64 in
  let t := {| debugline := debug_line; dir_tab := dir; file_tab := file; line_tab := line; line_cnt := 0 |} in
  '(m, n) ← unit_loop fuel t (debug_line + length) m 0 0 0 debug_line;
  Some (m, {| debugline := debug_line; dir_tab := dir; file_tab := file; line_tab := line; line_cnt := n |}).

(** * Properties *)

(** ** Line number programs *)

(** The operations of DWARF's line number programs that the decoder knows; [special k]
    is the special opcode with the adjusted value [k]. *)
Inductive line_op :=
  | set_address (a : Z)
  | set_discriminator (d : Z)
  | copy
  | advance_pc (d : Z)
  | advance_line_by (d : Z)
  | set_file (f : Z)
  | set_column (c : Z)
  | negate_stmt
  | set_basic_block
  | const_add_pc
  | fixed_advance_pc (d : Z)
  | special (k : Z).

Record file_entry := { fe_name : list Z; fe_dir : Z; fe_time : Z; fe_size : Z }.

(** A compilation unit; [cu_head] is the part of its header that is not used. *)
Record comp_unit := {
  cu_head : list Z;
  cu_min_inst : Z;
  cu_is_stmt : Z;
  cu_line_base : Z;
  cu_line_range : Z;
  cu_opcode_base : Z;
  cu_opcode_lengths : list Z;
  cu_dirs : list (list Z);
  cu_files : list file_entry;
  cu_ops : list line_op;
}.

(** *** Encoding *)

Definition encode_op (u : comp_unit) (op : line_op) : list Z :=
  match op with
  | set_address a => 0 :: uleb128 9 ++ 2 :: le_bytes 8 a
  | set_discriminator d => 0 :: uleb128 (1 + Z.of_nat (length (uleb128 d))) ++ 4 :: uleb128 d
  | copy => [1]
  | advance_pc d => 2 :: uleb128 d
  | advance_line_by d => 3 :: sleb128 d
  | set_file f => 4 :: uleb128 f
  | set_column c => 5 :: uleb128 c
  | negate_stmt => [6]
  | set_basic_block => [7]
  | const_add_pc => [8]
  | fixed_advance_pc d => 9 :: le_bytes 2 d
  | special k => [cu_opcode_base u + k]
  end.

Definition end_sequence : list Z := 0 :: uleb128 1 ++ [1].

Definition encode_name (n : list Z) : list Z := n ++ [0].
Definition encode_file (f : file_entry) : list Z :=
  encode_name (fe_name f) ++ uleb128 (fe_dir f) ++ uleb128 (fe_time f) ++ uleb128 (fe_size f).

Definition encode_header (u : comp_unit) : list Z :=
  cu_head u ++ [cu_min_inst u; cu_is_stmt u; cu_line_base u mod 256; cu_line_range u; cu_opcode_base u]
  ++ cu_opcode_lengths u.

Definition encode_unit (u : comp_unit) : list Z :=
  encode_header u ++ (cu_dirs u ≫= encode_name) ++ [0] ++ (cu_files u ≫= encode_file) ++ [0]
  ++ (cu_ops u ≫= encode_op u) ++ end_sequence.

(** *** Meaning *)

(** The registers after an operation, and whether it appends a row. *)
Definition op_regs (u : comp_unit) (op : line_op) (r : addr_line) : addr_line * bool :=
  match op with
  | set_address a => (r <| al_addr := a |>, false)
  | copy => (r, true)
  | advance_pc d => (r <| al_addr := u64 (al_addr r + d * cu_min_inst u) |>, false)
  | advance_line_by d => (r <| al_line := u64 (al_line r + d) |>, false)
  | set_file f => (r <| al_file := f |>, false)
  | const_add_pc =>
      (r <| al_addr := u64 (al_addr r + (255 - cu_opcode_base u) / cu_line_range u * cu_min_inst u) |>, false)
  | fixed_advance_pc d => (r <| al_addr := u64 (al_addr r + d) |>, false)
  | special k =>
      (r <| al_addr := u64 (al_addr r + k / cu_line_range u * cu_min_inst u) |>
         <| al_line := u64 (al_line r + (cu_line_base u + k mod cu_line_range u)) |>, true)
  | set_discriminator _ | set_column _ | negate_stmt | set_basic_block => (r, false)
  end.

(** The rows of a program with its closing one. *)
Fixpoint op_rows (u : comp_unit) (ops : list line_op) (r : addr_line) : list addr_line :=
  match ops with
  | [] => [r]
  | op :: ops' => let '(r', row) := op_regs u op r in if row then r' :: op_rows u ops' r' else op_rows u ops' r'
  end.

(** A file number of a unit counts from 1; in the table it follows the files before. *)
Definition global_file (file_base : Z) (r : addr_line) : addr_line :=
  r <| al_file := u64 (al_file r + (file_base - 1)) |>.

Definition unit_rows (file_base : Z) (u : comp_unit) : list addr_line :=
  global_file file_base <$> op_rows u (cu_ops u) {| al_addr := 0; al_line := 1; al_file := 1 |}.

Fixpoint all_rows (file_base : Z) (us : list comp_unit) : list addr_line :=
  match us with
  | [] => []
  | u :: us' => unit_rows file_base u ++ all_rows (file_base + Z.of_nat (length (cu_files u))) us'
  end.

(** Of consecutive rows at one address the last one counts. *)
Fixpoint collapse (rows : list addr_line) : list addr_line :=
  match rows with
  | [] => []
  | r :: rows' =>
      match rows' with
      | r' :: _ => if al_addr r =? al_addr r' then collapse rows' else r :: collapse rows'
      | [] => [r]
      end
  end.

(** *** Programs that fit the decoder *)

Definition byte (b : Z) : Prop := 0 <= b < 256.
Definition u64_ok (v : Z) : Prop := 0 <= v < 2 ^ 64.

Definition op_ok (u : comp_unit) (op : line_op) : Prop :=
  match op with
  | set_address v | set_discriminator v | advance_pc v | set_file v | set_column v => u64_ok v
  | advance_line_by d => - 2 ^ 27 <= d < 2 ^ 63
  | fixed_advance_pc d => 0 <= d < 65536
  | special k => 0 <= k /\ cu_opcode_base u + k <= 255
  | copy | negate_stmt | set_basic_block | const_add_pc => True
  end.

Definition name_ok (n : list Z) : Prop := n <> [] /\ Forall (fun b => 0 < b < 256) n.
Definition file_ok (f : file_entry) : Prop :=
  name_ok (fe_name f) /\ u64_ok (fe_dir f) /\ u64_ok (fe_time f) /\ u64_ok (fe_size f).

Definition unit_ok (u : comp_unit) : Prop :=
  length (cu_head u) = 10%nat /\ length (cu_opcode_lengths u) = 12%nat /\
  byte (cu_min_inst u) /\ -128 <= cu_line_base u < 128 /\ 0 < cu_line_range u < 256 /\
  10 <= cu_opcode_base u < 256 /\
  Forall name_ok (cu_dirs u) /\ Forall file_ok (cu_files u) /\ Forall (op_ok u) (cu_ops u).

Definition row_ok (r : addr_line) : Prop := u64_ok (al_addr r) /\ u64_ok (al_line r) /\ u64_ok (al_file r).

Lemma u64_is_ok v : u64_ok (u64 v).
Proof. apply u64_range. Qed.
#[export] Hint Resolve u64_is_ok : kernel.

Lemma op_regs_ok u op r : op_ok u op -> row_ok r -> row_ok (fst (op_regs u op r)).
Proof.
  intros Hop (H1 & H2 & H3). destruct op; cbn; unfold row_ok; cbn; split_and!; auto with kernel.
Qed.

(** *** Rows *)

(** The step of [collapse]: a row at the address of the last one replaces it. *)
Definition add_row (rows : list addr_line) (r : addr_line) : list addr_line :=
  match last rows with
  | Some r' => if al_addr r' =? al_addr r then removelast rows ++ [r] else rows ++ [r]
  | None => [r]
  end.

Lemma collapse_cons r r' rows :
  collapse (r :: r' :: rows) =
  if al_addr r =? al_addr r' then collapse (r' :: rows) else r :: collapse (r' :: rows).
Proof. done. Qed.

Lemma last_collapse rows : last (collapse rows) = last rows.
Proof.
  induction rows as [|r rows IH]; [done|]. destruct rows as [|r' rows]; [done|].
  rewrite collapse_cons, !(last_cons r). rewrite last_cons in *. case_if; rewrite ?last_cons, IH; by destruct (last rows).
Qed.

Lemma collapse_snoc rows r : collapse (rows ++ [r]) = add_row (collapse rows) r.
Proof.
  induction rows as [|r1 rows IH]; [done|]. destruct rows as [|r2 rows].
  - cbn. unfold add_row. cbn. by destruct (al_addr r1 =? al_addr r).
  - cbn [app] in *. rewrite !collapse_cons, IH. case_if; [done|].
    pose proof (last_collapse (r2 :: rows)) as E. rewrite last_cons in E.
    destruct (collapse (r2 :: rows)) as [|x l]; [by destruct (last rows)|].
    unfold add_row. rewrite !last_cons. destruct (last l); by case_if.
Qed.

Lemma length_collapse rows : (length (collapse rows) <= length rows)%nat.
Proof.
  induction rows as [|r rows IH]; [done|]. destruct rows as [|r' rows]; [done|].
  rewrite collapse_cons. case_if; cbn [length] in *; lia.
Qed.

(** The rows [rows] fill the table at [line]. *)
Definition rows_at (m : mem) (line : Z) (rows : list addr_line) : Prop :=
  forall i r, rows !! i = Some r -> load_addr_line m (line + 24 * Z.of_nat i) = r.

Lemma rows_at_ext m m' line rows :
  (forall a, line <= a < line + 24 * Z.of_nat (length rows) -> load8 m' a = load8 m a) ->
  rows_at m line rows -> rows_at m' line rows.
Proof.
  intros E H i r Hi. rewrite <- (H i r Hi). apply lookup_lt_Some in Hi.
  unfold load_addr_line. f_equal; apply load64_ext; intros; apply E; lia.
Qed.

Lemma unchanged_store_addr_line m a r : unchanged_outside a (a + 24) m (store_addr_line m a r).
Proof.
  unfold store_addr_line. eapply unchanged_trans; [eapply unchanged_trans|].
  all: eapply unchanged_mono; [..|apply unchanged_store64]; lia.
Qed.

Lemma load_store_addr_line m a r : row_ok r -> load_addr_line (store_addr_line m a r) a = r.
Proof.
  intros (H1 & H2 & H3). destruct r as [x y z]. unfold load_addr_line, store_addr_line. cbn in *.
  rewrite !load64_store64_ne, !load64_store64_eq by lia. rewrite load64_store64_ne, load64_store64_eq by lia.
  by rewrite !u64_small by done.
Qed.

Lemma rows_at_snoc m line rows r :
  row_ok r -> rows_at m line rows ->
  rows_at (store_addr_line m (line + 24 * Z.of_nat (length rows)) r) line (rows ++ [r]).
Proof.
  intros Hr H i r' Hi. apply lookup_app_Some in Hi as [Hi|[Hl Hi]].
  - revert i r' Hi. apply (rows_at_ext m); [|done]. intros a Ha. apply unchanged_store_addr_line. lia.
  - apply list_lookup_singleton_Some in Hi as [Hi <-]. replace i with (length rows) by lia.
    by apply load_store_addr_line.
Qed.

Lemma rows_at_removelast m line rows r : rows_at m line (rows ++ [r]) -> rows_at m line rows.
Proof. intros H i r' Hi. apply H. by apply lookup_app_l_Some. Qed.

Lemma push_row_run line fb c rows :
  mc_ind c = Z.of_nat (length rows) -> rows_at (mc_mem c) line rows -> row_ok (mc_regs c) ->
  let c' := push_row line fb c in
  let rows' := add_row rows (global_file fb (mc_regs c)) in
  mc_ind c' = Z.of_nat (length rows') /\ rows_at (mc_mem c') line rows' /\
  mc_off c' = mc_off c /\ mc_regs c' = mc_regs c /\
  unchanged_outside line (line + 24 * (Z.of_nat (length rows) + 1)) (mc_mem c) (mc_mem c').
Proof.
  intros Hi Hr (H1 & H2 & _). cbn zeta.
  assert (row_ok (global_file fb (mc_regs c))) as Hok by (unfold row_ok; cbn; auto with kernel).
  unfold push_row, add_row. rewrite Hi. destruct rows as [|x l _] using rev_ind.
  - cbn [last length]. change (0 <? Z.of_nat 0) with false. cbn [andb].
    split_and!; [done|by apply (rows_at_snoc (mc_mem c) line [])|done|done|].
    eapply unchanged_mono; [..|apply unchanged_store_addr_line]; lia.
  - rewrite last_snoc, removelast_last, length_app. cbn [length].
    rewrite (proj2 (Z.ltb_lt 0 (Z.of_nat (length l + 1)))) by lia. cbn [andb].
    assert (load64 (mc_mem c) (line + 24 * (Z.of_nat (length l + 1) - 1)) = al_addr x) as ->.
    { assert (load_addr_line (mc_mem c) (line + 24 * Z.of_nat (length l)) = x) as <-
        by (apply Hr; by rewrite lookup_app_r, Nat.sub_diag by lia).
      cbn. f_equal. lia. }
    change (al_addr (global_file fb (mc_regs c))) with (al_addr (mc_regs c)).
    destruct (al_addr x =? al_addr (mc_regs c)); rewrite !length_app; cbn [length];
      (split_and!; [cbn; lia| |done|done|eapply unchanged_mono; [..|apply unchanged_store_addr_line]; lia]).
    + replace (Z.of_nat (length l + 1) - 1) with (Z.of_nat (length l)) by lia.
      apply rows_at_snoc; [done|by eapply rows_at_removelast].
    + replace (length l + 1)%nat with (length (l ++ [x])) by (by rewrite length_app). by apply rows_at_snoc.
Qed.

(** *** One operation *)

Lemma header_fields m dh u : unit_ok u -> holds m dh (encode_header u) ->
  min_instruction_length m dh = cu_min_inst u /\ line_base m dh = cu_line_base u /\
  line_range m dh = cu_line_range u /\ opcode_base m dh = cu_opcode_base u.
Proof.
  intros (Hh & _ & _ & Hb & _) H. unfold encode_header in H. apply holds_app in H as [_ H]. rewrite Hh in H.
  apply holds_app in H as [H _]. rewrite !holds_cons in H. destruct H as (H1 & _ & H3 & H4 & H5 & _).
  replace (dh + Z.of_nat 10 + 1 + 1) with (dh + 12) in * by lia.
  replace (dh + 12 + 1) with (dh + 13) in * by lia. replace (dh + 13 + 1) with (dh + 14) in * by lia.
  unfold min_instruction_length, line_base, line_range, opcode_base. rewrite <- H1, H3, <- H4, <- H5.
  split_and!; [done|zdiv|done|done].
Qed.

(** A special opcode takes the last branch of the switch. *)
Lemma line_step_special fuel dh line fb c :
  10 <= load8 (mc_mem c) (mc_off c) ->
  line_step fuel dh line fb c =
    (c ← special_op dh line fb (load8 (mc_mem c) (mc_off c)) (goto (mc_off c + 1) c); Some (false, c)).
Proof.
  intros H. unfold line_step. set (op := load8 (mc_mem c) (mc_off c)) in *. clearbody op.
  destruct op as [|p|p]; [lia| |lia]. do 4 (destruct p as [p|p|]; try lia; try done).
Qed.

Definition apply_op (u : comp_unit) (line fb : Z) (op : line_op) (c : machine) : machine :=
  let '(r, row) := op_regs u op (mc_regs c) in
  let c := c <| mc_off := mc_off c + Z.of_nat (length (encode_op u op)) |> <| mc_regs := r |> in
  if row then push_row line fb c else c.

Lemma machine_eq m o o' r r' i : o = o' -> r = r' -> Build_machine m o r i = Build_machine m o' r' i.
Proof. congruence. Qed.

(** Both sides are the same machine up to the position. *)
Ltac same_machine :=
  apply (f_equal (fun c => Some (false, c))); try apply (f_equal (push_row _ _));
  unfold goto, advance_addr, advance_line, upd; cbn [mc_mem mc_off mc_regs mc_ind]; apply machine_eq; [lia|try done].

Lemma extended_op_run fuel line fb u op m off r ind :
  op_ok u op -> (10 <= fuel)%nat ->
  match op with set_address _ | set_discriminator _ => True | _ => False end ->
  holds m off (encode_op u op) ->
  extended_op fuel line fb (Build_machine m (off + 1) r ind) =
    Some (false, apply_op u line fb op (Build_machine m off r ind)).
Proof.
  intros Hop Hf Hext Ho. unfold extended_op, apply_op. cbn [mc_mem mc_off mc_regs].
  destruct op as [a|d| | | | | | | | | |]; try done; cbn [encode_op op_ok op_regs fst snd length] in *;
    apply holds_cons in Ho as [_ Ho]; apply holds_app in Ho as [Ho1 Ho2]; apply holds_cons in Ho2 as [H2 Ho2].
  - rewrite (read_uleb128_run _ _ _ 9) by (done || lia). cbn [mbind option_bind]. rewrite H2.
    unfold goto at 1 2. cbn [upd eta_machine mc_mem mc_off]. unfold read_uint64.
    erewrite read_uint_run by (exact Ho2 || exact Hop). rewrite length_app. cbn [length]. rewrite length_le_bytes. same_machine.
  - pose proof (uleb128_length d Hop). rewrite (read_uleb128_run _ _ _ (1 + Z.of_nat (length (uleb128 d)))) by (done || lia).
    cbn [mbind option_bind]. rewrite H2. unfold goto at 1 2. cbn [upd eta_machine mc_mem mc_off].
    erewrite read_uleb128_run by (exact Ho2 || exact Hop || done). cbn [mbind option_bind].
    rewrite length_app. cbn [length]. same_machine.
Qed.

Lemma line_step_run fuel dh line fb u op c :
  unit_ok u -> op_ok u op -> holds (mc_mem c) dh (encode_header u) ->
  holds (mc_mem c) (mc_off c) (encode_op u op) -> (10 <= fuel)%nat ->
  line_step fuel dh line fb c = Some (false, apply_op u line fb op c).
Proof.
  intros Hu Hop Hh Ho Hf. destruct (header_fields _ _ _ Hu Hh) as (E1 & E2 & E3 & E4).
  destruct Hu as (_ & _ & Hmin & Hb & Hr & Hob & _). destruct c as [m off r ind]. cbn [mc_mem mc_off] in *.
  pose proof Ho as Ho'. destruct op; cbn [encode_op op_ok] in Ho, Hop; apply holds_cons in Ho as [H0 Ho].
  12: { rewrite line_step_special by (cbn; lia). unfold special_op. cbn [mc_mem mc_off mc_regs goto upd].
    unfold goto, upd. cbn [mc_mem mc_off]. rewrite E1, E2, E3, E4, H0.
    replace (cu_line_range u =? 0) with false by lia. cbn [mbind option_bind].
    replace (cu_opcode_base u + k - cu_opcode_base u) with k by lia. rewrite Z.quot_div_nonneg, Z.rem_mod_nonneg by lia.
    unfold apply_op. cbn [op_regs fst snd encode_op length mc_off mc_regs]. same_machine. }
  all: unfold line_step; cbn [mc_mem mc_off]; rewrite H0.
  1, 2: by apply extended_op_run.
  all: unfold apply_op; cbn [goto mc_off upd eta_machine mc_mem mc_regs mc_ind op_regs fst snd length encode_op].
  all: try (erewrite read_uleb128_run by (exact Ho || exact Hop || done); cbn [mbind option_bind]).
  all: try (erewrite read_sleb128_run by (exact Ho || exact Hop || done); cbn [mbind option_bind]).
  all: rewrite ?E1, ?E3, ?E4.
  all: try same_machine.
  - replace (cu_line_range u =? 0) with false by lia. rewrite Z.quot_div_nonneg by lia. same_machine.
  - unfold read_uint16. erewrite read_uint_run by (exact Ho || exact Hop). rewrite length_le_bytes. same_machine.
Qed.

Lemma line_step_end fuel dh line fb c :
  holds (mc_mem c) (mc_off c) end_sequence -> (10 <= fuel)%nat ->
  line_step fuel dh line fb c = Some (true, push_row line fb (goto (mc_off c + 3) c)).
Proof.
  intros H Hf. change end_sequence with ([0] ++ uleb128 1 ++ [1]) in H. destruct c as [m off r ind]. cbn [mc_mem mc_off] in *.
  apply holds_app in H as [H0 H]. apply holds_cons in H0 as [H0 _]. apply holds_app in H as [H1 H2].
  apply holds_cons in H2 as [H2 _]. unfold line_step. cbn [mc_mem mc_off]. rewrite H0.
  unfold extended_op. cbn [goto upd eta_machine mc_off mc_mem].
  rewrite (read_uleb128_run _ _ _ 1) by (done || lia). cbn [mbind option_bind].
  change (length [0]) with 1%nat in *. unfold goto, upd. cbn [mc_mem mc_off]. change (off + Z.of_nat 1) with (off + 1) in *. rewrite H2.
  apply (f_equal (fun c => Some (true, push_row line fb c))), machine_eq; [|done].
  change (length (uleb128 1)) with 1%nat. lia.
Qed.

(** *** The program of a unit *)

(** What is below the rows is not touched by a row. *)
Lemma holds_below m m' lo hi a l :
  unchanged_outside lo hi m m' -> a + Z.of_nat (length l) <= lo -> holds m a l -> holds m' a l.
Proof. intros Hu Ha. apply holds_ext. intros. apply Hu. lia. Qed.

Lemma line_loop_run dh line fb u ops : forall fuel c pre,
  unit_ok u -> Forall (op_ok u) ops -> row_ok (mc_regs c) -> (length ops + 11 <= fuel)%nat ->
  let code := (ops ≫= encode_op u) ++ end_sequence in
  dh + Z.of_nat (length (encode_header u)) <= line -> mc_off c + Z.of_nat (length code) <= line ->
  holds (mc_mem c) dh (encode_header u) -> holds (mc_mem c) (mc_off c) code ->
  mc_ind c = Z.of_nat (length (collapse pre)) -> rows_at (mc_mem c) line (collapse pre) ->
  let rows := pre ++ (global_file fb <$> op_rows u ops (mc_regs c)) in
  exists c', line_loop fuel dh line fb c = Some c' /\
    mc_off c' = mc_off c + Z.of_nat (length code) /\
    mc_ind c' = Z.of_nat (length (collapse rows)) /\ rows_at (mc_mem c') line (collapse rows) /\
    unchanged_outside line (line + 24 * Z.of_nat (length rows)) (mc_mem c) (mc_mem c').
Proof.
  induction ops as [|op ops IH]; intros fuel c pre Hu Hops Hr Hf code Hdh Hcode Hh Hc Hi Hrows rows;
    subst code rows; (destruct fuel as [|f]; [lia|]); cbn [line_loop].
  - cbn [mbind list_bind app op_rows fmap list_fmap] in *. rewrite line_step_end by (done || lia). cbn [mbind option_bind].
    destruct (push_row_run line fb (goto (mc_off c + 3) c) _ Hi Hrows Hr) as (H1 & H2 & H3 & _ & H5).
    eexists. split; [done|]. rewrite collapse_snoc. pose proof (length_collapse pre).
    split_and!; [exact H3|exact H1|exact H2|]. rewrite length_app. cbn [length].
    eapply unchanged_mono; [..|exact H5]; lia.
  - apply Forall_cons in Hops as [Hop Hops]. change ((op :: ops) ≫= encode_op u) with (encode_op u op ++ (ops ≫= encode_op u)) in *.
    rewrite <- app_assoc in *. apply holds_app in Hc as [Hc1 Hc2]. rewrite length_app in *. cbn [length] in Hf.
    rewrite (line_step_run _ _ _ _ u op) by (done || lia). cbn [mbind option_bind]. unfold apply_op.
    pose proof (op_regs_ok u op (mc_regs c) Hop Hr) as Hr'.
    cbn [op_rows]. destruct (op_regs u op (mc_regs c)) as [r row] eqn:Er. cbn [fst snd] in *.
    set (c1 := c <| mc_off := mc_off c + Z.of_nat (length (encode_op u op)) |> <| mc_regs := r |>) in *.
    destruct row.
    + destruct (push_row_run line fb c1 _ Hi Hrows Hr') as (H1 & H2 & H3 & H4 & H5).
      rewrite <- collapse_snoc in H1, H2. change (mc_mem c1) with (mc_mem c) in H5.
      change (mc_off c1) with (mc_off c + Z.of_nat (length (encode_op u op))) in H3. change (mc_regs c1) with r in H2, H1, H4.
      destruct (IH f (push_row line fb c1) (pre ++ [global_file fb r])) as (c' & E1 & E2 & E3 & E4 & E5);
        [done|done|by rewrite H4|lia|done|rewrite H3; lia|by eapply holds_below| |done|done|].
      { rewrite H3. eapply holds_below; [done| |done]. lia. }
      rewrite H4 in *. cbn [fmap list_fmap]. rewrite <- app_assoc in E3, E4, E5. cbn [app] in E3, E4, E5.
      exists c'. split_and!; [exact E1|rewrite E2, H3; lia|done|done|].
      eapply unchanged_trans; [eapply unchanged_mono; [..|exact H5]|exact E5]; [lia|].
      pose proof (length_collapse pre). rewrite length_app. cbn [length]. lia.
    + destruct (IH f c1 pre) as (c' & E1 & E2 & E3 & E4 & E5); [done|done|done|lia|done|cbn; lia|done|done|done|done|].
      exists c'. split_and!; [done|rewrite E2; cbn; lia|done|done|done].
Qed.

(** *** Directories and files *)

Lemma cstr_holds m a n : name_ok n -> holds m a (encode_name n) -> cstr m a n.
Proof.
  intros [_ Hn]. revert a. induction Hn as [|b n Hb _ IH]; intros a H; cbn in *; apply holds_cons in H as [H0 H]; [done|].
  split_and!; [done|lia|by apply IH].
Qed.

Lemma name_first m a n : name_ok n -> holds m a (encode_name n) -> load8 m a <> 0.
Proof.
  intros [Hne Hn] H. destruct n as [|b n]; [done|]. apply holds_cons in H as [-> _].
  apply Forall_cons in Hn as [? _]. lia.
Qed.

(** Memory below a table keeps its content when an entry is stored. *)
Lemma holds_store64 m a v p l : p + Z.of_nat (length l) <= a -> holds m p l -> holds (store64 m a v) p l.
Proof. intros H. eapply holds_below; [apply unchanged_store64|done]. Qed.

Lemma cstr_store64 m a v p l : p + Z.of_nat (length l) < a -> cstr m p l -> cstr (store64 m a v) p l.
Proof. intros H. apply cstr_ext. intros. apply unchanged_store64. lia. Qed.

Lemma read_dirs_run dir ds : forall fuel m k off,
  let code := ds ≫= encode_name in
  Forall name_ok ds -> (length code < fuel)%nat -> holds m off (code ++ [0]) ->
  0 <= off -> off + Z.of_nat (length code) < 2 ^ 64 -> 0 <= k -> off + Z.of_nat (length code) < dir ->
  exists m', read_dirs fuel m dir k off = Some (m', k + Z.of_nat (length ds), off + Z.of_nat (length code)) /\
    unchanged_outside (dir + 8 * k) (dir + 8 * (k + Z.of_nat (length ds))) m m' /\
    forall i n, ds !! i = Some n -> exists a, load64 m' (dir + 8 * (k + Z.of_nat i)) = a /\
      off <= a /\ a + Z.of_nat (length n) < off + Z.of_nat (length code) /\ cstr m a n.
Proof.
  induction ds as [|n ds IH]; intros fuel m k off code Hds Hf Hm Ho Ho64 Hk Hdir; subst code; (destruct fuel as [|f]; [lia|]);
    cbn [read_dirs].
  - apply holds_cons in Hm as [-> _]. exists m. cbn [mbind list_bind length]. split_and!; [|apply unchanged_refl|done].
    rewrite !Z.add_0_r. done.
  - apply Forall_cons in Hds as [Hn Hds]. change ((n :: ds) ≫= encode_name) with (encode_name n ++ (ds ≫= encode_name)) in *.
    rewrite <- app_assoc in Hm. pose proof (proj1 (proj1 (holds_app _ _ _ _) Hm)) as Hm1.
    rewrite length_app in *. assert (length (encode_name n) = S (length n)) as En by (unfold encode_name; rewrite length_app; cbn; lia).
    pose proof (name_first _ _ _ Hn Hm1) as Hne. apply Z.eqb_neq in Hne. rewrite Hne.
    pose proof (cstr_holds _ _ _ Hn Hm1) as Hc.
    rewrite (strlen_from_spec _ _ _ n) by (try apply cstr_store64; done || lia). cbn [mbind option_bind].
    apply (holds_store64 _ (dir + 8 * k) off) in Hm; [|rewrite !length_app; cbn [length]; lia]. apply holds_app in Hm as [_ Hm].
    rewrite En in Hm. replace (off + Z.of_nat (S (length n))) with (off + Z.of_nat (length n) + 1) in Hm by lia.
    destruct (IH f _ (k + 1) _ Hds ltac:(lia) Hm) as (m' & -> & Hu & Hall); [lia..|].
    exists m'. cbn [length]. split_and!.
    + f_equal. f_equal; [f_equal|]; lia.
    + eapply unchanged_trans; eapply unchanged_mono; [| |apply unchanged_store64| | |exact Hu]; lia.
    + intros [|i] n' Hi; cbn in Hi.
      * simplify_eq. exists off. split_and!; [|lia|lia|done].
        rewrite (unchanged_load64 _ _ _ _ _ Hu) by lia. rewrite Z.add_0_r, load64_store64_eq. apply u64_small. lia.
      * destruct (Hall i n' Hi) as (a & Ha & H1 & H2 & H3). exists a. split_and!; [|lia|lia|].
        -- rewrite <- Ha. f_equal. lia.
        -- revert H3. apply cstr_ext. intros b Hb. symmetry. apply unchanged_store64. lia.
Qed.

Lemma read_files_run file base fs : forall fuel m k off,
  let code := fs ≫= encode_file in
  Forall file_ok fs -> (length code + 10 < fuel)%nat -> holds m off (code ++ [0]) ->
  0 <= off -> off + Z.of_nat (length code) < 2 ^ 64 -> 0 <= k -> off + Z.of_nat (length code) < file ->
  exists m', read_files fuel m file k base off = Some (m', k + Z.of_nat (length fs), off + Z.of_nat (length code)) /\
    unchanged_outside (file + 16 * k) (file + 16 * (k + Z.of_nat (length fs))) m m' /\
    forall i f, fs !! i = Some f ->
      load64 m' (file + 16 * (k + Z.of_nat i)) = u64 (fe_dir f - 1 + base) /\
      exists a, load64 m' (file + 16 * (k + Z.of_nat i) + 8) = a /\
        off <= a /\ a + Z.of_nat (length (fe_name f)) < off + Z.of_nat (length code) /\ cstr m a (fe_name f).
Proof.
  induction fs as [|f fs IH]; intros fuel m k off code Hfs Hf Hm Ho Ho64 Hk Hfile; subst code; (destruct fuel as [|fl]; [lia|]);
    cbn [read_files].
  - apply holds_cons in Hm as [-> _]. exists m. cbn [mbind list_bind length]. split_and!; [|apply unchanged_refl|done].
    rewrite !Z.add_0_r. done.
  - apply Forall_cons in Hfs as [(Hn & H1 & H2 & H3) Hfs].
    change ((f :: fs) ≫= encode_file) with (encode_file f ++ (fs ≫= encode_file)) in *.
    unfold encode_file in Hm at 1. rewrite <- !app_assoc in Hm. pose proof (proj1 (proj1 (holds_app _ _ _ _) Hm)) as Hm1.
    assert (length (encode_file f) = S (length (fe_name f)) + length (uleb128 (fe_dir f)) + length (uleb128 (fe_time f))
      + length (uleb128 (fe_size f)))%nat as Ef by (unfold encode_file, encode_name; rewrite !length_app; cbn; lia).
    assert (length (encode_name (fe_name f)) = S (length (fe_name f))) as En by (unfold encode_name; rewrite length_app; cbn; lia).
    rewrite length_app in *. pose proof (name_first _ _ _ Hn Hm1) as Hne. apply Z.eqb_neq in Hne. rewrite Hne.
    pose proof (cstr_holds _ _ _ Hn Hm1) as Hc.
    rewrite (strlen_from_spec _ _ _ (fe_name f)) by (try apply cstr_store64; done || lia). cbn [mbind option_bind].
    apply (holds_store64 _ (file + 16 * k + 8) off) in Hm; [|rewrite !length_app; cbn [length]; lia].
    apply holds_app in Hm as [_ Hm]. rewrite En in Hm.
    replace (off + Z.of_nat (S (length (fe_name f)))) with (off + Z.of_nat (length (fe_name f)) + 1) in Hm by lia.
    rewrite (read_uleb128_run _ _ _ (fe_dir f) H1 (proj1 (proj1 (holds_app _ _ _ _) Hm))) by lia. cbn [mbind option_bind].
    apply (holds_store64 _ (file + 16 * k) (u64 (fe_dir f - 1 + base))) in Hm; [|rewrite !length_app; cbn [length]; lia].
    apply holds_app in Hm as [_ Hm].
    rewrite (read_uleb128_run _ _ _ (fe_time f) H2 (proj1 (proj1 (holds_app _ _ _ _) Hm))) by lia. cbn [mbind option_bind].
    apply holds_app in Hm as [_ Hm].
    rewrite (read_uleb128_run _ _ _ (fe_size f) H3 (proj1 (proj1 (holds_app _ _ _ _) Hm))) by lia. cbn [mbind option_bind].
    apply holds_app in Hm as [_ Hm].
    destruct (IH fl _ (k + 1) _ Hfs ltac:(lia) Hm) as (m' & -> & Hu & Hall); [lia..|].
    exists m'. cbn [length]. split_and!.
    + f_equal. f_equal; [f_equal|]; lia.
    + eapply unchanged_trans; [eapply unchanged_trans|]; eapply unchanged_mono;
        [| |apply unchanged_store64| | |apply unchanged_store64| | |exact Hu]; lia.
    + intros [|i] f' Hi; cbn in Hi.
      * simplify_eq. rewrite !(unchanged_load64 _ _ _ _ _ Hu), !Z.add_0_r by lia. split.
        -- rewrite load64_store64_eq. apply Z.mod_mod. lia.
        -- exists off. split_and!; [|lia|lia|done]. rewrite load64_store64_ne, load64_store64_eq by lia. apply u64_small. lia.
      * destruct (Hall i f' Hi) as (E1 & a & Ha & Hlo & Hhi & Hs).
        replace (k + Z.of_nat (S i)) with (k + 1 + Z.of_nat i) by lia. split; [done|]. exists a. split_and!; [done|lia|lia|].
        revert Hs. apply cstr_ext. intros b Hb. symmetry.
        rewrite !(unchanged_store64 _ _ _ b) by lia. done.
Qed.

(** *** All units *)

(** The entries of the file table: the index of the directory, and the name. *)
Definition unit_files (dir_base : Z) (u : comp_unit) : list (Z * list Z) :=
  (fun f => (u64 (fe_dir f - 1 + dir_base), fe_name f)) <$> cu_files u.

Fixpoint all_files (dir_base : Z) (us : list comp_unit) : list (Z * list Z) :=
  match us with
  | [] => []
  | u :: us' => unit_files dir_base u ++ all_files (dir_base + Z.of_nat (length (cu_dirs u))) us'
  end.

(** The pointer at [p] is to the text [n], within the section. *)
Definition text_at (lo hi : Z) (m : mem) (p : Z) (n : list Z) : Prop :=
  exists a, load64 m p = a /\ lo <= a /\ a + Z.of_nat (length n) < hi /\ cstr m a n.

Definition dirs_at (lo hi : Z) (m : mem) (dir : Z) (ds : list (list Z)) : Prop :=
  forall i n, ds !! i = Some n -> text_at lo hi m (dir + 8 * Z.of_nat i) n.

Definition files_at (lo hi : Z) (m : mem) (file : Z) (fs : list (Z * list Z)) : Prop :=
  forall i f, fs !! i = Some f ->
    load64 m (file + 16 * Z.of_nat i) = fst f /\ text_at lo hi m (file + 16 * Z.of_nat i + 8) (snd f).

Section tables.
Variables (base e dir : Z).
Hypothesis (Hbase : 0 <= base) (He : e < 2 ^ 64) (Hdir : e <= dir).
Let file := dir + 512.
Let line := dir + 1536.

(** The tables after some units: the memory, the directories, files and rows so far. *)
Definition tables_at (m : mem) (ds : list (list Z)) (fs : list (Z * list Z)) (rows : list addr_line) : Prop :=
  dirs_at base e m dir ds /\ files_at base e m file fs /\ rows_at m line (collapse rows) /\
  Z.of_nat (length ds) <= 64 /\ Z.of_nat (length fs) <= 64.

Lemma text_at_ext m m' p n :
  (forall a, base <= a < e -> load8 m' a = load8 m a) -> (forall a, p <= a < p + 8 -> load8 m' a = load8 m a) ->
  text_at base e m p n -> text_at base e m' p n.
Proof.
  intros Hs Hp (a & Ha & H1 & H2 & H3). exists a. split_and!; [|done|done|].
  - rewrite <- Ha. by apply load64_ext.
  - revert H3. apply cstr_ext. intros. apply Hs. lia.
Qed.

Lemma dirs_at_ext m m' ds :
  (forall a, base <= a < e \/ dir <= a < dir + 8 * Z.of_nat (length ds) -> load8 m' a = load8 m a) ->
  dirs_at base e m dir ds -> dirs_at base e m' dir ds.
Proof.
  intros E H i n Hi. pose proof (lookup_lt_Some _ _ _ Hi).
  apply (text_at_ext m); [intros; apply E; lia..|by apply H].
Qed.

Lemma files_at_ext m m' fs :
  (forall a, base <= a < e \/ file <= a < file + 16 * Z.of_nat (length fs) -> load8 m' a = load8 m a) ->
  files_at base e m file fs -> files_at base e m' file fs.
Proof.
  intros E H i f Hi. pose proof (lookup_lt_Some _ _ _ Hi). destruct (H i f Hi) as [H1 H2]. split.
  - rewrite <- H1. apply load64_ext. intros. apply E. lia.
  - apply (text_at_ext m); [intros; apply E; lia..|done].
Qed.

Lemma dirs_at_app m m' ds ds' lo hi :
  unchanged_outside (dir + 8 * Z.of_nat (length ds)) (dir + 8 * (Z.of_nat (length ds) + Z.of_nat (length ds'))) m m' ->
  base <= lo -> hi <= e -> dirs_at base e m dir ds ->
  (forall i n, ds' !! i = Some n -> exists a, load64 m' (dir + 8 * (Z.of_nat (length ds) + Z.of_nat i)) = a /\
    lo <= a /\ a + Z.of_nat (length n) < hi /\ cstr m a n) ->
  dirs_at base e m' dir (ds ++ ds').
Proof.
  intros Hu Hlo Hhi H H' i n Hi. apply lookup_app_Some in Hi as [Hi|[Hl Hi]].
  - revert i n Hi. apply (dirs_at_ext m); [|done]. intros a Ha. apply Hu. lia.
  - destruct (H' _ _ Hi) as (a & Ha & H1 & H2 & H3). exists a. split_and!; [|lia|lia|].
    + rewrite <- Ha. do 2 f_equal. lia.
    + revert H3. apply cstr_ext. intros b Hb. apply Hu. lia.
Qed.

Lemma files_at_app m m' fs us db lo hi :
  unchanged_outside (file + 16 * Z.of_nat (length fs)) (file + 16 * (Z.of_nat (length fs) + Z.of_nat (length us))) m m' ->
  base <= lo -> hi <= e -> files_at base e m file fs ->
  (forall i f, us !! i = Some f ->
    load64 m' (file + 16 * (Z.of_nat (length fs) + Z.of_nat i)) = u64 (fe_dir f - 1 + db) /\
    exists a, load64 m' (file + 16 * (Z.of_nat (length fs) + Z.of_nat i) + 8) = a /\
      lo <= a /\ a + Z.of_nat (length (fe_name f)) < hi /\ cstr m a (fe_name f)) ->
  files_at base e m' file (fs ++ ((fun f => (u64 (fe_dir f - 1 + db), fe_name f)) <$> us)).
Proof.
  intros Hu Hlo Hhi H H' i f Hi. apply lookup_app_Some in Hi as [Hi|[Hl Hi]].
  - revert i f Hi. apply (files_at_ext m); [|done]. intros a Ha. apply Hu. lia.
  - rewrite list_lookup_fmap in Hi. destruct (us !! (i - length fs)%nat) as [x|] eqn:Ex; [|done]. simplify_eq/=.
    destruct (H' _ _ Ex) as (Ed & a & Ha & H1 & H2 & H3).
    replace (Z.of_nat (length fs) + Z.of_nat (i - length fs)) with (Z.of_nat i) in * by lia.
    split; [done|]. exists a. split_and!; [done|lia|lia|]. revert H3. apply cstr_ext. intros b Hb. apply Hu. lia.
Qed.

Lemma length_ops u ops : (length ops <= length (ops ≫= encode_op u))%nat.
Proof.
  induction ops as [|op ops IH]; [done|].
  change ((op :: ops) ≫= encode_op u) with (encode_op u op ++ (ops ≫= encode_op u)). rewrite length_app.
  destruct op; cbn [encode_op length]; lia.
Qed.

Lemma length_header u : unit_ok u -> Z.of_nat (length (encode_header u)) = DEBUG_HEADER.
Proof. intros (H1 & H2 & _). unfold encode_header. rewrite !length_app, H1, H2. done. Qed.

Definition init_regs : addr_line := {| al_addr := 0; al_line := 1; al_file := 1 |}.

(** The parts of the code of a unit and where they are. *)
Lemma unit_split m off u :
  unit_ok u -> holds m off (encode_unit u) ->
  let dcode := cu_dirs u ≫= encode_name in let fcode := cu_files u ≫= encode_file in
  let ocode := (cu_ops u ≫= encode_op u) ++ end_sequence in
  let o1 := off + DEBUG_HEADER + Z.of_nat (length dcode) in let o2 := o1 + 1 + Z.of_nat (length fcode) in
  holds m off (encode_header u) /\ holds m (off + DEBUG_HEADER) (dcode ++ [0]) /\
  holds m (o1 + 1) (fcode ++ [0]) /\ holds m (o2 + 1) ocode /\
  off + Z.of_nat (length (encode_unit u)) = o2 + 1 + Z.of_nat (length ocode).
Proof.
  intros Hu H dcode fcode ocode o1 o2. pose proof (length_header u Hu) as Lh.
  assert (encode_unit u = encode_header u ++ (dcode ++ [0]) ++ (fcode ++ [0]) ++ ocode) as E
    by (unfold encode_unit, ocode; by rewrite <- !app_assoc).
  rewrite E in *. rewrite !holds_app, !length_app in H. rewrite Lh in H. rewrite !holds_app, !length_app.
  cbn [length] in *. subst o1 o2.
  replace (off + DEBUG_HEADER + Z.of_nat (length dcode + 1)) with (off + DEBUG_HEADER + Z.of_nat (length dcode) + 1) in * by lia.
  replace (off + DEBUG_HEADER + Z.of_nat (length dcode) + 1 + Z.of_nat (length fcode + 1))
    with (off + DEBUG_HEADER + Z.of_nat (length dcode) + 1 + Z.of_nat (length fcode) + 1) in * by lia.
  destruct H as (H1 & (H2 & H3) & (H4 & H5) & H6). split_and!; try done. lia.
Qed.

Lemma unit_run fuel m ds fs rows off u :
  let code := encode_unit u in
  let nd := Z.of_nat (length ds) in let nf := Z.of_nat (length fs) in
  let rows' := rows ++ unit_rows nf u in
  unit_ok u -> base <= off -> off + Z.of_nat (length code) <= e -> holds m off code -> (length code + 12 <= fuel)%nat ->
  nd + Z.of_nat (length (cu_dirs u)) <= 64 -> nf + Z.of_nat (length (cu_files u)) <= 64 ->
  tables_at m ds fs rows ->
  exists m1 o1 m2 o2 c,
    read_dirs fuel m dir nd (off + DEBUG_HEADER) = Some (m1, nd + Z.of_nat (length (cu_dirs u)), o1) /\
    read_files fuel m1 file nf nd (o1 + 1) = Some (m2, nf + Z.of_nat (length (cu_files u)), o2) /\
    line_loop fuel off line nf (Build_machine m2 (o2 + 1) init_regs (Z.of_nat (length (collapse rows)))) = Some c /\
    mc_off c = off + Z.of_nat (length code) /\ mc_ind c = Z.of_nat (length (collapse rows')) /\
    tables_at (mc_mem c) (ds ++ cu_dirs u) (fs ++ unit_files nd u) rows' /\
    unchanged_outside dir (line + 24 * Z.of_nat (length rows')) m (mc_mem c).
Proof.
  intros code nd nf rows' Hu Hoff Hend Hm Hf Hnd Hnf (Td & Tf & Tr & Hd64 & Hf64).
  pose proof (length_header u Hu) as Lh. pose proof (length_ops u (cu_ops u)) as Lo.
  pose proof Hu as (_ & _ & _ & _ & _ & _ & Hds & Hfs & Hops).
  destruct (unit_split m off u Hu Hm) as (Mh & Md & Mf & Mo & Ec). subst code.
  set (dcode := cu_dirs u ≫= encode_name) in *. set (fcode := cu_files u ≫= encode_file) in *.
  set (ocode := (cu_ops u ≫= encode_op u) ++ end_sequence) in *.
  set (o1 := off + DEBUG_HEADER + Z.of_nat (length dcode)) in *. set (o2 := o1 + 1 + Z.of_nat (length fcode)) in *.
  assert (length (cu_ops u ≫= encode_op u) <= length ocode)%nat by (unfold ocode; rewrite length_app; lia).
  unfold DEBUG_HEADER in *.
  destruct (read_dirs_run dir (cu_dirs u) fuel m nd (off + 27) Hds) as (m1 & E1 & U1 & A1); [fold dcode; lia|done|fold dcode; lia..|].
  fold dcode in E1, A1.
  assert (holds m1 (o1 + 1) (fcode ++ [0])) as Mf1 by (eapply holds_below; [exact U1|rewrite length_app; cbn [length]; lia|done]).
  destruct (read_files_run file nd (cu_files u) fuel m1 nf (o1 + 1) Hfs) as (m2 & E2 & U2 & A2); [fold fcode; lia|done|fold fcode; lia..|].
  fold fcode in E2, A2.
  assert (unchanged_outside dir line m m2) as U12.
  { eapply unchanged_trans; eapply unchanged_mono; [| |exact U1| | |exact U2]; lia. }
  destruct (line_loop_run off line nf u (cu_ops u) fuel (Build_machine m2 (o2 + 1) init_regs (Z.of_nat (length (collapse rows)))) rows)
    as (c & E3 & Eo & Ei & Hrows & U3); cbn [mc_mem mc_off mc_regs mc_ind]; [done|done|done|lia|lia|fold ocode; lia| | |done| |].
  { eapply holds_below; [exact U12| |done]. lia. }
  { eapply holds_below; [exact U12| |done]. fold ocode. lia. }
  { eapply rows_at_ext; [|exact Tr]. intros a Ha. apply U12. lia. }
  cbn [mc_mem mc_off mc_regs mc_ind] in *. fold ocode in Eo. exists m1, o1, m2, o2, c.
  split_and!; [done|done|done|lia|done| |].
  - split_and!; [| |done|rewrite length_app; lia|unfold unit_files; rewrite length_app, length_fmap; lia].
    + apply (dirs_at_ext m1); [intros a Ha; rewrite length_app in Ha; rewrite U3, U2 by lia; done|].
      eapply (dirs_at_app m m1 ds (cu_dirs u) (off + 27) o1); [exact U1|lia|lia|done|exact A1].
    + apply (files_at_ext m2).
      { intros a Ha. unfold unit_files in Ha. rewrite length_app, length_fmap in Ha. apply U3. lia. }
      eapply (files_at_app m1 m2 fs (cu_files u) nd (o1 + 1) o2); [exact U2|lia|lia| |exact A2].
      apply (files_at_ext m); [|done]. intros a Ha. apply U1. lia.
  - subst rows'. unfold unit_rows. fold init_regs. eapply unchanged_trans; eapply unchanged_mono; [| |exact U12| | |exact U3]; lia.
Qed.

Lemma unit_loop_run us : forall fuel m ds fs rows off,
  let code := us ≫= encode_unit in
  let nd := Z.of_nat (length ds) in let nf := Z.of_nat (length fs) in
  let rows' := rows ++ all_rows nf us in
  Forall unit_ok us -> base <= off -> off + Z.of_nat (length code) = e -> holds m off code -> (length code + 12 < fuel)%nat ->
  nd + Z.of_nat (length (us ≫= cu_dirs)) <= 64 -> nf + Z.of_nat (length (us ≫= cu_files)) <= 64 ->
  tables_at m ds fs rows ->
  exists m', unit_loop fuel (Build_line_info base dir file line 0) e m nd nf (Z.of_nat (length (collapse rows))) off
      = Some (m', Z.of_nat (length (collapse rows'))) /\
    tables_at m' (ds ++ (us ≫= cu_dirs)) (fs ++ all_files nd us) rows' /\
    unchanged_outside dir (line + 24 * Z.of_nat (length rows')) m m'.
Proof.
  induction us as [|u us IH]; intros fuel m ds fs rows off code nd nf rows' Hus Hoff Hend Hm Hf Hnd Hnf HT;
    subst code rows'; (destruct fuel as [|f]; [lia|]); cbn [unit_loop].
  - cbn [mbind list_bind length all_rows all_files] in *. rewrite !app_nil_r. replace (off <? e) with false by lia.
    exists m. split_and!; [done|done|apply unchanged_refl].
  - apply Forall_cons in Hus as [Hu Hus].
    change ((u :: us) ≫= encode_unit) with (encode_unit u ++ (us ≫= encode_unit)) in *.
    change ((u :: us) ≫= cu_dirs) with (cu_dirs u ++ (us ≫= cu_dirs)) in *.
    change ((u :: us) ≫= cu_files) with (cu_files u ++ (us ≫= cu_files)) in *.
    pose proof (length_header u Hu) as Lh. unfold DEBUG_HEADER in Lh.
    apply holds_app in Hm as [Hm1 Hm2]. rewrite !length_app in *.
    assert (length (encode_header u) <= length (encode_unit u))%nat as Lu by (unfold encode_unit; rewrite length_app; lia).
    destruct (unit_run (S f) m ds fs rows off u Hu Hoff) as (m1 & o1 & m2 & o2 & c & E1 & E2 & E3 & Eo & Ei & HT' & U); [lia|done|lia|lia|lia|done|].
    replace (off <? e) with true by lia. cbn [dir_tab file_tab line_tab]. fold nd nf in E1, E2, E3.
    rewrite E1. cbn [mbind option_bind]. rewrite E2. cbn [mbind option_bind]. fold init_regs. rewrite E3. cbn [mbind option_bind].
    assert (Z.of_nat (length (ds ++ cu_dirs u)) = nd + Z.of_nat (length (cu_dirs u))) as Ld by (rewrite length_app; lia).
    assert (Z.of_nat (length (fs ++ unit_files nd u)) = nf + Z.of_nat (length (cu_files u))) as Lf
      by (unfold unit_files; rewrite length_app, length_fmap; lia).
    destruct (IH f (mc_mem c) (ds ++ cu_dirs u) (fs ++ unit_files nd u) (rows ++ unit_rows nf u) (mc_off c))
      as (m' & E & HT2 & U2); [done|lia|lia| |lia|lia|lia|done|].
    { rewrite Eo. eapply holds_below; [exact U|lia|done]. }
    rewrite Ld, Lf in E, HT2. rewrite Lf in U2. rewrite Ei. rewrite <- !app_assoc in U2. rewrite <- 3!app_assoc in HT2. cbn [all_rows all_files].
    rewrite <- app_assoc in E. exists m'. split_and!; [exact E|exact HT2|].
    eapply unchanged_trans; eapply unchanged_mono; [| |exact U| | |exact U2]; cbn [all_rows]; rewrite ?length_app; fold nf; lia.
Qed.
End tables.

(** * The line table *)

(** C29.  [make_addr_line] on a section that encodes a sequence of compilation units
    returns and leaves, behind the section and aligned to eight bytes, the directories of
    all units, their files with the index of the directory counted over all units, and
    the rows the line number programs describe.  Of adjacent rows at one address the
    last is kept.  No byte outside the three tables changes.  The units are given as
    data; [all_rows] runs their programs on the registers of the DWARF format, without
    bytes, offsets or memory. *)
Theorem make_addr_line_spec (fuel : nat) (m : mem) (base : Z) (us : list comp_unit) :
  let len := Z.of_nat (length (us ≫= encode_unit)) in
  let rows := all_rows 0 us in
  Forall unit_ok us -> 0 <= base -> base + len + 8 <= 2 ^ 64 -> holds m base (us ≫= encode_unit) ->
  (length (us ≫= cu_dirs) <= 64)%nat -> (length (us ≫= cu_files) <= 64)%nat ->
  (length (us ≫= encode_unit) + 12 < fuel)%nat ->
  exists m' t, make_addr_line fuel m base len = Some (m', t) /\
    debugline t = base /\ base + len <= dir_tab t < base + len + 8 /\ dir_tab t mod 8 = 0 /\
    file_tab t = dir_tab t + 512 /\ line_tab t = dir_tab t + 1536 /\
    line_cnt t = Z.of_nat (length (collapse rows)) /\
    dirs_at base (base + len) m' (dir_tab t) (us ≫= cu_dirs) /\
    files_at base (base + len) m' (file_tab t) (all_files 0 us) /\
    rows_at m' (line_tab t) (collapse rows) /\
    unchanged_outside (dir_tab t) (line_tab t + 24 * Z.of_nat (length rows)) m m'.
Proof.
  intros len rows Hus Hb Hl Hm Hnd Hnf Hf.
  assert (Z.shiftl (Z.shiftr (u64 (base + len + 7)) 3) 3 = (base + len + 7) / 8 * 8) as Ed.
  { rewrite u64_small, Z.shiftl_mul_pow2, Z.shiftr_div_pow2 by lia. done. }
  set (dir := (base + len + 7) / 8 * 8) in *. assert (base + len <= dir < base + len + 8 /\ dir mod 8 = 0) as [Hdir Hdir8] by (unfold dir; zdiv).
  destruct (unit_loop_run base (base + len) dir ltac:(lia) ltac:(lia) ltac:(lia) us fuel m [] [] [] base)
    as (m' & E & (Td & Tf & Tr & _) & U); try (cbn [length]; done || lia).
  unfold make_addr_line. rewrite Ed. change (8 * 64) with 512. change (16 * 64) with 1024.
  replace (dir + 512 + 1024) with (dir + 1536) by lia. cbn [length app Z.of_nat collapse] in E, Td, Tf, Tr, U. change (Z.of_nat 0) with 0 in *. rewrite E.
  cbn [mbind option_bind]. eexists m', _. split; [done|]. cbn [debugline dir_tab file_tab line_tab line_cnt].
  split_and!; done || lia.
Qed.

(** A unit with one directory "d", the files "a" and "b" in it and a program of four
    rows, two of them at one address. *)
Definition small_unit : comp_unit := {|
  cu_head := replicate 10 0; cu_min_inst := 1; cu_is_stmt := 1; cu_line_base := -5; cu_line_range := 14;
  cu_opcode_base := 13; cu_opcode_lengths := replicate 12 1;
  cu_dirs := [[100]];
  cu_files := [{| fe_name := [97]; fe_dir := 1; fe_time := 0; fe_size := 0 |};
               {| fe_name := [98]; fe_dir := 1; fe_time := 0; fe_size := 0 |}];
  cu_ops := [set_address 65536; advance_line_by 6; copy; set_column 3; special 61; set_file 2; special 6; const_add_pc] |}.

Lemma small_unit_ok : unit_ok small_unit.
Proof. unfold unit_ok, byte, name_ok. cbn. split_and!; try lia; repeat constructor; cbn; done || lia. Qed.

Lemma make_addr_line_spec_witness :
  let us := [small_unit; small_unit] in
  let base := 2147549184 in
  collapse (all_rows 0 us) =
    [{| al_addr := 65536; al_line := 7; al_file := 0 |}; {| al_addr := 65540; al_line := 8; al_file := 1 |};
     {| al_addr := 65557; al_line := 8; al_file := 1 |};
     {| al_addr := 65536; al_line := 7; al_file := 2 |}; {| al_addr := 65540; al_line := 8; al_file := 3 |};
     {| al_addr := 65557; al_line := 8; al_file := 3 |}] /\
  exists m' t, make_addr_line 200 (store_bytes ∅ base (us ≫= encode_unit)) base
      (Z.of_nat (length (us ≫= encode_unit))) = Some (m', t) /\
    line_cnt t = 6 /\ rows_at m' (line_tab t) (collapse (all_rows 0 us)).
Proof.
  cbn zeta. split; [by vm_compute|].
  destruct (make_addr_line_spec 200 (store_bytes ∅ 2147549184 ([small_unit; small_unit] ≫= encode_unit)) 2147549184
    [small_unit; small_unit]) as (m' & t & E & _ & _ & _ & _ & _ & Hn & _ & _ & Hr & _).
  - repeat (apply Forall_cons; split; [exact small_unit_ok|]). by apply Forall_nil.
  - lia.
  - vm_compute. congruence.
  - apply holds_store_bytes. vm_compute. repeat constructor; congruence.
  - vm_compute. lia.
  - vm_compute. lia.
  - vm_compute. lia.
  - exists m', t. split; [exact E|]. split; [rewrite Hn; by vm_compute|exact Hr].
Defined.
