(* ===== verification/Fdt.v ===== *)
(** spike_interface/dts_parse.c, spike_memory.c and the discovery of HTIF in spike_htif.c:
    the scan of the flattened device tree that the simulator puts in memory. *)

From S2P Require Import Prelude Mem CString Leb128.

(** * Data *)

Definition FDT_MAGIC : Z := 3490578157.
Definition FDT_VERSION : Z := 17.
Definition FDT_BEGIN_NODE : Z := 1.
Definition FDT_END_NODE : Z := 2.
Definition FDT_PROP : Z := 3.
Definition FDT_NOP : Z := 4.
Definition FDT_END : Z := 9.

(** [struct fdt_scan_node].  The parent does not change while its child is scanned, so the
    child holds its value. *)
Inductive fdt_scan_node := {
  node_parent : option fdt_scan_node;
  node_name : Z;
  address_cells : Z;
  size_cells : Z;
}.

(** [struct fdt_scan_prop]: addresses of the name and of the value. *)
Record fdt_scan_prop := { prop_name : Z; prop_value : Z; prop_len : Z }.

(** The memory and the data of the callbacks, [extra]. *)
Record scan_state (X : Type) := { dt_mem : mem; dt_extra : X }.
Arguments dt_mem {X} s.
Arguments dt_extra {X} s.
Arguments Build_scan_state {X} dt_mem dt_extra.

(** [struct fdt_cb]: the callbacks read memory and change [extra].  Both callers leave
    [close] NULL and set the other three. *)
Record fdt_cb (X : Type) := {
  cb_open : fdt_scan_node -> mem -> M X unit;
  cb_prop : fdt_scan_prop -> mem -> M X unit;
  cb_done : fdt_scan_node -> mem -> M X unit;
  cb_close : option (fdt_scan_node -> mem -> M X Z);
}.
Arguments cb_open {X} f.
Arguments cb_prop {X} f.
Arguments cb_done {X} f.
Arguments cb_close {X} f.

(** * The scan *)

Definition bswap (x : Z) : Z :=
  let y := Z.lor (Z.shiftl (Z.land x 16711935) 8) (Z.shiftr (Z.land x 4278255360) 8) in
  Z.lor (Z.shiftl (Z.land y 65535) 16) (Z.shiftr (Z.land y 4294901760) 16).

(** [bswap(lex[i])] *)
Definition cell (m : mem) (lex i : Z) : Z := bswap (load32 m (lex + 4 * i)).

(** The bytes of a string literal. *)
Definition text (s : string) : list Z := (fun c => Z.of_N (Ascii.N_of_ascii c)) <$> String.list_ascii_of_string s.

(** [!strcmp(p, "...")] *)
Fixpoint str_is (m : mem) (p : Z) (t : list Z) : bool :=
  match t with
  | [] => load8 m p =? 0
  | c :: t' => (load8 m p =? c) && str_is m (p + 1) t'
  end.

Section scan.
Context {X : Type} (cb : fdt_cb X).

Definition call {A} (c : mem -> M X A) : M (scan_state X) A := fun s =>
  zoom dt_extra (fun x s => Build_scan_state (dt_mem s) x) (c (dt_mem s)) s.

(** The effect of a property on the node it belongs to. *)
Definition set_cells (m : mem) (p : fdt_scan_prop) (node : fdt_scan_node) : fdt_scan_node :=
  let node :=
    if str_is m (prop_name p) (text "#address-cells")
    then {| node_parent := node_parent node; node_name := node_name node;
            address_cells := i32 (cell m (prop_value p) 0); size_cells := size_cells node |}
    else node in
  if str_is m (prop_name p) (text "#size-cells")
  then {| node_parent := node_parent node; node_name := node_name node;
          address_cells := address_cells node; size_cells := i32 (cell m (prop_value p) 0) |}
  else node.

(** [while (lex != lex_next) *lex++ = bswap(FDT_NOP)], [n] words. *)
Fixpoint fill_nops (n : nat) (m : mem) (lex : Z) : mem :=
  match n with O => m | S n' => fill_nops n' (store32 m lex (bswap FDT_NOP)) (lex + 4) end.

(** [if (!last && node && cb->done) cb->done(node, cb->extra)] *)
Definition done_once (last : bool) (node : option fdt_scan_node) : M (scan_state X) unit :=
  match node with
  | Some n => if last then ret tt else call (cb_done cb n)
  | None => ret tt
  end.

(** [child] has the cell counts that the next child starts with: those the child before it
    left.  The result is the new [lex] and the node, whose cell counts may have changed. *)
Fixpoint fdt_scan_helper (fuel : nat) (lex strings : Z) (node : option fdt_scan_node) (child : Z * Z) (last : bool)
    : M (scan_state X) (Z * option fdt_scan_node) :=
  match fuel with
  | O => hang
  | S f =>
      s <- gets id ;;
      let m := dt_mem s in
      let token := cell m lex 0 in
      if token =? FDT_NOP then fdt_scan_helper f (lex + 4) strings node child last
      else if token =? FDT_PROP then
        kassert (negb last) "!last" ;;;
        let p := {| prop_name := strings + cell m lex 2; prop_value := lex + 12; prop_len := i32 (cell m lex 1) |} in
        let node := set_cells m p <$> node in
        call (cb_prop cb p) ;;;
        fdt_scan_helper f (lex + 4 * (3 + Z.quot (prop_len p + 3) 4)) strings node child last
      else if token =? FDT_BEGIN_NODE then
        done_once last node ;;;
        let c := {| node_parent := node; node_name := lex + 4; address_cells := fst child; size_cells := snd child |} in
        call (cb_open cb c) ;;;
        n <- (match strlen (S f) m (lex + 4) with Some n => ret n | None => hang end) ;;
        r <- fdt_scan_helper f (lex + 4 * (2 + n / 4)) strings (Some c) (2, 1) false ;;
        let '(lex_next, c) := r in
        c <- deref c ;;
        (match cb_close cb with
         | None => ret tt
         | Some close =>
             e <- call (close c) ;;
             if e =? -1
             then modify (fun s => Build_scan_state (fill_nops (Z.to_nat ((lex_next - lex) / 4)) (dt_mem s) lex) (dt_extra s))
             else ret tt
         end) ;;;
        fdt_scan_helper f lex_next strings node (address_cells c, size_cells c) true
      else if token =? FDT_END_NODE then done_once last node ;;; ret (lex + 4, node)
      else done_once last node ;;; ret (lex, node)
  end.

(** [off_dt_struct] and [off_dt_strings] are words 2 and 3 of the header. *)
Definition fdt_scan (fuel : nat) (fdt : Z) : M (scan_state X) unit :=
  s <- gets id ;;
  let m := dt_mem s in
  if negb (cell m fdt 0 =? FDT_MAGIC) || (FDT_VERSION <? cell m fdt 6) then ret tt
  else
    fdt_scan_helper fuel (fdt + cell m fdt 2) (fdt + cell m fdt 3) None (2, 1) false ;;;
    ret tt.
End scan.

(** The loop of [fdt_get_address] and [fdt_get_size]: the number and the address behind it. *)
Fixpoint get_cells (cells : nat) (m : mem) (value result : Z) : Z * Z :=
  match cells with
  | O => (result, value)
  | S n => get_cells n m (value + 4) (u64 (u64 (Z.shiftl result 32) + cell m value 0))
  end.

Definition fdt_get_address (node : fdt_scan_node) (m : mem) (value : Z) : Z * Z :=
  get_cells (Z.to_nat (address_cells node)) m value 0.
Definition fdt_get_size (node : fdt_scan_node) (m : mem) (value : Z) : Z * Z :=
  get_cells (Z.to_nat (size_cells node)) m value 0.

(** * The memory *)

(** [struct mem_scan], with the global [g_mem_size]. *)
Record mem_scan := { ms_memory : bool; reg_value : Z; reg_len : Z; ms_size : Z }.
#[export] Instance eta_mem_scan : Eta mem_scan := fun s =>
  Build_mem_scan (ms_memory s) (reg_value s) (reg_len s) (ms_size s).

Definition mem_open (node : fdt_scan_node) (m : mem) : M mem_scan unit :=
  modify (fun s => s <| ms_memory := false |> <| reg_value := 0 |> <| reg_len := 0 |>).

Definition mem_prop (p : fdt_scan_prop) (m : mem) : M mem_scan unit :=
  if str_is m (prop_name p) (text "device_type") && str_is m (prop_value p) (text "memory")
  then modify (fun s => s <| ms_memory := true |>)
  else if str_is m (prop_name p) (text "reg")
  then modify (fun s => s <| reg_value := prop_value p |> <| reg_len := prop_len p |>)
  else ret tt.

(** The loop of [mem_done] from [value] to [e]: the new [g_mem_size] and the final
    [value].  A node without a parent dereferences NULL. *)
Fixpoint mem_regions (fuel : nat) (parent : option fdt_scan_node) (m : mem) (self value e : Z) : M mem_scan Z :=
  if 0 <? e - value then
    match fuel, parent with
    | O, _ => hang
    | S _, None => fault
    | S f, Some p =>
        let '(base, value) := fdt_get_address p m value in
        let '(size, value) := fdt_get_size p m value in
        (if (base <=? self) && (self <=? u64 (base + size)) then modify (fun s => s <| ms_size := size |>) else ret tt) ;;;
        mem_regions f parent m self value e
    end
  else ret value.

(** [self] is the address of [mem_done] itself. *)
Definition mem_done (self : Z) (node : fdt_scan_node) (m : mem) : M mem_scan unit :=
  s <- gets id ;;
  if negb (ms_memory s) then ret tt
  else
    kassert (negb (reg_value s =? 0) && (Z.rem (reg_len s) 4 =? 0)) "scan->reg_value && scan->reg_len % 4 == 0" ;;;
    let e := reg_value s + 4 * Z.quot (reg_len s) 4 in
    v <- mem_regions (Z.to_nat (Z.quot (reg_len s) 4)) (node_parent node) m self (reg_value s) e ;;
    kassert (e =? v) "end == value".

Definition mem_cb (self : Z) : fdt_cb mem_scan := {|
  cb_open := mem_open; cb_prop := mem_prop; cb_done := mem_done self; cb_close := None |}.

(** [junk] is what the variable [scan] holds at first; the result is [g_mem_size]. *)
Definition query_mem (fuel : nat) (self : Z) (junk : mem_scan) (fdt : Z) : M mem Z := fun m =>
  match fdt_scan (mem_cb self) fuel fdt (Build_scan_state m (junk <| ms_size := 0 |>)) with
  | Ret _ s => if 0 <? ms_size (dt_extra s) then Ret (ms_size (dt_extra s)) (dt_mem s) else Panic "g_mem_size > 0"
  | Switch s => Switch (dt_mem s)
  | Shutdown code => Shutdown code
  | Panic msg => Panic msg
  | Hang => Hang
  | Fault => Fault
  end.

(** * HTIF *)

(** [struct htif_scan], with the global [htif]. *)
Record htif_scan := { compat : bool; htif : bool }.
#[export] Instance eta_htif_scan : Eta htif_scan := fun s => Build_htif_scan (compat s) (htif s).

Definition htif_open (node : fdt_scan_node) (m : mem) : M htif_scan unit := modify (fun s => s <| compat := false |>).

Definition htif_prop (p : fdt_scan_prop) (m : mem) : M htif_scan unit :=
  if str_is m (prop_name p) (text "compatible") && str_is m (prop_value p) (text "ucb,htif0")
  then modify (fun s => s <| compat := true |>)
  else ret tt.

Definition htif_done (node : fdt_scan_node) (m : mem) : M htif_scan unit :=
  s <- gets id ;;
  if negb (compat s) then ret tt else modify (fun s => s <| htif := true |>).

Definition htif_cb : fdt_cb htif_scan := {|
  cb_open := htif_open; cb_prop := htif_prop; cb_done := htif_done; cb_close := None |}.

Definition query_htif (fuel : nat) (junk : htif_scan) (fdt : Z) : M mem bool := fun m =>
  match fdt_scan htif_cb fuel fdt (Build_scan_state m junk) with
  | Ret _ s => Ret (htif (dt_extra s)) (dt_mem s)
  | Switch s => Switch (dt_mem s)
  | Shutdown code => Shutdown code
  | Panic msg => Panic msg
  | Hang => Hang
  | Fault => Fault
  end.

(** * Properties *)

(** ** Big-endian words *)

Lemma land_bytes a b x y : 0 <= a < 256 -> 0 <= b < 256 ->
  Z.land (a + 256 * x) (b + 256 * y) = Z.land a b + 256 * Z.land x y.
Proof.
  intros Ha Hb. change 256 with (2 ^ 8) in *. rewrite !(Z.mul_comm (2 ^ 8)).
  assert (0 <= Z.land a b < 2 ^ 8) as Hab.
  { rewrite <- (Z.mod_small a (2 ^ 8)), <- Z.land_ones, <- Z.land_assoc, (Z.land_comm _ b), Z.land_assoc, Z.land_ones by lia.
    apply Z.mod_pos_bound. lia. }
  rewrite <- !lor_disjoint, <- !Z.shiftl_mul_pow2 by lia.
  apply Z.bits_inj'. intros i Hi. rewrite !Z.lor_spec, !Z.land_spec, !Z.lor_spec, !Z.shiftl_spec, Z.land_spec by lia.
  assert (forall c, 0 <= c < 2 ^ 8 -> 8 <= i -> Z.testbit c i = false) as Hhi.
  { intros c Hc H8. rewrite <- (Z.mod_small c (2 ^ 8)) by done. by rewrite Z.mod_pow2_bits_high by lia. }
  destruct (Z.ltb_spec i 8) as [H8|H8].
  - rewrite !(Z.testbit_neg_r _ (i - 8)) by lia. by rewrite !orb_false_r.
  - by rewrite (Hhi a), (Hhi b) by lia.
Qed.

Lemma bswap_bytes a b c d : 0 <= a < 256 -> 0 <= b < 256 -> 0 <= c < 256 -> 0 <= d < 256 ->
  bswap (a + 256 * (b + 256 * (c + 256 * d))) = d + 256 * (c + 256 * (b + 256 * a)).
Proof.
  intros Ha Hb Hc Hd. unfold bswap.
  assert (forall z, 0 <= z < 256 -> Z.land z 255 = z) as L
    by (intros z Hz; change 255 with (Z.ones 8); rewrite Z.land_ones by lia; by apply Z.mod_small).
  assert (Z.land (a + 256 * (b + 256 * (c + 256 * d))) 16711935 = a + 256 * (256 * c)) as ->.
  { change 16711935 with (255 + 256 * (0 + 256 * (255 + 256 * 0))). rewrite !land_bytes, !L, !Z.land_0_r by lia. lia. }
  assert (Z.land (a + 256 * (b + 256 * (c + 256 * d))) 4278255360 = 256 * (b + 256 * (256 * d))) as ->.
  { change 4278255360 with (0 + 256 * (255 + 256 * (0 + 256 * 255))). rewrite !land_bytes, !L, !Z.land_0_r by lia. lia. }
  rewrite !Z.shiftl_mul_pow2, !Z.shiftr_div_pow2 by lia.
  replace (256 * (b + 256 * (256 * d)) / 2 ^ 8) with (b + 256 * (256 * d)) by (change (2 ^ 8) with 256; zdiv).
  assert (Z.lor ((a + 256 * (256 * c)) * 2 ^ 8) (b + 256 * (256 * d)) = b + 256 * (a + 256 * (d + 256 * c))) as ->.
  { pose proof (Z.add_lor_land ((a + 256 * (256 * c)) * 2 ^ 8) (b + 256 * (256 * d))) as E.
    assert (Z.land ((a + 256 * (256 * c)) * 2 ^ 8) (b + 256 * (256 * d)) = 0) as E0; [|lia].
    replace ((a + 256 * (256 * c)) * 2 ^ 8) with (0 + 256 * (a + 256 * (0 + 256 * c))) by lia.
    replace (b + 256 * (256 * d)) with (b + 256 * (0 + 256 * (d + 256 * 0))) by lia.
    by rewrite !land_bytes, !Z.land_0_r, !Z.land_0_l by lia. }
  assert (Z.land (b + 256 * (a + 256 * (d + 256 * c))) 65535 = b + 256 * a) as ->.
  { change 65535 with (255 + 256 * (255 + 256 * (0 + 256 * 0))). rewrite !land_bytes, !L, !Z.land_0_r by lia. lia. }
  assert (Z.land (b + 256 * (a + 256 * (d + 256 * c))) 4294901760 = 65536 * (d + 256 * c)) as ->.
  { change 4294901760 with (0 + 256 * (0 + 256 * (255 + 256 * 255))). rewrite !land_bytes, !L, !Z.land_0_r by lia. lia. }
  change (2 ^ 16) with 65536. replace (65536 * (d + 256 * c) / 65536) with (d + 256 * c) by zdiv.
  rewrite Z.lor_comm. change 65536 with (2 ^ 16) at 1. rewrite lor_disjoint by lia. lia.
Qed.

(** The number with the bytes [l], most significant byte first. *)
Definition be_value (l : list Z) : Z := foldl (fun v b => 256 * v + b) 0 l.

Definition be32 (v : Z) : list Z := [v / 16777216 mod 256; v / 65536 mod 256; v / 256 mod 256; v mod 256].

Lemma be_value_be32 v : 0 <= v < 2 ^ 32 -> be_value (be32 v) = v.
Proof. intros Hv. unfold be_value, be32. cbn [foldl]. change (2 ^ 32) with 4294967296 in Hv. zdiv. Qed.

Lemma length_be32 v : Z.of_nat (length (be32 v)) = 4.
Proof. done. Qed.

Lemma be32_bytes v : Forall (fun b => 0 <= b < 256) (be32 v).
Proof. unfold be32. repeat constructor; apply Z.mod_pos_bound; lia. Qed.

(** A word of four bytes. *)
Lemma cell_holds m lex i l : length l = 4%nat -> holds m (lex + 4 * i) l -> cell m lex i = be_value l.
Proof.
  intros Hl H. destruct l as [|a [|b [|c [|d [|]]]]]; try discriminate Hl.
  rewrite !holds_cons in H. destruct H as (H1 & H2 & H3 & H4 & _).
  unfold cell, load32, be_value. cbn [load_le foldl].
  pose proof (load8_range m (lex + 4 * i)). pose proof (load8_range m (lex + 4 * i + 1)).
  pose proof (load8_range m (lex + 4 * i + 1 + 1)). pose proof (load8_range m (lex + 4 * i + 1 + 1 + 1)).
  rewrite H1, H2, H3, H4 in *. rewrite Z.mul_0_r, Z.add_0_r, bswap_bytes by lia. lia.
Qed.

Lemma cell_be32 m lex i v : 0 <= v < 2 ^ 32 -> holds m (lex + 4 * i) (be32 v) -> cell m lex i = v.
Proof. intros Hv H. rewrite (cell_holds m lex i (be32 v)) by done. by apply be_value_be32. Qed.

(** ** Device trees *)

(** The items before the children of a node: padding, and properties with the offset of
    the name in the block of strings, the name and the bytes of the value. *)
Inductive dt_item := dt_nop | dt_prop (off : Z) (name value : list Z).

(** A list of nodes, each with its name, items and children. *)
Inductive dt_nodes := dt_nil | dt_node (name : list Z) (items : list dt_item) (kids rest : dt_nodes).

(** Zeros up to a multiple of four bytes. *)
Definition pad (l : list Z) : list Z := l ++ replicate (Z.to_nat (- Z.of_nat (length l) mod 4)) 0.

Definition encode_item (i : dt_item) : list Z :=
  match i with
  | dt_nop => be32 FDT_NOP
  | dt_prop off name value => be32 FDT_PROP ++ be32 (Z.of_nat (length value)) ++ be32 off ++ pad value
  end.

Fixpoint encode_nodes (f : dt_nodes) : list Z :=
  match f with
  | dt_nil => []
  | dt_node name items kids rest =>
      be32 FDT_BEGIN_NODE ++ pad (name ++ [0]) ++ (items ≫= encode_item) ++ encode_nodes kids ++ be32 FDT_END_NODE
      ++ encode_nodes rest
  end.

(** The cell counts after the items of a node. *)
Definition item_cells (c : Z * Z) (i : dt_item) : Z * Z :=
  match i with
  | dt_nop => c
  | dt_prop _ name value =>
      (if bool_decide (name = text "#address-cells") then i32 (be_value (take 4 value)) else fst c,
       if bool_decide (name = text "#size-cells") then i32 (be_value (take 4 value)) else snd c)
  end.
Definition items_cells (c : Z * Z) (items : list dt_item) : Z * Z := foldl item_cells c items.

(** The names are in the block of strings, and cell counts are words. *)
Definition item_ok (m : mem) (strings : Z) (i : dt_item) : Prop :=
  match i with
  | dt_nop => True
  | dt_prop off name value =>
      0 <= off < 2 ^ 32 /\ cstr m (strings + off) name /\ Z.of_nat (length value) < 2 ^ 31 - 4 /\
      Forall (fun b => 0 <= b < 256) value /\
      (name = text "#address-cells" \/ name = text "#size-cells" -> length value = 4%nat)
  end.

Fixpoint nodes_ok (m : mem) (strings : Z) (f : dt_nodes) : Prop :=
  match f with
  | dt_nil => True
  | dt_node name items kids rest =>
      Forall (fun b => 0 < b < 256) name /\ Forall (item_ok m strings) items /\
      nodes_ok m strings kids /\ nodes_ok m strings rest
  end.

Lemma length_pad l : Z.of_nat (length (pad l)) = 4 * ((Z.of_nat (length l) + 3) / 4).
Proof. unfold pad. rewrite length_app, length_replicate. zdiv. Qed.

Lemma length_pad_name name : Z.of_nat (length (pad (name ++ [0]))) = 4 * (1 + Z.of_nat (length name) / 4).
Proof. rewrite length_pad, length_app. cbn [length]. zdiv. Qed.

Lemma length_pad_le (name : list Z) : (length name < length (pad (name ++ [0%Z])))%nat.
Proof. unfold pad. rewrite !length_app. cbn [length]. lia. Qed.

Lemma length_item i : (4 <= length (encode_item i))%nat.
Proof. destruct i; cbn [encode_item]; [done|]. rewrite !length_app. cbn [be32 length]. lia. Qed.

Lemma length_items items : (length items <= length (items ≫= encode_item))%nat.
Proof.
  induction items as [|i items IH]; [done|]. change ((i :: items) ≫= encode_item) with (encode_item i ++ (items ≫= encode_item)).
  rewrite length_app. pose proof (length_item i). cbn [length]. lia.
Qed.

(** ** Strings *)

Lemma str_is_cstr m t : forall p l, Forall (fun b => b <> 0) t -> cstr m p l -> str_is m p t = bool_decide (l = t).
Proof.
  induction t as [|c t IH]; intros p l Ht Hl; cbn [str_is].
  - destruct l as [|b l]; cbn [cstr] in Hl; [by rewrite Hl|]. destruct Hl as (-> & Hb%Z.eqb_neq & _). by rewrite Hb.
  - apply Forall_cons in Ht as [Hc Ht]. destruct l as [|b l]; cbn [cstr] in Hl.
    + rewrite Hl. destruct (Z.eqb_spec 0 c); [congruence|]. cbn. by rewrite bool_decide_eq_false_2.
    + destruct Hl as (-> & Hb & Hl). rewrite (IH _ l Ht Hl). destruct (Z.eqb_spec b c) as [->|Hne]; cbn.
      * apply bool_decide_ext. split; congruence.
      * rewrite bool_decide_eq_false_2; [done|]. congruence.
Qed.

(** The literals of the code hold no NUL. *)
Lemma text_nonzero s : bool_decide (Forall (fun b => b <> 0) (text s)) = true -> Forall (fun b => b <> 0) (text s).
Proof. by intros ?%bool_decide_eq_true. Qed.

Lemma str_is_text m p l s : bool_decide (Forall (fun b => b <> 0) (text s)) = true -> cstr m p l ->
  str_is m p (text s) = bool_decide (l = text s).
Proof. intros H%text_nonzero. by apply str_is_cstr. Qed.

(** The string at the start of some bytes. *)
Fixpoint string_of (l : list Z) : list Z :=
  match l with [] => [] | b :: l' => if b =? 0 then [] else b :: string_of l' end.

Lemma string_of_cstr m l : forall a, holds m a (l ++ [0]) -> cstr m a (string_of l).
Proof.
  induction l as [|b l IH]; intros a H; cbn [app] in H; apply holds_cons in H as [Hb H]; cbn [string_of cstr]; [done|].
  destruct (Z.eqb_spec b 0) as [->|]; [done|]. cbn [cstr]. auto.
Qed.

Lemma string_of_id l : Forall (fun b => 0 < b < 256) l -> string_of l = l.
Proof. induction 1 as [|b l Hb _ IH]; [done|]. cbn. destruct (Z.eqb_spec b 0); [lia|]. by rewrite IH. Qed.

(** ** The scan visits the nodes in order *)

Section visit.
Context {X : Type} (cb : fdt_cb X) (strings : Z).

(** The callbacks for the items at [lex]. *)
Fixpoint scan_items (items : list dt_item) (lex : Z) : M (scan_state X) unit :=
  match items with
  | [] => ret tt
  | i :: items' =>
      (match i with
       | dt_nop => ret tt
       | dt_prop off _ value =>
           call (cb_prop cb {| prop_name := strings + off; prop_value := lex + 12; prop_len := Z.of_nat (length value) |})
       end) ;;;
      scan_items items' (lex + Z.of_nat (length (encode_item i)))
  end.

Definition child_of (node : option fdt_scan_node) (lex : Z) (c : Z * Z) : fdt_scan_node :=
  {| node_parent := node; node_name := lex + 4; address_cells := fst c; size_cells := snd c |}.

(** The callbacks for the nodes at [lex]: a node is opened, its properties are reported,
    it is done, then its children follow. *)
Fixpoint scan_nodes (node : option fdt_scan_node) (child : Z * Z) (f : dt_nodes) (lex : Z) : M (scan_state X) unit :=
  match f with
  | dt_nil => ret tt
  | dt_node name items kids rest =>
      let lex1 := lex + 4 + Z.of_nat (length (pad (name ++ [0]))) in
      let lex2 := lex1 + Z.of_nat (length (items ≫= encode_item)) in
      let c := items_cells child items in
      call (cb_open cb (child_of node lex child)) ;;;
      scan_items items lex1 ;;;
      call (cb_done cb (child_of node lex c)) ;;;
      scan_nodes (Some (child_of node lex c)) (2, 1) kids lex2 ;;;
      scan_nodes node c rest (lex2 + Z.of_nat (length (encode_nodes kids)) + 4)
  end.

Lemma call_mem {A} (c : mem -> M X A) s a s' : call c s = Ret a s' -> dt_mem s' = dt_mem s.
Proof. unfold call, zoom. destruct (c (dt_mem s) (dt_extra s)); intros; by simplify_eq/=. Qed.

Lemma done_once_mem last node s a s' : done_once cb last node s = Ret a s' -> dt_mem s' = dt_mem s.
Proof.
  unfold done_once. destruct node as [n|]; [destruct last|]; try (intros E; by injection E as _ <-). apply call_mem.
Qed.

Lemma scan_items_mem items : forall lex s a s', scan_items items lex s = Ret a s' -> dt_mem s' = dt_mem s.
Proof.
  induction items as [|i items IH]; intros lex s a s' E; cbn [scan_items] in E; [by injection E as _ <-|].
  apply bind_Ret_inv in E as ([] & s1 & E1 & E). rewrite (IH _ _ _ _ E).
  destruct i; [by injection E1 as <-|by eapply call_mem].
Qed.

Lemma scan_nodes_mem f : forall node child lex s a s', scan_nodes node child f lex s = Ret a s' -> dt_mem s' = dt_mem s.
Proof.
  induction f as [|name items kids IHk rest IHr]; intros node child lex s a s' E; cbn [scan_nodes] in E; [by injection E as _ <-|].
  apply bind_Ret_inv in E as (? & s1 & E1%call_mem & E). apply bind_Ret_inv in E as (? & s2 & E2%scan_items_mem & E).
  apply bind_Ret_inv in E as (? & s3 & E3%call_mem & E). apply bind_Ret_inv in E as (? & s4 & E4%IHk & E%IHr). congruence.
Qed.

Definition cells (node : fdt_scan_node) : Z * Z := (address_cells node, size_cells node).
Definition with_cells (node : fdt_scan_node) (c : Z * Z) : fdt_scan_node :=
  {| node_parent := node_parent node; node_name := node_name node; address_cells := fst c; size_cells := snd c |}.

Lemma cells_with node c : cells (with_cells node c) = c.
Proof. by destruct c. Qed.

Lemma set_cells_item m off name value lex node :
  item_ok m strings (dt_prop off name value) -> holds m (lex + 12) value ->
  set_cells m {| prop_name := strings + off; prop_value := lex + 12; prop_len := Z.of_nat (length value) |} node =
  with_cells node (item_cells (cells node) (dt_prop off name value)).
Proof.
  intros (_ & Hname & _ & _ & Hc) Hv. unfold set_cells. cbn [prop_name prop_value].
  rewrite !(str_is_text m _ name) by done. cbn [item_cells cells].
  assert (name = text "#address-cells" \/ name = text "#size-cells" -> cell m (lex + 12) 0 = be_value (take 4 value)) as Hw.
  { intros H%Hc. rewrite take_ge by lia. apply cell_holds; [done|]. by rewrite Z.mul_0_r, Z.add_0_r. }
  destruct (bool_decide (name = text "#address-cells")) eqn:Ea, (bool_decide (name = text "#size-cells")) eqn:Es;
    rewrite ?bool_decide_eq_true in Ea; rewrite ?bool_decide_eq_true in Es; try rewrite Hw by auto; done || by destruct node.
Qed.

(** The items of a node, in as many rounds. *)
Lemma helper_items m items : forall fuel lex node child s,
  dt_mem s = m -> Forall (item_ok m strings) items -> holds m lex (items ≫= encode_item) ->
  fdt_scan_helper cb (length items + fuel) lex strings (Some node) child false s =
  bind (scan_items items lex) (fun _ =>
    fdt_scan_helper cb fuel (lex + Z.of_nat (length (items ≫= encode_item))) strings
      (Some (with_cells node (items_cells (cells node) items))) child false) s.
Proof.
  induction items as [|i items IH]; intros fuel lex node child s Hs Hok Hm.
  - cbn. rewrite Z.add_0_r. by destruct node.
  - change ((i :: items) ≫= encode_item) with (encode_item i ++ (items ≫= encode_item)) in *.
    apply Forall_cons in Hok as [Hi Hok]. apply holds_app in Hm as [Hm1 Hm2]. rewrite length_app, Nat2Z.inj_add, Z.add_assoc.
    cbn [length Nat.add fdt_scan_helper]. step (eq_refl : gets id s = Ret s s). rewrite Hs.
    destruct i as [|off name value]; cbn [encode_item item_ok] in *.
    + rewrite (cell_be32 m lex 0 FDT_NOP) by (done || by rewrite Z.mul_0_r, Z.add_0_r). cbn [Z.eqb FDT_NOP Pos.eqb].
      rewrite (IH fuel _ node child s Hs Hok) by done. done.
    + destruct Hi as (Hoff & Hname & Hlen & Hbytes & Hcells).
      rewrite !holds_app in Hm1. destruct Hm1 as (H0 & H1 & H2 & H3). cbn [be32 length Z.of_nat] in H1, H2, H3.
      rewrite (cell_be32 m lex 0 FDT_PROP) by (done || by rewrite Z.mul_0_r, Z.add_0_r).
      rewrite (cell_be32 m lex 1 (Z.of_nat (length value))) by (done || lia).
      rewrite (cell_be32 m lex 2 off) by (done || by replace (lex + 4 * 2) with (lex + Z.pos 4 + Z.pos 4) by lia).
      change (FDT_PROP =? FDT_NOP) with false. change (FDT_PROP =? FDT_PROP) with true. cbn match.
      step (eq_refl : kassert (negb false) "!last" s = Ret tt s). rewrite i32_small by lia. cbn [prop_len].
      assert (Z.of_nat (length (be32 FDT_PROP ++ be32 (Z.of_nat (length value)) ++ be32 off ++ pad value))
        = 4 * (3 + Z.quot (Z.of_nat (length value) + 3) 4)) as El.
      { rewrite !length_app, !Nat2Z.inj_add, length_pad. rewrite Z.quot_div_nonneg by lia. cbn [be32 length]. lia. }
      rewrite El in *. cbn [scan_items encode_item]. rewrite bind_assoc, El. apply bind_ext. intros [] s1 E1%call_mem.
      apply holds_app in H3 as [H3 _].
      change (set_cells m ?p <$> Some node) with (Some (set_cells m p node)).
      rewrite (set_cells_item m off name value) by (done || by replace (lex + 12) with (lex + Z.pos 4 + Z.pos 4 + Z.pos 4) by lia).
      rewrite (IH fuel _ _ child s1) by (done || congruence).
      by rewrite cells_with.
Qed.

(** The first part of a sequence may be replaced by an equal one. *)
Lemma bind_ret_ext {A B} (c c' : M (scan_state X) A) (k : A -> M (scan_state X) B) s : c s = c' s -> bind c k s = bind c' k s.
Proof. intros E. unfold bind. by rewrite E. Qed.

Hypothesis no_close : cb_close cb = None.

(** A token at [lex]. *)
Lemma token_at m lex t l : 0 <= t < 2 ^ 32 -> holds m lex (be32 t ++ l) -> cell m lex 0 = t.
Proof.
  intros Ht H. apply holds_app in H as [H _]. apply cell_be32; [done|]. by rewrite Z.mul_0_r, Z.add_0_r.
Qed.

Lemma name_length m lex name n :
  Forall (fun b => 0 < b < 256) name -> holds m lex (pad (name ++ [0])) -> (length name < n)%nat ->
  strlen n m lex = Some (Z.of_nat (length name)).
Proof.
  intros Hn H Hl. apply strlen_spec; [|done]. apply holds_app in H as [H _].
  rewrite <- (string_of_id name Hn). by apply string_of_cstr.
Qed.

Lemma helper_nodes m t : t = FDT_END_NODE \/ t = FDT_END -> forall f fuel lex node child last s,
  dt_mem s = m -> nodes_ok m strings f -> holds m lex (encode_nodes f ++ be32 t) ->
  (length (encode_nodes f) < fuel)%nat ->
  fdt_scan_helper cb fuel lex strings node child last s =
  bind (done_once cb last node) (fun _ => bind (scan_nodes node child f lex) (fun _ =>
    ret (lex + Z.of_nat (length (encode_nodes f)) + (if t =? FDT_END_NODE then 4 else 0), node))) s.
Proof.
  intros Ht f. revert t Ht. induction f as [|name items kids IHk rest IHr]; intros t Ht fuel lex node child last s Hs Hok Hm Hf;
    (destruct fuel as [|fuel]; [lia|]); cbn [fdt_scan_helper]; step (eq_refl : gets id s = Ret s s); rewrite Hs.
  - cbn [encode_nodes app length scan_nodes Z.of_nat] in *.
    rewrite (token_at m lex t []) by (by rewrite ?app_nil_r; destruct Ht; subst).
    rewrite Z.add_0_r. destruct Ht; subst t; [|rewrite Z.add_0_r]; reflexivity.
  - cbn [encode_nodes] in Hm, Hf. rewrite <- !app_assoc in Hm. rewrite !length_app in Hf. cbn [be32 length] in Hf.
    destruct Hok as (Hname & Hitems & Hkids & Hrest).
    rewrite (token_at m lex FDT_BEGIN_NODE _ ltac:(done) Hm).
    change (FDT_BEGIN_NODE =? FDT_NOP) with false. change (FDT_BEGIN_NODE =? FDT_PROP) with false.
    change (FDT_BEGIN_NODE =? FDT_BEGIN_NODE) with true. cbn match.
    apply bind_ext. intros [] s1 E1%done_once_mem. cbn [scan_nodes]. rewrite bind_assoc.
    apply bind_ext. intros [] s2 E2%call_mem. assert (dt_mem s2 = m) as Hs2 by congruence.
    rewrite !holds_app, !length_be32 in Hm. destruct Hm as (_ & Hm1 & Hm2 & Hm3 & Hm4 & Hm5 & Hm6).
    pose proof (length_pad_name name) as Lp. pose proof (length_pad_le name) as Lq. pose proof (length_items items) as Li.
    rewrite (name_length m (lex + 4) name (S fuel) Hname Hm1) by lia.
    step (eq_refl : ret (Z.of_nat (length name)) s2 = Ret (Z.of_nat (length name)) s2).
    replace (lex + 4 * (2 + Z.of_nat (length name) / 4)) with (lex + 4 + Z.of_nat (length (pad (name ++ [0])))) by lia.
    set (lex1 := lex + 4 + Z.of_nat (length (pad (name ++ [0])))) in *.
    replace fuel with (length items + (fuel - length items))%nat at 1 by lia.
    rewrite (bind_ret_ext _ _ _ _ (helper_items m items (fuel - length items) lex1 (child_of node lex child) (2, 1) s2 Hs2 Hitems Hm2)).
    rewrite !bind_assoc. apply bind_ext. intros [] s3 E3%scan_items_mem. assert (dt_mem s3 = m) as Hs3 by congruence.
    set (c := child_of node lex (items_cells child items)).
    replace (with_cells (child_of node lex child) (items_cells (cells (child_of node lex child)) items)) with c
      by (unfold c, cells; by destruct child).
    set (lex2 := lex1 + Z.of_nat (length (items ≫= encode_item))) in *.
    rewrite (bind_ret_ext _ _ _ _ (IHk FDT_END_NODE ltac:(by left) (fuel - length items)%nat lex2 (Some c) (2, 1) false s3 Hs3 Hkids
      ltac:(apply holds_app; by split) ltac:(lia))).
    rewrite !bind_assoc. apply bind_ext. intros [] s4 E4%call_mem.
    rewrite !bind_assoc. apply bind_ext. intros [] s5 E5%scan_nodes_mem.
    step (eq_refl : ret (lex2 + Z.of_nat (length (encode_nodes kids)) + 4, Some c) s5 = Ret (lex2 + Z.of_nat (length (encode_nodes kids)) + 4, Some c) s5).
    step (eq_refl : deref (Some c) s5 = Ret c s5). rewrite no_close. step (eq_refl : ret tt s5 = Ret tt s5).
    assert ((address_cells c, size_cells c) = items_cells child items) as -> by (unfold c; cbn; by destruct (items_cells child items)).
    rewrite (IHr t Ht fuel _ node _ true s5) by (congruence || done || (try apply holds_app; by split) || lia).
    assert (done_once cb true node s5 = Ret tt s5) as Ed by (by destruct node). step Ed.
    apply bind_ext. intros [] s6 _. unfold ret. do 2 f_equal. cbn [encode_nodes]. rewrite !length_app, !Nat2Z.inj_add, !length_be32. lia.
Qed.
End visit.

(** ** What the tree says *)

(** The values of the properties with a given name. *)
Definition value_of (n : string) (i : dt_item) : option (list Z) :=
  match i with dt_prop _ name value => if bool_decide (name = text n) then Some value else None | dt_nop => None end.
Definition values_of (n : string) (items : list dt_item) : list (list Z) := omap (value_of n) items.

(** Some property of that name has that string as its value. *)
Definition has_value (n v : string) (items : list dt_item) : bool :=
  existsb (fun value => bool_decide (string_of value = text v)) (values_of n items).

Definition is_memory (items : list dt_item) : bool := has_value "device_type" "memory" items.
Definition reg_of (items : list dt_item) : option (list Z) := last (values_of "reg" items).

(** The size of the last of [n] regions that contains [self], or [g]. *)
Fixpoint last_region (n : nat) (self : Z) (ac sc : nat) (v : list Z) (g : Z) : Z :=
  match n with
  | O => g
  | S n' =>
      let base := u64 (be_value (take (4 * ac) v)) in
      let size := u64 (be_value (take (4 * sc) (drop (4 * ac) v))) in
      last_region n' self ac sc (drop (4 * sc) (drop (4 * ac) v))
        (if (base <=? self) && (self <=? u64 (base + size)) then size else g)
  end.

(** The size of the memory that contains [self]: the regions of every memory node, in the
    cells of its parent. *)
Fixpoint find_memory (self : Z) (parent : option (Z * Z)) (child : Z * Z) (f : dt_nodes) (g : Z) : Z :=
  match f with
  | dt_nil => g
  | dt_node _ items kids rest =>
      let c := items_cells child items in
      let g1 :=
        match parent, reg_of items with
        | Some (ac, sc), Some v =>
            if is_memory items
            then last_region (Z.to_nat (Z.of_nat (length v) / (4 * (ac + sc)))) self (Z.to_nat ac) (Z.to_nat sc) v g
            else g
        | _, _ => g
        end in
      find_memory self parent c rest (find_memory self (Some c) (2, 1) kids g1)
  end.

(** A memory node has a parent and a list of regions. *)
Fixpoint memory_ok (parent : option (Z * Z)) (child : Z * Z) (f : dt_nodes) : Prop :=
  match f with
  | dt_nil => True
  | dt_node _ items kids rest =>
      let c := items_cells child items in
      (is_memory items = true -> exists ac sc v, parent = Some (ac, sc) /\ reg_of items = Some v /\
         0 <= ac /\ 0 <= sc /\ 0 < ac + sc /\ Z.of_nat (length v) mod (4 * (ac + sc)) = 0) /\
      memory_ok (Some c) (2, 1) kids /\ memory_ok parent c rest
  end.

(** ** The memory *)

Lemma be_value_app l1 l2 : be_value (l1 ++ l2) = be_value l1 * 256 ^ Z.of_nat (length l2) + be_value l2.
Proof.
  unfold be_value. rewrite foldl_app. generalize (foldl (fun v b => 256 * v + b) 0 l1). intros a.
  assert (forall l a, foldl (fun v b => 256 * v + b) a l = a * 256 ^ Z.of_nat (length l) + foldl (fun v b => 256 * v + b) 0 l) as H.
  { induction l as [|b l IH]; intros x; cbn [foldl length]; [cbn; lia|].
    rewrite IH, (IH (256 * 0 + b)), Nat2Z.inj_succ, Z.pow_succ_r by lia. lia. }
  apply H.
Qed.

Lemma get_cells_run n : forall m a r l, length l = (4 * n)%nat -> holds m a l -> 0 <= r < 2 ^ 64 ->
  get_cells n m a r = (u64 (r * 256 ^ Z.of_nat (4 * n) + be_value l), a + 4 * Z.of_nat n).
Proof.
  induction n as [|n IH]; intros m a r l Hl Hm Hr; cbn [get_cells].
  - destruct l; [|done]. cbn [be_value foldl]. change (256 ^ Z.of_nat (4 * 0)) with 1. rewrite u64_small by lia. f_equal; lia.
  - rewrite <- (take_drop 4 l) in Hm. apply holds_app in Hm as [H1 H2].
    assert (length (take 4 l) = 4%nat) as L1 by (rewrite length_take; lia).
    assert (length (drop 4 l) = (4 * n)%nat) as L2 by (rewrite length_drop; lia).
    rewrite (cell_holds m a 0 (take 4 l)) by (done || by rewrite Z.mul_0_r, Z.add_0_r). rewrite L1 in H2.
    rewrite (IH m (a + 4) _ (drop 4 l) L2 H2) by apply u64_range.
    f_equal; [|lia]. rewrite Z.shiftl_mul_pow2 by lia.
    rewrite <- (take_drop 4 l) at 3. rewrite be_value_app, L2.
    replace (256 ^ Z.of_nat (4 * S n)) with (2 ^ 32 * 256 ^ Z.of_nat (4 * n)).
    2: { replace (Z.of_nat (4 * S n)) with (4 + Z.of_nat (4 * n)) by lia. rewrite Z.pow_add_r by lia. done. }
    unfold u64. rewrite Zplus_mod_idemp_l. rewrite <- (Zplus_mod_idemp_l (_ mod _ * _)), Zmult_mod_idemp_l, Zplus_mod_idemp_l.
    f_equal. ring.
Qed.

Section memory.
Variables (self strings : Z) (m : mem).

Lemma mem_regions_run p ac sc : cells p = (Z.of_nat ac, Z.of_nat sc) -> (0 < ac + sc)%nat -> forall n fuel v value x,
  length v = (n * (4 * (ac + sc)))%nat -> holds m value v -> (n <= fuel)%nat ->
  exists x', mem_regions fuel (Some p) m self value (value + Z.of_nat (length v)) x = Ret (value + Z.of_nat (length v)) x' /\
    x' = x <| ms_size := last_region n self ac sc v (ms_size x) |>.
Proof.
  intros Hp Hpos. injection Hp as Hac Hsc. induction n as [|n IH]; intros fuel v value x Hl Hm Hf.
  - assert (v = []) as -> by (by apply nil_length_inv). exists x. cbn [length Z.of_nat last_region]. rewrite Z.add_0_r.
    split; [|by destruct x]. destruct fuel; cbn [mem_regions]; by rewrite Z.sub_diag.
  - destruct fuel as [|fuel]; [lia|]. cbn [mem_regions].
    rewrite (proj2 (Z.ltb_lt 0 _)) by nia. unfold fdt_get_address, fdt_get_size. rewrite Hac, Hsc, !Nat2Z.id.
    rewrite <- (take_drop (4 * ac) v) in Hm. apply holds_app in Hm as [H1 H2].
    rewrite <- (take_drop (4 * sc) (drop (4 * ac) v)) in H2. apply holds_app in H2 as [H2 H3].
    assert (length (take (4 * ac) v) = (4 * ac)%nat) as L1 by (rewrite length_take; nia).
    assert (length (take (4 * sc) (drop (4 * ac) v)) = (4 * sc)%nat) as L2 by (rewrite length_take, length_drop; nia).
    assert (length (drop (4 * sc) (drop (4 * ac) v)) = (n * (4 * (ac + sc)))%nat) as L3 by (rewrite !length_drop; nia).
    rewrite L1 in H2, H3. rewrite L2 in H3.
    rewrite (get_cells_run ac m value 0 (take (4 * ac) v)) by (done || lia). rewrite Z.mul_0_l, Z.add_0_l.
    replace (value + 4 * Z.of_nat ac) with (value + Z.of_nat (4 * ac)) by lia.
    rewrite (get_cells_run sc m _ 0 (take (4 * sc) (drop (4 * ac) v))) by (done || lia). rewrite Z.mul_0_l, Z.add_0_l.
    replace (value + Z.of_nat (4 * ac) + 4 * Z.of_nat sc) with (value + Z.of_nat (4 * ac) + Z.of_nat (4 * sc)) by lia.
    cbn [last_region]. set (base := u64 (be_value (take (4 * ac) v))). set (size := u64 (be_value (take (4 * sc) (drop (4 * ac) v)))).
    set (g := if (base <=? self) && (self <=? u64 (base + size)) then size else ms_size x).
    assert ((if (base <=? self) && (self <=? u64 (base + size)) then modify (fun s => s <| ms_size := size |>) else ret tt) x
      = Ret tt (x <| ms_size := g |>)) as E by (unfold g; destruct ((base <=? self) && _); by destruct x).
    step E. destruct (IH fuel _ _ (x <| ms_size := g |>) L3 H3) as (x' & E' & ->); [lia|].
    replace (value + Z.of_nat (4 * ac) + Z.of_nat (4 * sc) + Z.of_nat (length (drop (4 * sc) (drop (4 * ac) v))))
      with (value + Z.of_nat (length v)) in E' by lia.
    eexists. split; [exact E'|]. done.
Qed.

(** *** Properties *)

(** The byte behind the items, like that behind every item, is zero. *)
Lemma items_split (i : dt_item) (items : list dt_item) lex :
  holds m lex (((i :: items) ≫= encode_item) ++ [0]) ->
  holds m lex (encode_item i ++ [0]) /\ holds m (lex + Z.of_nat (length (encode_item i))) ((items ≫= encode_item) ++ [0]).
Proof.
  change ((i :: items) ≫= encode_item) with (encode_item i ++ (items ≫= encode_item)). rewrite <- app_assoc, !holds_app.
  intros [H1 H2]. split; [split; [done|]|exact H2].
  destruct items as [|j items]; [destruct H2 as [_ H2]; by rewrite Z.add_0_r in H2|]. destruct H2 as [H2 _].
  change ((j :: items) ≫= encode_item) with (encode_item j ++ (items ≫= encode_item)) in H2. apply holds_app in H2 as [H2 _].
  apply holds_cons. split; [|by intros ? ?]. by destruct j; cbn [encode_item be32 app] in H2; apply holds_cons in H2 as [-> _].
Qed.

Lemma item_value off name value lex :
  holds m lex (encode_item (dt_prop off name value) ++ [0]) -> holds m (lex + 12) value /\ cstr m (lex + 12) (string_of value).
Proof.
  cbn [encode_item]. rewrite <- !app_assoc, !(holds_app _ _ (be32 _)), !length_be32. intros (_ & _ & _ & H).
  replace (lex + 4 + 4 + 4) with (lex + 12) in H by lia. unfold pad in H. rewrite <- app_assoc in H.
  split; [by apply holds_app in H as [H _]|]. apply string_of_cstr.
  replace (replicate (Z.to_nat (- Z.of_nat (length value) mod 4)) 0 ++ [0]) with
    ([0] ++ replicate (Z.to_nat (- Z.of_nat (length value) mod 4)) 0) in H by (by rewrite <- replicate_cons_app).
  rewrite app_assoc in H. by apply holds_app in H as [H _].
Qed.

Lemma mem_items items : forall lex s,
  dt_mem s = m -> 0 < lex -> Forall (item_ok m strings) items -> holds m lex ((items ≫= encode_item) ++ [0]) ->
  exists x, scan_items (mem_cb self) strings items lex s = Ret tt (Build_scan_state m x) /\
    ms_memory x = ms_memory (dt_extra s) || is_memory items /\ ms_size x = ms_size (dt_extra s) /\
    match reg_of items with
    | Some v => holds m (reg_value x) v /\ reg_len x = Z.of_nat (length v) /\ 0 < reg_value x
    | None => reg_value x = reg_value (dt_extra s) /\ reg_len x = reg_len (dt_extra s)
    end.
Proof.
  induction items as [|i items IH]; intros lex s Hs Hlex Hok Hm.
  - exists (dt_extra s). rewrite orb_false_r. split_and!; [|done..]. cbn. unfold ret. by destruct s; cbn in *; subst.
  - apply Forall_cons in Hok as [Hi Hok]. apply items_split in Hm as [Hm1 Hm2]. cbn [scan_items].
    destruct i as [|off name value].
    + step (eq_refl : ret tt s = Ret tt s). exact (IH (lex + Z.of_nat (length (encode_item dt_nop))) s Hs ltac:(lia) Hok Hm2).
    + destruct (item_value off name value lex Hm1) as [Hv Hstr]. destruct Hi as (_ & Hname & _).
      set (p := {| prop_name := strings + off; prop_value := lex + 12; prop_len := Z.of_nat (length value) |}).
      set (mm := bool_decide (name = text "device_type") && bool_decide (string_of value = text "memory")).
      set (rr := bool_decide (name = text "reg")).
      set (x1 := if mm then (dt_extra s) <| ms_memory := true |>
                 else if rr then (dt_extra s) <| reg_value := lex + 12 |> <| reg_len := Z.of_nat (length value) |> else dt_extra s).
      assert (call (cb_prop (mem_cb self) p) s = Ret tt (Build_scan_state m x1)) as E.
      { unfold call, zoom. cbn [cb_prop mem_cb]. unfold mem_prop, p. cbn [prop_name prop_value prop_len]. rewrite Hs.
        rewrite (str_is_text m _ name "device_type"), (str_is_text m _ name "reg"), (str_is_text m _ (string_of value)) by done. fold mm rr. unfold x1.
        destruct mm; [done|]. by destruct rr. }
      step E. destruct (IH (lex + Z.of_nat (length (encode_item (dt_prop off name value)))) (Build_scan_state m x1) eq_refl ltac:(lia) Hok Hm2) as (x & Ex & H1 & H2 & H3).
      exists x. cbn [dt_extra] in H1, H2, H3. split; [exact Ex|].
      assert (is_memory (dt_prop off name value :: items) = mm || is_memory items) as ->.
      { unfold is_memory, has_value, values_of, mm. cbn [omap list_omap value_of]. by destruct (bool_decide (name = _)). }
      assert (reg_of (dt_prop off name value :: items) = match reg_of items with Some v => Some v | None => if rr then Some value else None end) as ->.
      { unfold reg_of, values_of. cbn [omap list_omap value_of]. fold rr. destruct rr; [|by destruct (last _)]. rewrite last_cons. done. }
      assert (mm = true -> rr = false) as Hmr.
      { unfold mm, rr. intros [->%bool_decide_eq_true _]%andb_prop. by vm_compute. }
      rewrite H1, H2. clear H1 H2 E Ex. split_and!.
      * unfold x1. destruct mm; [by rewrite orb_true_l, orb_true_r|]. by destruct rr.
      * unfold x1. destruct mm; [done|]. by destruct rr.
      * destruct (reg_of items) as [w|]; [done|]. destruct H3 as [-> ->]. unfold x1.
        destruct mm; [by rewrite Hmr|]. destruct rr; [|done]. cbn. split_and!; [done..|lia].
Qed.

(** The parts of a node, each followed by a zero. *)
Lemma node_split lex name items kids rest :
  holds m lex (encode_nodes (dt_node name items kids rest) ++ [0]) ->
  let lex1 := lex + 4 + Z.of_nat (length (pad (name ++ [0]))) in
  let lex2 := lex1 + Z.of_nat (length (items ≫= encode_item)) in
  holds m lex1 ((items ≫= encode_item) ++ [0]) /\ holds m lex2 (encode_nodes kids ++ [0]) /\
  holds m (lex2 + Z.of_nat (length (encode_nodes kids)) + 4) (encode_nodes rest ++ [0]).
Proof.
  intros Hm lex1 lex2. cbn [encode_nodes] in Hm. rewrite <- !app_assoc in Hm. rewrite !holds_app, !length_be32 in Hm.
  destruct Hm as (_ & _ & Hm2 & Hm3 & Hm4 & Hm5 & Hm6). fold lex1 in Hm2, Hm3, Hm4, Hm5, Hm6. fold lex2 in Hm3, Hm4, Hm5, Hm6.
  split_and!; apply holds_app; split; try done.
  - fold lex2. apply holds_cons. split; [|by intros ? ?].
    destruct kids; cbn [encode_nodes app] in Hm3, Hm4; [|by apply holds_cons in Hm3 as [-> _]].
    cbn [length] in Hm4. rewrite Z.add_0_r in Hm4. by apply holds_cons in Hm4 as [-> _].
  - by apply (holds_app _ _ [0] [0; 0; 2]) in Hm4 as [Hm4 _].
Qed.

(** The regions of a memory node. *)
Lemma mem_done_run x n ac sc v lex c :
  ms_memory x = true -> cells n = (ac, sc) -> 0 <= ac -> 0 <= sc -> 0 < ac + sc ->
  Z.of_nat (length v) mod (4 * (ac + sc)) = 0 -> holds m (reg_value x) v -> reg_len x = Z.of_nat (length v) -> 0 < reg_value x ->
  exists x', call (cb_done (mem_cb self) (child_of (Some n) lex c)) (Build_scan_state m x) = Ret tt (Build_scan_state m x') /\
    ms_size x' = last_region (Z.to_nat (Z.of_nat (length v) / (4 * (ac + sc)))) self (Z.to_nat ac) (Z.to_nat sc) v (ms_size x).
Proof.
  intros Hx Hc Hac Hsc Hpos Hmod Hv Hrl Hrv. set (k := Z.to_nat (Z.of_nat (length v) / (4 * (ac + sc)))).
  assert (Z.of_nat (length v) = 4 * (ac + sc) * Z.of_nat k) as Hk.
  { unfold k. rewrite Z2Nat.id by (apply Z.div_pos; lia). pose proof (Z.div_mod (Z.of_nat (length v)) (4 * (ac + sc))). lia. }
  assert (Z.quot (Z.of_nat (length v)) 4 = (ac + sc) * Z.of_nat k) as Hq.
  { rewrite Z.quot_div_nonneg, Hk by lia. replace (4 * (ac + sc) * Z.of_nat k) with ((ac + sc) * Z.of_nat k * 4) by lia. by apply Z.div_mul. }
  assert (Z.rem (Z.of_nat (length v)) 4 = 0) as Hr by (rewrite Z.rem_eq by lia; lia).
  destruct (mem_regions_run n (Z.to_nat ac) (Z.to_nat sc)) with (n := k) (fuel := Z.to_nat ((ac + sc) * Z.of_nat k)) (v := v)
    (value := reg_value x) (x := x) as (x' & E & Hx'); [by rewrite Hc, !Z2Nat.id by lia|lia|nia|done|nia|].
  exists x'. rewrite Hx'. split; [|by destruct x]. rewrite <- Hx'. unfold call, zoom. cbn [cb_done mem_cb dt_mem dt_extra].
  unfold mem_done. step (eq_refl : gets id x = Ret x x). rewrite Hx, Hrl, Hr. rewrite (proj2 (Z.eqb_neq _ _)) by lia.
  cbn [negb]. step (eq_refl : kassert (true && (0 =? 0)) "scan->reg_value && scan->reg_len % 4 == 0" x = Ret tt x).
  cbn [node_parent child_of]. rewrite Hq. replace (4 * ((ac + sc) * Z.of_nat k)) with (Z.of_nat (length v)) by lia.
  step E. by rewrite Z.eqb_refl.
Qed.

Lemma mem_nodes f : forall node child lex s,
  dt_mem s = m -> 0 < lex -> nodes_ok m strings f -> memory_ok (cells <$> node) child f -> holds m lex (encode_nodes f ++ [0]) ->
  exists x, scan_nodes (mem_cb self) strings node child f lex s = Ret tt (Build_scan_state m x) /\
    ms_size x = find_memory self (cells <$> node) child f (ms_size (dt_extra s)).
Proof.
  induction f as [|name items kids IHk rest IHr]; intros node child lex s Hs Hlex Hok Hmem Hm; cbn [scan_nodes].
  - exists (dt_extra s). split; [|done]. unfold ret. by destruct s; cbn in *; subst.
  - destruct Hok as (_ & Hitems & Hkids & Hrest). destruct Hmem as (Hreg & Hmk & Hmr).
    destruct (node_split lex name items kids rest Hm) as (Hm2 & Hm3 & Hm4).
    set (lex1 := lex + 4 + Z.of_nat (length (pad (name ++ [0])))) in *.
    set (lex2 := lex1 + Z.of_nat (length (items ≫= encode_item))) in *.
    set (lex3 := lex2 + Z.of_nat (length (encode_nodes kids)) + 4) in *.
    set (c := items_cells child items) in *.
    set (x0 := (dt_extra s) <| ms_memory := false |> <| reg_value := 0 |> <| reg_len := 0 |>).
    assert (call (cb_open (mem_cb self) (child_of node lex child)) s = Ret tt (Build_scan_state m x0)) as E0
      by (unfold call, zoom; cbn; by rewrite Hs).
    step E0. assert (0 < lex1 /\ 0 < lex2 /\ 0 < lex3) as (Hl1 & Hl2 & Hl3) by (unfold lex3, lex2, lex1; lia).
    destruct (mem_items items lex1 (Build_scan_state m x0) eq_refl Hl1 Hitems) as (x1 & E1 & H1 & H2 & H3); [done|].
    step E1. cbn [dt_extra] in H1, H2, H3.
    set (g := match cells <$> node, reg_of items with
      | Some (ac, sc), Some v => if is_memory items
          then last_region (Z.to_nat (Z.of_nat (length v) / (4 * (ac + sc)))) self (Z.to_nat ac) (Z.to_nat sc) v (ms_size (dt_extra s))
          else ms_size (dt_extra s)
      | _, _ => ms_size (dt_extra s) end).
    assert (exists x2, call (cb_done (mem_cb self) (child_of node lex c)) (Build_scan_state m x1) = Ret tt (Build_scan_state m x2) /\
      ms_size x2 = g) as (x2 & E2 & Hg).
    { change (ms_memory x1 = is_memory items) in H1. change (ms_size x1 = ms_size (dt_extra s)) in H2.
      destruct (is_memory items) eqn:Em.
      - destruct (Hreg eq_refl) as (ac & sc & v & Hp & Hr & Hac & Hsc & Hpos & Hmod).
        destruct node as [n|]; [|done]. change (Some (cells n) = Some (ac, sc)) in Hp. injection Hp as Ha Hs'.
        unfold g. change (cells <$> Some n) with (Some (cells n)). unfold cells. rewrite Ha, Hs', Hr. rewrite Hr in H3. destruct H3 as (Hv & Hrl & Hrv).
        rewrite <- H2. apply mem_done_run; try done. unfold cells. congruence.
      - exists x1. split; [|unfold g; rewrite H2; by destruct (cells <$> node) as [[]|], (reg_of items)].
        unfold call, zoom. cbn [cb_done mem_cb dt_mem dt_extra]. unfold mem_done. step (eq_refl : gets id x1 = Ret x1 x1). by rewrite H1. }
    step E2.
    destruct (IHk (Some (child_of node lex c)) (2, 1) lex2 (Build_scan_state m x2) eq_refl Hl2 Hkids) as (x3 & E3 & H4).
    { change (cells <$> Some (child_of node lex c)) with (Some (cells (child_of node lex c))).
      assert (cells (child_of node lex c) = c) as -> by (by destruct c). done. }
    { done. }
    step E3.
    destruct (IHr node c lex3 (Build_scan_state m x3) eq_refl Hl3 Hrest Hmr) as (x4 & E4 & H5); [done|].
    exists x4. split; [exact E4|]. rewrite H5. cbn [dt_extra find_memory]. fold c g. rewrite H4. cbn [dt_extra]. rewrite Hg.
    change (cells <$> Some (child_of node lex c)) with (Some (cells (child_of node lex c))).
    assert (cells (child_of node lex c) = c) as -> by (by destruct c). done.
Qed.
End memory.

(** ** HTIF *)

Fixpoint any_node (p : list dt_item -> bool) (f : dt_nodes) : bool :=
  match f with dt_nil => false | dt_node _ items kids rest => p items || any_node p kids || any_node p rest end.

Definition is_htif (items : list dt_item) : bool := has_value "compatible" "ucb,htif0" items.

Section htif.
Variables (strings : Z) (m : mem).

Lemma htif_items items : forall lex s,
  dt_mem s = m -> Forall (item_ok m strings) items -> holds m lex ((items ≫= encode_item) ++ [0]) ->
  scan_items htif_cb strings items lex s =
    Ret tt (Build_scan_state m ((dt_extra s) <| compat := compat (dt_extra s) || is_htif items |>)).
Proof.
  induction items as [|i items IH]; intros lex s Hs Hok Hm.
  - cbn. rewrite orb_false_r. unfold ret. destruct s as [? []]; cbn in *; by subst.
  - apply Forall_cons in Hok as [Hi Hok]. apply items_split in Hm as [Hm1 Hm2]. cbn [scan_items].
    destruct i as [|off name value]; [exact (IH (lex + Z.of_nat (length (encode_item dt_nop))) s Hs Hok Hm2)|].
    destruct (item_value m off name value lex Hm1) as [_ Hstr]. destruct Hi as (_ & Hname & _).
    set (p := {| prop_name := strings + off; prop_value := lex + 12; prop_len := Z.of_nat (length value) |}).
    set (hh := bool_decide (name = text "compatible") && bool_decide (string_of value = text "ucb,htif0")).
    assert (call (cb_prop htif_cb p) s = Ret tt (Build_scan_state m ((dt_extra s) <| compat := compat (dt_extra s) || hh |>))) as E.
    { unfold call, zoom. cbn [cb_prop htif_cb]. unfold htif_prop, p. cbn [prop_name prop_value]. rewrite Hs.
      rewrite (str_is_text m _ name "compatible"), (str_is_text m _ (string_of value)) by done. fold hh.
      destruct hh; [by rewrite orb_true_r|rewrite orb_false_r; by destruct (dt_extra s)]. }
    step E. rewrite (IH _ (Build_scan_state m _) eq_refl Hok Hm2). cbn [dt_extra].
    assert (is_htif (dt_prop off name value :: items) = hh || is_htif items) as ->.
    { unfold is_htif, has_value, values_of, hh. cbn [omap list_omap value_of]. by destruct (bool_decide (name = _)). }
    by rewrite orb_assoc.
Qed.

Lemma htif_nodes f : forall node child lex s,
  dt_mem s = m -> nodes_ok m strings f -> holds m lex (encode_nodes f ++ [0]) ->
  exists x, scan_nodes htif_cb strings node child f lex s = Ret tt (Build_scan_state m x) /\
    htif x = htif (dt_extra s) || any_node is_htif f.
Proof.
  induction f as [|name items kids IHk rest IHr]; intros node child lex s Hs Hok Hm; cbn [scan_nodes any_node].
  - exists (dt_extra s). rewrite orb_false_r. split; [|done]. unfold ret. by destruct s; cbn in *; subst.
  - destruct Hok as (_ & Hitems & Hkids & Hrest). destruct (node_split m lex name items kids rest Hm) as (Hm2 & Hm3 & Hm4).
    set (lex1 := lex + 4 + Z.of_nat (length (pad (name ++ [0])))) in *.
    set (lex2 := lex1 + Z.of_nat (length (items ≫= encode_item))) in *.
    set (lex3 := lex2 + Z.of_nat (length (encode_nodes kids)) + 4) in *.
    set (x0 := (dt_extra s) <| compat := false |>). set (x1 := x0 <| compat := is_htif items |>).
    set (x2 := x1 <| htif := htif (dt_extra s) || is_htif items |>).
    assert (call (cb_open htif_cb (child_of node lex child)) s = Ret tt (Build_scan_state m x0)) as E0
      by (unfold call, zoom; cbn; by rewrite Hs).
    step E0. step (htif_items items lex1 (Build_scan_state m x0) eq_refl Hitems Hm2).
    assert (call (cb_done htif_cb (child_of node lex (items_cells child items))) (Build_scan_state m x1) = Ret tt (Build_scan_state m x2)) as E2.
    { unfold call, zoom. cbn [cb_done htif_cb dt_mem dt_extra]. unfold htif_done. step (eq_refl : gets id x1 = Ret x1 x1).
      change (compat x1) with (is_htif items). unfold x2, x1, x0. destruct (is_htif items); [by rewrite orb_true_r|].
      rewrite orb_false_r. cbn. by destruct (dt_extra s). }
    step E2.
    destruct (IHk (Some (child_of node lex (items_cells child items))) (2, 1) lex2 (Build_scan_state m x2) eq_refl Hkids Hm3) as (x3 & E3 & H3).
    step E3. destruct (IHr node (items_cells child items) lex3 (Build_scan_state m x3) eq_refl Hrest Hm4) as (x4 & E4 & H4).
    exists x4. split; [exact E4|]. rewrite H4. cbn [dt_extra]. rewrite H3. cbn [dt_extra]. change (htif x2) with (htif (dt_extra s) || is_htif items).
    by rewrite !orb_assoc.
Qed.
End htif.

(** ** The two queries *)

(** A device tree at [fdt], of a version the code accepts. *)
Record fdt_at (m : mem) (fdt : Z) (f : dt_nodes) : Prop := {
  fa_magic : cell m fdt 0 = FDT_MAGIC;
  fa_version : cell m fdt 6 <= FDT_VERSION;
  fa_addr : 0 < fdt + cell m fdt 2;
  fa_struct : holds m (fdt + cell m fdt 2) (encode_nodes f ++ be32 FDT_END);
  fa_names : nodes_ok m (fdt + cell m fdt 3) f;
}.

Lemma fdt_scan_run {X} (cb : fdt_cb X) fuel m fdt f x :
  cb_close cb = None -> fdt_at m fdt f -> (length (encode_nodes f) < fuel)%nat ->
  fdt_scan cb fuel fdt (Build_scan_state m x) =
    bind (scan_nodes cb (fdt + cell m fdt 3) None (2, 1) f (fdt + cell m fdt 2)) (fun _ => ret tt) (Build_scan_state m x).
Proof.
  intros Hc [Hm Hv Ha Hs Hn] Hf. unfold fdt_scan. step (eq_refl : gets id (Build_scan_state m x) = Ret (Build_scan_state m x) (Build_scan_state m x)).
  cbn [dt_mem]. rewrite Hm, Z.eqb_refl. rewrite (proj2 (Z.ltb_ge _ _)) by done. cbn [negb orb].
  rewrite (bind_ret_ext _ _ _ _ (helper_nodes cb _ Hc m FDT_END ltac:(by right) f fuel _ None (2, 1) false (Build_scan_state m x) eq_refl Hn Hs Hf)).
  rewrite bind_assoc. step (eq_refl : done_once cb false None (Build_scan_state m x) = Ret tt (Build_scan_state m x)).
  rewrite bind_assoc. by apply bind_ext.
Qed.

Lemma device_tree_run (fuel : nat) (m : mem) (fdt : Z) (f : dt_nodes) (self : Z) (junk : mem_scan) (junk' : htif_scan) :
  fdt_at m fdt f -> memory_ok None (2, 1) f -> (length (encode_nodes f) < fuel)%nat ->
  let size := find_memory self None (2, 1) f 0 in
  query_mem fuel self junk fdt m = (if 0 <? size then Ret size m else Panic "g_mem_size > 0") /\
  query_htif fuel junk' fdt m = Ret (htif junk' || any_node is_htif f) m.
Proof.
  intros Ha Hmem Hf size. pose proof Ha as [_ _ Hpos Hs Hn]. apply (holds_app _ _ _ [0; 0; 0; 9]) in Hs as [Hs1 Hs2].
  assert (holds m (fdt + cell m fdt 2) (encode_nodes f ++ [0])) as Hs.
  { apply holds_app. split; [done|]. by apply (holds_app _ _ [0] [0; 0; 9]) in Hs2 as [Hs2 _]. }
  unfold query_mem, query_htif. rewrite !(fdt_scan_run _ fuel m fdt f) by done. split.
  - destruct (mem_nodes self (fdt + cell m fdt 3) m f None (2, 1) _ (Build_scan_state m (junk <| ms_size := 0 |>)) eq_refl Hpos Hn Hmem Hs)
      as (x & E & Hx). rewrite (bind_ret_eq _ _ _ _ _ E). unfold ret. cbn [dt_extra dt_mem]. by rewrite Hx.
  - destruct (htif_nodes (fdt + cell m fdt 3) m f None (2, 1) _ (Build_scan_state m junk') eq_refl Hn Hs)
      as (x & E & Hx). rewrite (bind_ret_eq _ _ _ _ _ E). unfold ret. cbn [dt_extra dt_mem]. by rewrite Hx.
Qed.

(** C34.  On a flattened device tree in memory, whatever nodes and properties it has,
    the scan visits every node once.  [query_mem] returns the size of the last region of
    a memory node that contains the kernel, decoded with the cell counts of the parent of
    the node, and stops the machine when there is none; [query_htif] finds the HTIF device
    exactly when some node is compatible with it.  Memory does not change, and the length
    of the structure block in bytes is enough fuel.  The cell counts of a node that gives
    none are those of the sibling before it, not the default of the format. *)
Theorem device_tree_spec (fuel : nat) (m : mem) (fdt : Z) (f : dt_nodes) (self : Z) (junk : mem_scan) (junk' : htif_scan) :
  fdt_at m fdt f -> memory_ok None (2, 1) f -> (length (encode_nodes f) < fuel)%nat ->
  let size := find_memory self None (2, 1) f 0 in
  query_mem fuel self junk fdt m = (if 0 <? size then Ret size m else Panic "g_mem_size > 0") /\
  query_htif fuel junk' fdt m = Ret (htif junk' || any_node is_htif f) m.
Proof. apply device_tree_run. Qed.

(** A tree like Spike's: the root with two cells each, 128 MiB at 2 GiB and HTIF. *)
Definition small_strings : list Z :=
  text "#address-cells" ++ [0] ++ text "#size-cells" ++ [0] ++ text "device_type" ++ [0] ++ text "reg" ++ [0] ++ text "compatible" ++ [0].

Definition small_tree : dt_nodes :=
  dt_node [] [dt_prop 0 (text "#address-cells") (be32 2); dt_prop 15 (text "#size-cells") (be32 2)]
    (dt_node (text "memory@80000000")
       [dt_prop 27 (text "device_type") (text "memory" ++ [0]); dt_nop;
        dt_prop 39 (text "reg") (be32 0 ++ be32 2147483648 ++ be32 0 ++ be32 134217728)] dt_nil
       (dt_node (text "htif") [dt_prop 43 (text "compatible") (text "ucb,htif0" ++ [0])] dt_nil dt_nil))
    dt_nil.

Definition small_fdt : mem :=
  store_bytes ∅ 4096 (be32 FDT_MAGIC ++ be32 0 ++ be32 40 ++ be32 1024 ++ be32 0 ++ be32 17 ++ be32 16 ++ be32 0 ++ be32 0 ++ be32 0
    ++ encode_nodes small_tree ++ be32 FDT_END)
  ∪ store_bytes ∅ 5120 small_strings.

Lemma small_fdt_at : fdt_at small_fdt 4096 small_tree.
Proof.
  assert (forall l m a, bool_decide (Forall (fun i => load8 m (a + Z.of_nat i) = default 0 (l !! i)) (seq 0 (length l))) = true -> holds m a l) as Hh.
  { intros l m a H%bool_decide_eq_true i b Hi. rewrite Forall_forall in H. rewrite (H i), Hi; [done|].
    apply elem_of_seq. apply lookup_lt_Some in Hi. lia. }
  split.
  - by vm_compute.
  - by vm_compute.
  - by vm_compute.
  - apply Hh. by vm_compute.
  - cbn [nodes_ok small_tree]. repeat split; try (repeat constructor; vm_compute; intuition (congruence || lia)).
Qed.

Lemma small_tree_memory : memory_ok None (2, 1) small_tree.
Proof.
  cbn [memory_ok small_tree]. split_and!; try done.
  intros _. exists 2, 2. eexists. split_and!; [by vm_compute..|by vm_compute|lia|lia|by vm_compute].
Qed.

Lemma device_tree_spec_witness :
  query_mem 400 2147487744 {| ms_memory := true; reg_value := 7; reg_len := 3; ms_size := 5 |} 4096 small_fdt = Ret 134217728 small_fdt /\
  query_htif 400 {| compat := true; htif := false |} 4096 small_fdt = Ret true small_fdt.
Proof.
  destruct (device_tree_spec 400 small_fdt 4096 small_tree 2147487744
    {| ms_memory := true; reg_value := 7; reg_len := 3; ms_size := 5 |} {| compat := true; htif := false |}) as [E1 E2].
  - exact small_fdt_at.
  - exact small_tree_memory.
  - apply Nat.ltb_lt. by vm_compute.
  - rewrite E1, E2. split; by vm_compute.
Defined.
