(* ===== verification/Htif.v ===== *)
(** spike_interface/spike_htif.c and spike_utils.c: the exchange with the simulator through
    the words [tohost] and [fromhost], and the calls that are made with it. *)

From S2P Require Import Prelude Mem CString.

(** * spike_htif.h *)

Definition TOHOST_CMD (dev cmd payload : Z) : Z := Z.lor (Z.lor (u64 (Z.shiftl dev 56)) (u64 (Z.shiftl cmd 48))) payload.
Definition FROMHOST_DEV (v : Z) : Z := Z.shiftr v 56.
Definition FROMHOST_CMD (v : Z) : Z := Z.shiftr (u64 (Z.shiftl v 8)) 56.
Definition FROMHOST_DATA (v : Z) : Z := Z.shiftr (u64 (Z.shiftl v 16)) 16.
Definition HTIFSYS_exit : Z := 93.

(** * State *)

(** What the simulator does between two accesses of the kernel to the words: nothing, serve
    the command in [tohost], or store a message in [fromhost]. *)
Inductive event := Idle | Take | Give (v : Z).

(** [io_mem] is the memory both sides see; [script] is what the simulator is going to do;
    [htif_lock] and [fe_lock] are the locks of the two files. *)
Record htif_io := {
  tohost : Z;
  fromhost : Z;
  htif_console_buf : Z;
  htif_lock : bool;
  fe_lock : bool;
  htif_found : bool;
  io_mem : mem;
  script : list event;
}.
#[export] Instance eta_htif_io : Eta htif_io := fun s =>
  Build_htif_io (tohost s) (fromhost s) (htif_console_buf s) (htif_lock s) (fe_lock s) (htif_found s) (io_mem s) (script s).

(** The simulator: [serve cmd] is its effect on memory.  [magic_mem] is the address of the
    array of that name. *)
Class Simulator := { serve : Z -> mem -> mem; magic_mem : Z }.

Section htif.
Context {SIM : Simulator}.

(** A command is taken from [tohost] when there is one; a message is stored when the last
    one has been read. *)
Definition host_step (s : htif_io) : htif_io :=
  match script s with
  | [] => s
  | Idle :: l => s <| script := l |>
  | Take :: l =>
      if tohost s =? 0 then s
      else s <| tohost := 0 |> <| io_mem := serve (tohost s) (io_mem s) |> <| script := l |>
  | Give v :: l => if fromhost s =? 0 then s <| fromhost := v |> <| script := l |> else s
  end.

Definition read_tohost : M htif_io Z := fun s => Ret (tohost (host_step s)) (host_step s).
Definition read_fromhost : M htif_io Z := fun s => Ret (fromhost (host_step s)) (host_step s).

Definition lock_htif : M htif_io unit := fun s => if htif_lock s then Hang else Ret tt (s <| htif_lock := true |>).
Definition unlock_htif : M htif_io unit := modify (fun s => s <| htif_lock := false |>).

(** * Basic operations *)

Definition __check_fromhost : M htif_io unit :=
  fh <- read_fromhost ;;
  if fh =? 0 then ret tt
  else
    modify (fun s => s <| fromhost := 0 |>) ;;;
    kassert (FROMHOST_DEV fh =? 1) "FROMHOST_DEV(fh) == 1" ;;;
    if FROMHOST_CMD fh =? 0 then modify (fun s => s <| htif_console_buf := 1 + u8 (FROMHOST_DATA fh) |>)
    else if FROMHOST_CMD fh =? 1 then ret tt
    else panic "0".

Fixpoint __set_tohost (fuel : nat) (dev cmd data : Z) : M htif_io unit :=
  match fuel with
  | O => hang
  | S f =>
      t <- read_tohost ;;
      if t =? 0 then modify (fun s => s <| tohost := TOHOST_CMD dev cmd data |>)
      else __check_fromhost ;;; __set_tohost f dev cmd data
  end.

(** The loop of [do_tohost_fromhost]. *)
Fixpoint wait_reply (fuel : nat) (dev cmd : Z) : M htif_io unit :=
  match fuel with
  | O => hang
  | S f =>
      fh <- read_fromhost ;;
      if fh =? 0 then wait_reply f dev cmd
      else if (FROMHOST_DEV fh =? dev) && (FROMHOST_CMD fh =? cmd) then modify (fun s => s <| fromhost := 0 |>)
      else __check_fromhost ;;; wait_reply f dev cmd
  end.

Definition do_tohost_fromhost (fuel : nat) (dev cmd data : Z) : M htif_io unit :=
  lock_htif ;;;
  __set_tohost fuel dev cmd data ;;;
  wait_reply fuel dev cmd ;;;
  unlock_htif.

Definition htif_syscall (fuel : nat) (arg : Z) : M htif_io unit := do_tohost_fromhost fuel 0 0 arg.

Definition htif_console_putchar (fuel : nat) (ch : Z) : M htif_io unit :=
  lock_htif ;;; __set_tohost fuel 1 1 ch ;;; unlock_htif.

Definition htif_console_getchar (fuel : nat) : M htif_io Z :=
  lock_htif ;;;
  __check_fromhost ;;;
  ch <- gets htif_console_buf ;;
  (if 0 <=? ch then modify (fun s => s <| htif_console_buf := -1 |>) ;;; __set_tohost fuel 1 0 0 else ret tt) ;;;
  unlock_htif ;;;
  ret (ch - 1).

(** The loop stores the two words for ever. *)
Definition htif_poweroff : M htif_io unit := modify (fun s => s <| fromhost := 0 |> <| tohost := 1 |>) ;;; hang.

(** * spike_utils.c *)

Definition lock_fe : M htif_io unit := fun s => if fe_lock s then Hang else Ret tt (s <| fe_lock := true |>).
Definition unlock_fe : M htif_io unit := modify (fun s => s <| fe_lock := false |>).

(** The eight words of [magic_mem]. *)
Fixpoint put_words (m : mem) (a : Z) (l : list Z) : mem :=
  match l with [] => m | v :: l' => put_words (store64 m a v) (a + 8) l' end.

Definition frontend_syscall (fuel : nat) (n a0 a1 a2 a3 a4 a5 a6 : Z) : M htif_io Z :=
  lock_fe ;;;
  modify (fun s => s <| io_mem := put_words (io_mem s) magic_mem [n; a0; a1; a2; a3; a4; a5; a6] |>) ;;;
  htif_syscall fuel magic_mem ;;;
  m <- gets io_mem ;;
  unlock_fe ;;;
  ret (i64 (load64 m magic_mem)).

Definition mcall_console_putchar (fuel : nat) (ch : Z) : M htif_io Z :=
  h <- gets htif_found ;;
  (if h : bool then htif_console_putchar fuel ch else ret tt) ;;;
  ret 0.

(** [s] without its end. *)
Fixpoint putstring (fuel : nat) (s : list Z) : M htif_io unit :=
  match s with [] => ret tt | c :: l => mcall_console_putchar fuel c ;;; putstring fuel l end.

(** The text before the call is left out. *)
Definition shutdown_call (fuel : nat) (code : Z) : M htif_io unit :=
  frontend_syscall fuel HTIFSYS_exit (u64 code) 0 0 0 0 0 0 ;;; hang.

Definition poweroff : M htif_io unit :=
  h <- gets htif_found ;;
  kassert h "htif" ;;;
  if h : bool then htif_poweroff else hang.
End htif.

(** * Properties *)

(** A message of the console: a key, or the end of an output. *)
Definition console (v : Z) : Prop := v <> 0 /\ FROMHOST_DEV v = 1 /\ (FROMHOST_CMD v = 0 \/ FROMHOST_CMD v = 1).

(** An answer to a call. *)
Definition answer (v : Z) : Prop := v <> 0 /\ FROMHOST_DEV v = 0 /\ FROMHOST_CMD v = 0.

(** The console buffer after a message, and after the messages of a script. *)
Definition deliver (b v : Z) : Z := if FROMHOST_CMD v =? 0 then 1 + u8 (FROMHOST_DATA v) else b.
Definition deliveries (b : Z) (l : list event) : Z :=
  fold_left (fun b e => match e with Give v => deliver b v | _ => b end) l b.

(** The simulator serves the command [t], if there is one, once, and else only sends
    messages of the console. *)
Fixpoint serves (t : Z) (l : list event) : Prop :=
  match l with
  | [] => t = 0
  | Idle :: l' => serves t l'
  | Take :: l' => t <> 0 /\ serves 0 l'
  | Give v :: l' => console v /\ serves t l'
  end.

Section protocol.
Context {SIM : Simulator}.

Definition at_io (s : htif_io) (t f b : Z) (m : mem) (l : list event) : htif_io :=
  s <| tohost := t |> <| fromhost := f |> <| htif_console_buf := b |> <| io_mem := m |> <| script := l |>.

Definition served_mem (t : Z) (m : mem) : mem := if t =? 0 then m else serve t m.

(** A state as good as another one for what is to come. *)
Definition ahead (t : Z) (m : mem) (l : list event) (t' : Z) (m' : mem) (l' : list event) : Prop :=
  (length l' <= length l)%nat /\ serves t' l' /\ (forall b, deliveries b l' = deliveries b l) /\ served_mem t' m' = served_mem t m.

(** While a message is pending the simulator can only go on with a command. *)
Lemma step_pending s t f b m l v rest : f <> 0 -> serves t l ->
  exists t' m' l', host_step (at_io s t f b m (l ++ Give v :: rest)) = at_io s t' f b m' (l' ++ Give v :: rest) /\ ahead t m l t' m' l'.
Proof.
  intros Hf Hl. assert (f =? 0 = false) as Ef by (by apply Z.eqb_neq). destruct l as [|[| |w] l]; cbn [app serves] in *.
  - exists t, m, []. unfold host_step. cbn. rewrite Ef. by split; [|split_and!].
  - exists t, m, l. split; [done|]. split_and!; try done. cbn. lia.
  - destruct Hl as [Ht Hl]. exists 0, (serve t m), l. unfold host_step, ahead, served_mem. cbn.
    rewrite (proj2 (Z.eqb_neq t 0) Ht). split_and!; try done. lia.
  - exists t, m, (Give w :: l). unfold host_step. cbn. rewrite Ef. by split; [|split_and!].
Qed.

(** A message of the console is delivered. *)
Lemma check_run s t f b m l v rest : console f -> serves t l ->
  exists t' m' l', __check_fromhost (at_io s t f b m (l ++ Give v :: rest)) = Ret tt (at_io s t' 0 (deliver b f) m' (l' ++ Give v :: rest)) /\
    ahead t m l t' m' l'.
Proof.
  intros (Hf & Hd & Hc) Hl. destruct (step_pending s t f b m l v rest Hf Hl) as (t' & m' & l' & E & Ha).
  exists t', m', l'. split; [|done]. unfold __check_fromhost, read_fromhost, bind. rewrite E.
  change (fromhost (at_io s t' f b m' (l' ++ Give v :: rest))) with f. rewrite (proj2 (Z.eqb_neq f 0) Hf), Hd. unfold deliver.
  destruct Hc as [-> | ->]; done.
Qed.

Lemma wait_run s v rest : answer v -> forall fuel t f b m l, serves t l -> f = 0 \/ console f ->
  (2 * length l + (if (f =? 0)%Z then 0 else 1) < fuel)%nat ->
  wait_reply fuel 0 0 (at_io s t f b m (l ++ Give v :: rest)) =
    Ret tt (at_io s 0 0 (deliveries (if f =? 0 then b else deliver b f) l) (served_mem t m) rest).
Proof.
  intros (Hv & Hvd & Hvc). induction fuel as [|fuel IH]; intros t f b m l Hl Hf Hn; [lia|]. cbn [wait_reply].
  destruct Hf as [-> |Hf].
  - rewrite Z.eqb_refl in *. destruct l as [|[| |w] l]; cbn [app serves length] in *.
    + subst t. unfold read_fromhost, bind, host_step. cbn. by rewrite (proj2 (Z.eqb_neq v 0) Hv), Hvd, Hvc.
    + rewrite (bind_ret_eq _ _ _ 0 (at_io s t 0 b m (l ++ Give v :: rest))) by done.
      rewrite Z.eqb_refl, (IH t 0 b m l); [done|done|by left|cbn; lia].
    + destruct Hl as [Ht Hl]. rewrite (bind_ret_eq _ _ _ 0 (at_io s 0 0 b (serve t m) (l ++ Give v :: rest))).
      2:{ unfold read_fromhost, host_step. cbn. by rewrite (proj2 (Z.eqb_neq t 0) Ht). }
      rewrite Z.eqb_refl, (IH 0 0 b (serve t m) l); [|done|by left|cbn; lia]. unfold served_mem. by rewrite (proj2 (Z.eqb_neq t 0) Ht).
    + destruct Hl as [Hw Hl]. pose proof Hw as (Hw0 & Hwd & _).
      rewrite (bind_ret_eq _ _ _ w (at_io s t w b m (l ++ Give v :: rest))) by done.
      rewrite (proj2 (Z.eqb_neq w 0) Hw0), Hwd. cbn [Z.eqb Pos.eqb andb].
      destruct (check_run s t w b m l v rest Hw Hl) as (t' & m' & l' & E & Hlen & Hs & Hb & Hm). step E.
      rewrite (IH t' 0 (deliver b w) m' l'); [|done|by left|cbn; lia]. cbn [Z.eqb]. by rewrite Hb, Hm.
  - pose proof Hf as (Hf0 & Hfd & _). rewrite (proj2 (Z.eqb_neq f 0) Hf0) in *.
    destruct (step_pending s t f b m l v rest Hf0 Hl) as (t1 & m1 & l1 & E1 & Hlen1 & Hs1 & Hb1 & Hm1).
    rewrite (bind_ret_eq _ _ _ f (at_io s t1 f b m1 (l1 ++ Give v :: rest))) by (unfold read_fromhost; by rewrite E1).
    rewrite (proj2 (Z.eqb_neq f 0) Hf0), Hfd. cbn [Z.eqb Pos.eqb andb].
    destruct (check_run s t1 f b m1 l1 v rest Hf Hs1) as (t' & m' & l' & E & Hlen & Hs & Hb & Hm). step E.
    rewrite (IH t' 0 (deliver b f) m' l'); [|done|by left|cbn; lia]. cbn [Z.eqb]. by rewrite Hb, Hb1, Hm, Hm1.
Qed.

(** The console buffer when a pending message has been read. *)
Definition pending (b f : Z) : Z := if f =? 0 then b else deliver b f.

(** Nothing stands in [tohost]: the command goes out at once. *)
Lemma set_run s f b m l v rest fuel dev cmd data : TOHOST_CMD dev cmd data <> 0 -> serves (TOHOST_CMD dev cmd data) l ->
  f = 0 \/ console f ->
  exists f' l', __set_tohost (S fuel) dev cmd data (at_io s 0 f b m (l ++ Give v :: rest)) =
      Ret tt (at_io s (TOHOST_CMD dev cmd data) f' b m (l' ++ Give v :: rest)) /\
    serves (TOHOST_CMD dev cmd data) l' /\ (f' = 0 \/ console f') /\
    (2 * length l' + (if (f' =? 0)%Z then 0 else 1) <= 2 * length l + (if (f =? 0)%Z then 0 else 1))%nat /\
    deliveries (pending b f') l' = deliveries (pending b f) l.
Proof.
  intros Ht Hl Hf. cbn [__set_tohost]. destruct l as [|[| |w] l]; cbn [app serves] in Hl |- *; [done|..].
  - exists f, l. split; [done|]. split_and!; try done. cbn. lia.
  - exists f, (Take :: l). split; [done|]. split_and!; try done; apply Hl.
  - destruct Hl as [Hw Hl]. pose proof Hw as (Hw0 & _). destruct (Z.eqb_spec f 0) as [-> |Hf0].
    + exists w, l. split; [done|]. split_and!; try done; [by right| |].
      * rewrite (proj2 (Z.eqb_neq w 0) Hw0). cbn. lia.
      * unfold pending. by rewrite (proj2 (Z.eqb_neq w 0) Hw0).
    + exists f, (Give w :: l). split.
      { unfold read_tohost, host_step, bind. cbn. rewrite (proj2 (Z.eqb_neq f 0) Hf0). done. }
      rewrite (proj2 (Z.eqb_neq f 0) Hf0). by split_and!.
Qed.

(** ** A command that is still in [tohost] *)

Lemma deliveries_app b l l' : deliveries b (l ++ l') = deliveries (deliveries b l) l'.
Proof. unfold deliveries. by rewrite fold_left_app. Qed.

Lemma serves_app t p l : serves 0 p -> serves t l -> serves t (p ++ l).
Proof.
  intros Hp Hl. induction p as [|[| |w] p IH]; cbn [serves app] in *; [done|by apply IH|by destruct Hp|].
  destruct Hp as [Hw Hp]. by split; [|apply IH].
Qed.

(** A command that is served is served somewhere. *)
Lemma serves_split t l : t <> 0 -> serves t l -> exists p q, l = p ++ Take :: q /\ serves 0 p /\ serves 0 q.
Proof.
  intros Ht. induction l as [|[| |w] l IH]; cbn [serves]; [done|..].
  - intros H. destruct (IH H) as (p & q & -> & Hp & Hq). by exists (Idle :: p), q.
  - intros [_ H]. by exists [], l.
  - intros [Hw H]. destruct (IH H) as (p & q & -> & Hp & Hq). by exists (Give w :: p), q.
Qed.

Definition meas (l : list event) (f : Z) : nat := (2 * length l + (if (f =? 0)%Z then 0 else 1))%nat.

(** While the command stands, an access brings the simulator closer to it. *)
Lemma step_busy s t f b m p L : t <> 0 -> serves 0 p -> f = 0 \/ console f ->
  p = [] /\ host_step (at_io s t f b m (p ++ Take :: L)) = at_io s 0 f b (serve t m) L \/
  exists f' p', host_step (at_io s t f b m (p ++ Take :: L)) = at_io s t f' b m (p' ++ Take :: L) /\
    serves 0 p' /\ (f' = 0 \/ console f') /\ deliveries (pending b f') p' = deliveries (pending b f) p /\
    ((meas p' f' < meas p f)%nat \/ f' <> 0 /\ meas p' f' = meas p f).
Proof.
  intros Ht Hp Hf. destruct p as [|[| |w] p]; cbn [serves app] in *.
  - left. split; [done|]. unfold host_step. cbn. by rewrite (proj2 (Z.eqb_neq t 0) Ht).
  - right. exists f, p. split_and!; try done. left. unfold meas. cbn [length]. lia.
  - by destruct Hp.
  - right. destruct Hp as [Hw Hp]. pose proof Hw as (Hw0 & _). destruct (Z.eqb_spec f 0) as [-> |Hf0].
    + exists w, p. split_and!; try done; [by right| |].
      * unfold pending. by rewrite (proj2 (Z.eqb_neq w 0) Hw0).
      * left. unfold meas. rewrite (proj2 (Z.eqb_neq w 0) Hw0). cbn [length Z.eqb]. lia.
    + exists f, (Give w :: p). unfold host_step. cbn -[serves]. rewrite (proj2 (Z.eqb_neq f 0) Hf0). split_and!; try done. by right.
Qed.

Lemma check_any x : fromhost (host_step x) = 0 \/ console (fromhost (host_step x)) ->
  __check_fromhost x = Ret tt ((host_step x) <| fromhost := 0 |>
    <| htif_console_buf := pending (htif_console_buf (host_step x)) (fromhost (host_step x)) |>).
Proof.
  intros H. unfold __check_fromhost, read_fromhost, bind. set (y := host_step x) in *. clearbody y. unfold pending.
  destruct (Z.eqb_spec (fromhost y) 0) as [E|E].
  - destruct y. cbn in *. by subst.
  - destruct H as [H|(_ & -> & [H|H])]; [done|..]; unfold deliver; rewrite H; destruct y; done.
Qed.

(** [__set_tohost] waits for the earlier command to be taken before it stores its own. *)
Lemma set_busy s v rest dev cmd data l : TOHOST_CMD dev cmd data <> 0 -> serves (TOHOST_CMD dev cmd data) l ->
  forall fuel t f b m p, t <> 0 -> serves 0 p -> f = 0 \/ console f -> (meas p f + 1 < fuel)%nat ->
  exists f' b' l', __set_tohost fuel dev cmd data (at_io s t f b m (p ++ Take :: l ++ Give v :: rest)) =
      Ret tt (at_io s (TOHOST_CMD dev cmd data) f' b' (serve t m) (l' ++ Give v :: rest)) /\
    serves (TOHOST_CMD dev cmd data) l' /\ (f' = 0 \/ console f') /\ (meas l' f' <= 2 * length l + 1)%nat /\
    deliveries (pending b' f') l' = deliveries (pending b f) (p ++ l).
Proof.
  intros HT Hl. induction fuel as [|k IH]; intros t f b m p Ht Hp Hf Hn; [lia|]. cbn [__set_tohost].
  assert (t =? 0 = false) as Et by (by apply Z.eqb_neq). unfold read_tohost at 1, bind at 1.
  destruct (step_busy s t f b m p (l ++ Give v :: rest) Ht Hp Hf) as [[-> E1]|(f1 & p1 & E1 & Hp1 & Hf1 & Hd1 & Hm1)]; rewrite E1.
  { change (tohost (at_io s 0 f b (serve t m) (l ++ Give v :: rest))) with 0. rewrite Z.eqb_refl.
    exists f, b, l. split; [done|]. split_and!; try done. unfold meas. case_match; lia. }
  change (tohost (at_io s t f1 b m (p1 ++ Take :: l ++ Give v :: rest))) with t. rewrite Et.
  pose proof (check_any (at_io s t f1 b m (p1 ++ Take :: l ++ Give v :: rest))) as Ec.
  destruct (step_busy s t f1 b m p1 (l ++ Give v :: rest) Ht Hp1 Hf1) as [[-> E2]|(f2 & p2 & E2 & Hp2 & Hf2 & Hd2 & Hm2)]; rewrite E2 in Ec.
  - specialize (Ec Hf1). step Ec. destruct k as [|k]; [lia|].
    change (_ <| htif_console_buf := _ |>) with (at_io s 0 0 (pending b f1) (serve t m) (l ++ Give v :: rest)).
    destruct (set_run s 0 (pending b f1) (serve t m) l v rest k dev cmd data HT Hl ltac:(by left)) as (f' & l' & E & Hs' & Hf' & Hn' & Hd).
    exists f', (pending b f1), l'. split; [exact E|]. split_and!; try done.
    + unfold meas. cbn [Z.eqb] in Hn'. lia.
    + rewrite Hd, deliveries_app, <-Hd1. done.
  - specialize (Ec Hf2). step Ec.
    change (_ <| htif_console_buf := _ |>) with (at_io s t 0 (pending b f2) m (p2 ++ Take :: l ++ Give v :: rest)).
    destruct (IH t 0 (pending b f2) m p2 Ht Hp2 ltac:(by left)) as (f' & b' & l' & E & Hs' & Hf' & Hn' & Hd).
    { unfold meas in *. cbn [Z.eqb]. destruct (Z.eqb_spec f2 0), (Z.eqb_spec f1 0), (Z.eqb_spec f 0); lia. }
    exists f', b', l'. split; [exact E|]. split_and!; try done.
    rewrite Hd, !deliveries_app, <-Hd1, <-Hd2. done.
Qed.

(** The command goes out, after an earlier one if there is one. *)
Lemma set_any s v rest fuel t f b m pre l arg : arg <> 0 -> serves t pre -> serves arg l -> f = 0 \/ console f ->
  (2 * length (pre ++ l) + 1 < fuel)%nat ->
  exists f' b' l', __set_tohost fuel 0 0 arg (at_io s t f b m (pre ++ l ++ Give v :: rest)) =
      Ret tt (at_io s arg f' b' (served_mem t m) (l' ++ Give v :: rest)) /\
    serves arg l' /\ (f' = 0 \/ console f') /\ (meas l' f' <= 2 * length (pre ++ l) + 1)%nat /\
    deliveries (pending b' f') l' = deliveries (pending b f) (pre ++ l).
Proof.
  intros Ha Hpre Hl Hf Hn. unfold served_mem. destruct (Z.eqb_spec t 0) as [->|Ht].
  - destruct fuel as [|fuel]; [lia|]. rewrite (app_assoc pre l).
    destruct (set_run s f b m (pre ++ l) v rest fuel 0 0 arg Ha (serves_app arg pre l Hpre Hl) Hf)
      as (f' & l' & E & Hs' & Hf' & Hn' & Hd).
    exists f', b, l'. split; [exact E|]. split_and!; try done. unfold meas. destruct (f =? 0); lia.
  - destruct (serves_split t pre Ht Hpre) as (p & q & -> & Hp & Hq). rewrite <-app_assoc in *. cbn [app] in *.
    rewrite length_app in Hn. cbn [length] in Hn. rewrite (app_assoc q l).
    destruct (set_busy s v rest 0 0 arg (q ++ l) Ha (serves_app arg q l Hq Hl) fuel t f b m p Ht Hp Hf)
      as (f' & b' & l' & E & Hs' & Hf' & Hn' & Hd).
    { unfold meas. case_match; lia. }
    exists f', b', l'. split; [exact E|]. split_and!; try done.
    + rewrite length_app in Hn'. rewrite !length_app. cbn [length]. lia.
    + rewrite Hd, !deliveries_app. done.
Qed.

Lemma htif_syscall_run fuel arg s pre l v rest : arg <> 0 -> htif_lock s = false -> serves (tohost s) pre ->
  fromhost s = 0 \/ console (fromhost s) -> script s = pre ++ l ++ Give v :: rest -> serves arg l -> answer v ->
  (2 * length (pre ++ l) + 1 < fuel)%nat ->
  htif_syscall fuel arg s =
    Ret tt (at_io s 0 0 (deliveries (pending (htif_console_buf s) (fromhost s)) (pre ++ l))
      (serve arg (served_mem (tohost s) (io_mem s))) rest).
Proof.
  intros Ha Hk Ht Hf Hs Hl Hv Hn. set (b := htif_console_buf s). set (m := io_mem s). set (s1 := s <| htif_lock := true |>).
  assert (lock_htif s = Ret tt (at_io s1 (tohost s) (fromhost s) b m (pre ++ l ++ Give v :: rest))) as E0.
  { unfold lock_htif. rewrite Hk. unfold at_io, s1, b, m. destruct s; cbn in *. by subst. }
  destruct (set_any s1 v rest fuel (tohost s) (fromhost s) b m pre l arg Ha Ht Hl Hf Hn) as (f' & b' & l' & E1 & Hs' & Hf' & Hn' & Hd).
  unfold htif_syscall, do_tohost_fromhost. step E0. step E1.
  rewrite (bind_ret_eq _ _ _ _ _ (wait_run s1 v rest Hv fuel arg f' b' (served_mem (tohost s) m) l' Hs' Hf'
    ltac:(unfold meas in Hn'; lia))).
  change (if f' =? 0 then b' else deliver b' f') with (pending b' f'). rewrite Hd.
  unfold served_mem at 1. rewrite (proj2 (Z.eqb_neq arg 0) Ha).
  unfold unlock_htif, modify, at_io, s1. destruct s; cbn in *. by subst.
Qed.

Lemma put_words_frame l : forall m a, unchanged_outside a (a + 8 * Z.of_nat (length l)) m (put_words m a l).
Proof.
  induction l as [|v l IH]; intros m a; [intros b _; done|]. cbn [put_words length]. rewrite Nat2Z.inj_succ.
  eapply unchanged_trans; eapply unchanged_mono; [| |apply unchanged_store64| | |apply IH]; lia.
Qed.

Lemma put_words_load l : forall m a j v, l !! j = Some v -> load64 (put_words m a l) (a + 8 * Z.of_nat j) = u64 v.
Proof.
  induction l as [|w l IH]; intros m a j v Hj; [done|]. cbn [put_words]. destruct j as [|j].
  - injection Hj as ->. rewrite (unchanged_load64 _ _ _ _ _ (put_words_frame l _ (a + 8))) by lia.
    rewrite Z.add_0_r. apply load64_store64_eq.
  - rewrite <- (IH (store64 m a w) (a + 8) j v Hj). f_equal. lia.
Qed.

(** C37.  A call of the host comes back.  The simulator serves a command that is still in
    [tohost] from before (the output of a character, which nobody waits for), then the
    command of the call, each once, and then answers; whenever it does so and whatever
    messages of the console come in between, [frontend_syscall] returns what the simulator
    left in the first word of [magic_mem].  The earlier command is waited for and not
    overwritten; the simulator saw the number and the arguments in the eight words; both
    locks are free and both words empty afterwards.  Every message of the console is taken
    from [fromhost], but the console buffer has one slot: of the keys that came in it holds
    the last ([deliveries]), the ones before it are lost. *)
Theorem frontend_syscall_spec (fuel : nat) (n a0 a1 a2 a3 a4 a5 a6 v : Z) (s : htif_io) (pre l rest : list event) :
  let words := [n; a0; a1; a2; a3; a4; a5; a6] in
  let m := put_words (io_mem s) magic_mem words in
  let m' := serve magic_mem (served_mem (tohost s) m) in
  magic_mem <> 0 -> htif_lock s = false -> fe_lock s = false -> fromhost s = 0 \/ console (fromhost s) ->
  script s = pre ++ l ++ Give v :: rest -> serves (tohost s) pre -> serves magic_mem l -> answer v ->
  (2 * length (pre ++ l) + 1 < fuel)%nat ->
  frontend_syscall fuel n a0 a1 a2 a3 a4 a5 a6 s =
    Ret (i64 (load64 m' magic_mem))
      (s <| tohost := 0 |> <| fromhost := 0 |>
         <| htif_console_buf := deliveries (pending (htif_console_buf s) (fromhost s)) (pre ++ l) |>
         <| io_mem := m' |> <| script := rest |>) /\
  (forall j w, words !! j = Some w -> load64 m (magic_mem + 8 * Z.of_nat j) = u64 w) /\
  unchanged_outside magic_mem (magic_mem + 64) (io_mem s) m.
Proof.
  intros words m m' Hm Hk Hfe Hf Hs Ht Hl Hv Hn. split_and!.
  - set (s1 := s <| fe_lock := true |>). set (s2 := s1 <| io_mem := m |>).
    unfold frontend_syscall. assert (lock_fe s = Ret tt s1) as E0 by (unfold lock_fe; by rewrite Hfe). step E0.
    step (eq_refl : modify (fun s => s <| io_mem := put_words (io_mem s) magic_mem [n; a0; a1; a2; a3; a4; a5; a6] |>) s1 = Ret tt s2).
    rewrite (bind_ret_eq _ _ _ _ _ (htif_syscall_run fuel magic_mem s2 pre l v rest Hm Hk Ht Hf Hs Hl Hv Hn)).
    unfold gets, bind, unlock_fe, modify, ret, at_io, s2, s1. destruct s; cbn in *. by subst.
  - intros j w. apply put_words_load.
  - apply (put_words_frame words).
Qed.
End protocol.

(** ** Witness *)

(** A character is still being put out; the simulator answers 7; keys come in before, between
    and after the two commands are served, and the last one stays. *)
Definition key (c : Z) : Z := TOHOST_CMD 1 0 c.
#[local] Instance small_simulator : Simulator := {| serve t m := if t =? 4096 then store64 m t 7 else m; magic_mem := 4096 |}.
Definition small_io : htif_io := {| tohost := TOHOST_CMD 1 1 65; fromhost := key 97; htif_console_buf := 0; htif_lock := false; fe_lock := false;
  htif_found := true; io_mem := ∅;
  script := [Idle; Give (key 98); Idle; Take; Idle; Give (TOHOST_CMD 1 1 0); Take; Idle; Give (key 99); Give 1; Idle] |}.

Lemma frontend_syscall_spec_witness :
  exists s', frontend_syscall 30 93 1 2 3 4 5 6 7 small_io = Ret 7 s' /\ tohost s' = 0 /\ htif_console_buf s' = 100 /\ htif_lock s' = false.
Proof.
  destruct (frontend_syscall_spec 30 93 1 2 3 4 5 6 7 1 small_io [Idle; Give (key 98); Idle; Take]
    [Idle; Give (TOHOST_CMD 1 1 0); Take; Idle; Give (key 99)] [Idle]) as (E & _).
  - done.
  - reflexivity.
  - reflexivity.
  - right. split; [done|split; [reflexivity|by left]].
  - reflexivity.
  - split; [split; [done|split; [reflexivity|by left]]|]. by split.
  - split; [split; [done|split; [reflexivity|by right]]|]. split; [done|]. split; [split; [done|split; [reflexivity|by left]]|done].
  - by split_and!.
  - cbn. lia.
  - eexists. split; [exact E|]. split; [reflexivity|]. split; reflexivity.
Defined.
