(* ===== verification/PageAlloc.v ===== *)
(** The interface the file system and the hash tables use to obtain pages, with
    the laws they rely on.  [pg_inv a fl h]: the next pages handed out are [fl],
    in that order, and [h] is the set of pages the client holds. *)

From S2P Require Import Prelude.

Class PageAlloc (A : Type) := {
  pg_alloc : M A Z;
  pg_free : Z -> M A unit;
}.

Class PageAllocLaws (A : Type) `{PageAlloc A} := {
  pg_inv : A -> list Z -> gset Z -> Prop;
  pg_alloc_ok a p fl h :
    pg_inv a (p :: fl) h ->
    p <> 0 /\ p ∉ h /\ exists a', pg_alloc a = Ret p a' /\ pg_inv a' fl ({[p]} ∪ h);
  pg_free_ok a p fl h :
    pg_inv a fl h -> p ∈ h ->
    exists a', pg_free p a = Ret tt a' /\ pg_inv a' (p :: fl) (h ∖ {[p]});
}.
