(* ===== verification/Pmm.v ===== *)
(** kernel/pmm.c: the physical page allocator.  The free list is threaded
    through the free pages themselves; the table [ref_list] counts the owners of
    every page in use and is searched by bisection. *)

From S2P Require Import Prelude Mem PageAlloc.

(** * State *)

Record ref_unit := { ru_pa : Z; ru_ref : Z }.
#[export] Instance eta_ref_unit : Eta ref_unit := fun u => Build_ref_unit (ru_pa u) (ru_ref u).

(** Capacity of the [ref_list] array. *)
Definition REF_LIST_SIZE : Z := 16384.

(** [ref_list] holds the live prefix of the array, so [ref_total] is its length. *)
Record pmm := {
  pm_mem : mem;
  g_mem_size : Z;
  free_mem_start_addr : Z;
  free_mem_end_addr : Z;
  ref_list : list ref_unit;
  g_free_mem_list : Z;
}.
#[export] Instance eta_pmm : Eta pmm := fun s =>
  Build_pmm (pm_mem s) (g_mem_size s) (free_mem_start_addr s) (free_mem_end_addr s)
    (ref_list s) (g_free_mem_list s).

Definition ref_total (l : list ref_unit) : Z := Z.of_nat (length l).

(** Loads and stores of the kernel reach physical memory only. *)
Definition ld64 (a : Z) : M pmm Z := fun s =>
  if in_dram a 8 then Ret (load64 (pm_mem s) a) s else Fault.

Definition st64 (a v : Z) : M pmm unit := fun s =>
  if in_dram a 8 then Ret tt (s <| pm_mem := store64 (pm_mem s) a v |>) else Fault.

(** * Reference counts *)

(** The bisection loop that [ref_find] and [ref_erase] share. *)
Fixpoint ref_search (fuel : nat) (l : list ref_unit) (pa left right : Z) : option Z :=
  match fuel with
  | O => None
  | S f =>
      if left <=? right then
        let mid := (left + right) / 2 in
        match l !! Z.to_nat mid with
        | None => None
        | Some u =>
            if ru_pa u =? pa then Some mid
            else if ru_pa u <? pa then ref_search f l pa (mid + 1) right
            else ref_search f l pa left (mid - 1)
        end
      else None
  end.

Definition ref_locate (l : list ref_unit) (pa : Z) : option Z :=
  ref_search (S (length l)) l pa 0 (ref_total l - 1).

Definition ref_find (l : list ref_unit) (pa : Z) : Z * list ref_unit :=
  match ref_locate l pa with
  | Some mid =>
      (1, alter (fun u => u <| ru_ref := u64 (ru_ref u + 1) |>) (Z.to_nat mid) l)
  | None => (0, l)
  end.

(** The second loop of [ref_insert]: position of the first entry not below [pa]. *)
Fixpoint ref_lower (fuel : nat) (l : list ref_unit) (pa left right idx : Z) : Z :=
  match fuel with
  | O => idx
  | S f =>
      if left <=? right then
        let mid := (left + right) / 2 in
        match l !! Z.to_nat mid with
        | None => idx
        | Some u =>
            if ru_pa u <? pa then ref_lower f l pa (mid + 1) right idx
            else ref_lower f l pa left (mid - 1) mid
        end
      else idx
  end.

(** [None]: the table is full and the [memmove] runs past the array. *)
Definition ref_insert_list (l : list ref_unit) (pa : Z) : option (list ref_unit) :=
  let '(found, l') := ref_find l pa in
  if found =? 1 then Some l'
  else
    let idx := ref_lower (S (length l)) l pa 0 (ref_total l - 1) 0 in
    if ref_total l <? REF_LIST_SIZE
    then Some (take (Z.to_nat idx) l ++ {| ru_pa := pa; ru_ref := 1 |} :: drop (Z.to_nat idx) l)
    else None.

Definition ref_insert (pa : Z) : M pmm unit := fun s =>
  match ref_insert_list (ref_list s) pa with
  | Some l => Ret tt (s <| ref_list := l |>)
  | None => Fault
  end.

Definition ref_erase_list (l : list ref_unit) (pa : Z) : Z * list ref_unit :=
  match ref_locate l pa with
  | None => (1, l)
  | Some mid =>
      let i := Z.to_nat mid in
      let l' := alter (fun u => u <| ru_ref := u64 (ru_ref u - 1) |>) i l in
      match l' !! i with
      | Some u => if ru_ref u =? 0 then (1, delete i l') else (0, l')
      | None => (0, l')
      end
  end.

Definition ref_erase (pa : Z) : M pmm Z := fun s =>
  let '(r, l) := ref_erase_list (ref_list s) pa in Ret r (s <| ref_list := l |>).

(** * Pages *)

Definition free_page (pa : Z) : M pmm unit :=
  s <- gets id ;;
  if negb (pa mod PGSIZE =? 0) || (pa <? free_mem_start_addr s) || (free_mem_end_addr s <=? pa)
  then panic "free_page"
  else
    r <- ref_erase pa ;;
    if r =? 0 then ret tt
    else
      next <- gets g_free_mem_list ;;
      st64 pa next ;;;
      modify (fun s => s <| g_free_mem_list := pa |>).

Definition alloc_page : M pmm Z :=
  n <- gets g_free_mem_list ;;
  (if n =? 0 then ret tt
   else next <- ld64 n ;; modify (fun s => s <| g_free_mem_list := next |>)) ;;;
  ref_insert n ;;;
  ret n.

Fixpoint create_freepage_loop (fuel : nat) (p e : Z) : M pmm unit :=
  match fuel with
  | O => fault
  | S f =>
      if u64 (p + PGSIZE) <? e
      then free_page p ;;; create_freepage_loop f (u64 (p + PGSIZE)) e
      else ret tt
  end.

Definition create_freepage_list (start e : Z) : M pmm unit :=
  modify (fun s => s <| g_free_mem_list := 0 |>) ;;;
  create_freepage_loop (Z.to_nat (e / PGSIZE)) (ROUNDUP start PGSIZE) e.

Definition KERN_BASE : Z := 2147483648.
Definition PKE_MAX_ALLOWABLE_RAM : Z := 128 * 1024 * 1024.

(** [kend] is the linker symbol [_end]. *)
Definition pmm_init (kend : Z) : M pmm unit :=
  let pke_kernel_size := u64 (kend - KERN_BASE) in
  modify (fun s => s <| free_mem_start_addr := ROUNDUP kend PGSIZE |>
                     <| g_mem_size := MIN PKE_MAX_ALLOWABLE_RAM (g_mem_size s) |>) ;;;
  size <- gets g_mem_size ;;
  if size <? pke_kernel_size then panic "Error when recomputing physical memory size (g_mem_size)."
  else
    modify (fun s => s <| free_mem_end_addr := u64 (size + DRAM_BASE) |>) ;;;
    s <- gets id ;;
    create_freepage_list (free_mem_start_addr s) (free_mem_end_addr s).

(** * The table of reference counts *)

(** The table is kept sorted by address, without repetitions. *)
Definition ref_sorted (l : list ref_unit) : Prop :=
  forall i j u v, l !! i = Some u -> l !! j = Some v -> (i < j)%nat -> ru_pa u < ru_pa v.

(** The number of owners the table records for a page. *)
Fixpoint ref_count (l : list ref_unit) (p : Z) : Z :=
  match l with
  | [] => 0
  | u :: l' => if ru_pa u =? p then ru_ref u else ref_count l' p
  end.

Definition ref_present (l : list ref_unit) (p : Z) : Prop :=
  exists i u, l !! i = Some u /\ ru_pa u = p.

Lemma ref_present_dec l p : ref_present l p \/ ~ ref_present l p.
Proof.
  destruct (decide (Exists (fun u => ru_pa u = p) l)) as [H|H].
  - left. apply Exists_exists in H as (u & Hu & Hp).
    apply list_elem_of_lookup in Hu as [i Hi]. by exists i, u.
  - right. intros (i & u & Hi & Hp). apply H, Exists_exists. exists u.
    split; [|done]. apply list_elem_of_lookup. eauto.
Qed.

Lemma ref_sorted_cons u l :
  ref_sorted (u :: l) <-> ref_sorted l /\ (forall i v, l !! i = Some v -> ru_pa u < ru_pa v).
Proof.
  split.
  - intros H. split.
    + intros i j x y Hi Hj Hij. apply (H (S i) (S j) x y); [done..|lia].
    + intros i v Hv. apply (H 0%nat (S i) u v); [done..|lia].
  - intros [H1 H2] [|i] [|j] x y Hi Hj Hij; try lia; cbn in Hi, Hj; simplify_eq; eauto.
    eapply (H1 i j); eauto; lia.
Qed.

Lemma ref_sorted_inj l i j u v :
  ref_sorted l -> l !! i = Some u -> l !! j = Some v -> ru_pa u = ru_pa v -> i = j.
Proof.
  intros Hs Hi Hj E. destruct (Nat.lt_trichotomy i j) as [Hlt|[->|Hlt]]; [|done|].
  - specialize (Hs i j u v Hi Hj Hlt). lia.
  - specialize (Hs j i v u Hj Hi Hlt). lia.
Qed.

Lemma ref_count_lookup l i u :
  ref_sorted l -> l !! i = Some u -> ref_count l (ru_pa u) = ru_ref u.
Proof.
  revert i. induction l as [|v l IH]; intros i Hs Hi; [done|].
  apply ref_sorted_cons in Hs as [Hs Hlt]. cbn [ref_count].
  destruct i as [|i]; cbn in Hi; simplify_eq.
  - by rewrite Z.eqb_refl.
  - specialize (Hlt i u Hi). destruct (Z.eqb_spec (ru_pa v) (ru_pa u)); [lia|eauto].
Qed.

Lemma ref_count_absent l p : ~ ref_present l p -> ref_count l p = 0.
Proof.
  induction l as [|u l IH]; intros H; [done|]. cbn [ref_count].
  destruct (Z.eqb_spec (ru_pa u) p) as [E|].
  - destruct H. by exists 0%nat, u.
  - apply IH. intros (i & v & Hi & Hv). apply H. by exists (S i), v.
Qed.

(** ** Bisection *)

Lemma ref_search_sound fuel l pa left right i :
  0 <= left -> ref_search fuel l pa left right = Some i ->
  0 <= i /\ exists u, l !! Z.to_nat i = Some u /\ ru_pa u = pa.
Proof.
  revert left right. induction fuel as [|f IH]; intros left right Hl; [done|].
  cbn [ref_search]. destruct (Z.leb_spec left right); [|done].
  assert (left <= (left + right) / 2 <= right) by zdiv.
  destruct (l !! Z.to_nat ((left + right) / 2)) as [u|] eqn:E; [|done].
  destruct (Z.eqb_spec (ru_pa u) pa).
  - intros [= <-]. split; [lia|]. eauto.
  - destruct (Z.ltb_spec (ru_pa u) pa); apply IH; lia.
Qed.

Lemma ref_search_complete fuel l pa left right i u :
  ref_sorted l -> l !! i = Some u -> ru_pa u = pa ->
  0 <= left -> left <= Z.of_nat i <= right -> right < ref_total l ->
  (right - left < Z.of_nat fuel) -> ref_search fuel l pa left right = Some (Z.of_nat i).
Proof.
  intros Hs Hi Hpa. revert left right.
  induction fuel as [|f IH]; intros left right Hl Hr Ht Hf; [lia|].
  cbn [ref_search]. destruct (Z.leb_spec left right); [|lia].
  set (mid := (left + right) / 2).
  assert (left <= mid <= right) as Hm by (unfold mid; zdiv).
  destruct (l !! Z.to_nat mid) as [v|] eqn:E.
  2:{ apply lookup_ge_None in E. unfold ref_total in Ht. lia. }
  destruct (Z.eqb_spec (ru_pa v) pa) as [Ev|Ev].
  - f_equal. rewrite (ref_sorted_inj l i (Z.to_nat mid) u v); [lia|done..|congruence].
  - destruct (Nat.lt_trichotomy i (Z.to_nat mid)) as [Hlt|[->|Hlt]].
    + pose proof (Hs _ _ _ _ Hi E Hlt). destruct (Z.ltb_spec (ru_pa v) pa); [lia|].
      apply IH; lia.
    + congruence.
    + pose proof (Hs _ _ _ _ E Hi Hlt). destruct (Z.ltb_spec (ru_pa v) pa); [|lia].
      apply IH; lia.
Qed.

(** On a sorted table the bisection finds exactly the entries that are there. *)
Lemma ref_locate_spec l pa i :
  ref_sorted l ->
  ref_locate l pa = Some i <-> 0 <= i /\ exists u, l !! Z.to_nat i = Some u /\ ru_pa u = pa.
Proof.
  intros Hs. split.
  - apply ref_search_sound. lia.
  - intros (Hi & u & Hu & Hp). unfold ref_locate. rewrite <-(Z2Nat.id i Hi).
    pose proof (lookup_lt_Some _ _ _ Hu).
    apply (ref_search_complete _ _ _ _ _ _ u); try done; unfold ref_total; lia.
Qed.

Lemma ref_locate_None l pa : ref_sorted l -> ref_locate l pa = None -> ~ ref_present l pa.
Proof.
  intros Hs E (i & u & Hi & Hp).
  assert (ref_locate l pa = Some (Z.of_nat i)) as E'; [|congruence].
  apply ref_locate_spec; [done|]. split; [lia|]. rewrite Nat2Z.id. eauto.
Qed.

Lemma ref_lower_spec fuel l pa left right idx :
  ref_sorted l -> 0 <= left <= right + 1 -> right < ref_total l ->
  right - left < Z.of_nat fuel ->
  (forall j u, l !! j = Some u -> Z.of_nat j < left -> ru_pa u < pa) ->
  (forall j u, l !! j = Some u -> right < Z.of_nat j -> pa <= ru_pa u) ->
  (idx = right + 1 /\ right + 1 < ref_total l) \/ (idx = 0 /\ right + 1 = ref_total l) ->
  let r := ref_lower fuel l pa left right idx in
  (0 <= r < ref_total l /\
    (forall j u, l !! j = Some u -> Z.of_nat j < r -> ru_pa u < pa) /\
    (forall j u, l !! j = Some u -> r <= Z.of_nat j -> pa <= ru_pa u)) \/
  (r = 0 /\ forall j u, l !! j = Some u -> ru_pa u < pa).
Proof.
  intros Hs. revert left right idx.
  induction fuel as [|f IH]; intros left right idx Hl Hr Hf Hlo Hhi Hidx.
  - cbn [ref_lower]. destruct Hidx as [[-> ?]|[-> ?]].
    + left. split_and!; [lia..| |]; intros j u Hj ?; [apply (Hlo j)|apply (Hhi j)]; done || lia.
    + right. split; [done|]. intros j u Hj. apply (Hlo j); [done|].
      apply lookup_lt_Some in Hj. unfold ref_total in *. lia.
  - cbn [ref_lower]. destruct (Z.leb_spec left right).
    + set (mid := (left + right) / 2).
      assert (left <= mid <= right) as Hm by (unfold mid; zdiv).
      destruct (l !! Z.to_nat mid) as [v|] eqn:E.
      2:{ apply lookup_ge_None in E. unfold ref_total in *. lia. }
      destruct (Z.ltb_spec (ru_pa v) pa).
      * apply IH; try lia; [|done].
        intros j u Hj Hlt. destruct (decide (j = Z.to_nat mid)) as [->|]; [congruence|].
        assert (ru_pa u < ru_pa v) by (apply (Hs j (Z.to_nat mid)); done || lia). lia.
      * apply IH; try lia; [done|].
        intros j u Hj Hgt. destruct (decide (j = Z.to_nat mid)) as [->|]; [congruence|].
        assert (ru_pa v < ru_pa u) by (apply (Hs (Z.to_nat mid) j); done || lia). lia.
    + destruct Hidx as [[-> ?]|[-> ?]].
      * left. split_and!; [lia..| |]; intros j u Hj ?; [apply (Hlo j)|apply (Hhi j)]; done || lia.
      * right. split; [done|]. intros j u Hj. apply (Hlo j); [done|].
        apply lookup_lt_Some in Hj. unfold ref_total in *. lia.
Qed.

(** ** Updates *)

Lemma ref_count_ext l g :
  ref_sorted l ->
  (forall i u, l !! i = Some u -> g (ru_pa u) = ru_ref u) ->
  (forall q, ~ ref_present l q -> g q = 0) ->
  forall q, ref_count l q = g q.
Proof.
  intros Hs Hin Hout q. destruct (ref_present_dec l q) as [(i & u & Hi & <-)|H].
  - rewrite (ref_count_lookup l i u) by done. by rewrite (Hin i).
  - by rewrite ref_count_absent, Hout.
Qed.

(** Replacing the count of one entry. *)
Lemma ref_alter_spec l i u v :
  ref_sorted l -> l !! i = Some u ->
  let l' := alter (fun w => w <| ru_ref := v |>) i l in
  ref_sorted l' /\ length l' = length l /\ (forall q, ref_present l' q <-> ref_present l q) /\
  forall q, ref_count l' q = if q =? ru_pa u then v else ref_count l q.
Proof.
  intros Hs Hi l'.
  assert (forall j w, l' !! j = Some w <->
    exists w0, l !! j = Some w0 /\ w = if decide (j = i) then w0 <| ru_ref := v |> else w0) as Hl.
  { intros j w. unfold l'. rewrite list_lookup_alter.
    destruct (decide (j = i)) as [->|]; case_decide; try done;
      destruct (l !! _); cbn; naive_solver. }
  assert (ref_sorted l') as Hs'.
  { intros j k x y Hj Hk. apply Hl in Hj as (x0 & Hj & ->). apply Hl in Hk as (y0 & Hk & ->).
    intros Hlt. pose proof (Hs j k x0 y0 Hj Hk Hlt).
    by do 2 destruct (decide _). }
  assert (forall q, ref_present l' q <-> ref_present l q) as Hp.
  { intros q. split; intros (j & w & Hj & <-).
    - apply Hl in Hj as (w0 & Hj & ->). exists j, w0. by destruct (decide _).
    - eexists j, _. rewrite Hl. split; [by eexists|]. by destruct (decide _). }
  split_and!; [done|unfold l'; apply length_alter|done|].
  apply ref_count_ext; [done|..].
  - intros j w Hj. apply Hl in Hj as (w0 & Hj & ->).
    destruct (decide (j = i)) as [->|Hne]; simplify_eq; cbn.
    + by rewrite Z.eqb_refl.
    + destruct (Z.eqb_spec (ru_pa w0) (ru_pa u)) as [E|].
      * destruct Hne. by apply (ref_sorted_inj l j i w0 u).
      * by apply (ref_count_lookup l j).
  - intros q Hq. rewrite Hp in Hq. destruct (Z.eqb_spec q (ru_pa u)) as [->|].
    + destruct Hq. by exists i, u.
    + by apply ref_count_absent.
Qed.

Lemma alter_const_eq (l : list ref_unit) (i : nat) (f : ref_unit -> Z) u :
  l !! i = Some u ->
  alter (fun w => w <| ru_ref := f w |>) i l = alter (fun w => w <| ru_ref := f u |>) i l.
Proof.
  intros Hi. apply list_eq. intros j. rewrite !list_lookup_alter.
  case_decide as E; [|done]. subst j. by rewrite Hi.
Qed.

(** [ref_insert] when the page is already in use: one more owner. *)
Lemma ref_insert_present l pa :
  ref_sorted l -> ref_present l pa -> 0 <= ref_count l pa < 18446744073709551615 ->
  exists l', ref_insert_list l pa = Some l' /\ ref_sorted l' /\ length l' = length l /\
    (forall q, ref_present l' q <-> ref_present l q) /\
    forall q, ref_count l' q = if q =? pa then ref_count l pa + 1 else ref_count l q.
Proof.
  intros Hs (i & u & Hi & Hp) Hc. unfold ref_insert_list, ref_find.
  assert (ref_locate l pa = Some (Z.of_nat i)) as ->.
  { apply ref_locate_spec; [done|]. rewrite Nat2Z.id. split; [lia|eauto]. }
  rewrite Nat2Z.id. cbn. rewrite (alter_const_eq l i _ u Hi).
  destruct (ref_alter_spec l i u (u64 (ru_ref u + 1)) Hs Hi) as (H1 & H2 & H3 & H4).
  eexists. split_and!; [done..|].
  intros q. rewrite H4. rewrite <-Hp, (ref_count_lookup l i u Hs Hi) in Hc |- *.
  by rewrite u64_small by lia.
Qed.

(** Making room for a new entry at the position where it belongs. *)
Lemma ref_insert_at_spec l pa r :
  ref_sorted l -> (r <= length l)%nat ->
  (forall j u, l !! j = Some u -> (j < r)%nat -> ru_pa u < pa) ->
  (forall j u, l !! j = Some u -> (r <= j)%nat -> pa < ru_pa u) ->
  let l' := take r l ++ {| ru_pa := pa; ru_ref := 1 |} :: drop r l in
  ref_sorted l' /\ length l' = S (length l) /\
  (forall q, ref_present l' q <-> q = pa \/ ref_present l q) /\
  forall q, ref_count l' q = if q =? pa then 1 else ref_count l q.
Proof.
  intros Hs Hle Hlo Hhi l'. set (x := {| ru_pa := pa; ru_ref := 1 |}) in l'.
  assert (forall j u, l' !! j = Some u <->
    (l !! j = Some u /\ (j < r)%nat) \/ (j = r /\ u = x) \/
    exists k, j = S k /\ (r <= k)%nat /\ l !! k = Some u) as Hl'.
  { intros j u. unfold l'. rewrite lookup_insert_at by done.
    destruct (Nat.ltb_spec j r); [|destruct (Nat.eqb_spec j r)]; split.
    - by left.
    - intros [[? ?]|[[? ?]|(k & ? & ? & ?)]]; [done|lia..].
    - intros [= <-]. by right; left.
    - intros [[? ?]|[[_ ->]|(k & ? & ? & ?)]]; [lia|done|lia].
    - intros Hj. right; right. exists (j - 1)%nat. split_and!; [lia..|done].
    - intros [[? ?]|[[? _]|(k & -> & ? & ?)]]; [lia..|].
      by replace (S k - 1)%nat with k by lia. }
  assert (ref_sorted l') as Hs'.
  { intros j k u v Hj Hk Hjk. apply Hl' in Hj, Hk.
    destruct Hj as [[? ?]|[[-> ->]|(j' & -> & ? & ?)]],
      Hk as [[? ?]|[[-> ->]|(k' & -> & ? & ?)]]; cbn [x ru_pa]; try lia; eauto with lia. }
  assert (forall q, ref_present l' q <-> q = pa \/ ref_present l q) as Hp.
  { intros q. split.
    - intros (j & u & Hj & <-). apply Hl' in Hj as [[? ?]|[[-> ->]|(k & -> & ? & ?)]];
        [right; by exists j, u|by left|right; by exists k, u].
    - intros [->|(j & u & Hj & <-)]; [exists r, x; split; [apply Hl'; auto|done]|].
      destruct (Nat.lt_ge_cases j r); [exists j, u|exists (S j), u];
        (split; [apply Hl'; eauto 10|done]). }
  split_and!; [done|by apply length_insert_at|done|]. apply ref_count_ext; [done|..].
  - intros j u Hj. apply Hl' in Hj as [[Hj Hjr]|[[-> ->]|(k & -> & Hk & Hj)]].
    + specialize (Hlo j u Hj Hjr). destruct (Z.eqb_spec (ru_pa u) pa); [lia|].
      by eapply ref_count_lookup.
    + cbn. by rewrite Z.eqb_refl.
    + specialize (Hhi k u Hj Hk). destruct (Z.eqb_spec (ru_pa u) pa); [lia|].
      by eapply ref_count_lookup.
  - intros q Hq. rewrite Hp in Hq. destruct (Z.eqb_spec q pa); [tauto|].
    apply ref_count_absent. tauto.
Qed.

(** [ref_insert] of a page not in use, as long as some entry is not below it. *)
Lemma ref_insert_absent l pa :
  ref_sorted l -> ~ ref_present l pa -> ref_total l < REF_LIST_SIZE ->
  l = [] \/ (exists i u, l !! i = Some u /\ pa < ru_pa u) ->
  exists l', ref_insert_list l pa = Some l' /\ ref_sorted l' /\ length l' = S (length l) /\
    (forall q, ref_present l' q <-> q = pa \/ ref_present l q) /\
    forall q, ref_count l' q = if q =? pa then 1 else ref_count l q.
Proof.
  intros Hs Hn Hroom Htop. unfold ref_insert_list, ref_find.
  destruct (ref_locate l pa) as [i|] eqn:E.
  { apply ref_locate_spec in E as (_ & u & ? & ?); [|done]. destruct Hn. by eexists _, _. }
  change (0 =? 1) with false. lazy beta match zeta.
  destruct (Z.ltb_spec (ref_total l) REF_LIST_SIZE); [|lia].
  pose proof (ref_lower_spec (S (length l)) l pa 0 (ref_total l - 1) 0) as Hsp.
  cbn zeta in Hsp. set (r := ref_lower _ _ _ _ _ _) in *.
  eexists. split; [done|].
  destruct Hsp as [(Hr & H2 & H3)|(Er & H3)]; try done; try (unfold ref_total; lia).
  - intros j u Hj Hlt. apply lookup_lt_Some in Hj. unfold ref_total in *. lia.
  - unfold ref_total in Hr. apply ref_insert_at_spec; [done|lia|..]; intros j u Hj Hlt.
    + apply (H2 j); [done|lia].
    + specialize (H3 j u Hj ltac:(lia)).
      destruct (decide (ru_pa u = pa)); [|lia]. destruct Hn. by eexists _, _.
  - destruct Htop as [->|(i & u & Hi & Hlt)]; [|specialize (H3 i u Hi); lia].
    rewrite Er. apply ref_insert_at_spec; [done|cbn; lia|..]; intros j u Hj;
      by rewrite lookup_nil in Hj.
Qed.

(** Without such an entry the new one lands at the front, out of order. *)
Lemma ref_insert_above l pa :
  ref_sorted l -> (forall i u, l !! i = Some u -> ru_pa u < pa) ->
  ref_total l < REF_LIST_SIZE ->
  ref_insert_list l pa = Some ({| ru_pa := pa; ru_ref := 1 |} :: l).
Proof.
  intros Hs Hlt Hroom. unfold ref_insert_list, ref_find.
  destruct (ref_locate l pa) as [i|] eqn:E.
  { apply ref_locate_spec in E as (_ & u & Hu & ?); [|done]. specialize (Hlt _ u Hu). lia. }
  change (0 =? 1) with false. lazy beta match zeta.
  destruct (Z.ltb_spec (ref_total l) REF_LIST_SIZE); [|lia].
  pose proof (ref_lower_spec (S (length l)) l pa 0 (ref_total l - 1) 0) as Hsp.
  cbn zeta in Hsp. set (r := ref_lower _ _ _ _ _ _) in *.
  destruct Hsp as [(Hr & H2 & H3)|(Er & H3)]; try done; try (unfold ref_total; lia).
  - intros j u Hj ?. apply lookup_lt_Some in Hj. unfold ref_total in *. lia.
  - destruct (l !! Z.to_nat r) as [u|] eqn:Eu.
    + specialize (Hlt _ u Eu). specialize (H3 _ u Eu). lia.
    + apply lookup_ge_None in Eu. unfold ref_total in Hr. lia.
  - by rewrite Er.
Qed.

(** ** Erasing *)

Lemma ref_erase_absent l pa : ref_sorted l -> ~ ref_present l pa -> ref_erase_list l pa = (1, l).
Proof.
  intros Hs Hn. unfold ref_erase_list. destruct (ref_locate l pa) as [i|] eqn:E; [|done].
  apply ref_locate_spec in E as (_ & u & ? & ?); [|done]. destruct Hn. by eexists _, _.
Qed.

Lemma ref_erase_unfold l i u :
  ref_sorted l -> l !! i = Some u -> 0 < ru_ref u < 18446744073709551616 ->
  let l' := alter (fun w => w <| ru_ref := ru_ref u - 1 |>) i l in
  ref_erase_list l (ru_pa u) =
    if ru_ref u =? 1 then (1, delete i l') else (0, l').
Proof.
  intros Hs Hi Hr l'. unfold ref_erase_list.
  assert (ref_locate l (ru_pa u) = Some (Z.of_nat i)) as ->.
  { apply ref_locate_spec; [done|]. rewrite Nat2Z.id. split; [lia|eauto]. }
  rewrite Nat2Z.id. lazy zeta. rewrite (alter_const_eq l i _ u Hi).
  rewrite u64_small by lia. fold l'.
  assert (l' !! i = Some (u <| ru_ref := ru_ref u - 1 |>)) as ->.
  { unfold l'. rewrite list_lookup_alter. case_decide; [|done]. by rewrite Hi. }
  cbn. destruct (Z.eqb_spec (ru_ref u - 1) 0), (Z.eqb_spec (ru_ref u) 1); done || lia.
Qed.

(** The last owner leaves: the entry goes away. *)
Lemma ref_erase_last l pa :
  ref_sorted l -> ref_count l pa = 1 ->
  exists l', ref_erase_list l pa = (1, l') /\ ref_sorted l' /\ length l = S (length l') /\
    (forall q, ref_present l' q <-> q <> pa /\ ref_present l q) /\
    forall q, ref_count l' q = if q =? pa then 0 else ref_count l q.
Proof.
  intros Hs Hc. destruct (ref_present_dec l pa) as [(i & u & Hi & <-)|Hn];
    [|by rewrite ref_count_absent in Hc].
  rewrite (ref_count_lookup l i u) in Hc by done.
  rewrite (ref_erase_unfold l i u) by (done || lia). rewrite Hc. cbn.
  destruct (ref_alter_spec l i u 0 Hs Hi) as (Hs1 & Hl1 & Hp1 & Hc1).
  set (l1 := alter _ i l) in *.
  assert (forall j v, delete i l1 !! j = Some v <->
    exists k, l1 !! k = Some v /\ k <> i /\ j = if decide (k < i)%nat then k else (k - 1)%nat) as Hd.
  { intros j v. rewrite lookup_delete_at. destruct (Nat.ltb_spec j i); split.
    - intros Hj. exists j. split_and!; [done|lia|]. by case_decide; [|lia].
    - intros (k & Hk & Hne & ->). case_decide; [done|lia].
    - intros Hj. exists (S j). split_and!; [done|lia|]. case_decide; lia.
    - intros (k & Hk & Hne & ->). case_decide; [lia|]. by replace (S (k - 1)) with k by lia. }
  assert (ref_sorted (delete i l1)) as Hs2.
  { intros j k v w Hj Hk Hjk. apply Hd in Hj as (j' & Hj & ? & ->), Hk as (k' & Hk & ? & ->).
    apply (Hs1 j' k'); [done..|]. do 2 case_decide; lia. }
  assert (exists u1, l1 !! i = Some u1 /\ ru_pa u1 = ru_pa u) as (u1 & Hu1 & Eu1).
  { unfold l1. rewrite list_lookup_alter. case_decide; [|done]. rewrite Hi. by eexists. }
  assert (forall q, ref_present (delete i l1) q <-> q <> ru_pa u /\ ref_present l q) as Hp2.
  { intros q. rewrite <-Hp1. split.
    - intros (j & v & Hj & <-). apply Hd in Hj as (k & Hk & Hne & ->).
      split; [|by exists k, v]. intros E. destruct Hne. apply (ref_sorted_inj l1 k i v u1); [done..|congruence].
    - intros (Hne & k & v & Hk & <-). eexists _, v. rewrite Hd. split; [|done].
      exists k. split_and!; [done| |done]. intros ->. congruence. }
  eexists. split_and!; [done..| |done|].
  - pose proof (lookup_lt_Some _ _ _ Hi). rewrite length_delete by (by eexists). lia.
  - apply ref_count_ext; [done|..].
    + intros j v Hj. apply Hd in Hj as (k & Hk & Hne & ->).
      destruct (Z.eqb_spec (ru_pa v) (ru_pa u)) as [E|E].
      * destruct Hne. apply (ref_sorted_inj l1 k i v u1); [done..|congruence].
      * rewrite <-(ref_count_lookup l1 k v) by done. rewrite Hc1.
        by destruct (Z.eqb_spec (ru_pa v) (ru_pa u)).
    + intros q Hq. rewrite Hp2 in Hq. destruct (Z.eqb_spec q (ru_pa u)); [done|].
      apply ref_count_absent. tauto.
Qed.

(** One of several owners leaves: the count drops by one. *)
Lemma ref_erase_shared l pa :
  ref_sorted l -> 1 < ref_count l pa < 18446744073709551616 ->
  exists l', ref_erase_list l pa = (0, l') /\ ref_sorted l' /\ length l' = length l /\
    (forall q, ref_present l' q <-> ref_present l q) /\
    forall q, ref_count l' q = if q =? pa then ref_count l pa - 1 else ref_count l q.
Proof.
  intros Hs Hc. destruct (ref_present_dec l pa) as [(i & u & Hi & <-)|Hn].
  2:{ rewrite ref_count_absent in Hc by done. lia. }
  rewrite (ref_count_lookup l i u) in Hc |- * by done.
  rewrite (ref_erase_unfold l i u) by (done || lia).
  destruct (Z.eqb_spec (ru_ref u) 1); [lia|].
  destruct (ref_alter_spec l i u (ru_ref u - 1) Hs Hi) as (H1 & H2 & H3 & H4). by eexists.
Qed.

(** * The allocator's invariant *)

(** The pages on the list that starts at [p] are [l]. *)
Fixpoint chain (m : mem) (p : Z) (l : list Z) : Prop :=
  match l with
  | [] => p = 0
  | q :: l' => p = q /\ chain m (load64 m q) l'
  end.

Lemma chain_ext m m' p l :
  (forall q, q ∈ l -> load64 m' q = load64 m q) -> chain m p l -> chain m' p l.
Proof.
  revert p. induction l as [|q l IH]; intros p H; cbn [chain]; [done|].
  intros [-> Hc]. rewrite H by set_solver. split; [done|]. apply IH; [|done]. set_solver.
Qed.

(** A page the allocator manages. *)
Definition is_page (s : pmm) (p : Z) : Prop :=
  p mod PGSIZE = 0 /\ free_mem_start_addr s <= p < free_mem_end_addr s.

Lemma pages_disjoint p q :
  p mod PGSIZE = 0 -> q mod PGSIZE = 0 -> p <> q -> p + PGSIZE <= q \/ q + PGSIZE <= p.
Proof. unfold PGSIZE. intros. zdiv. Qed.

(** [fl] is the free list.  [top] is a page in use that lies above every page on
    the free list; while it stays in use, new entries always find their place in
    the table. *)
Record pmm_inv (s : pmm) (fl : list Z) (top : Z) : Prop := {
  inv_lo : DRAM_BASE <= free_mem_start_addr s;
  inv_hi : free_mem_end_addr s <= PHYS_TOP;
  inv_chain : chain (pm_mem s) (g_free_mem_list s) fl;
  inv_nodup : NoDup fl;
  inv_pages : forall p, p ∈ fl -> is_page s p;
  inv_sorted : ref_sorted (ref_list s);
  inv_counts : forall p, ref_present (ref_list s) p ->
    0 < ref_count (ref_list s) p < 18446744073709551616;
  inv_free : forall p, p ∈ fl -> ~ ref_present (ref_list s) p;
  inv_top : ref_present (ref_list s) top;
  inv_below : forall p, p ∈ fl -> p < top;
  inv_max : forall p, ref_present (ref_list s) p -> p <= top;
}.

Lemma is_page_dram s p :
  DRAM_BASE <= free_mem_start_addr s -> free_mem_end_addr s <= PHYS_TOP -> is_page s p ->
  DRAM_BASE <= p /\ p + PGSIZE <= PHYS_TOP.
Proof.
  intros Hlo Hhi [Hm Hr]. unfold PHYS_TOP, DRAM_BASE, PGSIZE in *. split; [lia|]. zdiv.
Qed.

Lemma in_dram_page s p a n :
  DRAM_BASE <= free_mem_start_addr s -> free_mem_end_addr s <= PHYS_TOP -> is_page s p ->
  p <= a -> a + n <= p + PGSIZE -> in_dram a n = true.
Proof.
  intros Hlo Hhi Hp ??. destruct (is_page_dram s p Hlo Hhi Hp).
  unfold in_dram. apply andb_true_intro. split; apply Z.leb_le; lia.
Qed.

Lemma free_page_guard s p :
  is_page s p ->
  negb (p mod PGSIZE =? 0) || (p <? free_mem_start_addr s) || (free_mem_end_addr s <=? p) = false.
Proof.
  intros [Hm Hr]. rewrite Hm. cbn. apply orb_false_intro; [apply Z.ltb_ge|apply Z.leb_gt]; lia.
Qed.

(** * The operations *)

(** Putting a page at the head of the free list. *)
Lemma free_page_push s p r l :
  is_page s p -> in_dram p 8 = true -> ref_erase_list (ref_list s) p = (r, l) -> r <> 0 ->
  free_page p s = Ret tt (s <| ref_list := l |> <| pm_mem := store64 (pm_mem s) p (g_free_mem_list s) |>
    <| g_free_mem_list := p |>).
Proof.
  intros Hp Hd Hr Hr0. unfold free_page, bind, gets, id. rewrite free_page_guard by done.
  unfold ref_erase. rewrite Hr. destruct (Z.eqb_spec r 0); [done|].
  unfold st64, modify. rewrite Hd. done.
Qed.

Lemma alloc_page_inv s p fl top :
  pmm_inv s (p :: fl) top -> ref_total (ref_list s) < REF_LIST_SIZE ->
  exists s', alloc_page s = Ret p s' /\ pmm_inv s' fl top /\ pm_mem s' = pm_mem s /\
    free_mem_start_addr s' = free_mem_start_addr s /\
    free_mem_end_addr s' = free_mem_end_addr s /\
    length (ref_list s') = S (length (ref_list s)) /\
    forall q, ref_count (ref_list s') q = if q =? p then 1 else ref_count (ref_list s) q.
Proof.
  intros [Hlo Hhi [Eh Hc] Hnd Hpg Hs Hcnt Hfree Htop Hbelow Hmax] Hroom.
  assert (is_page s p) as Hp by (apply Hpg; set_solver).
  assert (in_dram p 8 = true) as Hd by (apply (in_dram_page s p); [done..|lia|unfold PGSIZE; lia]).
  assert (p <> 0) as Hp0.
  { destruct (is_page_dram s p Hlo Hhi Hp). unfold DRAM_BASE in *. lia. }
  destruct (ref_insert_absent (ref_list s) p) as (l' & El & Hs' & Hlen & Hpres & Hcount);
    [done|apply Hfree; set_solver|done| |].
  { right. destruct Htop as (i & u & Hi & Hu). exists i, u. split; [done|].
    rewrite Hu. apply Hbelow. set_solver. }
  unfold alloc_page, bind, gets, ret, ld64, modify, ref_insert. rewrite Eh.
  destruct (Z.eqb_spec p 0); [done|]. rewrite Hd. cbn. rewrite El.
  eexists. split; [done|]. apply NoDup_cons in Hnd as [Hni Hnd].
  split_and!; try done; cbn. constructor; cbn; try done.
  - intros q Hq. apply Hpg. set_solver.
  - intros q Hq. rewrite Hcount. apply Hpres in Hq. destruct (Z.eqb_spec q p); [lia|].
    apply Hcnt. naive_solver.
  - intros q Hq. rewrite Hpres. intros [->|?]; [done|]. eapply Hfree; [|done]. set_solver.
  - apply Hpres. by right.
  - intros q Hq. apply Hbelow. set_solver.
  - intros q Hq. apply Hpres in Hq as [->|Hq]; [|by apply Hmax].
    assert (p < top) by (apply Hbelow; set_solver). lia.
Qed.

(** Out of pages: NULL is returned, and the table gains an owner of page 0. *)
Lemma alloc_page_exhausted_inv s top :
  pmm_inv s [] top -> ref_total (ref_list s) < REF_LIST_SIZE -> 0 < top ->
  ref_count (ref_list s) 0 < 18446744073709551615 ->
  exists s', alloc_page s = Ret 0 s' /\ pmm_inv s' [] top /\ pm_mem s' = pm_mem s /\
    forall q, ref_count (ref_list s') q =
      if q =? 0 then ref_count (ref_list s) 0 + 1 else ref_count (ref_list s) q.
Proof.
  intros [Hlo Hhi Eh Hnd Hpg Hs Hcnt Hfree Htop Hbelow Hmax] Hroom Hpos H0. cbn in Eh.
  unfold alloc_page, bind, gets, ret, ref_insert. rewrite Eh. cbn.
  destruct (ref_present_dec (ref_list s) 0) as [H|H].
  - destruct (ref_insert_present (ref_list s) 0) as (l' & -> & Hs' & Hl & Hp & Hc); [done..| |].
    { specialize (Hcnt 0 H). lia. }
    eexists. split_and!; [done| |done|done].
    constructor; cbn; try done; [|intros q Hq; set_solver|by apply Hp|].
    + intros q Hq. rewrite Hc. apply Hp in Hq. specialize (Hcnt q Hq).
      destruct (Z.eqb_spec q 0) as [->|]; lia.
    + intros q Hq. by apply Hmax, Hp.
  - destruct (ref_insert_absent (ref_list s) 0) as (l' & -> & Hs' & Hl & Hp & Hc); [done..| |].
    { right. destruct Htop as (i & u & Hi & Hu). exists i, u. split; [done|]. lia. }
    eexists. split_and!; [done| |done|cbn; intros q; rewrite Hc; by rewrite (ref_count_absent _ 0)].
    constructor; cbn; try done; [|intros q Hq; set_solver|apply Hp; by right|].
    + intros q Hq. rewrite Hc. apply Hp in Hq. destruct (Z.eqb_spec q 0) as [->|]; [lia|].
      apply Hcnt. naive_solver.
    + intros q Hq. apply Hp in Hq as [->|Hq]; [lia|by apply Hmax].
Qed.

Lemma free_page_last_inv s p fl top :
  pmm_inv s fl top -> is_page s p -> p <> top -> ref_count (ref_list s) p = 1 ->
  exists s', free_page p s = Ret tt s' /\ pmm_inv s' (p :: fl) top /\
    unchanged_outside p (p + 8) (pm_mem s) (pm_mem s') /\
    free_mem_start_addr s' = free_mem_start_addr s /\
    free_mem_end_addr s' = free_mem_end_addr s /\
    length (ref_list s) = S (length (ref_list s')) /\
    forall q, ref_count (ref_list s') q = if q =? p then 0 else ref_count (ref_list s) q.
Proof.
  intros [Hlo Hhi Hc Hnd Hpg Hs Hcnt Hfree Htop Hbelow Hmax] Hp Hnt H1.
  destruct (ref_erase_last (ref_list s) p) as (l' & El & Hs' & Hlen & Hpres & Hcount); [done..|].
  assert (in_dram p 8 = true) as Hd by (apply (in_dram_page s p); [done..|lia|unfold PGSIZE; lia]).
  assert (ref_present (ref_list s) p) as Hpp.
  { destruct (ref_present_dec (ref_list s) p); [done|]. by rewrite ref_count_absent in H1. }
  assert (p ∉ fl) as Hni by (intros Hin; by apply (Hfree p)).
  rewrite (free_page_push s p 1 l') by done.
  eexists. split; [done|]. split_and!; try done; cbn; [constructor; cbn; try done|..].
  - split; [done|]. rewrite load64_store64_eq.
    rewrite u64_small.
    + eapply chain_ext; [|done]. intros q Hq. apply load64_store64_ne.
      destruct (Hpg q Hq) as [Hq0 _], Hp as [Hp0 _].
      destruct (pages_disjoint p q Hp0 Hq0); [set_solver|unfold PGSIZE in *; lia..].
    + destruct fl as [|q fl]; cbn in Hc; [lia|]. destruct Hc as [-> _].
      destruct (is_page_dram s q Hlo Hhi) as [??]; [apply Hpg; set_solver|].
      unfold PHYS_TOP, DRAM_BASE, PGSIZE in *. lia.
  - by constructor.
  - intros q Hq. apply elem_of_cons in Hq as [->|Hq]; [done|by apply Hpg].
  - intros q Hq. apply Hpres in Hq as [Hne Hq]. rewrite Hcount.
    destruct (Z.eqb_spec q p); [done|by apply Hcnt].
  - intros q Hq. rewrite Hpres. intros [Hne Hq'].
    apply elem_of_cons in Hq as [->|Hq]; [done|by apply (Hfree q)].
  - by apply Hpres.
  - intros q Hq. specialize (Hmax p Hpp). apply elem_of_cons in Hq as [->|Hq]; [lia|by apply Hbelow].
  - intros q Hq. by apply Hmax, Hpres.
  - apply unchanged_store64.
Qed.

Lemma free_page_shared_inv s p fl top :
  pmm_inv s fl top -> is_page s p -> 1 < ref_count (ref_list s) p ->
  exists s', free_page p s = Ret tt s' /\ pmm_inv s' fl top /\ pm_mem s' = pm_mem s /\
    free_mem_start_addr s' = free_mem_start_addr s /\
    free_mem_end_addr s' = free_mem_end_addr s /\
    (length (ref_list s') <= length (ref_list s))%nat /\
    forall q, ref_count (ref_list s') q =
      if q =? p then ref_count (ref_list s) p - 1 else ref_count (ref_list s) q.
Proof.
  intros [Hlo Hhi Hc Hnd Hpg Hs Hcnt Hfree Htop Hbelow Hmax] Hp H1.
  assert (ref_present (ref_list s) p) as Hpp.
  { destruct (ref_present_dec (ref_list s) p); [done|]. rewrite ref_count_absent in H1; done || lia. }
  specialize (Hcnt p Hpp) as Hcp.
  destruct (ref_erase_shared (ref_list s) p) as (l' & El & Hs' & Hlen & Hpres & Hcount); [done|lia|].
  unfold free_page, bind, gets, id, ref_erase, ret. rewrite free_page_guard by done. rewrite El.
  cbn. eexists. split; [done|]. split_and!; try done; [|cbn; lia]. constructor; cbn; try done.
  - intros q Hq. rewrite Hcount. apply Hpres in Hq. specialize (Hcnt q Hq).
    destruct (Z.eqb_spec q p); lia.
  - intros q Hq. rewrite Hpres. by apply Hfree.
  - by apply Hpres.
  - intros q Hq. by apply Hmax, Hpres.
Qed.

Lemma free_page_inv s p fl top :
  pmm_inv s fl top -> is_page s p -> p <> top -> 0 < ref_count (ref_list s) p ->
  exists s', free_page p s = Ret tt s' /\
    pmm_inv s' (if ref_count (ref_list s) p =? 1 then p :: fl else fl) top /\
    unchanged_outside p (p + 8) (pm_mem s) (pm_mem s') /\
    free_mem_start_addr s' = free_mem_start_addr s /\
    free_mem_end_addr s' = free_mem_end_addr s /\
    (length (ref_list s') <= length (ref_list s))%nat /\
    forall q, ref_count (ref_list s') q =
      ref_count (ref_list s) q - (if q =? p then 1 else 0).
Proof.
  intros Hinv Hp Hne Hpos. destruct (Z.eqb_spec (ref_count (ref_list s) p) 1) as [H1|H1].
  - destruct (free_page_last_inv s p fl top) as (s' & E & Hinv' & Hm & ? & ? & Hlen & Hc); [done..|].
    exists s'. split_and!; [done..|lia|]. intros q. rewrite Hc. destruct (Z.eqb_spec q p); subst; lia.
  - destruct (free_page_shared_inv s p fl top) as (s' & E & Hinv' & Hm & ? & ? & ? & Hc); [done..|lia|].
    exists s'. split_and!; [done|done|rewrite Hm; apply unchanged_refl|done..|].
    intros q. rewrite Hc. destruct (Z.eqb_spec q p); subst; lia.
Qed.

(** A page that is mapped once more gains an owner. *)
Lemma ref_insert_share_inv s p fl top :
  pmm_inv s fl top -> 0 < ref_count (ref_list s) p < 18446744073709551615 ->
  exists s', ref_insert p s = Ret tt s' /\ pmm_inv s' fl top /\ pm_mem s' = pm_mem s /\
    free_mem_start_addr s' = free_mem_start_addr s /\
    free_mem_end_addr s' = free_mem_end_addr s /\
    length (ref_list s') = length (ref_list s) /\
    forall q, ref_count (ref_list s') q =
      if q =? p then ref_count (ref_list s) p + 1 else ref_count (ref_list s) q.
Proof.
  intros [Hlo Hhi Hc Hnd Hpg Hs Hcnt Hfree Htop Hbelow Hmax] H1.
  assert (ref_present (ref_list s) p) as Hpp.
  { destruct (ref_present_dec (ref_list s) p); [done|]. rewrite ref_count_absent in H1; done || lia. }
  destruct (ref_insert_present (ref_list s) p) as (l' & El & Hs' & Hlen & Hpres & Hcount); [done..|lia|].
  unfold ref_insert. rewrite El. eexists. split; [done|]. split_and!; try done.
  constructor; cbn; try done.
  - intros q Hq. rewrite Hcount. apply Hpres in Hq. specialize (Hcnt q Hq).
    destruct (Z.eqb_spec q p); lia.
  - intros q Hq. rewrite Hpres. by apply Hfree.
  - by apply Hpres.
  - intros q Hq. by apply Hmax, Hpres.
Qed.

(** * Start-up *)

(** Just after [pmm_init]: nothing is in use and the highest page comes first. *)
Record pmm_fresh (s : pmm) (fl : list Z) : Prop := {
  fresh_lo : DRAM_BASE <= free_mem_start_addr s;
  fresh_hi : free_mem_end_addr s <= PHYS_TOP;
  fresh_chain : chain (pm_mem s) (g_free_mem_list s) fl;
  fresh_pages : forall p, p ∈ fl -> is_page s p;
  fresh_desc : forall i j p q, fl !! i = Some p -> fl !! j = Some q -> (i < j)%nat -> q < p;
  fresh_refs : ref_list s = [];
}.

Lemma ref_insert_nil p : ref_insert_list [] p = Some [{| ru_pa := p; ru_ref := 1 |}].
Proof. reflexivity. Qed.

Lemma pmm_fresh_alloc s p fl :
  pmm_fresh s (p :: fl) ->
  exists s', alloc_page s = Ret p s' /\ pmm_inv s' fl p /\ pm_mem s' = pm_mem s /\
    free_mem_start_addr s' = free_mem_start_addr s /\
    free_mem_end_addr s' = free_mem_end_addr s /\ length (ref_list s') = 1%nat.
Proof.
  intros [Hlo Hhi [Eh Hc] Hpg Hdesc Hr].
  assert (is_page s p) as Hp by (apply Hpg; set_solver).
  assert (in_dram p 8 = true) as Hd by (apply (in_dram_page s p); [done..|lia|unfold PGSIZE; lia]).
  assert (p <> 0) as Hp0.
  { destruct (is_page_dram s p Hlo Hhi Hp). unfold DRAM_BASE in *. lia. }
  assert (forall q, q ∈ fl -> q < p) as Hbelow.
  { intros q Hq. apply list_elem_of_lookup in Hq as [i Hi].
    apply (Hdesc 0%nat (S i)); [done..|lia]. }
  unfold alloc_page, bind, gets, ret, ld64, modify, ref_insert. rewrite Eh.
  destruct (Z.eqb_spec p 0); [done|]. rewrite Hd. cbn. rewrite Hr, ref_insert_nil.
  eexists. split; [done|]. split_and!; try done.
  assert (forall q, ref_present [{| ru_pa := p; ru_ref := 1 |}] q <-> q = p) as Hpres.
  { intros q. split.
    - intros (i & u & Hi & <-). by apply list_lookup_singleton_Some in Hi as [-> <-].
    - intros ->. by exists 0%nat, {| ru_pa := p; ru_ref := 1 |}. }
  constructor; cbn; try done.
  - apply NoDup_alt. intros i j q Hi Hj.
    destruct (Nat.lt_trichotomy i j) as [Hlt|[->|Hlt]]; [|done|].
    + assert (q < q) by (apply (Hdesc (S i) (S j)); [done..|lia]). lia.
    + assert (q < q) by (apply (Hdesc (S j) (S i)); [done..|lia]). lia.
  - intros q Hq. apply Hpg. set_solver.
  - intros i j u v Hi Hj. apply list_lookup_singleton_Some in Hi as [-> _].
    apply list_lookup_singleton_Some in Hj as [-> _]. lia.
  - intros q Hq. apply Hpres in Hq as ->. rewrite Z.eqb_refl. lia.
  - intros q Hq. rewrite Hpres. intros ->. specialize (Hbelow p Hq). lia.
  - by apply Hpres.
  - intros q Hq. apply Hpres in Hq. lia.
Qed.

(** The pages [p, p + PGSIZE, ...], [n] of them, the last one first. *)
Fixpoint pages_down (p : Z) (n : nat) (acc : list Z) : list Z :=
  match n with
  | O => acc
  | S n' => pages_down (p + PGSIZE) n' (p :: acc)
  end.

Lemma create_freepage_loop_spec n fuel p e s fl :
  pmm_fresh s fl -> free_mem_end_addr s = e ->
  (forall q, q ∈ fl -> q < p) -> is_page s p \/ n = O ->
  p <= PHYS_TOP -> 0 <= p -> p mod PGSIZE = 0 -> free_mem_start_addr s <= p ->
  (n < fuel)%nat ->
  p + PGSIZE * Z.of_nat n < e \/ n = O -> e <= p + PGSIZE * Z.of_nat n + PGSIZE ->
  exists s', create_freepage_loop fuel p e s = Ret tt s' /\ pmm_fresh s' (pages_down p n fl).
Proof.
  revert fuel p s fl. induction n as [|n IH];
    intros [|f] p s fl Hf Ee Hlt Hp Hptop Hp0 Hpm Hps Hfuel Hn He; try lia;
    cbn [create_freepage_loop pages_down].
  - rewrite u64_small by (unfold PHYS_TOP, DRAM_BASE, PGSIZE in *; lia).
    destruct (Z.ltb_spec (p + PGSIZE) e); [lia|]. by eexists.
  - destruct Hp as [Hp|]; [|done]. destruct Hf as [Hlo Hhi Hc Hpg Hd Hr].
    destruct (is_page_dram s p Hlo Hhi Hp) as [??].
    rewrite u64_small by (unfold PHYS_TOP, DRAM_BASE, PGSIZE in *; lia).
    destruct (Z.ltb_spec (p + PGSIZE) e); [|unfold PGSIZE in *; lia].
    erewrite bind_ret_eq.
    2:{ apply (free_page_push s p 1 []); [done| |by rewrite Hr|lia].
        apply (in_dram_page s p); [done..|lia|unfold PGSIZE; lia]. }
    cbn beta. apply IH; cbn; try done; try (unfold PGSIZE in *; lia).
    + constructor; cbn; try done.
      * split; [done|]. rewrite load64_store64_eq, u64_small.
        -- eapply chain_ext; [|done]. intros q Hq. apply load64_store64_ne.
           destruct (Hpg q Hq) as [Hq0 _]. specialize (Hlt q Hq).
           destruct (pages_disjoint p q Hpm Hq0); unfold PGSIZE in *; lia.
        -- destruct fl as [|q fl]; cbn in Hc; [lia|]. destruct Hc as [-> _].
           destruct (is_page_dram s q Hlo Hhi) as [??]; [apply Hpg; set_solver|].
           unfold PHYS_TOP, DRAM_BASE, PGSIZE in *. lia.
      * intros q Hq. apply elem_of_cons in Hq as [->|Hq]; [done|by apply Hpg].
      * intros [|i] [|j] a b Ha Hb Hij; cbn in Ha, Hb; simplify_eq; try lia.
        -- apply Hlt. apply list_elem_of_lookup. eauto.
        -- by apply (Hd i j); [..|lia].
    + intros q Hq. apply elem_of_cons in Hq as [->|Hq]; [unfold PGSIZE; lia|].
      specialize (Hlt q Hq). unfold PGSIZE. lia.
    + destruct n as [|n]; [by right|left]. split; cbn; unfold PGSIZE in *; [zdiv|lia].
    + unfold PGSIZE in *. zdiv.
Qed.

(** What [pmm_init] leaves behind: every whole page after the kernel image, the
    very last one of the memory excepted. *)
Definition init_pages (kend memsize : Z) : list Z :=
  let lo := ROUNDUP kend PGSIZE in
  let hi := MIN PKE_MAX_ALLOWABLE_RAM memsize + DRAM_BASE in
  pages_down lo (Z.to_nat ((hi - lo - 1) / PGSIZE)) [].

Lemma pmm_init_spec kend s :
  ref_list s = [] -> 0 <= g_mem_size s < 18446744073709551616 ->
  KERN_BASE < kend <= KERN_BASE + MIN PKE_MAX_ALLOWABLE_RAM (g_mem_size s) ->
  exists s', pmm_init kend s = Ret tt s' /\ pmm_fresh s' (init_pages kend (g_mem_size s)).
Proof.
  intros Hr Hm Hk. unfold pmm_init, bind, modify, gets, id. cbn.
  set (size := MIN PKE_MAX_ALLOWABLE_RAM (g_mem_size s)) in *.
  assert (size <= PKE_MAX_ALLOWABLE_RAM) as Hsz
    by (unfold size, MIN; destruct (Z.ltb_spec PKE_MAX_ALLOWABLE_RAM (g_mem_size s)); lia).
  assert (0 <= size) as Hsz0.
  { unfold size, MIN, PKE_MAX_ALLOWABLE_RAM. destruct (_ <? _); lia. }
  unfold KERN_BASE, PKE_MAX_ALLOWABLE_RAM in *.
  rewrite u64_small by lia. destruct (Z.ltb_spec size (kend - 2147483648)); [lia|].
  rewrite u64_small by (unfold DRAM_BASE; lia).
  unfold create_freepage_list, bind, modify, init_pages. cbn.
  destruct (ROUNDUP_le kend) as [Hru Hrm]; [lia|].
  replace (ROUNDUP (ROUNDUP kend PGSIZE) PGSIZE) with (ROUNDUP kend PGSIZE).
  2:{ destruct (ROUNDUP_le (ROUNDUP kend PGSIZE)) as [? ?]; [unfold PGSIZE in *; lia|].
      unfold PGSIZE in *. zdiv. }
  set (lo := ROUNDUP kend PGSIZE) in *. set (hi := size + DRAM_BASE) in *.
  assert (hi <= PHYS_TOP) as Hhi by (unfold hi, PHYS_TOP; lia).
  unfold PKE_MAX_ALLOWABLE_RAM. fold size. fold hi.
  apply create_freepage_loop_spec; cbn; try done.
  - constructor; cbn; try done; [unfold DRAM_BASE; lia|intros; set_solver].
  - intros. set_solver.
  - destruct (Z.to_nat ((hi - lo - 1) / PGSIZE)) eqn:E; [by right|left].
    split; [done|]. cbn. unfold PGSIZE in *. zdiv.
  - unfold hi, PHYS_TOP, DRAM_BASE, PGSIZE in *. zdiv.
  - lia.
  - unfold hi, DRAM_BASE, PGSIZE in *. zdiv.
  - destruct (Z.to_nat ((hi - lo - 1) / PGSIZE)) eqn:E; [by right|left].
    unfold PGSIZE in *. zdiv.
  - unfold PGSIZE in *. zdiv.
Qed.

(** * Pages in use, as seen by a client *)

(** The pages a client holds alone.  Only as many free pages are promised as
    the table has room for. *)
#[export] Instance pmm_page_alloc : PageAlloc pmm := {|
  pg_alloc := alloc_page;
  pg_free := free_page;
|}.

Definition pmm_client_inv (s : pmm) (fl : list Z) (h : gset Z) : Prop :=
  exists top rest, pmm_inv s (fl ++ rest) top /\ top ∉ h /\
    Z.of_nat (length fl) + ref_total (ref_list s) <= REF_LIST_SIZE /\
    forall p, p ∈ h -> is_page s p /\ ref_count (ref_list s) p = 1.

#[export] Program Instance pmm_page_alloc_laws : PageAllocLaws pmm := {|
  pg_inv := pmm_client_inv;
|}.
Next Obligation.
  intros s p fl h (top & rest & Hinv & Ht & Hroom & Hh).
  assert (~ ref_present (ref_list s) p) as Hnp by (apply (inv_free _ _ _ Hinv); set_solver).
  assert (is_page s p) as Hp by (apply (inv_pages _ _ _ Hinv); set_solver).
  assert (p < top) as Hlt by (apply (inv_below _ _ _ Hinv); set_solver).
  cbn [length] in Hroom.
  destruct (alloc_page_inv s p (fl ++ rest) top) as (s' & E & Hinv' & _ & Elo & Ehi & Hlen & Hc);
    [done|lia|].
  split_and!.
  - destruct (is_page_dram s p (inv_lo _ _ _ Hinv) (inv_hi _ _ _ Hinv) Hp).
    unfold DRAM_BASE in *. lia.
  - intros Hin. apply Hh in Hin as [_ H1]. rewrite ref_count_absent in H1; done.
  - exists s'. split; [done|]. exists top, rest. split_and!; [done| |unfold ref_total in *; lia|].
    + intros [->%elem_of_singleton|?]%elem_of_union; [lia|done].
    + intros q [->%elem_of_singleton|Hq]%elem_of_union; rewrite Hc.
      * rewrite Z.eqb_refl. unfold is_page in *. by rewrite Elo, Ehi.
      * apply Hh in Hq as [Hq H1]. destruct (Z.eqb_spec q p); [subst q; by rewrite ref_count_absent in H1|].
        unfold is_page in *. by rewrite Elo, Ehi.
Qed.
Next Obligation.
  intros s p fl h (top & rest & Hinv & Ht & Hroom & Hh) Hin.
  destruct (Hh p Hin) as [Hp H1].
  destruct (free_page_last_inv s p (fl ++ rest) top) as (s' & E & Hinv' & _ & Elo & Ehi & Hlen & Hc);
    [done..|set_solver|done|].
  exists s'. split; [done|]. exists top, rest. split_and!; [done|set_solver| |].
  - unfold ref_total in *. cbn [length]. lia.
  - intros q Hq. rewrite Hc. assert (q <> p) by set_solver.
    destruct (Z.eqb_spec q p); [done|]. unfold is_page in *. rewrite Elo, Ehi. apply Hh. set_solver.
Qed.

(** * Properties *)

(** What the rest of the kernel may do with the allocator, on one hart: take a
    page, drop one of its own, or map one once more.  [top] is never dropped. *)
Inductive pmm_step (top : Z) (s s' : pmm) : Prop :=
  | step_alloc p :
      ref_total (ref_list s) < REF_LIST_SIZE ->
      ref_count (ref_list s) 0 < 18446744073709551615 ->
      alloc_page s = Ret p s' -> pmm_step top s s'
  | step_free p :
      is_page s p -> p <> top -> 0 < ref_count (ref_list s) p ->
      free_page p s = Ret tt s' -> pmm_step top s s'
  | step_share p :
      0 < ref_count (ref_list s) p < 18446744073709551615 ->
      ref_insert p s = Ret tt s' -> pmm_step top s s'.

(** C2.  [alloc_page] hands out the head of the free list, or NULL when the list
    is empty; the page it returns gains exactly one owner in the table, memory is
    not touched, and the allocator's invariant (a well-formed free list disjoint
    from the pages in use, a sorted table) is kept. *)
Theorem alloc_page_spec s fl top :
  pmm_inv s fl top -> 0 < top -> ref_total (ref_list s) < REF_LIST_SIZE ->
  ref_count (ref_list s) 0 < 18446744073709551615 ->
  exists s', alloc_page s = Ret (hd 0 fl) s' /\ pmm_inv s' (tail fl) top /\
    pm_mem s' = pm_mem s /\
    forall q, ref_count (ref_list s') q =
      ref_count (ref_list s) q + (if q =? hd 0 fl then 1 else 0).
Proof.
  intros Hinv Htop Hroom H0. destruct fl as [|p fl]; cbn [hd tail].
  - destruct (alloc_page_exhausted_inv s top) as (s' & E & Hinv' & Hm & Hc); [done..|].
    exists s'. split_and!; try done. intros q. rewrite Hc. destruct (Z.eqb_spec q 0); subst; lia.
  - destruct (alloc_page_inv s p fl top) as (s' & E & Hinv' & Hm & _ & _ & _ & Hc); [done..|].
    exists s'. split_and!; [done..|]. intros q. rewrite Hc.
    destruct (Z.eqb_spec q p) as [->|]; [|lia].
    rewrite ref_count_absent; [done|]. apply (inv_free _ _ _ Hinv). set_solver.
Qed.

(** C3.  [free_page] on a page in use takes one owner away; the page goes back to
    the head of the free list exactly when that was the last one, and then only
    its first eight bytes change. *)
Theorem free_page_spec s p fl top :
  pmm_inv s fl top -> is_page s p -> p <> top -> 0 < ref_count (ref_list s) p ->
  exists s', free_page p s = Ret tt s' /\
    pmm_inv s' (if ref_count (ref_list s) p =? 1 then p :: fl else fl) top /\
    unchanged_outside p (p + 8) (pm_mem s) (pm_mem s') /\
    forall q, ref_count (ref_list s') q =
      ref_count (ref_list s) q - (if q =? p then 1 else 0).
Proof.
  intros Hinv Hp Hne Hpos.
  destruct (free_page_inv s p fl top) as (s' & ? & ? & ? & _ & _ & _ & ?); [done..|]. by exists s'.
Qed.

Lemma pmm_step_inv top s s' :
  0 < top -> pmm_step top s s' -> (exists fl, pmm_inv s fl top) -> exists fl, pmm_inv s' fl top.
Proof.
  intros Htop Hstep [fl Hinv]. destruct Hstep as [p Hroom H0 E|p Hp Hne Hc E|p Hc E].
  - destruct fl as [|q fl].
    + destruct (alloc_page_exhausted_inv s top) as (s1 & E1 & H1 & _); [done..|]. rewrite E1 in E; simplify_eq; eauto.
    + destruct (alloc_page_inv s q fl top) as (s1 & E1 & H1 & _); [done..|]. rewrite E1 in E; simplify_eq; eauto.
  - destruct (free_page_inv s p fl top) as (s1 & E1 & H1 & _); [done..|]. rewrite E1 in E; simplify_eq; eauto.
  - destruct (ref_insert_share_inv s p fl top) as (s1 & E1 & H1 & _); [done..|]. rewrite E1 in E; simplify_eq; eauto.
Qed.

Lemma pmm_steps_inv top s s' :
  0 < top -> rtc (pmm_step top) s s' -> (exists fl, pmm_inv s fl top) ->
  exists fl, pmm_inv s' fl top.
Proof. intros Htop. induction 1; eauto using pmm_step_inv. Qed.

(** C4.  From start-up on, whatever pages are taken, shared and dropped, the table
    of owners stays sorted, the free list never repeats a page and never holds
    one that is in use, provided the page handed out first (the kernel's page
    directory, the highest of all) is never dropped. *)
Theorem pmm_reachable_inv s0 s1 s top fl :
  pmm_fresh s0 (top :: fl) -> alloc_page s0 = Ret top s1 -> rtc (pmm_step top) s1 s ->
  ref_sorted (ref_list s) /\
  exists fl', chain (pm_mem s) (g_free_mem_list s) fl' /\ NoDup fl' /\
    forall p, p ∈ fl' -> is_page s p /\ ref_count (ref_list s) p = 0.
Proof.
  intros Hf E1 Hsteps.
  destruct (pmm_fresh_alloc s0 top fl Hf) as (s1' & E1' & Hinv & _).
  rewrite E1 in E1'. simplify_eq.
  assert (0 < top) as Htop.
  { destruct (is_page_dram s0 top (fresh_lo _ _ Hf) (fresh_hi _ _ Hf)) as [? _];
      [apply (fresh_pages _ _ Hf); set_solver|]. unfold DRAM_BASE in *. lia. }
  assert (exists fl', pmm_inv s fl' top) as [fl' Hinv'].
  { eapply pmm_steps_inv; [done..|by exists fl]. }
  destruct Hinv' as [Hlo Hhi Hc Hnd Hpg Hs Hcnt Hfree _ _ _]. split; [done|].
  exists fl'. split_and!; [done..|]. intros p Hp. split; [by apply Hpg|].
  by apply ref_count_absent, Hfree.
Qed.

(** [pmm_init] does not fail on a machine whose memory holds the kernel: it
    threads every whole page after the kernel image onto the free list, highest
    first, and leaves out the last page of the memory. *)
Theorem pmm_init_free_list kend s :
  ref_list s = [] -> 0 <= g_mem_size s < 18446744073709551616 ->
  KERN_BASE < kend <= KERN_BASE + MIN PKE_MAX_ALLOWABLE_RAM (g_mem_size s) ->
  exists s', pmm_init kend s = Ret tt s' /\
    chain (pm_mem s') (g_free_mem_list s') (init_pages kend (g_mem_size s)) /\
    (forall p, p ∈ init_pages kend (g_mem_size s) -> is_page s' p) /\ ref_list s' = [].
Proof.
  intros Hr Hm Hk. destruct (pmm_init_spec kend s Hr Hm Hk) as (s' & E & [_ _ Hc Hp _ Hr']).
  exists s'. split_and!; done.
Qed.

(** The comment on [ref_insert] promises the first position not below the new
    page; when every entry is below it the code uses position 0, which puts the
    table out of order and hides the smaller entries from the bisection. *)
Theorem ref_insert_out_of_order l u pa :
  ref_sorted (u :: l) -> (forall i v, (u :: l) !! i = Some v -> ru_pa v < pa) ->
  ref_total (u :: l) < REF_LIST_SIZE ->
  exists l', ref_insert_list (u :: l) pa = Some l' /\ ~ ref_sorted l'.
Proof.
  intros Hs Hlt Hroom. rewrite ref_insert_above by done. eexists. split; [done|].
  intros Hs'. specialize (Hs' 0%nat 1%nat _ u eq_refl eq_refl ltac:(lia)).
  specialize (Hlt 0%nat u eq_refl). cbn in Hs'. lia.
Qed.

(** ** Witnesses *)

(** A machine with 64 KiB of memory and a one-page kernel. *)
Definition small_boot : pmm := {|
  pm_mem := ∅; g_mem_size := 65536; free_mem_start_addr := 0; free_mem_end_addr := 0;
  ref_list := []; g_free_mem_list := 0 |}.
Definition small_kend : Z := KERN_BASE + 4000.

Definition after {A} (c : M pmm A) (s : pmm) : pmm :=
  match c s with Ret _ s' => s' | _ => s end.

Definition small_fresh : pmm := after (pmm_init small_kend) small_boot.
Definition small_running : pmm := after alloc_page small_fresh.
Definition small_top : Z := KERN_BASE + 14 * PGSIZE.
Definition small_free : list Z := pages_down (KERN_BASE + PGSIZE) 13 [].

Lemma small_fresh_ok : pmm_fresh small_fresh (small_top :: small_free).
Proof.
  destruct (pmm_init_spec small_kend small_boot) as (s' & E & H); [done|done|done|].
  unfold small_fresh, after. rewrite E. exact H.
Qed.

Lemma small_running_ok : pmm_inv small_running small_free small_top.
Proof.
  destruct (pmm_fresh_alloc small_fresh small_top small_free small_fresh_ok) as (s' & E & H & _).
  unfold small_running, after. by rewrite E.
Qed.

Lemma alloc_page_spec_witness :
  exists s', alloc_page small_running = Ret (KERN_BASE + 13 * PGSIZE) s' /\
    ref_count (ref_list s') (KERN_BASE + 13 * PGSIZE) = 1.
Proof.
  destruct (alloc_page_spec small_running small_free small_top small_running_ok)
    as (s' & E & _ & _ & Hc); [done..|].
  exists s'. split; [exact E|]. rewrite Hc. vm_compute. reflexivity.
Defined.

Lemma free_page_spec_witness :
  let s := after alloc_page small_running in
  exists s', free_page (KERN_BASE + 13 * PGSIZE) s = Ret tt s' /\
    pmm_inv s' small_free small_top.
Proof.
  intros s.
  destruct (alloc_page_inv small_running (KERN_BASE + 13 * PGSIZE) (tail small_free) small_top
    small_running_ok) as (s1 & E1 & H1 & _); [done|].
  assert (s = s1) as -> by (unfold s, after; by rewrite E1).
  assert (s1 = after alloc_page small_running) as Es by (unfold after; by rewrite E1).
  destruct (free_page_spec s1 (KERN_BASE + 13 * PGSIZE) (tail small_free) small_top H1)
    as (s' & E & H & _).
  - rewrite Es. split; [reflexivity|]. vm_compute. split; [intros C; discriminate C|reflexivity].
  - done.
  - rewrite Es. vm_compute. reflexivity.
  - exists s'. split; [done|].
    replace (ref_count (ref_list s1) (KERN_BASE + 13 * PGSIZE)) with 1 in H
      by (rewrite Es; vm_compute; reflexivity). exact H.
Defined.

Lemma pmm_reachable_inv_witness :
  ref_sorted (ref_list (after alloc_page small_running)).
Proof.
  apply (pmm_reachable_inv small_fresh small_running (after alloc_page small_running)
    small_top small_free small_fresh_ok).
  - destruct (pmm_fresh_alloc small_fresh small_top small_free small_fresh_ok) as (s' & E & _).
    unfold small_running, after. by rewrite E.
  - apply rtc_once. apply (step_alloc _ _ _ (KERN_BASE + 13 * PGSIZE)); [done..|].
    destruct (alloc_page_inv small_running (KERN_BASE + 13 * PGSIZE) (tail small_free) small_top
      small_running_ok) as (s1 & E1 & _); [done|]. unfold after. by rewrite E1.
Defined.

Lemma pmm_init_free_list_witness :
  exists s', pmm_init small_kend small_boot = Ret tt s' /\
    chain (pm_mem s') (g_free_mem_list s') (small_top :: small_free).
Proof.
  destruct (pmm_init_free_list small_kend small_boot) as (s' & E & H & _); [done..|].
  exists s'. split; [done|]. exact H.
Defined.

Lemma ref_insert_out_of_order_witness :
  exists l', ref_insert_list [{| ru_pa := 4096; ru_ref := 1 |}] 8192 = Some l' /\ ~ ref_sorted l'.
Proof.
  apply (ref_insert_out_of_order [] {| ru_pa := 4096; ru_ref := 1 |} 8192).
  - intros [|i] [|j] u v Hi Hj Hij; try lia; by rewrite ?lookup_nil in *.
  - intros [|i] v Hv; cbn in Hv; by simplify_eq.
  - done.
Defined.
