(* ===== verification/Vmm.v ===== *)
(** kernel/vmm.c and the Sv39 macros of kernel/riscv.h: three-level page tables
    kept in physical memory, walked, extended and edited in place. *)

From S2P Require Import Prelude Mem CString PageAlloc Pmm.

(** * Page-table entries (kernel/riscv.h) *)

Definition PTE_V : Z := 1.
Definition PTE_R : Z := 2.
Definition PTE_W : Z := 4.
Definition PTE_X : Z := 8.
Definition PTE_U : Z := 16.
Definition PTE_A : Z := 64.
Definition PTE_D : Z := 128.
Definition PTE_RSW : Z := 256.
Definition PGSHIFT : Z := 12.

Definition PA2PTE (pa : Z) : Z := u64 (Z.shiftl (Z.shiftr pa 12) 10).
Definition PTE2PA (pte : Z) : Z := u64 (Z.shiftl (Z.shiftr pte 10) 12).
Definition RSW (pte : Z) : Z := Z.land (Z.shiftr pte 8) 3.
Definition PXSHIFT (level : Z) : Z := PGSHIFT + 9 * level.
Definition PX (level va : Z) : Z := Z.land (Z.shiftr va (PXSHIFT level)) 511.
Definition MAXVA : Z := Z.shiftl 1 (9 + 9 + 9 + 12 - 1).
Definition MAKE_SATP (pagetable : Z) : Z :=
  Z.lor (u64 (Z.shiftl 8 60)) (Z.shiftr pagetable 12).

(** [x & flag] as a condition. *)
Definition has (pte flag : Z) : bool := negb (Z.land pte flag =? 0).

Definition PROT_READ : Z := 1.
Definition PROT_WRITE : Z := 2.
Definition PROT_EXEC : Z := 4.

Definition prot_to_type (prot : Z) (user : bool) : Z :=
  let perm := 0 in
  let perm := if has prot PROT_READ then Z.lor perm (Z.lor PTE_R PTE_A) else perm in
  let perm := if has prot PROT_WRITE then Z.lor perm (Z.lor PTE_W PTE_D) else perm in
  let perm := if has prot PROT_EXEC then Z.lor perm (Z.lor PTE_X PTE_A) else perm in
  let perm := if perm =? 0 then PTE_R else perm in
  if user then Z.lor perm PTE_U else perm.

(** * Walking and editing *)

Definition memset_page (p byte : Z) : M pmm unit := fun s =>
  if in_dram p PGSIZE then Ret tt (s <| pm_mem := memset (pm_mem s) p byte PGSIZE |>) else Fault.

(** The loop of [page_walk], from the table [pt] of the given level down;
    0 is the NULL result. *)
Fixpoint page_walk_levels (level : nat) (pt va : Z) (alloc : bool) : M pmm Z :=
  match level with
  | O => ret (pt + 8 * PX 0 va)
  | S l =>
      let pte := pt + 8 * PX (Z.of_nat level) va in
      e <- ld64 pte ;;
      if has e PTE_V then page_walk_levels l (PTE2PA e) va alloc
      else if alloc then
        pt' <- alloc_page ;;
        if pt' =? 0 then ret 0
        else
          memset_page pt' 0 ;;;
          st64 pte (Z.lor (PA2PTE pt') PTE_V) ;;;
          page_walk_levels l pt' va alloc
      else ret 0
  end.

Definition page_walk (page_dir va : Z) (alloc : bool) : M pmm Z :=
  if MAXVA <=? va then panic "page_walk" else page_walk_levels 2 page_dir va alloc.

Definition lookup_pa (pagetable va : Z) : M pmm Z :=
  if MAXVA <=? va then ret 0
  else
    pte <- page_walk pagetable va false ;;
    if pte =? 0 then ret 0
    else
      e <- ld64 pte ;;
      if negb (has e PTE_V) || (negb (has e PTE_R) && negb (has e PTE_W)) then ret 0
      else ret (PTE2PA e).

Fixpoint map_pages_loop (fuel : nat) (page_dir first last pa perm : Z) : M pmm Z :=
  match fuel with
  | O => fault
  | S f =>
      if first <=? last then
        pte <- page_walk page_dir first true ;;
        if pte =? 0 then ret (-1)
        else
          e <- ld64 pte ;;
          if has e PTE_V then panic "map_pages fails on mapping va to pa"
          else
            st64 pte (Z.lor (Z.lor (PA2PTE pa) perm) PTE_V) ;;;
            map_pages_loop f page_dir (u64 (first + PGSIZE)) last (u64 (pa + PGSIZE)) perm
      else ret 0
  end.

Definition map_pages (page_dir va size pa perm : Z) : M pmm Z :=
  let first := ROUNDDOWN va PGSIZE in
  let last := ROUNDDOWN (u64 (va + size - 1)) PGSIZE in
  map_pages_loop (Z.to_nat ((last - first) / PGSIZE + 2)) page_dir first last pa perm.

Definition kern_vm_map (page_dir va pa sz perm : Z) : M pmm unit :=
  r <- map_pages page_dir va sz pa perm ;;
  if r =? 0 then ret tt else panic "kern_vm_map".

(** [etext] is the linker symbol [_etext]; the result is what the code stores in
    [g_kernel_pagetable]. *)
Definition kern_vm_init (etext : Z) : M pmm Z :=
  t_page_dir <- alloc_page ;;
  memset_page t_page_dir 0 ;;;
  kern_vm_map t_page_dir KERN_BASE DRAM_BASE (etext - KERN_BASE)
    (prot_to_type (Z.lor PROT_READ PROT_EXEC) false) ;;;
  lookup_pa t_page_dir KERN_BASE ;;;
  kern_vm_map t_page_dir etext etext (PHYS_TOP - etext)
    (prot_to_type (Z.lor PROT_READ PROT_WRITE) false) ;;;
  lookup_pa t_page_dir etext ;;;
  ret t_page_dir.

Definition user_va_to_pa (page_dir va : Z) : M pmm Z :=
  pa <- lookup_pa page_dir va ;;
  ret (u64 (pa + Z.land va (Z.shiftl 1 PGSHIFT - 1))).

Definition user_vm_map (page_dir va size pa perm : Z) : M pmm unit :=
  r <- map_pages page_dir va size pa perm ;;
  if r =? 0 then ret tt else panic "fail to user_vm_map .".

(** The parameters [size] and [free] of the source are not used by its body. *)
Definition user_vm_unmap (page_dir va size free : Z) : M pmm unit :=
  pte <- page_walk page_dir va false ;;
  if pte =? 0 then panic "fail to user_vm_unmap ."
  else
    e <- ld64 pte ;;
    free_page (PTE2PA e) ;;;
    e' <- ld64 pte ;;
    st64 pte (Z.ldiff e' PTE_V).

Definition cow_vm_map (page_dir va pa : Z) : M pmm unit :=
  pte <- page_walk page_dir va true ;;
  st64 pte (Z.lor (Z.lor (Z.lor (PA2PTE pa) (prot_to_type PROT_READ true)) PTE_RSW) PTE_V) ;;;
  ref_insert pa.

(** * Arithmetic of entries and indices *)

Lemma PX_range level va : 0 <= PX level va < 512.
Proof.
  unfold PX. change 511 with (Z.ones 9). rewrite Z.land_ones by lia.
  change (2 ^ 9) with 512. by apply Z.mod_pos_bound.
Qed.

Lemma PX_div level va : 0 <= level -> PX level va = va / (4096 * 512 ^ level) mod 512.
Proof.
  intros. unfold PX, PXSHIFT, PGSHIFT. change 511 with (Z.ones 9). rewrite Z.land_ones by lia.
  rewrite Z.shiftr_div_pow2 by lia. rewrite Z.pow_add_r, Z.pow_mul_r by lia. done.
Qed.

(** Below MAXVA the three indices determine the page. *)
Lemma PX_inj va va' :
  0 <= va < MAXVA -> 0 <= va' < MAXVA ->
  PX 2 va = PX 2 va' -> PX 1 va = PX 1 va' -> PX 0 va = PX 0 va' -> va / PGSIZE = va' / PGSIZE.
Proof.
  change MAXVA with 274877906944. intros H H'. rewrite !PX_div by lia.
  change (4096 * 512 ^ 2) with 1073741824. change (4096 * 512 ^ 1) with 2097152.
  change (4096 * 512 ^ 0) with 4096. unfold PGSIZE. intros. zdiv.
Qed.

Lemma PX_page va va' level :
  0 <= level -> va / PGSIZE = va' / PGSIZE -> PX level va = PX level va'.
Proof.
  intros Hl E. rewrite !PX_div by done. unfold PGSIZE in E.
  rewrite <-!Z.div_div by lia. by rewrite E.
Qed.

Lemma low_bits_shift q f :
  0 <= f < 1024 -> Z.lor (Z.shiftl q 10) f = q * 1024 + f.
Proof.
  intros Hf. rewrite Z.shiftl_mul_pow2 by lia. change (2 ^ 10) with 1024.
  assert (Z.land (q * 1024) f = 0) as H0.
  { apply Z.bits_inj'. intros n Hn. rewrite Z.land_spec, Z.bits_0.
    change 1024 with (2 ^ 10). destruct (Z.lt_ge_cases n 10).
    - by rewrite Z.mul_pow2_bits_low by lia.
    - replace (Z.testbit f n) with false; [by rewrite andb_false_r|].
      symmetry. apply Z.testbit_false; [lia|]. rewrite Z.div_small; [done|].
      split; [lia|]. apply Z.lt_le_trans with (2 ^ 10); [lia|]. by apply Z.pow_le_mono_r. }
  rewrite <-Z.lxor_lor by done. by rewrite <-Z.add_nocarry_lxor by done.
Qed.

(** An entry holds the frame number above ten flag bits. *)
Lemma PA2PTE_flags pa f :
  0 <= pa < 18446744073709551616 -> 0 <= f < 1024 ->
  Z.lor (PA2PTE pa) f = pa / 4096 * 1024 + f.
Proof.
  intros Hpa Hf. unfold PA2PTE. rewrite Z.shiftr_div_pow2 by lia. change (2 ^ 12) with 4096.
  rewrite u64_small; [by apply low_bits_shift|].
  rewrite Z.shiftl_mul_pow2 by lia. change (2 ^ 10) with 1024. zdiv.
Qed.

Lemma has_low e flag : 0 <= flag < 1024 -> has e flag = has (e mod 1024) flag.
Proof.
  intros Hf. unfold has. do 2 f_equal.
  assert (Z.land (Z.ones 10) flag = flag) as E.
  { rewrite Z.land_comm, Z.land_ones by lia. by apply Z.mod_small. }
  rewrite <-E at 1. rewrite Z.land_assoc, Z.land_ones by lia. done.
Qed.

Lemma has_entry pa f flag :
  0 <= pa < 18446744073709551616 -> 0 <= f < 1024 -> 0 <= flag < 1024 ->
  has (Z.lor (PA2PTE pa) f) flag = has f flag.
Proof.
  intros. rewrite PA2PTE_flags, (has_low (_ + f)) by done. f_equal. zdiv.
Qed.

Lemma PTE2PA_entry pa f :
  0 <= pa < 18446744073709551616 -> 0 <= f < 1024 ->
  PTE2PA (Z.lor (PA2PTE pa) f) = ROUNDDOWN pa PGSIZE.
Proof.
  intros. rewrite PA2PTE_flags by done. unfold PTE2PA, ROUNDDOWN, PGSIZE.
  rewrite Z.shiftr_div_pow2, Z.shiftl_mul_pow2 by lia.
  change (2 ^ 12) with 4096. change (2 ^ 10) with 1024.
  replace ((pa / 4096 * 1024 + f) / 1024) with (pa / 4096) by zdiv.
  apply u64_small. zdiv.
Qed.

Lemma ROUNDDOWN_page p : p mod PGSIZE = 0 -> ROUNDDOWN p PGSIZE = p.
Proof. unfold ROUNDDOWN, PGSIZE. intros. zdiv. Qed.

Lemma entry_u64 pa f :
  0 <= pa < 18446744073709551616 -> 0 <= f < 1024 ->
  u64 (Z.lor (PA2PTE pa) f) = Z.lor (PA2PTE pa) f.
Proof. intros. rewrite PA2PTE_flags by done. apply u64_small. zdiv. Qed.

(** * The mapping a page table denotes *)

(** The leaf entry the hardware finds for [va], 0 when a table is missing. *)
Fixpoint entry (level : nat) (m : mem) (pt va : Z) : Z :=
  let e := load64 m (pt + 8 * PX (Z.of_nat level) va) in
  match level with
  | O => e
  | S l => if has e PTE_V then entry l m (PTE2PA e) va else 0
  end.

(** The address of that entry. *)
Fixpoint walk (level : nat) (m : mem) (pt va : Z) : option Z :=
  let a := pt + 8 * PX (Z.of_nat level) va in
  match level with
  | O => Some a
  | S l => let e := load64 m a in if has e PTE_V then walk l m (PTE2PA e) va else None
  end.

(** How many tables are missing on the way. *)
Fixpoint missing (level : nat) (m : mem) (pt va : Z) : nat :=
  match level with
  | O => O
  | S l => let e := load64 m (pt + 8 * PX (Z.of_nat level) va) in
           if has e PTE_V then missing l m (PTE2PA e) va else level
  end.

Lemma entry_walk level m pt va :
  entry level m pt va = match walk level m pt va with Some a => load64 m a | None => 0 end.
Proof.
  revert pt. induction level as [|l IH]; intros pt; [done|]. cbn [entry walk].
  destruct (has _ _); [apply IH|done].
Qed.

(** The role of a page that serves as a table: the indices that lead to it. *)
Inductive node := TRoot | TMid (i : Z) | TLeaf (i j : Z).

Definition child (n : node) (x : Z) : option node :=
  match n with TRoot => Some (TMid x) | TMid i => Some (TLeaf i x) | TLeaf _ _ => None end.

Definition role (level : nat) (va : Z) : node :=
  match level with
  | O => TLeaf (PX 2 va) (PX 1 va)
  | S O => TMid (PX 2 va)
  | _ => TRoot
  end.

Lemma child_role l va :
  (l < 2)%nat -> child (role (S l) va) (PX (Z.of_nat (S l)) va) = Some (role l va).
Proof. destruct l as [|[|]]; [done..|lia]. Qed.

Lemma role_level l l' va va' : (l <= 2)%nat -> (l' <= 2)%nat -> role l va = role l' va' -> l = l'.
Proof. destruct l as [|[|[|]]], l' as [|[|[|]]]; try lia; done. Qed.

(** [own] gives the tables of the tree rooted at [root]: page-aligned, each with
    one role, such that a valid entry of a table leads to the table of the role
    below it. *)
Record tree (m : mem) (root : Z) (own : gmap Z node) : Prop := {
  tree_root : own !! root = Some TRoot;
  tree_aligned p n : own !! p = Some n -> p mod PGSIZE = 0;
  tree_child p n x c :
    own !! p = Some n -> child n x = Some c -> 0 <= x < 512 ->
    has (load64 m (p + 8 * x)) PTE_V = true ->
    own !! PTE2PA (load64 m (p + 8 * x)) = Some c;
}.

(** The tables are pages in use. *)
Record pt_wf (s : pmm) (root : Z) (own : gmap Z node) : Prop := {
  wf_tree : tree (pm_mem s) root own;
  wf_page p n : own !! p = Some n -> is_page s p /\ 0 < ref_count (ref_list s) p;
}.

Lemma tree_next m root own l pt va :
  tree m root own -> (l < 2)%nat -> own !! pt = Some (role (S l) va) ->
  has (load64 m (pt + 8 * PX (Z.of_nat (S l)) va)) PTE_V = true ->
  own !! PTE2PA (load64 m (pt + 8 * PX (Z.of_nat (S l)) va)) = Some (role l va).
Proof.
  intros Ht Hl Ho Hv. eapply (tree_child _ _ _ Ht); [done|by apply child_role|apply PX_range|done].
Qed.

Lemma walk_leaf m root own level pt va a :
  tree m root own -> (level <= 2)%nat -> own !! pt = Some (role level va) ->
  walk level m pt va = Some a ->
  exists leaf, own !! leaf = Some (role 0 va) /\ a = leaf + 8 * PX 0 va.
Proof.
  intros Ht. revert pt. induction level as [|l IH]; intros pt Hl Ho E; cbn [walk] in E.
  - simplify_eq. by exists pt.
  - destruct (has _ _) eqn:Hv; [|done]. eapply IH; [lia|by eapply tree_next|done].
Qed.

(** Entries of distinct tables, or distinct entries of one table, do not overlap. *)
Lemma slots_disjoint p q x y :
  p mod PGSIZE = 0 -> q mod PGSIZE = 0 -> 0 <= x < 512 -> 0 <= y < 512 ->
  p + 8 * x <> q + 8 * y -> p + 8 * x + 8 <= q + 8 * y \/ q + 8 * y + 8 <= p + 8 * x.
Proof. unfold PGSIZE. intros. zdiv. Qed.

Lemma slots_inj p q x y :
  p mod PGSIZE = 0 -> q mod PGSIZE = 0 -> 0 <= x < 512 -> 0 <= y < 512 ->
  p + 8 * x = q + 8 * y -> p = q /\ x = y.
Proof. unfold PGSIZE. intros. zdiv. Qed.

(** ** Adding a table *)

Section install.
Context (m : mem) (root : Z) (own : gmap Z node) (l : nat) (pt va p : Z).
Hypothesis (Ht : tree m root own) (Hl : (l < 2)%nat) (Ho : own !! pt = Some (role (S l) va)).
Let pte := pt + 8 * PX (Z.of_nat (S l)) va.
Hypothesis (Hinvalid : has (load64 m pte) PTE_V = false).
Hypothesis (Hp : own !! p = None) (Hpa : p mod PGSIZE = 0) (Hpr : 0 <= p < 18446744073709551616).

Let m' : mem := store64 (memset m p 0 PGSIZE) pte (Z.lor (PA2PTE p) PTE_V).
Let own' : gmap Z node := <[p := role l va]> own.

Lemma install_new x : 0 <= x < 512 -> load64 m' (p + 8 * x) = 0.
Proof.
  intros Hx. unfold m'. rewrite load64_store64_ne.
  - apply load64_memset_zero; unfold PGSIZE; lia.
  - apply slots_disjoint; [done|by eapply tree_aligned|done|apply PX_range|].
    intros E. apply slots_inj in E as [-> _]; [by rewrite Hp in Ho|done|by eapply tree_aligned|done|].
    apply PX_range.
Qed.

Lemma install_pte : load64 m' pte = Z.lor (PA2PTE p) PTE_V.
Proof. unfold m'. rewrite load64_store64_eq. by apply entry_u64. Qed.

Lemma install_old q n x :
  own !! q = Some n -> 0 <= x < 512 -> q + 8 * x <> pte ->
  load64 m' (q + 8 * x) = load64 m (q + 8 * x).
Proof.
  intros Hq Hx Hne. pose proof (tree_aligned _ _ _ Ht _ _ Hq).
  unfold m'. rewrite load64_store64_ne.
  - apply (unchanged_load64 p (p + PGSIZE)); [by apply memset_unchanged|].
    destruct (pages_disjoint q p) as [?|?]; [done|done|congruence|unfold PGSIZE in *; lia..].
  - apply slots_disjoint; [done|by eapply tree_aligned|done|apply PX_range|done].
Qed.

Lemma install_pte_role q n x :
  own !! q = Some n -> 0 <= x < 512 -> q + 8 * x = pte ->
  n = role (S l) va /\ x = PX (Z.of_nat (S l)) va.
Proof.
  intros Hq Hx E. apply slots_inj in E as [-> ->]; [|by eapply tree_aligned..|done|apply PX_range].
  split; [congruence|done].
Qed.

Lemma install_valid : has (Z.lor (PA2PTE p) PTE_V) PTE_V = true.
Proof. by rewrite has_entry. Qed.

Lemma install_target : PTE2PA (Z.lor (PA2PTE p) PTE_V) = p.
Proof. rewrite PTE2PA_entry by done. by apply ROUNDDOWN_page. Qed.

Lemma install_tree : tree m' root own'.
Proof.
  split.
  - unfold own'. rewrite lookup_insert_ne; [apply (tree_root _ _ _ Ht)|].
    intros ->. pose proof (tree_root _ _ _ Ht). congruence.
  - intros q n Hq. unfold own' in Hq. apply lookup_insert_Some in Hq as [[<- _]|[_ Hq]]; [done|].
    by eapply tree_aligned.
  - intros q n x c Hq Hc Hx Hv. unfold own' in Hq.
    apply lookup_insert_Some in Hq as [[<- <-]|[Hne Hq]].
    { by rewrite install_new in Hv. }
    destruct (decide (q + 8 * x = pte)) as [E|E].
    + destruct (install_pte_role q n x Hq Hx E) as [-> ->].
      rewrite child_role in Hc by done. injection Hc as <-.
      rewrite E, install_pte, install_target. apply lookup_insert_eq.
    + rewrite (install_old q n x) in Hv |- * by done.
      pose proof (tree_child _ _ _ Ht _ _ _ _ Hq Hc Hx Hv) as Hn.
      unfold own'. rewrite lookup_insert_ne; [done|]. congruence.
Qed.

Lemma install_entry level q va' :
  (level <= 2)%nat -> own !! q = Some (role level va') ->
  entry level m' q va' = entry level m q va'.
Proof.
  revert q. induction level as [|k IH]; intros q Hk Hq; cbn [entry].
  - apply (install_old q _ _ Hq); [apply PX_range|]. intros E.
    apply (install_pte_role q _ _ Hq) in E as [E _]; [|apply PX_range].
    destruct l as [|[|]]; [done..|lia].
  - destruct (decide (q + 8 * PX (Z.of_nat (S k)) va' = pte)) as [E|E].
    + rewrite !E, install_pte, install_valid, install_target, Hinvalid.
      destruct (install_pte_role q _ _ Hq (PX_range _ _) E) as [Er _].
      destruct k as [|k]; cbn [entry]; rewrite install_new; done || apply PX_range.
    + rewrite (install_old q _ _ Hq) by (done || apply PX_range).
      destruct (has (load64 m (q + _)) PTE_V) eqn:Hv; [|done]. apply IH; [lia|]. by eapply tree_next.
Qed.
End install.

(** ** Writing a leaf entry *)

Section leaf_store.
Context (m : mem) (root : Z) (own : gmap Z node) (leaf va v : Z).
Hypothesis (Ht : tree m root own) (Ho : own !! leaf = Some (role 0 va)).
Let m' : mem := store64 m (leaf + 8 * PX 0 va) v.

Lemma leaf_store_table q n x c :
  own !! q = Some n -> child n x = Some c -> 0 <= x < 512 ->
  load64 m' (q + 8 * x) = load64 m (q + 8 * x).
Proof.
  intros Hq Hc Hx. unfold m'. apply load64_store64_ne, slots_disjoint; try done.
  - by eapply tree_aligned.
  - by eapply tree_aligned.
  - apply PX_range.
  - intros E. apply slots_inj in E as [-> _]; try done; [|by eapply tree_aligned..|apply PX_range].
    rewrite Ho in Hq. by simplify_eq.
Qed.

Lemma leaf_store_tree : tree m' root own.
Proof.
  split; [apply Ht|apply Ht|]. intros q n x c Hq Hc Hx Hv.
  rewrite (leaf_store_table q n x c) in Hv |- * by done. by eapply (tree_child _ _ _ Ht).
Qed.

Lemma leaf_store_walk level q va' :
  (level <= 2)%nat -> own !! q = Some (role level va') -> walk level m' q va' = walk level m q va'.
Proof.
  revert q. induction level as [|k IH]; intros q Hk Hq; [done|]. cbn [walk].
  rewrite (leaf_store_table q _ _ (role k va') Hq) by (apply child_role || apply PX_range; lia).
  destruct (has (load64 m (q + _)) PTE_V) eqn:Hv; [|done]. apply IH; [lia|]. by eapply tree_next.
Qed.

(** Exactly the page of [va] is remapped. *)
Lemma leaf_store_entry va' :
  0 <= va < MAXVA -> 0 <= va' < MAXVA -> walk 2 m root va = Some (leaf + 8 * PX 0 va) ->
  entry 2 m' root va' = if va' / PGSIZE =? va / PGSIZE then u64 v else entry 2 m root va'.
Proof.
  intros Hva Hva' Hw. rewrite !entry_walk.
  rewrite leaf_store_walk by (done || apply (tree_root _ _ _ Ht)).
  destruct (Z.eqb_spec (va' / PGSIZE) (va / PGSIZE)) as [E|E].
  - replace (walk 2 m root va') with (walk 2 m root va).
    + rewrite Hw. apply load64_store64_eq.
    + cbn [walk]. by rewrite !(PX_page va va') by lia.
  - destruct (walk 2 m root va') as [a|] eqn:Hw'; [|done].
    eapply walk_leaf in Hw' as (leaf' & Ho' & ->); [|done|lia|apply (tree_root _ _ _ Ht)].
    apply load64_store64_ne, slots_disjoint; try apply PX_range; [by eapply tree_aligned..|].
    intros Es. apply slots_inj in Es as [-> E0]; try apply PX_range; [|by eapply tree_aligned..].
    rewrite Ho in Ho'. injection Ho' as E2 E1. apply E. by apply PX_inj.
Qed.
End leaf_store.

(** ** Walking *)

(** The address [a] lies in no table. *)
Definition off_tables (own : gmap Z node) (a : Z) : Prop :=
  forall q n, own !! q = Some n -> a < q \/ q + PGSIZE <= a.

(** The tree grew by pages taken from the free list; the mapping did not change,
    nor any memory outside the tables. *)
Record extends (root : Z) (s : pmm) (own : gmap Z node) (used : list Z)
    (s' : pmm) (own' : gmap Z node) : Prop := {
  ext_own : own ⊆ own';
  ext_new q : own !! q = None -> q ∉ used -> own' !! q = None;
  ext_lo : free_mem_start_addr s' = free_mem_start_addr s;
  ext_hi : free_mem_end_addr s' = free_mem_end_addr s;
  ext_total : length (ref_list s') = (length used + length (ref_list s))%nat;
  ext_count q : q ∉ used -> ref_count (ref_list s') q = ref_count (ref_list s) q;
  ext_entry va : entry 2 (pm_mem s') root va = entry 2 (pm_mem s) root va;
  ext_valid q n x :
    own !! q = Some n -> 0 <= x < 512 -> has (load64 (pm_mem s) (q + 8 * x)) PTE_V = true ->
    load64 (pm_mem s') (q + 8 * x) = load64 (pm_mem s) (q + 8 * x);
  ext_frame a : off_tables own' a -> load8 (pm_mem s') a = load8 (pm_mem s) a;
}.

Lemma extends_refl root s own : extends root s own [] s own.
Proof. by split. Qed.

Lemma extends_trans root s own u1 s1 own1 u2 s2 own2 :
  extends root s own u1 s1 own1 -> extends root s1 own1 u2 s2 own2 ->
  extends root s own (u1 ++ u2) s2 own2.
Proof.
  intros [H1 H0 H2 H3 H4 H5 H6 H7 H8] [I1 I0 I2 I3 I4 I5 I6 I7 I8]. split.
  - by trans own1.
  - intros q Hq Hu. apply I0; [apply H0|]; set_solver.
  - by rewrite I2.
  - by rewrite I3.
  - rewrite length_app. lia.
  - intros q Hq. rewrite I5, H5; set_solver.
  - intros va. by rewrite I6.
  - intros q n x Hq Hx Hv. rewrite (I7 q n x); [by eapply H7|by eapply lookup_weaken|done|].
    by rewrite (H7 q n x).
  - intros a Ha. rewrite I8 by done. apply H8. intros q n Hq. eapply Ha. by eapply lookup_weaken.
Qed.

Lemma pmm_inv_mem s fl top m :
  (forall p, p ∈ fl -> load64 m p = load64 (pm_mem s) p) ->
  pmm_inv s fl top -> pmm_inv (s <| pm_mem := m |>) fl top.
Proof.
  intros Hm [? ? Hc ? ? ? ? ? ? ? ?]. split; try done. cbn. by eapply chain_ext.
Qed.

Lemma free_page_unowned s fl top root own p :
  pmm_inv s fl top -> pt_wf s root own -> p ∈ fl -> own !! p = None.
Proof.
  intros Hi Hw Hp. destruct (own !! p) eqn:E; [|done].
  apply (wf_page _ _ _ Hw) in E as [_ Hc]. rewrite ref_count_absent in Hc; [lia|].
  by apply (inv_free _ _ _ Hi).
Qed.

Lemma table_in_dram s fl top root own p n x :
  pmm_inv s fl top -> pt_wf s root own -> own !! p = Some n -> 0 <= x < 512 ->
  in_dram (p + 8 * x) 8 = true.
Proof.
  intros Hi Hw Hp Hx. apply (in_dram_page s p); [apply Hi|apply Hi|by eapply wf_page|lia|].
  unfold PGSIZE. lia.
Qed.

Lemma ld64_table s fl top root own p n x :
  pmm_inv s fl top -> pt_wf s root own -> own !! p = Some n -> 0 <= x < 512 ->
  ld64 (p + 8 * x) s = Ret (load64 (pm_mem s) (p + 8 * x)) s.
Proof. intros. unfold ld64. by erewrite table_in_dram. Qed.

Lemma st64_table s fl top root own p n x v :
  pmm_inv s fl top -> pt_wf s root own -> own !! p = Some n -> 0 <= x < 512 ->
  st64 (p + 8 * x) v s = Ret tt (s <| pm_mem := store64 (pm_mem s) (p + 8 * x) v |>).
Proof. intros. unfold st64. by erewrite table_in_dram. Qed.

(** Without [alloc] the walk only reads. *)
Lemma page_walk_levels_read s fl top root own level pt va alloc :
  pmm_inv s fl top -> pt_wf s root own -> (level <= 2)%nat ->
  own !! pt = Some (role level va) ->
  (alloc = false \/ walk level (pm_mem s) pt va <> None) ->
  page_walk_levels level pt va alloc s = Ret (default 0 (walk level (pm_mem s) pt va)) s.
Proof.
  intros Hi Hw. revert pt. induction level as [|l IH]; intros pt Hl Ho Ha; [done|].
  cbn [page_walk_levels walk] in *. unfold bind at 1.
  erewrite ld64_table by (done || apply PX_range).
  destruct (has (load64 _ _) PTE_V) eqn:Hv.
  - apply IH; [lia| |done]. eapply tree_next; [apply Hw|lia|done..].
  - destruct Ha as [->|]; done.
Qed.

Lemma page_walk_read s fl top root own va alloc :
  pmm_inv s fl top -> pt_wf s root own -> va < MAXVA ->
  (alloc = false \/ walk 2 (pm_mem s) root va <> None) ->
  page_walk root va alloc s = Ret (default 0 (walk 2 (pm_mem s) root va)) s.
Proof.
  intros Hi Hw Hva Ha. unfold page_walk. destruct (Z.leb_spec MAXVA va); [lia|].
  eapply page_walk_levels_read; [done|done|lia|apply Hw|done].
Qed.

(** One missing table is allocated, zeroed and linked. *)
Lemma install_step s fl top root own l pt va p :
  pmm_inv s (p :: fl) top -> pt_wf s root own -> ref_total (ref_list s) < REF_LIST_SIZE ->
  (l < 2)%nat -> own !! pt = Some (role (S l) va) ->
  let pte := pt + 8 * PX (Z.of_nat (S l)) va in
  has (load64 (pm_mem s) pte) PTE_V = false ->
  let m' := store64 (memset (pm_mem s) p 0 PGSIZE) pte (Z.lor (PA2PTE p) PTE_V) in
  let own' := <[p := role l va]> own in
  exists s1, alloc_page s = Ret p s1 /\ memset_page p 0 s1 = Ret tt (s1 <| pm_mem := memset (pm_mem s) p 0 PGSIZE |>) /\
    st64 pte (Z.lor (PA2PTE p) PTE_V) (s1 <| pm_mem := memset (pm_mem s) p 0 PGSIZE |>) =
      Ret tt (s1 <| pm_mem := m' |>) /\
    p <> 0 /\ pmm_inv (s1 <| pm_mem := m' |>) fl top /\ pt_wf (s1 <| pm_mem := m' |>) root own' /\
    extends root s own [p] (s1 <| pm_mem := m' |>) own' /\
    has (load64 m' pte) PTE_V = true /\ PTE2PA (load64 m' pte) = p /\
    forall x, 0 <= x < 512 -> load64 m' (p + 8 * x) = 0.
Proof.
  intros Hi Hw Hroom Hl Ho pte Hinv m' own'.
  assert (own !! p = None) as Hp by (eapply free_page_unowned; [done..|set_solver]).
  assert (is_page s p) as Hpg by (apply Hi; set_solver).
  destruct (is_page_dram s p) as [Hd1 Hd2]; [apply Hi..|done|].
  assert (0 <= p < 18446744073709551616) as Hpr by (unfold PHYS_TOP, DRAM_BASE, PGSIZE in *; lia).
  assert (p mod PGSIZE = 0) as Hpa by apply Hpg.
  pose proof (wf_tree _ _ _ Hw) as Ht.
  destruct (alloc_page_inv s p fl top Hi Hroom) as (s1 & E & Hi1 & Hm & Elo & Ehi & Hlen & Hc).
  assert (0 < ref_count (ref_list s1) p) by (rewrite Hc, Z.eqb_refl; lia).
  assert (forall q n, own !! q = Some n -> ref_count (ref_list s1) q = ref_count (ref_list s) q) as Hcq.
  { intros q n Hq. rewrite Hc. destruct (Z.eqb_spec q p); [congruence|done]. }
  exists s1. split; [done|]. split_and!.
  - unfold memset_page. rewrite (in_dram_page s p p PGSIZE); [by rewrite Hm|apply Hi..|done|lia|lia].
  - unfold st64, pte. by rewrite (table_in_dram s (p :: fl) top root own pt _ _ Hi Hw Ho (PX_range _ _)).
  - unfold DRAM_BASE in *. lia.
  - apply pmm_inv_mem; [|done]. intros q Hq. rewrite Hm.
    assert (own !! q = None) as Hq0 by (apply (free_page_unowned s (p :: fl) top root); [done..|set_solver]).
    assert (is_page s q) as Hqg by (apply Hi; set_solver).
    assert (q <> p) by (pose proof (inv_nodup _ _ _ Hi) as [? ?]%NoDup_cons; congruence).
    pose proof (PX_range (Z.of_nat (S l)) va). unfold m'. rewrite load64_store64_ne.
    + apply (unchanged_load64 p (p + PGSIZE)); [by apply memset_unchanged|].
      destruct (pages_disjoint q p) as [?|?]; [apply Hqg|done|done|unfold PGSIZE in *; lia..].
    + unfold pte. destruct (pages_disjoint q pt) as [?|?];
        [apply Hqg|by eapply tree_aligned|congruence|unfold PGSIZE in *; lia..].
  - split; cbn; [by eapply install_tree|]. intros q n Hq.
    unfold is_page in *. cbn. rewrite Elo, Ehi.
    apply lookup_insert_Some in Hq as [[<- _]|[Hne Hq]]; [done|].
    rewrite (Hcq q n Hq). by eapply (wf_page _ _ _ Hw).
  - split; cbn; try done.
    + by apply insert_subseteq.
    + intros q Hq Hu. unfold own'. rewrite lookup_insert_ne; [done|set_solver].
    + intros q Hq. rewrite Hc. destruct (Z.eqb_spec q p); [set_solver|done].
    + intros va'. apply (install_entry _ root own l pt va p Ht Hl Ho Hinv Hp Hpa Hpr 2); [lia|apply Ht].
    + intros q n x Hq Hx Hv. apply (install_old _ root own l pt va p Ht Hl Ho Hp Hpa q n); [done..|].
      intros Ex. fold pte in Ex. congruence.
    + intros a Ha. pose proof (PX_range (Z.of_nat (S l)) va). unfold m'.
      rewrite (unchanged_store64 _ pte); [apply (memset_unchanged _ p 0 PGSIZE); [done|]|].
      * by eapply Ha, lookup_insert_eq.
      * destruct (Ha pt (role (S l) va)); [|unfold pte, PGSIZE in *; lia..].
        unfold own'. rewrite lookup_insert_ne; congruence.
  - unfold m', pte. rewrite install_pte by done. by apply install_valid.
  - unfold m', pte. rewrite install_pte by done. by apply install_target.
  - by eapply install_new.
Qed.

(** With [alloc] the missing tables are added, one page each. *)
Lemma page_walk_levels_alloc level pt va :
  forall s fl top root own, pmm_inv s fl top -> pt_wf s root own -> (level <= 2)%nat ->
  own !! pt = Some (role level va) -> (missing level (pm_mem s) pt va <= length fl)%nat ->
  ref_total (ref_list s) + Z.of_nat (missing level (pm_mem s) pt va) <= REF_LIST_SIZE ->
  exists leaf s' fl' own' used,
    page_walk_levels level pt va true s = Ret (leaf + 8 * PX 0 va) s' /\
    fl = used ++ fl' /\ length used = missing level (pm_mem s) pt va /\
    pmm_inv s' fl' top /\ pt_wf s' root own' /\ extends root s own used s' own' /\
    own' !! leaf = Some (role 0 va) /\
    walk level (pm_mem s') pt va = Some (leaf + 8 * PX 0 va).
Proof.
  revert pt. induction level as [|l IH]; intros pt s fl top root own Hi Hw Hl Ho Hfl Hroom.
  { exists pt, s, fl, own, []. by split_and!. }
  cbn [page_walk_levels walk missing] in *. unfold bind at 1.
  rewrite (ld64_table s fl top root own pt _ _ Hi Hw Ho (PX_range _ _)).
  set (pte := pt + 8 * PX (Z.of_nat (S l)) va) in *. destruct (has (load64 (pm_mem s) pte) PTE_V) eqn:Hv.
  - assert (own !! PTE2PA (load64 (pm_mem s) pte) = Some (role l va)) as Hn
      by (eapply tree_next; [apply Hw|lia|done|done]).
    destruct (IH _ s fl top root own Hi Hw ltac:(lia) Hn Hfl Hroom)
      as (leaf & s' & fl' & own' & used & E & Efl & Hlen & Hi' & Hw' & Hext & Hleaf & Hwalk).
    exists leaf, s', fl', own', used. split_and!; try done.
    unfold pte in *. by rewrite (ext_valid _ _ _ _ _ _ Hext _ _ _ Ho (PX_range _ _) Hv), Hv.
  - destruct fl as [|p fl]; [cbn [length] in Hfl; lia|]. cbn [length] in Hfl.
    destruct (install_step s fl top root own l pt va p)
      as (s1 & E1 & E2 & E3 & Hp0 & Hi1 & Hw1 & Hext1 & Hval & Htgt & Hzero); [done..|lia|lia|done|done|].
    fold pte in E3, Hi1, Hw1, Hext1, Hval, Htgt, Hzero.
    set (s2 := s1 <| pm_mem := store64 _ _ _ |>) in Hi1, Hw1, Hext1, E3.
    set (own1 := <[p := role l va]> own) in *.
    assert (own1 !! p = Some (role l va)) as Hp by apply lookup_insert_eq.
    assert (missing l (pm_mem s2) p va = l) as Hmiss.
    { destruct l as [|l]; cbn [missing]; [done|].
      replace (load64 (pm_mem s2) (p + 8 * PX (Z.of_nat (S l)) va)) with 0; [done|].
      symmetry. apply (Hzero (PX (Z.of_nat (S l)) va)), PX_range. }
    destruct (IH p s2 fl top root own1 Hi1 Hw1 ltac:(lia) Hp)
      as (leaf & s' & fl' & own' & used & E & Efl & Hlen & Hi' & Hw' & Hext & Hleaf & Hwalk).
    { lia. }
    { pose proof (ext_total _ _ _ _ _ _ Hext1) as Et. cbn [length] in Et.
      unfold ref_total in *. lia. }
    exists leaf, s', fl', own', (p :: used). split_and!; try done.
    + unfold bind. rewrite E1. destruct (Z.eqb_spec p 0); [done|]. by rewrite E2, E3.
    + cbn. by f_equal.
    + cbn. lia.
    + by apply (extends_trans _ _ _ [p] s2 own1).
    + assert (own1 !! pt = Some (role (S l) va)) as Ho1
        by (eapply lookup_weaken; [done|apply (ext_own _ _ _ _ _ _ Hext1)]).
      unfold pte in *. rewrite (ext_valid _ _ _ _ _ _ Hext _ _ _ Ho1 (PX_range _ _) Hval).
      by rewrite (Hval : has (load64 (pm_mem s2) _) _ = true), (Htgt : PTE2PA (load64 (pm_mem s2) _) = p).
Qed.

Lemma missing_le level m pt va : (missing level m pt va <= level)%nat.
Proof.
  revert pt. induction level as [|l IH]; intros pt; [done|]. cbn [missing].
  destruct (has _ _); [|done]. specialize (IH (PTE2PA (load64 m (pt + 8 * PX (Z.of_nat (S l)) va)))). lia.
Qed.

(** Once the way to [va] exists, its neighbours need at most as many tables as
    they have boundaries in between. *)
Lemma missing_next m root va va' a :
  0 <= va -> 0 <= va' -> walk 2 m root va = Some a ->
  Z.of_nat (missing 2 m root va') <=
    (if va' / 1073741824 =? va / 1073741824 then 0 else 1) +
    (if va' / 2097152 =? va / 2097152 then 0 else 1).
Proof.
  intros H0 H0' Hw.
  assert (PX 2 va = va / 1073741824 mod 512) as E2 by by rewrite PX_div.
  assert (PX 2 va' = va' / 1073741824 mod 512) as E2' by by rewrite PX_div.
  assert (PX 1 va = va / 2097152 mod 512) as E1 by by rewrite PX_div.
  assert (PX 1 va' = va' / 2097152 mod 512) as E1' by by rewrite PX_div.
  cbn [walk missing] in *.
  destruct (has (load64 m (root + 8 * PX (Z.of_nat 2) va)) PTE_V) eqn:Hv2; [|done].
  destruct (has (load64 m (_ + 8 * PX (Z.of_nat 1) va)) PTE_V) eqn:Hv1; [|done].
  change (Z.of_nat 2) with 2 in *. change (Z.of_nat 1) with 1 in *.
  destruct (Z.eqb_spec (va' / 1073741824) (va / 1073741824)) as [Eg|Eg].
  - rewrite E2', Eg, <-E2, Hv2. destruct (Z.eqb_spec (va' / 2097152) (va / 2097152)) as [Em|Em].
    + by rewrite E1', Em, <-E1, Hv1.
    + case_match; lia.
  - assert (va' / 2097152 <> va / 2097152) by zdiv.
    destruct (Z.eqb_spec (va' / 2097152) (va / 2097152)); [done|].
    repeat case_match; lia.
Qed.

(** ** Mapping a range *)

(** What every routine that edits the tree of [root] leaves alone. *)
Record grows (own : gmap Z node) (used : list Z) (s s' : pmm) (own' : gmap Z node) : Prop := {
  grow_own : own ⊆ own';
  grow_new q : own !! q = None -> q ∉ used -> own' !! q = None;
  grow_lo : free_mem_start_addr s' = free_mem_start_addr s;
  grow_hi : free_mem_end_addr s' = free_mem_end_addr s;
  grow_total : length (ref_list s') = (length used + length (ref_list s))%nat;
  grow_count q : q ∉ used -> ref_count (ref_list s') q = ref_count (ref_list s) q;
  grow_frame a : off_tables own' a -> load8 (pm_mem s') a = load8 (pm_mem s) a;
}.

Lemma grows_refl own s : grows own [] s s own.
Proof. by split. Qed.

Lemma grows_trans own u1 s s1 own1 u2 s2 own2 :
  grows own u1 s s1 own1 -> grows own1 u2 s1 s2 own2 -> grows own (u1 ++ u2) s s2 own2.
Proof.
  intros [H1 H0 H2 H3 H4 H5 H6] [I1 I0 I2 I3 I4 I5 I6]. split.
  - by trans own1.
  - intros q Hq Hu. apply I0; [apply H0|]; set_solver.
  - by rewrite I2.
  - by rewrite I3.
  - rewrite length_app. lia.
  - intros q Hq. rewrite I5, H5; set_solver.
  - intros a Ha. rewrite I6 by done. apply H6. intros q n Hq. eapply Ha. by eapply lookup_weaken.
Qed.

Lemma extends_grows root s own used s' own' :
  extends root s own used s' own' -> grows own used s s' own'.
Proof. by intros []. Qed.

(** Storing to the leaf entry of [va] keeps the tree and the free list. *)
Lemma leaf_store_wf s fl top root own leaf va v :
  pmm_inv s fl top -> pt_wf s root own -> own !! leaf = Some (role 0 va) ->
  let s' := s <| pm_mem := store64 (pm_mem s) (leaf + 8 * PX 0 va) v |> in
  pmm_inv s' fl top /\ pt_wf s' root own /\ grows own [] s s' own.
Proof.
  intros Hi Hw Ho s'. pose proof (PX_range 0 va).
  pose proof (tree_aligned _ _ _ (wf_tree _ _ _ Hw) _ _ Ho) as Hal. split_and!.
  - apply pmm_inv_mem; [|done]. intros p Hp.
    pose proof (free_page_unowned s fl top root own p Hi Hw Hp).
    pose proof (inv_pages _ _ _ Hi p Hp) as [Hpa _].
    apply load64_store64_ne. destruct (pages_disjoint p leaf); [done|done|congruence|unfold PGSIZE in *; lia..].
  - split; [apply leaf_store_tree; [apply Hw|done]|apply Hw].
  - split; try done. intros a Ha. apply unchanged_store64.
    destruct (Ha _ _ Ho); unfold PGSIZE in *; lia.
Qed.

(** [map_entry] is the entry [map_pages] writes. *)
Definition map_entry (pa perm : Z) : Z := Z.lor (Z.lor (PA2PTE pa) perm) PTE_V.

Lemma flags_or f g : 0 <= f < 1024 -> 0 <= g < 1024 -> 0 <= Z.lor f g < 1024.
Proof.
  intros Hf Hg. split; [apply Z.lor_nonneg; lia|].
  destruct (decide (Z.lor f g = 0)) as [->|Hne]; [done|].
  assert (0 <= Z.lor f g) by (apply Z.lor_nonneg; lia).
  assert (forall x, 0 <= x < 1024 -> Z.log2 x < 10) as Hl.
  { intros x Hx. destruct (decide (x = 0)) as [->|]; [done|]. apply Z.log2_lt_pow2; lia. }
  apply (Z.log2_lt_pow2 _ 10); [lia|]. rewrite Z.log2_lor by lia.
  pose proof (Hl f Hf). pose proof (Hl g Hg). lia.
Qed.

Lemma map_entry_lor pa perm : map_entry pa perm = Z.lor (PA2PTE pa) (Z.lor perm PTE_V).
Proof. unfold map_entry. by rewrite Z.lor_assoc. Qed.

Lemma map_entry_u64 pa perm :
  0 <= pa < 18446744073709551616 -> 0 <= perm < 1024 -> u64 (map_entry pa perm) = map_entry pa perm.
Proof. intros. rewrite map_entry_lor. apply entry_u64; [done|]. by apply flags_or. Qed.

Lemma map_entry_has pa perm flag :
  0 <= pa < 18446744073709551616 -> 0 <= perm < 1024 -> 0 <= flag < 1024 ->
  has (map_entry pa perm) flag = has (Z.lor perm PTE_V) flag.
Proof. intros. rewrite map_entry_lor. apply has_entry; [done| |done]. by apply flags_or. Qed.

Lemma map_entry_pa pa perm :
  0 <= pa < 18446744073709551616 -> 0 <= perm < 1024 ->
  PTE2PA (map_entry pa perm) = ROUNDDOWN pa PGSIZE.
Proof. intros. rewrite map_entry_lor. apply PTE2PA_entry; [done|]. by apply flags_or. Qed.

Lemma has_lor f g flag : has (Z.lor f g) flag = has f flag || has g flag.
Proof.
  unfold has. rewrite Z.land_lor_distr_l.
  destruct (Z.eqb_spec (Z.land f flag) 0) as [E|E], (Z.eqb_spec (Z.land g flag) 0) as [E'|E'];
    destruct (Z.eqb_spec (Z.lor (Z.land f flag) (Z.land g flag)) 0) as [E2|E2]; try done.
  - rewrite E, E' in E2. done.
  - by apply Z.lor_eq_0_iff in E2 as [? ?].
  - by apply Z.lor_eq_0_iff in E2 as [? ?].
  - by apply Z.lor_eq_0_iff in E2 as [? ?].
Qed.

(** One turn of the loop up to the test of the entry. *)
Lemma map_walk s fl top root own va :
  pmm_inv s fl top -> pt_wf s root own -> 0 <= va < MAXVA ->
  (missing 2 (pm_mem s) root va <= length fl)%nat ->
  ref_total (ref_list s) + Z.of_nat (missing 2 (pm_mem s) root va) <= REF_LIST_SIZE ->
  exists leaf s' fl' own' used,
    page_walk root va true s = Ret (leaf + 8 * PX 0 va) s' /\ leaf + 8 * PX 0 va <> 0 /\
    ld64 (leaf + 8 * PX 0 va) s' = Ret (entry 2 (pm_mem s) root va) s' /\
    (forall v, st64 (leaf + 8 * PX 0 va) v s' =
       Ret tt (s' <| pm_mem := store64 (pm_mem s') (leaf + 8 * PX 0 va) v |>)) /\
    fl = used ++ fl' /\ length used = missing 2 (pm_mem s) root va /\
    pmm_inv s' fl' top /\ pt_wf s' root own' /\ extends root s own used s' own' /\
    own' !! leaf = Some (role 0 va) /\
    walk 2 (pm_mem s') root va = Some (leaf + 8 * PX 0 va).
Proof.
  intros Hi Hw Hva Hm Hroom.
  destruct (page_walk_levels_alloc 2 root va s fl top root own)
    as (leaf & s' & fl' & own' & used & E & Efl & Hlen & Hi' & Hw' & Hext & Hleaf & Hwalk);
    [done|done|lia|apply Hw|done|done|].
  exists leaf, s', fl', own', used. split_and!; try done.
  - unfold page_walk. by destruct (Z.leb_spec MAXVA va); [lia|].
  - pose proof (table_in_dram s' fl' top root own' leaf _ _ Hi' Hw' Hleaf (PX_range 0 va)) as Hd.
    unfold in_dram, DRAM_BASE in Hd. bools. lia.
  - rewrite (ld64_table s' fl' top root own' leaf _ _ Hi' Hw' Hleaf (PX_range 0 va)).
    by rewrite <-(ext_entry _ _ _ _ _ _ Hext), entry_walk, Hwalk.
  - intros v. by rewrite (st64_table s' fl' top root own' leaf _ _ v Hi' Hw' Hleaf (PX_range 0 va)).
Qed.

(** Tables a range can need: one per 2 MiB and per 1 GiB region it enters. *)
Definition crossings (first last : Z) : Z :=
  (last / 2097152 - first / 2097152) + (last / 1073741824 - first / 1073741824).

(** The mapping after the pages [first, stop) got the frames from [pa] on. *)
Definition remap (old : Z -> Z) (first stop pa perm va : Z) : Z :=
  if (first <=? va) && (va <? stop)
  then map_entry (pa + (ROUNDDOWN va PGSIZE - first)) perm else old va.

Lemma remap_cons (old new : Z -> Z) first pa perm k va :
  first mod PGSIZE = 0 -> 0 <= k -> new va =
    (if va / PGSIZE =? first / PGSIZE then map_entry pa perm else old va) ->
  remap new (first + PGSIZE) (first + PGSIZE + k * PGSIZE) (pa + PGSIZE) perm va =
  remap old first (first + PGSIZE + k * PGSIZE) pa perm va.
Proof.
  intros Hf Hk E. unfold remap. rewrite E. unfold ROUNDDOWN, PGSIZE in *.
  destruct (Z.leb_spec (first + 4096) va), (Z.leb_spec first va), (Z.eqb_spec (va / 4096) (first / 4096)),
    (Z.ltb_spec va (first + 4096 + k * 4096)); cbn [andb]; try done; try zdiv; f_equal; zdiv.
Qed.

(** One turn of the loop. *)
Lemma map_step s fl top root own first last pa perm f :
  pmm_inv s fl top -> pt_wf s root own -> 0 <= first < MAXVA -> first <= last ->
  0 <= perm < 1024 -> 0 <= pa < 18446744073709551616 ->
  has (entry 2 (pm_mem s) root first) PTE_V = false ->
  (missing 2 (pm_mem s) root first <= length fl)%nat ->
  ref_total (ref_list s) + Z.of_nat (missing 2 (pm_mem s) root first) <= REF_LIST_SIZE ->
  exists s' fl' own' used a,
    map_pages_loop (S f) root first last pa perm s =
      map_pages_loop f root (u64 (first + PGSIZE)) last (u64 (pa + PGSIZE)) perm s' /\
    fl = used ++ fl' /\ length used = missing 2 (pm_mem s) root first /\
    pmm_inv s' fl' top /\ pt_wf s' root own' /\ grows own used s s' own' /\
    walk 2 (pm_mem s') root first = Some a /\
    forall va, 0 <= va < MAXVA -> entry 2 (pm_mem s') root va =
      if va / PGSIZE =? first / PGSIZE then map_entry pa perm else entry 2 (pm_mem s) root va.
Proof.
  intros Hi Hw Hf Hle Hperm Hpa Hfree Hmiss Hroom.
  destruct (map_walk s fl top root own first) as (leaf & s1 & fl1 & own1 & used1 & E1 & Hnz & E2 & E3
    & Efl & Hlen & Hi1 & Hw1 & Hext & Hleaf & Hwalk); [done..|].
  destruct (leaf_store_wf s1 fl1 top root own1 leaf first (map_entry pa perm) Hi1 Hw1 Hleaf)
    as (Hi2 & Hw2 & Hg2).
  exists (s1 <| pm_mem := store64 (pm_mem s1) (leaf + 8 * PX 0 first) (map_entry pa perm) |>).
  exists fl1, own1, used1, (leaf + 8 * PX 0 first). split_and!; try done.
  - cbn [map_pages_loop]. destruct (Z.leb_spec first last); [|lia]. unfold bind. rewrite E1.
    destruct (Z.eqb_spec (leaf + 8 * PX 0 first) 0); [done|]. rewrite E2, Hfree. fold (map_entry pa perm).
    by rewrite E3.
  - rewrite <-(app_nil_r used1). eapply grows_trans; [by eapply extends_grows|done].
  - rewrite <-Hwalk. apply (leaf_store_walk _ root own1); [apply Hw1|done|lia|apply Hw1].
  - intros va Hva.
    match goal with |- entry 2 (pm_mem (upd _ (fun _ => ?m) _)) _ _ = _ =>
      change (entry 2 m root va = if va / PGSIZE =? first / PGSIZE then map_entry pa perm
        else entry 2 (pm_mem s) root va) end.
    rewrite (leaf_store_entry (pm_mem s1) root own1 leaf first (map_entry pa perm)
      (wf_tree _ _ _ Hw1) Hleaf va Hf Hva Hwalk).
    by rewrite map_entry_u64, (ext_entry _ _ _ _ _ _ Hext) by done.
Qed.

(** ... and [k] turns. *)
Lemma map_pages_loop_run k : forall f first last pa perm s fl top root own,
  pmm_inv s fl top -> pt_wf s root own ->
  first mod PGSIZE = 0 -> last mod PGSIZE = 0 -> 0 <= first <= last -> last < MAXVA ->
  first + Z.of_nat k * PGSIZE <= last + PGSIZE -> 0 <= perm < 1024 ->
  0 <= pa -> pa + Z.of_nat k * PGSIZE < 18446744073709551616 ->
  (forall va, first <= va < first + Z.of_nat k * PGSIZE ->
     has (entry 2 (pm_mem s) root va) PTE_V = false) ->
  Z.of_nat (missing 2 (pm_mem s) root first) + crossings first last <= Z.of_nat (length fl) ->
  ref_total (ref_list s) + (Z.of_nat (missing 2 (pm_mem s) root first) + crossings first last) <=
    REF_LIST_SIZE ->
  exists s' fl' own' used,
    map_pages_loop (k + f) root first last pa perm s =
      map_pages_loop f root (first + Z.of_nat k * PGSIZE) last (pa + Z.of_nat k * PGSIZE) perm s' /\
    fl = used ++ fl' /\ pmm_inv s' fl' top /\ pt_wf s' root own' /\ grows own used s s' own' /\
    ref_total (ref_list s') = ref_total (ref_list s) + Z.of_nat (length used) /\
    Z.of_nat (length used) + (if first + Z.of_nat k * PGSIZE <=? last then
       Z.of_nat (missing 2 (pm_mem s') root (first + Z.of_nat k * PGSIZE)) +
       crossings (first + Z.of_nat k * PGSIZE) last else 0) <=
      Z.of_nat (missing 2 (pm_mem s) root first) + crossings first last /\
    forall va, 0 <= va < MAXVA -> entry 2 (pm_mem s') root va =
      remap (entry 2 (pm_mem s) root) first (first + Z.of_nat k * PGSIZE) pa perm va.
Proof.
  induction k as [|k IH]; intros f first last pa perm s fl top root own Hi Hw Ha Hb Hlo Hhi Hle Hperm
    Hpa Hpa' Hfree Hmiss Hroom.
  { exists s, fl, own, []. replace (first + Z.of_nat 0 * PGSIZE) with first by lia.
    replace (pa + Z.of_nat 0 * PGSIZE) with pa by lia. split_and!; try done.
    { cbn [length]. lia. }
    { cbn [length]. destruct (Z.leb_spec first last); lia. }
    intros va Hva. unfold remap. destruct (Z.leb_spec first va), (Z.ltb_spec va first); done || lia. }
  destruct (map_step s fl top root own first last pa perm (k + f))
    as (s1 & fl1 & own1 & used1 & a & E1 & Efl & Hlen & Hi1 & Hw1 & Hg1 & Hwalk & He1);
    [done|done|lia|lia|done|unfold PGSIZE in *; lia|apply Hfree; unfold PGSIZE; lia| | |].
  { unfold crossings in Hmiss. zdiv. }
  { unfold crossings in Hroom. zdiv. }
  assert (length fl = length used1 + length fl1)%nat as Hlfl by (rewrite Efl; apply length_app).
  assert (ref_total (ref_list s1) = ref_total (ref_list s) + Z.of_nat (length used1)) as Htot1.
  { unfold ref_total in *. rewrite (grow_total _ _ _ _ _ Hg1). lia. }
  change MAXVA with 274877906944 in *.
  rewrite (u64_small (first + PGSIZE)), (u64_small (pa + PGSIZE)) in E1 by (unfold PGSIZE in *; lia).
  assert (first + PGSIZE <= last -> Z.of_nat (length used1) +
    (Z.of_nat (missing 2 (pm_mem s1) root (first + PGSIZE)) + crossings (first + PGSIZE) last) <=
    Z.of_nat (missing 2 (pm_mem s) root first) + crossings first last) as Hmiss1.
  { intros Hlast. pose proof (missing_next (pm_mem s1) root first (first + PGSIZE) a) as Hn.
    specialize (Hn ltac:(lia) ltac:(unfold PGSIZE; lia) Hwalk). unfold crossings, PGSIZE in *.
    destruct (Z.eqb_spec ((first + 4096) / 1073741824) (first / 1073741824)),
      (Z.eqb_spec ((first + 4096) / 2097152) (first / 2097152)); zdiv. }
  destruct (decide (first + PGSIZE <= last)) as [Hlast|Hlast].
  - destruct (IH f (first + PGSIZE) last (pa + PGSIZE) perm s1 fl1 top root own1)
      as (s' & fl' & own' & used & E & Efl' & Hi' & Hw' & Hg' & Htot' & Hmiss' & He');
      try done; try (unfold PGSIZE in *; lia); try (unfold PGSIZE in *; zdiv).
    { intros va Hva. rewrite He1 by (unfold PGSIZE in *; zdiv).
      destruct (Z.eqb_spec (va / PGSIZE) (first / PGSIZE)); [unfold PGSIZE in *; zdiv|].
      apply Hfree. unfold PGSIZE in *; lia. }
    exists s', fl', own', (used1 ++ used).
    replace (first + Z.of_nat (S k) * PGSIZE) with (first + PGSIZE + Z.of_nat k * PGSIZE) by lia.
    replace (pa + Z.of_nat (S k) * PGSIZE) with (pa + PGSIZE + Z.of_nat k * PGSIZE) by lia.
    split_and!; try done.
    + cbn [Nat.add]. by rewrite E1.
    + by rewrite Efl, Efl', app_assoc.
    + by eapply grows_trans.
    + rewrite length_app. lia.
    + rewrite length_app. specialize (Hmiss1 Hlast). case_match; lia.
    + intros va Hva. rewrite He' by done. apply remap_cons; [done|lia|by apply He1].
  - assert (k = 0%nat) as -> by (unfold PGSIZE in *; lia).
    exists s1, fl1, own1, used1. cbn [Nat.add].
    replace (first + Z.of_nat 1 * PGSIZE) with (first + PGSIZE) by lia.
    replace (pa + Z.of_nat 1 * PGSIZE) with (pa + PGSIZE) by lia.
    split_and!; try done.
    { destruct (Z.leb_spec (first + PGSIZE) last); [done|]. unfold crossings. zdiv. }
    intros va Hva. rewrite He1 by done. unfold remap, ROUNDDOWN.
    unfold PGSIZE in *. destruct (Z.eqb_spec (va / 4096) (first / 4096)), (Z.leb_spec first va),
      (Z.ltb_spec va (first + 4096)); cbn [andb]; try done; try zdiv. f_equal. zdiv.
Qed.

Lemma map_pages_fuel va size :
  0 <= va -> 0 < size -> va + size <= MAXVA ->
  let first := ROUNDDOWN va PGSIZE in
  let last := ROUNDDOWN (u64 (va + size - 1)) PGSIZE in
  exists k, Z.to_nat ((last - first) / PGSIZE + 2) = (k + 1)%nat /\
    first + Z.of_nat k * PGSIZE = last + PGSIZE /\
    first mod PGSIZE = 0 /\ last mod PGSIZE = 0 /\ 0 <= first <= last /\ last < MAXVA /\
    last <= va + size - 1 < last + PGSIZE.
Proof.
  change MAXVA with 274877906944. intros Hva Hsz Hmax first last. unfold first, last.
  rewrite u64_small by lia. clear first last. unfold ROUNDDOWN, PGSIZE.
  exists (Z.to_nat ((va + size - 1) / 4096 - va / 4096 + 1)). zdiv.
Qed.

Lemma map_pages_run s fl top root own va size pa perm :
  let first := ROUNDDOWN va PGSIZE in
  let last := ROUNDDOWN (va + size - 1) PGSIZE in
  pmm_inv s fl top -> pt_wf s root own ->
  0 <= va -> 0 < size -> va + size <= MAXVA -> 0 <= perm < 1024 ->
  0 <= pa < 9223372036854775808 ->
  (forall va', first <= va' < last + PGSIZE -> has (entry 2 (pm_mem s) root va') PTE_V = false) ->
  Z.of_nat (missing 2 (pm_mem s) root first) + crossings first last <= Z.of_nat (length fl) ->
  ref_total (ref_list s) + (Z.of_nat (missing 2 (pm_mem s) root first) + crossings first last) <=
    REF_LIST_SIZE ->
  exists s' fl' own' used,
    map_pages root va size pa perm s = Ret 0 s' /\
    fl = used ++ fl' /\ pmm_inv s' fl' top /\ pt_wf s' root own' /\ grows own used s s' own' /\
    ref_total (ref_list s') = ref_total (ref_list s) + Z.of_nat (length used) /\
    Z.of_nat (length used) <= Z.of_nat (missing 2 (pm_mem s) root first) + crossings first last /\
    forall va', 0 <= va' < MAXVA -> entry 2 (pm_mem s') root va' =
      remap (entry 2 (pm_mem s) root) first (last + PGSIZE) pa perm va'.
Proof.
  intros first last Hi Hw Hva Hsz Hmax Hperm Hpa Hfree Hmiss Hroom.
  destruct (map_pages_fuel va size Hva Hsz Hmax) as (k & Ek & Hlast & Hf0 & Hl0 & Hle & Hlm & Hb).
  unfold map_pages. rewrite Ek. revert Ek Hlast Hf0 Hl0 Hle Hlm Hb.
  rewrite (u64_small (va + size - 1)) by (change MAXVA with 274877906944 in *; lia).
  fold first last. intros Ek Hlast Hf0 Hl0 Hle Hlm Hb.
  destruct (map_pages_loop_run k 1 first last pa perm s fl top root own)
    as (s' & fl' & own' & used & E & Efl & Hi' & Hw' & Hg & Htot & Hcost & He); try done.
  { lia. }
  { lia. }
  { change MAXVA with 274877906944 in *. unfold PGSIZE in *. lia. }
  { intros va' Hva'. apply Hfree. lia. }
  exists s', fl', own', used. rewrite Hlast in E, Hcost, He. split_and!; try done.
  - rewrite E. cbn [map_pages_loop].
    destruct (Z.leb_spec (last + PGSIZE) last); [unfold PGSIZE in *; lia|done].
  - destruct (Z.leb_spec (last + PGSIZE) last); [unfold PGSIZE in *; lia|lia].
Qed.

(** ** Looking up *)

Lemma has_0 flag : has 0 flag = false.
Proof. done. Qed.

Lemma walk_nonzero s fl top root own va a :
  pmm_inv s fl top -> pt_wf s root own -> walk 2 (pm_mem s) root va = Some a ->
  a <> 0 /\ in_dram a 8 = true.
Proof.
  intros Hi Hw Ha. eapply walk_leaf in Ha as (leaf & Ho & ->); [|apply Hw|lia|apply Hw].
  pose proof (table_in_dram s fl top root own leaf _ _ Hi Hw Ho (PX_range 0 va)) as Hd.
  split; [|done]. unfold in_dram, DRAM_BASE in Hd. bools. lia.
Qed.

(** The address a well-formed table gives for a page. *)
Definition translate (m : mem) (root va : Z) : Z :=
  if MAXVA <=? va then 0
  else
    let e := entry 2 m root va in
    if has e PTE_V && (has e PTE_R || has e PTE_W) then PTE2PA e else 0.

Lemma lookup_pa_translate s fl top root own va :
  pmm_inv s fl top -> pt_wf s root own ->
  lookup_pa root va s = Ret (translate (pm_mem s) root va) s.
Proof.
  intros Hi Hw. unfold lookup_pa, translate. destruct (Z.leb_spec MAXVA va); [done|].
  unfold bind. rewrite (page_walk_read s fl top root own) by (done || by left).
  rewrite entry_walk. destruct (walk 2 (pm_mem s) root va) as [a|] eqn:Ha; [|done].
  destruct (walk_nonzero s fl top root own va a Hi Hw Ha) as [Hnz Hd]. change (default 0 (Some a)) with a.
  destruct (Z.eqb_spec a 0); [done|]. unfold ld64. rewrite Hd.
  set (e := load64 (pm_mem s) a). by destruct (has e PTE_V), (has e PTE_R), (has e PTE_W).
Qed.

(** ** Invalidating a page *)

(** Tables depend on memory through their own entries only. *)
Lemma tree_ext m m' root own :
  (forall q n x, own !! q = Some n -> 0 <= x < 512 ->
     load64 m' (q + 8 * x) = load64 m (q + 8 * x)) ->
  tree m root own ->
  tree m' root own /\
  forall level q va, (level <= 2)%nat -> own !! q = Some (role level va) ->
    walk level m' q va = walk level m q va /\ entry level m' q va = entry level m q va.
Proof.
  intros Hm Ht. split.
  - split; [apply Ht|apply Ht|]. intros p n x c Hp Hc Hx. rewrite (Hm p n x Hp Hx).
    by apply (tree_child _ _ _ Ht p n).
  - intros level. induction level as [|l IH]; intros q va Hl Hq; cbn [walk entry].
    + by rewrite (Hm q _ _ Hq (PX_range _ _)).
    + rewrite (Hm q _ _ Hq (PX_range _ _)).
      destruct (has (load64 m (q + _)) PTE_V) eqn:Hv; [|done].
      apply IH; [lia|]. by eapply tree_next.
Qed.

(** A state change that spares the tables. *)
Lemma pt_wf_transport s s' root own :
  pt_wf s root own ->
  free_mem_start_addr s' = free_mem_start_addr s -> free_mem_end_addr s' = free_mem_end_addr s ->
  (forall q n, own !! q = Some n -> ref_count (ref_list s) q <= ref_count (ref_list s') q) ->
  (forall q n x, own !! q = Some n -> 0 <= x < 512 ->
     load64 (pm_mem s') (q + 8 * x) = load64 (pm_mem s) (q + 8 * x)) ->
  pt_wf s' root own /\
  (forall va, walk 2 (pm_mem s') root va = walk 2 (pm_mem s) root va) /\
  (forall va, entry 2 (pm_mem s') root va = entry 2 (pm_mem s) root va).
Proof.
  intros Hw Elo Ehi Hc Hm. destruct (tree_ext _ _ _ _ Hm (wf_tree _ _ _ Hw)) as [Ht Hext].
  split_and!.
  - split; [done|]. intros p n Hp. unfold is_page. rewrite Elo, Ehi. specialize (Hc p n Hp).
    apply (wf_page _ _ _ Hw) in Hp as [? ?]. split; [done|lia].
  - intros va. apply (Hext 2%nat root va); [lia|apply Hw].
  - intros va. apply (Hext 2%nat root va); [lia|apply Hw].
Qed.

(** Dropping a data page spares the tables. *)
Lemma unmap_free s fl top root own p :
  pmm_inv s fl top -> pt_wf s root own -> is_page s p -> p <> top -> own !! p = None ->
  0 < ref_count (ref_list s) p ->
  exists s' fl', free_page p s = Ret tt s' /\ pmm_inv s' fl' top /\ pt_wf s' root own /\
    (fl' = if ref_count (ref_list s) p =? 1 then p :: fl else fl) /\
    (forall va, walk 2 (pm_mem s') root va = walk 2 (pm_mem s) root va) /\
    (forall va, entry 2 (pm_mem s') root va = entry 2 (pm_mem s) root va) /\
    (forall q, ref_count (ref_list s') q = ref_count (ref_list s) q - (if q =? p then 1 else 0)) /\
    unchanged_outside p (p + 8) (pm_mem s) (pm_mem s') /\ ref_total (ref_list s') <= ref_total (ref_list s).
Proof.
  intros Hi Hw Hp Ht Ho Hc.
  destruct (free_page_inv s p fl top) as (s' & E & Hi' & Hm & Elo & Ehi & Hlen & Hc'); [done..|].
  exists s'. eexists. split; [done|]. split; [done|].
  destruct (pt_wf_transport s s' root own) as (Hw' & Hwalk & He); [done..| | |].
  - intros q n Hq. rewrite Hc'. destruct (Z.eqb_spec q p); [congruence|lia].
  - intros q n x Hq Hx. apply (unchanged_load64 p (p + 8)); [done|].
    assert (q mod PGSIZE = 0) by by apply (wf_page _ _ _ Hw) in Hq as [[? _] _].
    destruct (pages_disjoint q p); [done|apply Hp|congruence|unfold PGSIZE in *; lia..].
  - split_and!; try done. unfold ref_total. lia.
Qed.

Lemma ldiff_V_has e : has (Z.ldiff e PTE_V) PTE_V = false.
Proof. unfold has. by rewrite Z.land_ldiff. Qed.

Lemma ldiff_V_range e :
  0 <= e < 18446744073709551616 -> 0 <= Z.ldiff e PTE_V < 18446744073709551616.
Proof.
  intros He. change PTE_V with (Z.ones 1). rewrite Z.ldiff_ones_r by lia.
  rewrite Z.shiftr_div_pow2, Z.shiftl_mul_pow2 by lia. change (2 ^ 1) with 2. zdiv.
Qed.

(** A page taken from the allocator is no table. *)
Lemma alloc_data s p fl top root own :
  pmm_inv s (p :: fl) top -> pt_wf s root own -> ref_total (ref_list s) < REF_LIST_SIZE ->
  exists s', alloc_page s = Ret p s' /\ pmm_inv s' fl top /\ pt_wf s' root own /\
    pm_mem s' = pm_mem s /\ own !! p = None /\ is_page s' p /\
    ref_total (ref_list s') = ref_total (ref_list s) + 1 /\
    (forall q, ref_count (ref_list s') q = if q =? p then 1 else ref_count (ref_list s) q) /\
    forall q, is_page s q -> is_page s' q.
Proof.
  intros Hi Hw Hroom. assert (own !! p = None) as Hp by (eapply free_page_unowned; [done..|set_solver]).
  destruct (alloc_page_inv s p fl top Hi Hroom) as (s' & E & Hi' & Hm & Elo & Ehi & Hlen & Hc).
  destruct (pt_wf_transport s s' root own) as (Hw' & _ & _); [done..| | |].
  - intros q n Hq. rewrite Hc. destruct (Z.eqb_spec q p); [congruence|lia].
  - intros. by rewrite Hm.
  - exists s'. split_and!; try done.
    + unfold is_page. rewrite Elo, Ehi. apply (inv_pages _ _ _ Hi). set_solver.
    + unfold ref_total. lia.
    + intros q. unfold is_page. by rewrite Elo, Ehi.
Qed.

(** * Properties *)

(** C5.  [map_pages] on a range that is not mapped yet succeeds when the free list
    holds the tables the range can need (the root's two levels below and one more
    for every 2 MiB and 1 GiB boundary it crosses) and the table of owners
    [ref_list] has room to count them.  Afterwards the page table denotes the
    old mapping with exactly the pages of the range redirected to consecutive
    frames with the given permission; the tables are still a well-formed tree,
    the allocator's invariant holds and no byte outside the tables has changed. *)
Theorem map_pages_spec s fl top root own va size pa perm :
  let first := ROUNDDOWN va PGSIZE in
  let last := ROUNDDOWN (va + size - 1) PGSIZE in
  pmm_inv s fl top -> pt_wf s root own ->
  0 <= va -> 0 < size -> va + size <= MAXVA -> 0 <= perm < 1024 ->
  0 <= pa < 9223372036854775808 ->
  (forall va', first <= va' < last + PGSIZE -> has (entry 2 (pm_mem s) root va') PTE_V = false) ->
  2 + crossings first last <= Z.of_nat (length fl) ->
  ref_total (ref_list s) + (2 + crossings first last) <= REF_LIST_SIZE ->
  exists s' fl' own',
    map_pages root va size pa perm s = Ret 0 s' /\
    pmm_inv s' fl' top /\ pt_wf s' root own' /\ own ⊆ own' /\
    (forall va', 0 <= va' < MAXVA -> entry 2 (pm_mem s') root va' =
      remap (entry 2 (pm_mem s) root) first (last + PGSIZE) pa perm va') /\
    (forall a, off_tables own' a -> load8 (pm_mem s') a = load8 (pm_mem s) a).
Proof.
  intros first last Hi Hw Hva Hsz Hmax Hperm Hpa Hfree Hmiss Hroom.
  pose proof (missing_le 2 (pm_mem s) root first).
  destruct (map_pages_run s fl top root own va size pa perm)
    as (s' & fl' & own' & used & E & Efl & Hi' & Hw' & Hg & _ & _ & He); [done..|fold first last; lia|fold first last; lia|].
  exists s', fl', own'. split_and!; try done; apply Hg.
Qed.

(** Mapping a page and looking it up gives the frame back: after [user_vm_map]
    of a readable or writable range, [user_va_to_pa] sends every address of it to
    the frame it was given plus the offset in the page, and [lookup_pa] answers
    as before for every other page. *)
Theorem user_vm_map_lookup s fl top root own va size pa perm :
  let first := ROUNDDOWN va PGSIZE in
  let last := ROUNDDOWN (va + size - 1) PGSIZE in
  pmm_inv s fl top -> pt_wf s root own ->
  0 <= va -> 0 < size -> va + size <= MAXVA -> 0 <= perm < 1024 ->
  has perm PTE_R || has perm PTE_W = true ->
  0 <= pa < 9223372036854775808 -> pa mod PGSIZE = 0 ->
  (forall va', first <= va' < last + PGSIZE -> has (entry 2 (pm_mem s) root va') PTE_V = false) ->
  2 + crossings first last <= Z.of_nat (length fl) ->
  ref_total (ref_list s) + (2 + crossings first last) <= REF_LIST_SIZE ->
  exists s', user_vm_map root va size pa perm s = Ret tt s' /\
    forall va', 0 <= va' < MAXVA ->
      if (first <=? va') && (va' <? last + PGSIZE)
      then user_va_to_pa root va' s' = Ret (pa + (va' - first)) s'
      else exists r, lookup_pa root va' s = Ret r s /\ lookup_pa root va' s' = Ret r s'.
Proof.
  intros first last Hi Hw Hva Hsz Hmax Hperm Hrw Hpa Hpm Hfree Hmiss Hroom.
  pose proof (missing_le 2 (pm_mem s) root first).
  destruct (map_pages_run s fl top root own va size pa perm)
    as (s' & fl' & own' & used & E & Efl & Hi' & Hw' & Hg & _ & _ & He); [done..|fold first last; lia|fold first last; lia|].
  exists s'. split; [unfold user_vm_map, bind; by rewrite E|]. intros va' Hva'.
  unfold user_va_to_pa, bind. rewrite !(lookup_pa_translate s' fl' top root own') by done.
  specialize (He va' Hva'). unfold remap in He. fold first last in He.
  unfold translate. destruct (Z.leb_spec MAXVA va'); [lia|].
  destruct ((first <=? va') && (va' <? last + PGSIZE)) eqn:Hin.
  - bools. rewrite He. assert (0 <= pa + (ROUNDDOWN va' PGSIZE - first) < 18446744073709551616) as Hr.
    { change MAXVA with 274877906944 in *. unfold first, ROUNDDOWN, PGSIZE in *. zdiv. }
    rewrite !map_entry_has by done. rewrite !has_lor. change (has PTE_V PTE_V) with true.
    change (has PTE_V PTE_R) with false. change (has PTE_V PTE_W) with false.
    rewrite !orb_false_r, orb_true_r, Hrw. cbn [andb]. rewrite map_entry_pa by done.
    unfold ret. f_equal. change (Z.shiftl 1 PGSHIFT - 1) with (Z.ones 12). rewrite Z.land_ones by lia.
    change (2 ^ 12) with 4096. change MAXVA with 274877906944 in *.
    unfold first, last, ROUNDDOWN, PGSIZE in *. rewrite u64_small; zdiv.
  - eexists. split; [by apply (lookup_pa_translate s fl top root own)|].
    unfold translate. destruct (Z.leb_spec MAXVA va'); [lia|]. by rewrite He.
Qed.

(** [map_pages] never overwrites a mapping: when some page of the range is
    mapped already, it panics at the first such page. *)
Theorem map_pages_remap s fl top root own va size pa perm k :
  let first := ROUNDDOWN va PGSIZE in
  let last := ROUNDDOWN (va + size - 1) PGSIZE in
  pmm_inv s fl top -> pt_wf s root own ->
  0 <= va -> 0 < size -> va + size <= MAXVA -> 0 <= perm < 1024 ->
  0 <= pa < 9223372036854775808 ->
  first + Z.of_nat k * PGSIZE <= last ->
  (forall va', first <= va' < first + Z.of_nat k * PGSIZE ->
     has (entry 2 (pm_mem s) root va') PTE_V = false) ->
  has (entry 2 (pm_mem s) root (first + Z.of_nat k * PGSIZE)) PTE_V = true ->
  2 + crossings first last <= Z.of_nat (length fl) ->
  ref_total (ref_list s) + (2 + crossings first last) <= REF_LIST_SIZE ->
  map_pages root va size pa perm s = Panic "map_pages fails on mapping va to pa".
Proof.
  intros first last Hi Hw Hva Hsz Hmax Hperm Hpa Hk Hfree Hvalid Hmiss Hroom.
  destruct (map_pages_fuel va size Hva Hsz Hmax) as (n & En & Hlast & Hf0 & Hl0 & Hle & Hlm & Hb).
  pose proof (missing_le 2 (pm_mem s) root first).
  unfold map_pages. rewrite En. revert En Hlast Hf0 Hl0 Hle Hlm Hb.
  rewrite (u64_small (va + size - 1)) by (change MAXVA with 274877906944 in *; lia).
  fold first last. intros En Hlast Hf0 Hl0 Hle Hlm Hb.
  destruct (map_pages_loop_run k (n - k + 1) first last pa perm s fl top root own)
    as (s' & fl' & own' & used & E & Efl & Hi' & Hw' & Hg & Hroom' & Hcost & He); try done; try lia.
  { change MAXVA with 274877906944 in *. unfold PGSIZE in *. lia. }
  assert (k < n)%nat by (unfold PGSIZE in *; lia).
  replace (n + 1)%nat with (k + (n - k + 1))%nat by lia. rewrite E.
  replace (n - k + 1)%nat with (S (n - k)) by lia. cbn [map_pages_loop].
  set (at_k := first + Z.of_nat k * PGSIZE) in *. destruct (Z.leb_spec at_k last); [|lia].
  assert (length fl = length used + length fl')%nat as Hlfl by (rewrite Efl; apply length_app).
  assert (0 <= crossings at_k last) by (unfold crossings; zdiv).
  destruct (map_walk s' fl' top root own' at_k)
    as (leaf & s1 & fl1 & own1 & used1 & E1 & Hnz & E2 & _); try done.
  { unfold at_k, PGSIZE in *. lia. }
  { lia. }
  { lia. }
  unfold bind. rewrite E1. destruct (Z.eqb_spec (leaf + 8 * PX 0 at_k) 0); [done|]. rewrite E2.
  rewrite He by (unfold at_k, PGSIZE in *; lia). unfold remap.
  destruct (Z.ltb_spec at_k at_k); [lia|]. rewrite andb_false_r. by rewrite Hvalid.
Qed.

(** The comment in [user_va_to_pa] asks for NULL when the page is not mapped;
    the code returns the offset in the page, which is NULL only at its start. *)
Theorem user_va_to_pa_unmapped s fl top root own va :
  pmm_inv s fl top -> pt_wf s root own -> 0 <= va < MAXVA ->
  has (entry 2 (pm_mem s) root va) PTE_V = false ->
  user_va_to_pa root va s = Ret (va mod PGSIZE) s.
Proof.
  intros Hi Hw Hva Hv. unfold user_va_to_pa, bind.
  rewrite (lookup_pa_translate s fl top root own) by done. unfold translate.
  destruct (Z.leb_spec MAXVA va); [lia|]. rewrite Hv. cbn [andb]. unfold ret. f_equal.
  change (Z.shiftl 1 PGSHIFT - 1) with (Z.ones 12). rewrite Z.land_ones by lia.
  change (2 ^ 12) with 4096. unfold PGSIZE. apply u64_small. zdiv.
Qed.

(** [user_vm_unmap] on a mapped page invalidates the entry of exactly that
    page and takes one owner from its frame, which returns to the free list when
    that was the last one.  It does so for one page whatever [size] says, and
    reclaims the frame whatever [free] says. *)
Theorem user_vm_unmap_spec s fl top root own va size free :
  let e := entry 2 (pm_mem s) root va in
  pmm_inv s fl top -> pt_wf s root own -> 0 <= va < MAXVA ->
  has e PTE_V = true -> is_page s (PTE2PA e) -> PTE2PA e <> top -> own !! PTE2PA e = None ->
  0 < ref_count (ref_list s) (PTE2PA e) ->
  exists s', user_vm_unmap root va size free s = Ret tt s' /\
    pmm_inv s' (if ref_count (ref_list s) (PTE2PA e) =? 1 then PTE2PA e :: fl else fl) top /\
    pt_wf s' root own /\
    (forall va', 0 <= va' < MAXVA -> entry 2 (pm_mem s') root va' =
      if va' / PGSIZE =? va / PGSIZE then Z.ldiff e PTE_V else entry 2 (pm_mem s) root va') /\
    lookup_pa root va s' = Ret 0 s' /\
    (forall q, ref_count (ref_list s') q =
      ref_count (ref_list s) q - (if q =? PTE2PA e then 1 else 0)).
Proof.
  intros e Hi Hw Hva Hv Hp Ht Ho Hc.
  destruct (walk 2 (pm_mem s) root va) as [a|] eqn:Ha.
  2:{ exfalso. unfold e in Hv. by rewrite entry_walk, Ha in Hv. }
  destruct (walk_nonzero s fl top root own va a Hi Hw Ha) as [Hnz Hd].
  assert (load64 (pm_mem s) a = e) as Ee by (unfold e; by rewrite entry_walk, Ha).
  destruct (unmap_free s fl top root own (PTE2PA e))
    as (s1 & fl' & E1 & Hi1 & Hw1 & Efl & Hwalk & Hent & Hcnt & _); [done..|].
  destruct (walk_leaf (pm_mem s) root own 2 root va a) as (leaf & Hleaf & Ea);
    [apply Hw|lia|apply Hw|done|].
  subst a. destruct (leaf_store_wf s1 fl' top root own leaf va (Z.ldiff e PTE_V) Hi1 Hw1 Hleaf)
    as (Hi2 & Hw2 & Hg2).
  assert (load64 (pm_mem s1) (leaf + 8 * PX 0 va) = e) as Ee1.
  { unfold e. rewrite <-(Hent va), entry_walk, Hwalk. by rewrite Ha. }
  set (s2 := s1 <| pm_mem := _ |>) in Hi2, Hw2, Hg2.
  assert (forall va', 0 <= va' < MAXVA -> entry 2 (pm_mem s2) root va' =
    if va' / PGSIZE =? va / PGSIZE then Z.ldiff e PTE_V else entry 2 (pm_mem s) root va') as He2.
  { intros va' Hva'. rewrite <-(Hent va').
    pose proof (leaf_store_entry (pm_mem s1) root own leaf va (Z.ldiff e PTE_V)
      (wf_tree _ _ _ Hw1) Hleaf va' Hva Hva') as Hl.
    rewrite Hwalk, u64_small in Hl by (apply ldiff_V_range; rewrite <-Ee; apply load64_range).
    by apply Hl. }
  exists s2. split_and!; try done.
  - unfold user_vm_unmap, bind. rewrite (page_walk_read s fl top root own); [|done..|lia|by left].
    rewrite Ha. change (default 0 (Some (leaf + 8 * PX 0 va))) with (leaf + 8 * PX 0 va).
    destruct (Z.eqb_spec (leaf + 8 * PX 0 va) 0); [done|].
    unfold ld64 at 1. rewrite Hd, Ee, E1. unfold ld64, st64. by rewrite Hd, Ee1.
  - by rewrite <-Efl.
  - rewrite (lookup_pa_translate s2 fl' top root own) by done. unfold translate.
    destruct (Z.leb_spec MAXVA va); [lia|]. rewrite He2 by done. by rewrite Z.eqb_refl, ldiff_V_has.
Qed.

Definition cow_entry (pa : Z) : Z := map_entry pa (Z.lor (prot_to_type PROT_READ true) PTE_RSW).

Lemma cow_entry_flags pa :
  0 <= pa < 18446744073709551616 ->
  has (cow_entry pa) PTE_V = true /\ has (cow_entry pa) PTE_R = true /\ has (cow_entry pa) PTE_W = false /\ RSW (cow_entry pa) = 1.
Proof.
  intros Hpa. unfold cow_entry. rewrite !map_entry_has by done. split_and!; try done.
  rewrite map_entry_lor, PA2PTE_flags by done. unfold RSW.
  change 3 with (Z.ones 2). rewrite Z.land_ones, Z.shiftr_div_pow2 by lia.
  change (Z.lor _ PTE_V) with 339. change (2 ^ 8) with 256. change (2 ^ 2) with 4. zdiv.
Qed.

(** [cow_vm_map] takes up to two pages for tables, writes one entry and counts one more
    owner; memory off the tables of this address space does not change. *)
Lemma cow_vm_map_run s fl top root own va pa :
  pmm_inv s fl top -> pt_wf s root own -> 0 <= va < MAXVA ->
  0 <= pa < 18446744073709551616 -> 0 < ref_count (ref_list s) pa < 18446744073709551615 ->
  (2 <= length fl)%nat -> ref_total (ref_list s) + 2 <= REF_LIST_SIZE ->
  exists s' s2 fl' own' used,
    cow_vm_map root va pa s = Ret tt s' /\ fl = used ++ fl' /\ (length used <= 2)%nat /\
    pmm_inv s' fl' top /\ pt_wf s' root own' /\
    (forall va', 0 <= va' < MAXVA -> entry 2 (pm_mem s') root va' =
      if va' / PGSIZE =? va / PGSIZE then cow_entry pa else entry 2 (pm_mem s) root va') /\
    grows own used s s2 own' /\ pm_mem s' = pm_mem s2 /\
    free_mem_start_addr s' = free_mem_start_addr s2 /\ free_mem_end_addr s' = free_mem_end_addr s2 /\
    length (ref_list s') = length (ref_list s2) /\
    (forall q, ref_count (ref_list s') q = ref_count (ref_list s2) q + (if q =? pa then 1 else 0)).
Proof.
  intros Hi Hw Hva Hpa Hc Hfl Hroom. pose proof (missing_le 2 (pm_mem s) root va). set (e := cow_entry pa).
  destruct (map_walk s fl top root own va) as (leaf & s1 & fl1 & own1 & used1 & E1 & Hnz & E2 & E3
    & Efl & Hlen & Hi1 & Hw1 & Hext & Hleaf & Hwalk); [done..|lia|lia|].
  destruct (leaf_store_wf s1 fl1 top root own1 leaf va e Hi1 Hw1 Hleaf) as (Hi2 & Hw2 & Hg2).
  pose proof (E3 e) as E3e. set (s2 := s1 <| pm_mem := _ |>) in Hi2, Hw2, Hg2, E3e.
  assert (pa ∉ used1) as Hpu.
  { intros Hin. rewrite ref_count_absent in Hc; [lia|]. apply (inv_free _ _ _ Hi). set_solver. }
  assert (ref_count (ref_list s2) pa = ref_count (ref_list s) pa) as Hc2
    by (by apply (ext_count _ _ _ _ _ _ Hext)).
  destruct (ref_insert_share_inv s2 pa fl1 top) as (s3 & E4 & Hi3 & Hm3 & Elo & Ehi & Hl3 & Hc3);
    [done|by rewrite Hc2|].
  destruct (pt_wf_transport s2 s3 root own1) as (Hw3 & _ & He3); try done.
  { intros q n Hq. rewrite Hc3. destruct (Z.eqb_spec q pa) as [->|]; lia. }
  { intros. by rewrite Hm3. }
  exists s3, s2, fl1, own1, used1.
  assert (0 <= Z.lor (prot_to_type PROT_READ true) PTE_RSW < 1024) as Hperm by done.
  split_and!; try done; [|lia| | |].
  - unfold cow_vm_map, bind. rewrite E1.
    replace (Z.lor (Z.lor (Z.lor (PA2PTE pa) _) _) _) with e; [by rewrite E3e|].
    unfold e, cow_entry, map_entry. by rewrite !Z.lor_assoc.
  - intros va' Hva'. rewrite He3, <-(ext_entry _ _ _ _ _ _ Hext va').
    rewrite <-(map_entry_u64 pa _ Hpa Hperm : u64 e = e).
    apply (leaf_store_entry (pm_mem s1) root own1 leaf va e (wf_tree _ _ _ Hw1) Hleaf va' Hva Hva' Hwalk).
  - rewrite <-(app_nil_r used1). eapply grows_trans; [by eapply extends_grows|exact Hg2].
  - intros q. rewrite Hc3. destruct (Z.eqb_spec q pa) as [->|]; lia.
Qed.

(** [cow_vm_map] makes a page readable but not writable, marks it with the
    RSW bit that the fault handler looks for, and records one more owner of the
    frame it shares; no other page of the address space changes. *)
Theorem cow_vm_map_spec s fl top root own va pa :
  pmm_inv s fl top -> pt_wf s root own -> 0 <= va < MAXVA ->
  0 <= pa < 18446744073709551616 -> 0 < ref_count (ref_list s) pa < 18446744073709551615 ->
  (2 <= length fl)%nat -> ref_total (ref_list s) + 2 <= REF_LIST_SIZE ->
  exists s' fl' own',
    cow_vm_map root va pa s = Ret tt s' /\ pmm_inv s' fl' top /\ pt_wf s' root own' /\
    (forall va', 0 <= va' < MAXVA -> entry 2 (pm_mem s') root va' =
      if va' / PGSIZE =? va / PGSIZE then cow_entry pa else entry 2 (pm_mem s) root va') /\
    ref_count (ref_list s') pa = ref_count (ref_list s) pa + 1.
Proof.
  intros Hi Hw Hva Hpa Hc Hfl Hroom.
  destruct (cow_vm_map_run s fl top root own va pa Hi Hw Hva Hpa Hc Hfl Hroom)
    as (s' & s2 & fl' & own' & used & E & Efl & _ & Hi' & Hw' & He & Hg & _ & _ & _ & _ & Hcnt).
  exists s', fl', own'. split_and!; try done.
  rewrite Hcnt, Z.eqb_refl. f_equal. apply (grow_count _ _ _ _ _ Hg).
  intros Hin. rewrite ref_count_absent in Hc; [lia|]. apply (inv_free _ _ _ Hi). set_solver.
Qed.

(** ** The kernel's own table *)

(** A zeroed page is an empty table. *)
Lemma empty_table s fl top p :
  pmm_inv s fl top -> is_page s p -> 0 < ref_count (ref_list s) p ->
  exists s', memset_page p 0 s = Ret tt s' /\ pmm_inv s' fl top /\ pt_wf s' p {[p := TRoot]} /\
    (forall va, entry 2 (pm_mem s') p va = 0) /\ ref_list s' = ref_list s.
Proof.
  intros Hi Hp Hc.
  exists (s <| pm_mem := memset (pm_mem s) p 0 PGSIZE |>).
  assert (forall x, 0 <= x < 512 -> load64 (memset (pm_mem s) p 0 PGSIZE) (p + 8 * x) = 0) as Hz.
  { intros x Hx. apply load64_memset_zero; unfold PGSIZE; lia. }
  split_and!; try done.
  - unfold memset_page. rewrite (in_dram_page s p p PGSIZE); [done|apply Hi..|done|lia|lia].
  - apply pmm_inv_mem; [|done]. intros q Hq.
    apply (unchanged_load64 p (p + PGSIZE)); [by apply memset_unchanged|].
    assert (q <> p).
    { intros ->. rewrite ref_count_absent in Hc; [lia|]. by apply (inv_free _ _ _ Hi). }
    destruct (pages_disjoint q p); [by apply (inv_pages _ _ _ Hi)|apply Hp|done|unfold PGSIZE in *; lia..].
  - split; [split|].
    + apply lookup_singleton_eq.
    + intros q n [<- <-]%lookup_singleton_Some. apply Hp.
    + intros q n x c [<- <-]%lookup_singleton_Some _ Hx Hv. cbn in Hv. by rewrite Hz in Hv.
    + intros q n [<- <-]%lookup_singleton_Some. by split.
  - intros va. change (entry 2 (memset (pm_mem s) p 0 PGSIZE) p va = 0). cbn [entry].
    by rewrite Hz by apply PX_range.
Qed.

Lemma kern_crossings first last :
  DRAM_BASE <= first -> first <= last -> last < PHYS_TOP ->
  0 <= crossings first last /\ crossings first last = last / 2097152 - first / 2097152.
Proof. unfold crossings, PHYS_TOP, DRAM_BASE. intros. zdiv. Qed.

Lemma kern_vm_map_run s fl top root own lo hi perm :
  pmm_inv s fl top -> pt_wf s root own ->
  lo mod PGSIZE = 0 -> hi mod PGSIZE = 0 -> DRAM_BASE <= lo < hi -> hi <= PHYS_TOP ->
  0 <= perm < 1024 -> (forall va, lo <= va < hi -> entry 2 (pm_mem s) root va = 0) ->
  2 + (hi - 1) / 2097152 - lo / 2097152 <= Z.of_nat (length fl) ->
  ref_total (ref_list s) + 2 + (hi - 1) / 2097152 - lo / 2097152 <= REF_LIST_SIZE ->
  exists s' fl' own',
    kern_vm_map root lo lo (hi - lo) perm s = Ret tt s' /\
    pmm_inv s' fl' top /\ pt_wf s' root own' /\
    ref_total (ref_list s') + Z.of_nat (length fl') = ref_total (ref_list s) + Z.of_nat (length fl) /\
    Z.of_nat (length fl) <= Z.of_nat (length fl') + 2 + (hi - 1) / 2097152 - lo / 2097152 /\
    forall va, 0 <= va < MAXVA -> entry 2 (pm_mem s') root va =
      if (lo <=? va) && (va <? hi) then map_entry (ROUNDDOWN va PGSIZE) perm
      else entry 2 (pm_mem s) root va.
Proof.
  intros Hi Hw Hlo Hhi Hr Hph Hperm Hfree Hfl Hroom.
  assert (ROUNDDOWN lo PGSIZE = lo) as Ef by by apply ROUNDDOWN_page.
  assert (ROUNDDOWN (lo + (hi - lo) - 1) PGSIZE = hi - PGSIZE) as El
    by (unfold ROUNDDOWN, PGSIZE in *; zdiv).
  destruct (kern_crossings lo (hi - PGSIZE)) as [Hk0 Hk];
    [lia|unfold PHYS_TOP, DRAM_BASE, PGSIZE in *; zdiv..|].
  assert ((hi - PGSIZE) / 2097152 = (hi - 1) / 2097152) as Ed by (unfold PGSIZE in *; zdiv).
  pose proof (missing_le 2 (pm_mem s) root lo).
  destruct (map_pages_run s fl top root own lo (hi - lo) lo perm)
    as (s3 & fl3 & own3 & u3 & E3 & Efl3 & Hi3 & Hw3 & _ & Hroom3 & Hu3 & He3);
    rewrite ?Ef, ?El in *; try done;
    try (unfold PHYS_TOP, DRAM_BASE in *; change MAXVA with 274877906944; lia).
  { intros va' Hva'. rewrite Hfree by lia. done. }
  exists s3, fl3, own3. split_and!; try done.
  - unfold kern_vm_map, bind. by rewrite E3.
  - rewrite Efl3, length_app. lia.
  - rewrite Efl3, length_app. lia.
  - intros va Hva. rewrite He3 by done. unfold remap.
    replace (hi - PGSIZE + PGSIZE) with hi by lia. case_match; [|done]. f_equal. lia.
Qed.

(** C10.  From the state [pmm_init] leaves, [kern_vm_init] builds the identity
    mapping of the whole physical memory: the text pages are readable and
    executable, all others readable and writable, nothing else is mapped, and
    the directory is the highest free page.  [_etext] is page-aligned
    (kernel.lds); 67 free pages are enough for the tables, however many more
    there are: the 16384 entries of the table of owners bound the pages that are
    taken, not the free ones. *)
Theorem kern_vm_init_identity s top fl etext :
  pmm_fresh s (top :: fl) -> etext mod PGSIZE = 0 -> KERN_BASE < etext < PHYS_TOP ->
  67 <= Z.of_nat (length fl) ->
  exists s' fl' own, kern_vm_init etext s = Ret top s' /\
    pmm_inv s' fl' top /\ pt_wf s' top own /\
    forall va, 0 <= va < MAXVA -> entry 2 (pm_mem s') top va =
      if (DRAM_BASE <=? va) && (va <? PHYS_TOP)
      then map_entry (ROUNDDOWN va PGSIZE)
             (prot_to_type (Z.lor PROT_READ (if va <? etext then PROT_EXEC else PROT_WRITE)) false)
      else 0.
Proof.
  intros Hf Het Hr Hfl.
  destruct (pmm_fresh_alloc s top fl Hf) as (s1 & E1 & Hi1 & Hm1 & Elo & Ehi & Hl1).
  assert (is_page s1 top) as Hp.
  { unfold is_page. rewrite Elo, Ehi. apply (fresh_pages _ _ Hf). set_solver. }
  assert (0 < ref_count (ref_list s1) top) as Hc by (apply (inv_counts _ _ _ Hi1), Hi1).
  destruct (empty_table s1 fl top top Hi1 Hp Hc) as (s2 & E2 & Hi2 & Hw2 & He2 & Hr2).
  assert (ref_total (ref_list s2) = 1) as Ht2 by (unfold ref_total; rewrite Hr2, Hl1; done).
  destruct (kern_vm_map_run s2 fl top top {[top := TRoot]} DRAM_BASE etext
    (prot_to_type (Z.lor PROT_READ PROT_EXEC) false))
    as (s3 & fl3 & own3 & E3 & Hi3 & Hw3 & Hroom3 & Hl3 & He3); try done.
  { unfold KERN_BASE, DRAM_BASE in *. lia. }
  { lia. }
  { unfold PHYS_TOP, DRAM_BASE, KERN_BASE in *. zdiv. }
  { rewrite Ht2. unfold REF_LIST_SIZE, PHYS_TOP, DRAM_BASE, KERN_BASE in *. zdiv. }
  destruct (kern_vm_map_run s3 fl3 top top own3 etext PHYS_TOP
    (prot_to_type (Z.lor PROT_READ PROT_WRITE) false))
    as (s4 & fl4 & own4 & E4 & Hi4 & Hw4 & _ & _ & He4); try done.
  { unfold KERN_BASE, DRAM_BASE in *. lia. }
  { intros va Hva. rewrite He3, He2 by (change MAXVA with 274877906944; unfold PHYS_TOP, DRAM_BASE, KERN_BASE in *; lia).
    destruct (Z.leb_spec DRAM_BASE va), (Z.ltb_spec va etext); cbn; done || lia. }
  { unfold PHYS_TOP, DRAM_BASE, KERN_BASE in *. zdiv. }
  { unfold REF_LIST_SIZE, PHYS_TOP, DRAM_BASE, KERN_BASE in *. zdiv. }
  exists s4, fl4, own4. split_and!; try done.
  - unfold kern_vm_init, bind. rewrite E1, E2. change KERN_BASE with DRAM_BASE. rewrite E3.
    rewrite (lookup_pa_translate s3 fl3 top top own3), E4 by done.
    by rewrite (lookup_pa_translate s4 fl4 top top own4) by done.
  - intros va Hva. rewrite He4, He3, He2 by done.
    destruct (Z.leb_spec DRAM_BASE va), (Z.ltb_spec va etext), (Z.leb_spec etext va),
      (Z.ltb_spec va PHYS_TOP); cbn [andb]; done || (unfold KERN_BASE, DRAM_BASE in *; lia).
Qed.

(** ** Witnesses *)

(** The 64 KiB machine with an empty page directory, a data page taken from the
    allocator, and that page mapped at 0x1000. *)
Definition small_dir : pmm := after (memset_page small_top 0) small_running.
Definition small_data : Z := KERN_BASE + 13 * PGSIZE.
Definition small_alloc : pmm := after alloc_page small_dir.
Definition small_perm : Z := prot_to_type (Z.lor PROT_READ PROT_WRITE) true.
Definition small_mapped : pmm := after (user_vm_map small_top 4096 4096 small_data small_perm) small_alloc.
Definition small_own : gmap Z node := {[small_top := TRoot]}.

Lemma small_alloc_ok :
  pmm_inv small_alloc (tail small_free) small_top /\ pt_wf small_alloc small_top small_own /\
  (forall va, entry 2 (pm_mem small_alloc) small_top va = 0) /\
  ref_total (ref_list small_alloc) = 2 /\
  is_page small_alloc small_data /\ ref_count (ref_list small_alloc) small_data = 1.
Proof.
  destruct (empty_table small_running small_free small_top small_top small_running_ok)
    as (s & E & Hi & Hw & He & Hr).
  { split; [reflexivity|]. vm_compute. split; [intros C; discriminate C|reflexivity]. }
  { vm_compute. reflexivity. }
  assert (ref_total (ref_list s) = 1) as Ht by (rewrite Hr; vm_compute; reflexivity).
  destruct (alloc_data s small_data (tail small_free) small_top small_top small_own)
    as (s' & E' & Hi' & Hw' & Hm' & _ & Hp & Ht' & Hc' & _); [done|done|rewrite Ht; done|].
  assert (small_alloc = s') as ->.
  { unfold small_alloc, small_dir, after. by rewrite E, E'. }
  rewrite Hm', Ht', Ht, Hc', Z.eqb_refl. by split_and!.
Qed.

Lemma small_perm_range : 0 <= small_perm < 1024.
Proof. done. Qed.

Lemma small_data_range : 0 <= small_data < 9223372036854775808.
Proof. done. Qed.

#[local] Opaque small_alloc.

Lemma small_map_ok perm : 0 <= perm < 1024 ->
  exists s fl own, user_vm_map small_top 4096 4096 small_data perm small_alloc = Ret tt s /\
    pmm_inv s fl small_top /\ pt_wf s small_top own /\
    (8 <= length fl)%nat /\ ref_total (ref_list s) + Z.of_nat (length fl) <= 14 /\
    (forall va, 0 <= va < MAXVA -> entry 2 (pm_mem s) small_top va =
       remap (fun _ => 0) 4096 8192 small_data perm va) /\
    own !! small_data = None /\ is_page s small_data /\
    ref_count (ref_list s) small_data = 1.
Proof.
  intros Hperm. destruct small_alloc_ok as (Hi & Hw & He & Ht & Hp & Hc).
  pose proof (missing_le 2 (pm_mem small_alloc) small_top 4096) as Hml.
  destruct (map_pages_run small_alloc (tail small_free) small_top small_top small_own 4096 4096
    small_data perm Hi Hw)
    as (s' & fl' & own' & used & E & Efl & Hi' & Hw' & Hg & Hroom & Hu & He');
    [done|done|done|exact Hperm|exact small_data_range|intros; by rewrite He| | |].
  { change (ROUNDDOWN 4096 PGSIZE) with 4096. change (crossings 4096 _) with 0.
    change (length (tail small_free)) with 12%nat. lia. }
  { change (ROUNDDOWN 4096 PGSIZE) with 4096. change (crossings 4096 _) with 0.
    rewrite Ht. unfold REF_LIST_SIZE. lia. }
  change (ROUNDDOWN 4096 PGSIZE) with 4096 in *. change (crossings 4096 _) with 0 in Hu.
  assert (12 = length used + length fl')%nat as Hlen.
  { rewrite <-length_app, <-Efl. done. }
  assert (small_data ∉ used) as Hnu.
  { intros Hin. rewrite ref_count_absent in Hc; [discriminate Hc|].
    apply (inv_free _ _ _ Hi). rewrite Efl. apply elem_of_app. left. exact Hin. }
  exists s', fl', own'. split; [unfold user_vm_map, bind; by rewrite E|].
  split_and!; [exact Hi'|exact Hw'|..].
  - lia.
  - pose proof (grow_total _ _ _ _ _ Hg) as Hl. unfold ref_total in *. lia.
  - intros va Hva. rewrite He' by exact Hva. unfold remap.
    change (ROUNDDOWN (4096 + 4096 - 1) PGSIZE + PGSIZE) with 8192. rewrite He. reflexivity.
  - apply (grow_new _ _ _ _ _ Hg); [reflexivity|exact Hnu].
  - unfold is_page. rewrite (grow_lo _ _ _ _ _ Hg), (grow_hi _ _ _ _ _ Hg). exact Hp.
  - rewrite (grow_count _ _ _ _ _ Hg) by exact Hnu. exact Hc.
Qed.

Lemma small_mapped_ok :
  exists fl own, pmm_inv small_mapped fl small_top /\ pt_wf small_mapped small_top own /\
    (8 <= length fl)%nat /\ ref_total (ref_list small_mapped) + Z.of_nat (length fl) <= 14 /\
    (forall va, 0 <= va < MAXVA -> entry 2 (pm_mem small_mapped) small_top va =
       remap (fun _ => 0) 4096 8192 small_data small_perm va) /\
    own !! small_data = None /\ is_page small_mapped small_data /\
    ref_count (ref_list small_mapped) small_data = 1.
Proof.
  destruct (small_map_ok small_perm small_perm_range) as (s & fl & own & E & H).
  exists fl, own. assert (small_mapped = s) as -> by (unfold small_mapped, after; by rewrite E). exact H.
Qed.

#[local] Opaque small_mapped.

Lemma map_pages_spec_witness :
  exists s', map_pages small_top 4096 8192 small_data small_perm small_alloc = Ret 0 s' /\
    entry 2 (pm_mem s') small_top 8192 = map_entry (small_data + 4096) small_perm.
Proof.
  destruct small_alloc_ok as (Hi & Hw & He & Ht & _).
  destruct (map_pages_spec small_alloc (tail small_free) small_top small_top small_own 4096 8192
    small_data small_perm Hi Hw) as (s' & fl' & own' & E & _ & _ & _ & He' & _);
    [clear; done|clear; done|clear; done|exact small_perm_range|exact small_data_range|intros; rewrite He; reflexivity|clear; done|rewrite Ht; clear; done|].
  exists s'. split; [exact E|]. rewrite He' by (clear; done). reflexivity.
Defined.

Lemma user_vm_map_lookup_witness :
  exists s', user_vm_map small_top 4096 4096 small_data small_perm small_alloc = Ret tt s' /\
    user_va_to_pa small_top 4100 s' = Ret (small_data + 4) s'.
Proof.
  destruct small_alloc_ok as (Hi & Hw & He & Ht & _).
  destruct (user_vm_map_lookup small_alloc (tail small_free) small_top small_top small_own 4096 4096
    small_data small_perm Hi Hw) as (s' & E & Hl);
    [clear; done|clear; done|clear; done|exact small_perm_range|reflexivity|exact small_data_range|reflexivity
    |intros; rewrite He; reflexivity|clear; done|rewrite Ht; clear; done|].
  exists s'. split; [exact E|]. apply (Hl 4100). clear; done.
Defined.

Lemma map_pages_remap_witness :
  map_pages small_top 4096 4096 small_data small_perm small_mapped =
  Panic "map_pages fails on mapping va to pa".
Proof.
  destruct small_mapped_ok as (fl & own & Hi & Hw & Hfl & Ht & He & _).
  apply (map_pages_remap small_mapped fl small_top small_top own 4096 4096 small_data small_perm 0 Hi Hw);
    [clear; done|clear; done|clear; done|exact small_perm_range|exact small_data_range|clear; done|..].
  - intros va' Hva'. change (ROUNDDOWN 4096 PGSIZE) with 4096 in Hva'. lia.
  - change (ROUNDDOWN 4096 PGSIZE + Z.of_nat 0 * PGSIZE) with 4096.
    rewrite He by (clear; done). reflexivity.
  - change (crossings _ _) with 0. lia.
  - change (crossings _ _) with 0. change REF_LIST_SIZE with 16384. lia.
Defined.

Lemma user_va_to_pa_unmapped_witness :
  user_va_to_pa small_top 12295 small_mapped = Ret 7 small_mapped.
Proof.
  destruct small_mapped_ok as (fl & own & Hi & Hw & Hfl & Ht & He & _).
  apply (user_va_to_pa_unmapped small_mapped fl small_top small_top own 12295 Hi Hw); [clear; done|].
  rewrite He by (clear; done). reflexivity.
Defined.

Lemma user_vm_unmap_spec_witness :
  exists s', user_vm_unmap small_top 4096 4096 1 small_mapped = Ret tt s' /\
    lookup_pa small_top 4096 s' = Ret 0 s' /\ ref_count (ref_list s') small_data = 0.
Proof.
  destruct small_mapped_ok as (fl & own & Hi & Hw & Hfl & Ht & He & Ho & Hp & Hc).
  assert (entry 2 (pm_mem small_mapped) small_top 4096 = map_entry small_data small_perm) as Ee
    by (rewrite He by (clear; done); reflexivity).
  assert (PTE2PA (map_entry small_data small_perm) = small_data) as Ep by reflexivity.
  destruct (user_vm_unmap_spec small_mapped fl small_top small_top own 4096 4096 1 Hi Hw)
    as (s' & E & _ & _ & _ & Hl & Hc'); rewrite ?Ee, ?Ep;
    [clear; done|reflexivity|exact Hp|clear; done|exact Ho|rewrite Hc; clear; done|].
  exists s'. split_and!; [exact E|exact Hl|]. rewrite Ee, Ep in Hc'. rewrite Hc', Z.eqb_refl, Hc. reflexivity.
Defined.

Lemma cow_vm_map_spec_witness :
  exists s', cow_vm_map small_top 8192 small_data small_mapped = Ret tt s' /\
    ref_count (ref_list s') small_data = 2.
Proof.
  destruct small_mapped_ok as (fl & own & Hi & Hw & Hfl & Ht & He & Ho & Hp & Hc).
  destruct (cow_vm_map_spec small_mapped fl small_top small_top own 8192 small_data Hi Hw)
    as (s' & fl' & own' & E & _ & _ & _ & Hc');
    [clear; done|clear; done|rewrite Hc; clear; done|clear -Hfl; lia|change REF_LIST_SIZE with 16384; lia|].
  exists s'. split; [exact E|]. rewrite Hc', Hc. reflexivity.
Defined.

(** A machine with 1 MiB of memory. *)
Definition mid_boot : pmm := small_boot <| g_mem_size := 1048576 |>.

(** The machine as shipped: 128 MiB, of which 32764 pages are free at boot, twice
    as many as the table of owners can count. *)
Definition full_boot : pmm := small_boot <| g_mem_size := PKE_MAX_ALLOWABLE_RAM |>.

Lemma full_boot_pages : Z.of_nat (length (init_pages (KERN_BASE + 10000) PKE_MAX_ALLOWABLE_RAM)) = 32764.
Proof. vm_compute. reflexivity. Qed.

Lemma kern_vm_init_identity_witness :
  let s := after (pmm_init (KERN_BASE + 10000)) full_boot in
  exists r s', kern_vm_init (KERN_BASE + 4096) s = Ret r s' /\
    entry 2 (pm_mem s') r (KERN_BASE + 5000) = map_entry (KERN_BASE + 4096) 198.
Proof.
  destruct (pmm_init_spec (KERN_BASE + 10000) full_boot) as (s & E & Hf); [done..|].
  change (g_mem_size full_boot) with PKE_MAX_ALLOWABLE_RAM in Hf. pose proof full_boot_pages as Hl.
  destruct (init_pages (KERN_BASE + 10000) PKE_MAX_ALLOWABLE_RAM) as [|top fl]; [cbn in Hl; lia|].
  unfold after. rewrite E.
  destruct (kern_vm_init_identity s top fl (KERN_BASE + 4096) Hf)
    as (s' & fl' & own & E' & _ & _ & He); [clear; done|clear; done|clear -Hl; cbn [length] in Hl; lia|].
  exists top, s'. split; [exact E'|]. rewrite He by (clear; done). reflexivity.
Defined.
