(* ===== verification/HashTable.v ===== *)
(** util/hash_table.c: a chained hash table whose nodes are pages of the page
    allocator; it implements a finite map from keys to non-null pointers. *)

From S2P Require Import Prelude PageAlloc Pmm.

Definition HASH_TABLE_SIZE : Z := 128.

(** * Data *)

(** A chain is the list of the nodes reached from [head[i].next]; [hn_page] is the
    address of the page that holds the node. *)
Record hash_node (K : Type) := { hn_page : Z; hn_key : K; hn_value : Z }.
Arguments Build_hash_node {K}.
Arguments hn_page {K}.
Arguments hn_key {K}.
Arguments hn_value {K}.

Record hash_table (K : Type) := {
  head : list (list (hash_node K));
  virtual_hash_equal : K -> K -> bool;
  virtual_hash_func : K -> Z;
}.
Arguments Build_hash_table {K}.
Arguments head {K}.
Arguments virtual_hash_equal {K}.
Arguments virtual_hash_func {K}.

(** The table together with the allocator its nodes come from. *)
Record hstate (A K : Type) := { h_pages : A; h_table : hash_table K }.
Arguments Build_hstate {A K}.
Arguments h_pages {A K}.
Arguments h_table {A K}.

#[export] Instance eta_hash_table K : Eta (hash_table K) := fun t =>
  Build_hash_table (head t) (virtual_hash_equal t) (virtual_hash_func t).
#[export] Instance eta_hstate A K : Eta (hstate A K) := fun s =>
  Build_hstate (h_pages s) (h_table s).

(** * Operations *)

Section operations.
Context {A K : Type} `{PageAlloc A}.
Implicit Types (t : hash_table K) (k : K).

Definition h_alloc : M (hstate A K) Z :=
  zoom h_pages (fun a s => s <| h_pages := a |>) pg_alloc.
Definition h_free (p : Z) : M (hstate A K) unit :=
  zoom h_pages (fun a s => s <| h_pages := a |>) (pg_free p).

(** [head + index]; an index past the array is an access outside the table. *)
Definition bucket t k : option (list (hash_node K)) :=
  let index := virtual_hash_func t k in
  if 0 <=? index then head t !! Z.to_nat index else None.

Definition set_bucket t k (l : list (hash_node K)) : hash_table K :=
  t <| head := <[Z.to_nat (virtual_hash_func t k) := l]> (head t) |>.

(** The loop of [defalut_get] (spelled so in the source); 0 is NULL. *)
Fixpoint chain_get (equal : K -> K -> bool) (l : list (hash_node K)) k : Z :=
  match l with
  | [] => 0
  | node :: l' => if equal (hn_key node) k then hn_value node else chain_get equal l' k
  end.

Definition defalut_get k : M (hstate A K) Z :=
  t <- gets h_table ;;
  l <- deref (bucket t k) ;;
  ret (chain_get (virtual_hash_equal t) l k).

Definition default_put k (value : Z) : M (hstate A K) Z :=
  node <- h_alloc ;;
  v <- defalut_get k ;;
  if negb (v =? 0) then ret (-1)
  else if node =? 0 then fault
  else
    t <- gets h_table ;;
    l <- deref (bucket t k) ;;
    modify (fun s => s <| h_table :=
      set_bucket t k ({| hn_page := node; hn_key := k; hn_value := value |} :: l) |>) ;;;
    ret 0.

(** The loop of [default_erase]: the nodes passed over, the node found, the rest. *)
Fixpoint chain_find (equal : K -> K -> bool) (l : list (hash_node K)) k
    : option (list (hash_node K) * hash_node K * list (hash_node K)) :=
  match l with
  | [] => None
  | node :: l' =>
      if equal (hn_key node) k then Some ([], node, l')
      else match chain_find equal l' k with
           | Some (before, x, after) => Some (node :: before, x, after)
           | None => None
           end
  end.

Definition default_erase k : M (hstate A K) Z :=
  t <- gets h_table ;;
  l <- deref (bucket t k) ;;
  match chain_find (virtual_hash_equal t) l k with
  | Some (before, node, rest) =>
      modify (fun s => s <| h_table := set_bucket t k (before ++ rest) |>) ;;;
      h_free (hn_page node) ;;;
      ret 0
  | None => ret (-1)
  end.

(** The callers pass NULL for put, get and erase, which selects the three default
    routines above; [default_equal] compares pointers and needs a key type with a
    decidable equality. *)
Definition default_equal `{EqDecision K} (k1 k2 : K) : bool := bool_decide (k1 = k2).

Definition hash_table_init `{EqDecision K} (equal : option (K -> K -> bool)) (func : option (K -> Z))
    : M (hstate A K) Z :=
  modify (fun s => s <| h_table := (h_table s) <| head := replicate (Z.to_nat HASH_TABLE_SIZE) [] |> |>) ;;;
  match func with
  | None => ret (-1)
  | Some f =>
      modify (fun s => s <| h_table := (h_table s) <| virtual_hash_func := f |>
                          <| virtual_hash_equal := default default_equal equal |> |>) ;;;
      ret 0
  end.
End operations.

Arguments set_bucket : simpl never.

(** * What the table promises *)

Section refinement.
Context {A K : Type} `{PageAllocLaws A}.
Implicit Types (t : hash_table K) (s : hstate A K) (k : K).

Definition node_pages t : list Z := hn_page <$> concat (head t).

(** The finite map a table denotes. *)
Definition table_get t k : Z :=
  match bucket t k with Some l => chain_get (virtual_hash_equal t) l k | None => 0 end.

Record table_wf t : Prop := {
  wf_equal k1 k2 : virtual_hash_equal t k1 k2 = true <-> k1 = k2;
  wf_range k : 0 <= virtual_hash_func t k < HASH_TABLE_SIZE;
  wf_size : length (head t) = Z.to_nat HASH_TABLE_SIZE;
  wf_place i l node : head t !! i = Some l -> node ∈ l ->
    virtual_hash_func t (hn_key node) = Z.of_nat i /\ hn_value node <> 0;
  wf_keys i l : head t !! i = Some l -> NoDup (hn_key <$> l);
}.

(** The nodes live in pages the table holds, one each. *)
Record table_inv s (fl : list Z) (h : gset Z) : Prop := {
  ti_wf : table_wf (h_table s);
  ti_alloc : pg_inv (h_pages s) fl h;
  ti_nodes p : p ∈ node_pages (h_table s) -> p ∈ h;
  ti_nodup : NoDup (node_pages (h_table s));
}.

(** ** Chains *)

Section chains.
Context (equal : K -> K -> bool) (Heq : forall k1 k2, equal k1 k2 = true <-> k1 = k2).

Lemma equal_refl k : equal k k = true.
Proof. by apply Heq. Qed.

Lemma equal_ne k1 k2 : k1 <> k2 -> equal k1 k2 = false.
Proof. intros Hne. destruct (equal k1 k2) eqn:E; [|done]. by apply Heq in E. Qed.

Lemma chain_get_absent l k : k ∉ (hn_key <$> l) -> chain_get equal l k = 0.
Proof.
  induction l as [|x l IH]; [done|]. rewrite fmap_cons. intros [Hx Hl]%not_elem_of_cons.
  cbn [chain_get]. rewrite equal_ne by done. by apply IH.
Qed.

Lemma chain_get_zero l k :
  (forall x, x ∈ l -> hn_value x <> 0) -> chain_get equal l k = 0 -> k ∉ (hn_key <$> l).
Proof.
  induction l as [|x l IH]; intros Hv; cbn [chain_get]; [set_solver|].
  destruct (equal (hn_key x) k) eqn:E.
  - intros Hx. by apply (Hv x) in Hx; [|set_solver].
  - intros Hz. rewrite fmap_cons. apply not_elem_of_cons. split.
    + intros ->. by rewrite equal_refl in E.
    + apply IH; [|done]. set_solver.
Qed.

Lemma chain_find_None l k : chain_find equal l k = None -> chain_get equal l k = 0.
Proof.
  induction l as [|x l IH]; [done|]. cbn [chain_find chain_get].
  destruct (equal (hn_key x) k); [done|]. destruct (chain_find equal l k) as [[[? ?] ?]|]; [done|auto].
Qed.

Lemma chain_find_Some l k before x after :
  chain_find equal l k = Some (before, x, after) ->
  l = before ++ x :: after /\ hn_key x = k /\ chain_get equal l k = hn_value x.
Proof.
  revert before. induction l as [|y l IH]; intros before; [done|]. cbn [chain_find chain_get].
  destruct (equal (hn_key y) k) eqn:E.
  - intros [= <- <- <-]. split_and!; [done| |done]. by apply Heq.
  - destruct (chain_find equal l k) as [[[b z] a]|]; [|done]. intros [= <- <- <-].
    destruct (IH b eq_refl) as (-> & Hk & Hg). done.
Qed.

Lemma chain_get_remove before x after k :
  NoDup (hn_key <$> before ++ x :: after) ->
  chain_get equal (before ++ after) k =
  if equal (hn_key x) k then 0 else chain_get equal (before ++ x :: after) k.
Proof.
  intros Hnd. rewrite fmap_app, fmap_cons in Hnd.
  destruct (equal (hn_key x) k) eqn:E.
  - apply Heq in E as <-. apply chain_get_absent. rewrite fmap_app.
    apply NoDup_app in Hnd as (_ & Hd & [Hx _]%NoDup_cons). intros [Hin|Hin]%elem_of_app; [|done].
    apply (Hd (hn_key x) Hin). set_solver.
  - clear Hnd. induction before as [|y before IH]; cbn [app chain_get]; [by rewrite E|].
    by rewrite IH.
Qed.
End chains.

(** ** Buckets *)

Lemma bucket_wf t k :
  table_wf t -> exists l, bucket t k = Some l /\ head t !! Z.to_nat (virtual_hash_func t k) = Some l.
Proof.
  intros Hw. pose proof (wf_range _ Hw k) as Hr. unfold bucket.
  destruct (Z.leb_spec 0 (virtual_hash_func t k)); [|lia].
  destruct (lookup_lt_is_Some_2 (head t) (Z.to_nat (virtual_hash_func t k))) as [l El];
    [rewrite (wf_size _ Hw); unfold HASH_TABLE_SIZE in *; lia|]. by exists l.
Qed.

Lemma table_get_set t k k' l :
  table_wf t ->
  table_get (set_bucket t k l) k' =
  if virtual_hash_func t k' =? virtual_hash_func t k
  then chain_get (virtual_hash_equal t) l k' else table_get t k'.
Proof.
  intros Hw. unfold table_get, bucket, set_bucket. cbn.
  pose proof (wf_range _ Hw k) as Hr. pose proof (wf_range _ Hw k') as Hr'.
  destruct (Z.leb_spec 0 (virtual_hash_func t k')); [|lia].
  destruct (Z.eqb_spec (virtual_hash_func t k') (virtual_hash_func t k)) as [->|Hne].
  - rewrite list_lookup_insert_eq; [done|]. rewrite (wf_size _ Hw). unfold HASH_TABLE_SIZE in *. lia.
  - by rewrite list_lookup_insert_ne by lia.
Qed.

(** Replacing a chain by one whose keys belong there keeps the table in order. *)
Lemma set_bucket_wf t k l :
  table_wf t ->
  (forall x, x ∈ l -> virtual_hash_func t (hn_key x) = virtual_hash_func t k /\ hn_value x <> 0) ->
  NoDup (hn_key <$> l) -> table_wf (set_bucket t k l).
Proof.
  intros Hw Hl Hnd. pose proof (wf_range _ Hw k). unfold set_bucket. split; cbn.
  - apply Hw.
  - apply Hw.
  - rewrite length_insert. apply Hw.
  - intros i l' x Hi Hx. apply list_lookup_insert_Some in Hi as [(<- & <- & _)|[_ Hi]].
    + destruct (Hl x Hx) as [-> ?]. split; [lia|done].
    + by apply (wf_place _ Hw i l').
  - intros i l' Hi. apply list_lookup_insert_Some in Hi as [(<- & <- & _)|[_ Hi]]; [done|].
    by apply (wf_keys _ Hw i).
Qed.

Lemma node_pages_split t k l :
  table_wf t -> bucket t k = Some l ->
  exists rest, node_pages t ≡ₚ (hn_page <$> l) ++ rest /\
    forall l', node_pages (set_bucket t k l') ≡ₚ (hn_page <$> l') ++ rest.
Proof.
  intros Hw Hb. destruct (bucket_wf t k Hw) as (l0 & Hb0 & Hl). assert (l0 = l) as -> by congruence.
  set (i := Z.to_nat (virtual_hash_func t k)) in *.
  exists (hn_page <$> concat (take i (head t)) ++ concat (drop (S i) (head t))).
  assert (i < length (head t))%nat as Hi by (by eapply lookup_lt_Some).
  split; [|intros l']; unfold node_pages.
  - rewrite <-(take_drop_middle (head t) i l Hl) at 1.
    rewrite concat_app. cbn [concat]. rewrite !fmap_app. solve_Permutation.
  - unfold set_bucket. cbn. fold i. rewrite insert_take_drop by done.
    rewrite concat_app. cbn [concat]. rewrite !fmap_app. solve_Permutation.
Qed.

Lemma defalut_get_table s k :
  table_wf (h_table s) -> defalut_get k s = Ret (table_get (h_table s) k) s.
Proof.
  intros Hw. destruct (bucket_wf (h_table s) k Hw) as (l & Hb & _).
  unfold defalut_get, bind, gets, table_get. by rewrite Hb.
Qed.

Lemma table_get_chain t k l :
  bucket t k = Some l -> table_get t k = chain_get (virtual_hash_equal t) l k.
Proof. intros Hb. unfold table_get. by rewrite Hb. Qed.

Lemma bucket_place t k l x :
  table_wf t -> bucket t k = Some l -> x ∈ l ->
  virtual_hash_func t (hn_key x) = virtual_hash_func t k /\ hn_value x <> 0.
Proof.
  intros Hw Hb Hx. destruct (bucket_wf t k Hw) as (l0 & Hb0 & Hl). assert (l0 = l) as -> by congruence.
  destruct (wf_place _ Hw _ _ _ Hl Hx) as [-> ?]. pose proof (wf_range _ Hw k). split; [lia|done].
Qed.

Lemma bucket_keys t k l : table_wf t -> bucket t k = Some l -> NoDup (hn_key <$> l).
Proof.
  intros Hw Hb. destruct (bucket_wf t k Hw) as (l0 & Hb0 & Hl). assert (l0 = l) as -> by congruence.
  by eapply (wf_keys _ Hw).
Qed.

Lemma empty_table_wf (equal : K -> K -> bool) func :
  (forall k1 k2, equal k1 k2 = true <-> k1 = k2) -> (forall k, 0 <= func k < HASH_TABLE_SIZE) ->
  table_wf {| head := replicate (Z.to_nat HASH_TABLE_SIZE) []; virtual_hash_equal := equal; virtual_hash_func := func |}.
Proof.
  intros He Hf. split; cbn; try done.
  - intros i l x [-> _]%lookup_replicate Hx. set_solver.
  - intros i l [-> _]%lookup_replicate. constructor.
Qed.

(** An initialised table is in order and binds nothing. *)
Lemma hash_table_init_inv `{EqDecision K} s fl h equal func :
  pg_inv (h_pages s) fl h ->
  (forall k1 k2, equal k1 k2 = true <-> k1 = k2) -> (forall k, 0 <= func k < HASH_TABLE_SIZE) ->
  exists s', hash_table_init (Some equal) (Some func) s = Ret 0 s' /\ table_inv s' fl h /\
    virtual_hash_equal (h_table s') = equal /\ forall k, table_get (h_table s') k = 0.
Proof.
  intros Ha He Hf. eexists. split; [done|]. cbn.
  assert (forall i l, replicate (Z.to_nat HASH_TABLE_SIZE) ([] : list (hash_node K)) !! i = Some l -> l = [])
    as Hl by (by intros i l [-> _]%lookup_replicate).
  assert (concat (replicate (Z.to_nat HASH_TABLE_SIZE) ([] : list (hash_node K))) = []) as Hc.
  { clear Hl. induction (Z.to_nat HASH_TABLE_SIZE) as [|n IH]; [done|exact IH]. }
  split_and!; [split; cbn|done|].
  - by apply empty_table_wf.
  - done.
  - unfold node_pages. cbn. rewrite Hc. set_solver.
  - unfold node_pages. cbn. rewrite Hc. constructor.
  - intros k. unfold table_get, bucket. cbn. destruct (0 <=? func k); [|done].
    destruct (replicate _ _ !! _) as [l|] eqn:El; [|done]. by apply Hl in El as ->.
Qed.

(** A new node at the front of the chain of a key that is not bound. *)
Lemma table_put t k l p v :
  table_wf t -> bucket t k = Some l -> table_get t k = 0 -> v <> 0 ->
  let t' := set_bucket t k ({| hn_page := p; hn_key := k; hn_value := v |} :: l) in
  table_wf t' /\
  forall k', table_get t' k' = if virtual_hash_equal t k k' then v else table_get t k'.
Proof.
  intros Hw Hb Hg Hv t'. rewrite (table_get_chain _ _ _ Hb) in Hg.
  assert (k ∉ (hn_key <$> l)) as Hk.
  { eapply chain_get_zero; [apply Hw| |done]. intros x Hx. by eapply bucket_place. }
  split.
  - apply set_bucket_wf; [done| |].
    + intros x [->|Hx]%elem_of_cons; [done|]. by eapply bucket_place.
    + rewrite fmap_cons. apply NoDup_cons. split; [done|]. by eapply bucket_keys.
  - intros k'. unfold t'. rewrite table_get_set by done. cbn [chain_get hn_key hn_value].
    destruct (virtual_hash_equal t k k') eqn:Ek.
    + apply (wf_equal _ Hw) in Ek as <-. by rewrite Z.eqb_refl.
    + destruct (Z.eqb_spec (virtual_hash_func t k') (virtual_hash_func t k)) as [Eh|]; [|done].
      unfold table_get, bucket. rewrite Eh. unfold bucket in Hb. by rewrite Hb.
Qed.

(** Whatever the allocator does, an insertion that returns has the effect of one. *)
Lemma default_put_ret s k v r s' :
  table_wf (h_table s) -> v <> 0 -> default_put k v s = Ret r s' ->
  if table_get (h_table s) k =? 0
  then r = 0 /\ table_wf (h_table s') /\
    forall k', table_get (h_table s') k' = if virtual_hash_equal (h_table s) k k' then v else table_get (h_table s) k'
  else r = -1 /\ h_table s' = h_table s.
Proof.
  intros Hw Hv E. unfold default_put in E. apply bind_Ret_inv in E as (p & s1 & E1 & E).
  assert (h_table s1 = h_table s) as Ht.
  { unfold h_alloc, zoom in E1. destruct (pg_alloc (h_pages s)); try done. by injection E1 as _ <-. }
  rewrite <-Ht in *. clear E1 Ht s. unfold bind at 1 in E. rewrite defalut_get_table in E by done.
  destruct (Z.eqb_spec (table_get (h_table s1) k) 0) as [Hg|Hg]; cbn [negb] in E.
  - destruct (p =? 0); [done|]. destruct (bucket_wf (h_table s1) k Hw) as (l & Hb & _).
    unfold bind, gets, deref in E. rewrite Hb in E. cbn in E. injection E as <- <-. cbn.
    split; [done|]. by apply table_put.
  - injection E as <- <-. done.
Qed.

Lemma put_inv s p fl h k v :
  table_inv s (p :: fl) h -> v <> 0 ->
  let fresh := table_get (h_table s) k =? 0 in
  exists s', default_put k v s = Ret (if fresh then 0 else -1) s' /\
    table_inv s' fl ({[p]} ∪ h) /\
    (forall k', table_get (h_table s') k' =
      if fresh && virtual_hash_equal (h_table s) k k' then v else table_get (h_table s) k') /\
    node_pages (h_table s') ≡ₚ (if fresh then [p] else []) ++ node_pages (h_table s).
Proof.
  intros [Hw Ha Hn Hnd] Hv fresh.
  destruct (pg_alloc_ok _ _ _ _ Ha) as (Hp0 & Hph & a' & E & Ha').
  destruct (bucket_wf (h_table s) k Hw) as (l & Hb & _).
  destruct (node_pages_split (h_table s) k l Hw Hb) as (rest & Hr & Hr').
  unfold default_put, h_alloc, bind. rewrite (zoom_ret_eq _ _ _ s p a' E).
  rewrite defalut_get_table by done. cbn. fold fresh.
  destruct fresh eqn:Ef; cbn.
  2:{ eexists. split; [done|]. split_and!; [|done|done]. split; cbn; try done. set_solver. }
  destruct (Z.eqb_spec p 0); [done|]. unfold gets. cbn. rewrite Hb. cbn.
  unfold fresh in Ef. bools. destruct (table_put (h_table s) k l p v Hw Hb Ef Hv) as [Hw' Hg'].
  set (node := {| hn_page := p; hn_key := k; hn_value := v |}).
  assert (p ∉ node_pages (h_table s)) as Hpn by (intros Hin; by apply Hph, Hn).
  eexists. split; [done|]. cbn. split_and!; [|done|rewrite Hr', Hr; done]. split; cbn; [done|done|..].
  - intros q Hq. rewrite Hr' in Hq. cbn in Hq. rewrite elem_of_cons, <-Hr in Hq. set_solver.
  - rewrite Hr'. cbn. apply NoDup_cons. by rewrite <-Hr.
Qed.

(** * Properties *)

(** [default_put] is insertion into a finite map: a fresh key is bound to the
    value and every other key keeps its own; a key that is bound already is
    refused with -1 and nothing in the table changes.  Either way one page is
    taken, so the refused insertion loses it: no node holds it. *)
Theorem hash_put_spec s p fl h k v :
  table_inv s (p :: fl) h -> v <> 0 ->
  let fresh := table_get (h_table s) k =? 0 in
  exists s', default_put k v s = Ret (if fresh then 0 else -1) s' /\
    table_inv s' fl ({[p]} ∪ h) /\
    (forall k', table_get (h_table s') k' =
      if fresh && virtual_hash_equal (h_table s) k k' then v else table_get (h_table s) k') /\
    node_pages (h_table s') ≡ₚ (if fresh then [p] else []) ++ node_pages (h_table s).
Proof. apply put_inv. Qed.

(** [default_erase] is deletion from a finite map: it unbinds a bound key,
    returns 0 and gives exactly that node's page back; it answers -1 and changes
    nothing for a key that is not bound. *)
Theorem hash_erase_spec s fl h k :
  table_inv s fl h ->
  exists r s', default_erase k s = Ret r s' /\
    if table_get (h_table s) k =? 0 then r = -1 /\ s' = s
    else r = 0 /\ exists p, p ∈ h /\ table_inv s' (p :: fl) (h ∖ {[p]}) /\
      (forall k', table_get (h_table s') k' =
        if virtual_hash_equal (h_table s) k k' then 0 else table_get (h_table s) k').
Proof.
  intros [Hw Ha Hn Hnd].
  destruct (bucket_wf (h_table s) k Hw) as (l & Hb & _).
  destruct (node_pages_split (h_table s) k l Hw Hb) as (rest & Hr & Hr').
  unfold default_erase, bind, gets. rewrite Hb. cbn. rewrite (table_get_chain _ _ _ Hb).
  destruct (chain_find (virtual_hash_equal (h_table s)) l k) as [[[before x] after]|] eqn:Ef.
  2:{ apply chain_find_None in Ef. rewrite Ef. do 2 eexists. split; done. }
  apply chain_find_Some in Ef as (-> & Hk & Hg); [|apply Hw]. rewrite Hg.
  destruct (bucket_place (h_table s) k _ x Hw Hb) as [Hx Hv]; [set_solver|].
  destruct (Z.eqb_spec (hn_value x) 0); [done|].
  assert (hn_page x ∈ node_pages (h_table s)) as Hxn by (rewrite Hr, fmap_app, fmap_cons; set_solver).
  destruct (pg_free_ok (h_pages s) (hn_page x) fl h Ha (Hn _ Hxn)) as (a' & E & Ha').
  pose proof (bucket_keys (h_table s) k _ Hw Hb) as Hkeys.
  do 2 eexists. split.
  { unfold h_free. cbn. erewrite zoom_ret_eq by exact E. done. }
  split; [done|]. exists (hn_page x). split; [by apply Hn|].
  assert (node_pages (h_table s) ≡ₚ hn_page x :: node_pages (set_bucket (h_table s) k (before ++ after)))
    as Hperm.
  { rewrite Hr, Hr', !fmap_app, fmap_cons. solve_Permutation. }
  rewrite Hperm in Hnd. apply NoDup_cons in Hnd as [Hxn' Hnd']. split; [split; cbn|].
  - apply set_bucket_wf; [done| |].
    + intros y Hy. eapply bucket_place; [done..|]. set_solver.
    + rewrite fmap_app in *. rewrite fmap_cons in Hkeys.
      apply NoDup_app in Hkeys as (? & Hd & [? ?]%NoDup_cons). apply NoDup_app.
      split_and!; [done| |done]. intros y Hy. specialize (Hd y Hy). set_solver.
  - done.
  - intros q Hq. apply elem_of_difference. split; [apply Hn; rewrite Hperm; set_solver|].
    intros ->%elem_of_singleton. done.
  - done.
  - intros k'. cbn. rewrite table_get_set by done.
    rewrite (chain_get_remove _ (wf_equal _ Hw) before x after k' Hkeys), Hk.
    destruct (Z.eqb_spec (virtual_hash_func (h_table s) k') (virtual_hash_func (h_table s) k)) as [Eh|Eh].
    + destruct (virtual_hash_equal _ k k'); [done|]. unfold table_get, bucket. rewrite Eh.
      unfold bucket in Hb. by rewrite Hb.
    + destruct (virtual_hash_equal (h_table s) k k') eqn:Ek; [|done].
      apply (wf_equal _ Hw) in Ek as <-. done.
Qed.
End refinement.

(** ** Witnesses *)

(** A table of integers on the 64 KiB machine. *)
Definition small_hash : hstate pmm Z := {|
  h_pages := small_running;
  h_table := {| head := []; virtual_hash_equal := Z.eqb; virtual_hash_func := fun k => k mod 128 |} |}.

Definition small_table : hstate pmm Z :=
  match hash_table_init (Some Z.eqb) (Some (fun k => k mod 128)) small_hash with
  | Ret _ s => s | _ => small_hash end.

Lemma small_client_ok : pg_inv small_running small_free ∅.
Proof.
  exists small_top, []. split_and!; [rewrite app_nil_r; exact small_running_ok|apply not_elem_of_empty| |].
  2:{ intros p Hp. by destruct (not_elem_of_empty p Hp). }
  vm_compute. intros C. discriminate C.
Qed.

Lemma small_table_ok : table_inv small_table small_free ∅ /\
  virtual_hash_equal (h_table small_table) = Z.eqb /\ forall k, table_get (h_table small_table) k = 0.
Proof.
  destruct (hash_table_init_inv small_hash small_free ∅ Z.eqb (fun k => k mod 128))
    as (s' & E & H); [exact small_client_ok|intros; apply Z.eqb_eq|intros; by apply Z.mod_pos_bound|].
  unfold small_table. rewrite E. exact H.
Qed.

Lemma hash_put_spec_witness :
  exists s', default_put 5 77 small_table = Ret 0 s' /\ table_get (h_table s') 5 = 77.
Proof.
  destruct small_table_ok as (Hi & He & Hg).
  destruct (hash_put_spec small_table (KERN_BASE + 13 * PGSIZE) (tail small_free) ∅ 5 77 Hi)
    as (s' & E & _ & Hg' & _); [clear; done|].
  rewrite Hg in E, Hg'. exists s'. split; [exact E|]. rewrite Hg', He. reflexivity.
Defined.

Lemma hash_erase_spec_witness :
  exists s s', default_put 5 77 small_table = Ret 0 s /\ default_erase 5 s = Ret 0 s' /\
    table_get (h_table s') 5 = 0.
Proof.
  destruct small_table_ok as (Hi & He & Hg).
  destruct (put_inv small_table (KERN_BASE + 13 * PGSIZE) (tail small_free) ∅ 5 77 Hi)
    as (s & E & Hi' & Hg' & _); [clear; done|].
  rewrite Hg in E, Hg'.
  destruct (hash_erase_spec s _ _ 5 Hi') as (r & s' & E' & Hr).
  assert (virtual_hash_equal (h_table s) 5 5 = true) as Hs by (by apply (wf_equal _ (ti_wf _ _ _ Hi'))).
  rewrite Hg', He in Hr. cbn in Hr. destruct Hr as (-> & p & _ & _ & Hg2).
  exists s, s'. split; [exact E|]. split; [exact E'|]. rewrite Hg2, Hs. reflexivity.
Defined.
