(* ===== verification/SpikeFile.v ===== *)
(** spike_interface/spike_file.c: the files of the host.  The host itself is a parameter:
    it answers each frontend call from the calls it has served before. *)

From S2P Require Import Prelude.

Definition MAX_FDS : nat := 128.
Definition MAX_SPIKE_FILES : nat := 128.
Definition INIT_FILE_REF : Z := 3.
Definition ENOMEM : Z := 12.
Definition AT_FDCWD : Z := -100.

(** * The host *)

(** The calls of [frontend_syscall] the kernel makes, HTIFSYS_openat and so on.  A buffer
    the host reads is given by its bytes. *)
Inductive host_call :=
  | host_openat (dirfd : Z) (fn : list Z) (flags mode : Z)
  | host_close (kfd : Z)
  | host_read (kfd size : Z)
  | host_pread (kfd size offset : Z)
  | host_write (kfd : Z) (buf : list Z) (size : Z)
  | host_lseek (kfd ptr dir : Z)
  | host_fstat (kfd : Z)
  | host_getmainvars (size : Z)
  | host_exit (code : Z).

(** The answer of the host after the calls of the list: the result, and the bytes it
    stores in the buffer of the call.  [fresh_stack] is what a local buffer holds before
    anything is stored in it. *)
Class Host := {
  host_reply : list host_call -> host_call -> Z * list Z;
  fresh_stack : Z -> Z;
}.

(** * Data *)

(** [spike_file_t] *)
Record spike_file_t := { kfd : Z; refcnt : Z }.

(** A pointer to [spike_files[i]] is [i + 1]; 0 is NULL, and [ERR_PTR(e)] is the negative
    number [e].  The log is the calls the host has served. *)
Record host := {
  spike_files : list spike_file_t;
  spike_fds : list Z;
  host_log : list host_call;
}.
#[export] Instance eta_spike_file_t : Eta spike_file_t := fun f => Build_spike_file_t (kfd f) (refcnt f).
#[export] Instance eta_host : Eta host := fun h => Build_host (spike_files h) (spike_fds h) (host_log h).

(** The initial value of the two arrays. *)
Definition blank_host : host := {|
  spike_files := replicate MAX_SPIKE_FILES {| kfd := -1; refcnt := 0 |};
  spike_fds := replicate MAX_FDS 0; host_log := [] |}.

Definition spike_stdin : Z := 1.
Definition spike_stderr : Z := 3.

(** The fields of [struct frontend_stat] and of [struct stat] that the kernel reads. *)
Record stat := { stat_ino : Z; stat_mode : Z; stat_nlink : Z; stat_size : Z; stat_blocks : Z }.

Section spike_file.
Context {HO : Host}.

Definition frontend_syscall (c : host_call) : M host (Z * list Z) := fun h =>
  Ret (host_reply (host_log h) c) (h <| host_log := host_log h ++ [c] |>).

(** [*f] *)
Definition get_spike (f : Z) : M host spike_file_t :=
  h <- gets id ;; deref (at_index (spike_files h) (f - 1)).
Definition set_spike (f : Z) (x : spike_file_t) : M host unit :=
  h <- gets id ;;
  l <- deref (set_index (spike_files h) (f - 1) x) ;;
  modify (fun h => h <| spike_files := l |>).

(** * Reference counts *)

Definition spike_file_decref (f : Z) : M host unit :=
  x <- get_spike f ;;
  set_spike f (x <| refcnt := u32 (refcnt x - 1) |>) ;;;
  if refcnt x =? 2 then
    set_spike f (x <| refcnt := 0 |>) ;;;
    frontend_syscall (host_close (kfd x)) ;;;
    ret tt
  else ret tt.

Definition spike_file_incref (f : Z) : M host unit :=
  x <- get_spike f ;;
  set_spike f (x <| refcnt := u32 (refcnt x + 1) |>) ;;;
  kassert (0 <? refcnt x) "prev > 0".

(** The first file without a reference. *)
Fixpoint find_free (l : list spike_file_t) : option nat :=
  match l with
  | [] => None
  | x :: l' => if refcnt x =? 0 then Some 0%nat else S <$> find_free l'
  end.

Definition spike_file_get_free : M host Z :=
  h <- gets id ;;
  match find_free (spike_files h) with
  | Some i =>
      let f := Z.of_nat i + 1 in
      x <- get_spike f ;;
      set_spike f (x <| refcnt := INIT_FILE_REF |>) ;;;
      ret f
  | None => ret 0
  end.

(** The first descriptor that is not taken. *)
Fixpoint find_null (l : list Z) : option nat :=
  match l with
  | [] => None
  | x :: l' => if x =? 0 then Some 0%nat else S <$> find_null l'
  end.

Definition spike_file_dup (f : Z) : M host Z :=
  h <- gets id ;;
  match find_null (spike_fds h) with
  | Some i =>
      modify (fun h => h <| spike_fds := <[i := f]> (spike_fds h) |>) ;;;
      spike_file_incref f ;;;
      ret (Z.of_nat i)
  | None => ret (-1)
  end.

(** [atomic_cas(&spike_fds[f->kfd], f, 0)]: the old value. *)
Definition take_fd (f i : Z) : M host Z :=
  h <- gets id ;;
  old <- deref (at_index (spike_fds h) i) ;;
  (if old =? f then modify (fun h => h <| spike_fds := <[Z.to_nat i := 0]> (spike_fds h) |>) else ret tt) ;;;
  ret old.

Definition spike_file_close (f : Z) : M host Z :=
  if f =? 0 then ret (-1)
  else
    x <- get_spike f ;;
    old <- take_fd f (kfd x) ;;
    spike_file_decref f ;;;
    if negb (old =? f) then ret (-1)
    else spike_file_decref f ;;; ret 0.

(** One round of [spike_file_init]. *)
Definition init_fd (i : Z) : M host unit :=
  f <- spike_file_get_free ;;
  x <- get_spike f ;;
  set_spike f (x <| kfd := i |>) ;;;
  spike_file_dup f ;;;
  ret tt.

Definition spike_file_init : M host unit := init_fd 0 ;;; init_fd 1 ;;; init_fd 2.

(** On one hart the [do] loop of [spike_file_get] succeeds in its first round. *)
Definition spike_file_get (fd : Z) : M host Z :=
  h <- gets id ;;
  match at_index (spike_fds h) fd with
  | None | Some 0 => ret 0
  | Some f =>
      x <- get_spike f ;;
      if refcnt x =? 0 then ret 0
      else set_spike f (x <| refcnt := u32 (refcnt x + 1) |>) ;;; ret f
  end.

(** * Calls *)

Definition spike_file_openat (dirfd : Z) (fn : list Z) (flags mode : Z) : M host Z :=
  f <- spike_file_get_free ;;
  if f =? 0 then ret (- ENOMEM)
  else
    r <- frontend_syscall (host_openat dirfd fn flags mode) ;;
    if 0 <=? fst r then
      x <- get_spike f ;;
      set_spike f (x <| kfd := i32 (fst r) |>) ;;;
      ret f
    else spike_file_decref f ;;; ret (fst r).

Definition spike_file_open (fn : list Z) (flags mode : Z) : M host Z := spike_file_openat AT_FDCWD fn flags mode.

(** The result and the bytes stored in the buffer. *)
Definition spike_file_read (f size : Z) : M host (Z * list Z) :=
  x <- get_spike f ;; frontend_syscall (host_read (kfd x) size).

Definition spike_file_pread (f size offset : Z) : M host (Z * list Z) :=
  x <- get_spike f ;; frontend_syscall (host_pread (kfd x) size offset).

Definition spike_file_write (f : Z) (buf : list Z) (size : Z) : M host Z :=
  x <- get_spike f ;; r <- frontend_syscall (host_write (kfd x) buf size) ;; ret (fst r).

Definition spike_file_lseek (f ptr dir : Z) : M host Z :=
  x <- get_spike f ;; r <- frontend_syscall (host_lseek (kfd x) ptr dir) ;; ret (fst r).

(** The [n] bytes at [o] of a local buffer after the host stored [b] in it. *)
Definition buf_le (b : list Z) (o n : Z) : Z :=
  foldr (fun i v => default (fresh_stack i) (at_index b i) + 256 * v) 0 (Z.add o <$> seqZ 0 n).

(** The result of the call is not looked at before the copy. *)
Definition copy_stat (b : list Z) : stat := {|
  stat_ino := buf_le b 8 8; stat_mode := buf_le b 16 4; stat_nlink := buf_le b 20 4;
  stat_size := buf_le b 48 8; stat_blocks := buf_le b 64 8 |}.

Definition spike_file_stat (f : Z) : M host stat :=
  x <- get_spike f ;; r <- frontend_syscall (host_fstat (kfd x)) ;; ret (copy_stat (snd r)).
End spike_file.

(** * Properties *)

Lemma find_free_Some l i : find_free l = Some i -> exists x, l !! i = Some x /\ refcnt x = 0.
Proof.
  revert i. induction l as [|x l IH]; intros i H; cbn in H; [done|]. destruct (refcnt x =? 0) eqn:E.
  - simplify_eq. exists x. bools. done.
  - destruct (find_free l) as [j|]; simplify_eq/=. by apply IH.
Qed.

Section spike_rules.
Context {HO : Host}.

Lemma get_spike_eq h i x : spike_files h !! i = Some x -> get_spike (Z.of_nat i + 1) h = Ret x h.
Proof.
  intros E. unfold get_spike, bind, gets, id, deref. rewrite Z.add_simpl_r, at_index_nat, Nat2Z.id, E by lia. done.
Qed.

Lemma set_spike_eq h i y x : spike_files h !! i = Some y ->
  set_spike (Z.of_nat i + 1) x h = Ret tt (h <| spike_files := <[i := x]> (spike_files h) |>).
Proof.
  intros E. apply lookup_lt_Some in E. unfold set_spike, bind, gets, id, deref.
  rewrite Z.add_simpl_r, set_index_eq, Nat2Z.id by lia. done.
Qed.

(** A reference is dropped; only the drop from two closes the file of the host. *)
Lemma decref_eq h i x :
  spike_files h !! i = Some x -> refcnt x <> 2 ->
  spike_file_decref (Z.of_nat i + 1) h =
    Ret tt (h <| spike_files := <[i := x <| refcnt := u32 (refcnt x - 1) |>]> (spike_files h) |>).
Proof.
  intros E Hr. unfold spike_file_decref. step (get_spike_eq h i x E). step (set_spike_eq h i x (x <| refcnt := u32 (refcnt x - 1) |>) E).
  apply Z.eqb_neq in Hr. by rewrite Hr.
Qed.

Lemma get_free_eq h i x :
  find_free (spike_files h) = Some i -> spike_files h !! i = Some x ->
  spike_file_get_free h =
    Ret (Z.of_nat i + 1) (h <| spike_files := <[i := x <| refcnt := INIT_FILE_REF |>]> (spike_files h) |>).
Proof.
  intros Hi E. unfold spike_file_get_free. step (eq_refl : gets id h = Ret h h). rewrite Hi.
  step (get_spike_eq h i x E). by step (set_spike_eq h i x (x <| refcnt := INIT_FILE_REF |>) E).
Qed.

(** C32.  A file of the host that is opened and closed stays open: a new slot starts
    with three references, [spike_file_close] drops one and returns -1, and the host is
    never told.  The slot keeps two references and is not found free again.  When the host
    refuses to open the file its error is returned and the slot is lost in the same
    way. *)
Theorem spike_file_close_leaks (h : host) (fn : list Z) (flags mode : Z) (i : nat) :
  let call := host_openat AT_FDCWD fn flags mode in
  let r := fst (host_reply (host_log h) call) in
  find_free (spike_files h) = Some i -> i32 r = r ->
  (0 <= r -> exists old, at_index (spike_fds h) r = Some old /\ old <> Z.of_nat i + 1) ->
  exists f h1, spike_file_open fn flags mode h = Ret f h1 /\
    host_log h1 = host_log h ++ [call] /\
    (r < 0 -> f = r /\ exists x, spike_files h1 = <[i := x <| refcnt := 2 |>]> (spike_files h)) /\
    (0 <= r -> f = Z.of_nat i + 1 /\ exists h2, spike_file_close f h1 = Ret (-1) h2 /\
      spike_files h2 = <[i := {| kfd := r; refcnt := 2 |}]> (spike_files h) /\
      spike_fds h2 = spike_fds h /\ host_log h2 = host_log h ++ [call]).
Proof.
  intros call r Hi Hr Hfd. destruct (find_free_Some _ _ Hi) as (x & Ex & _).
  pose proof (get_free_eq h i x Hi Ex) as E1. set (h1 := h <| spike_files := _ |>) in E1.
  assert (spike_files h1 !! i = Some (x <| refcnt := INIT_FILE_REF |>)) as Ex1
    by (apply list_lookup_insert_eq; by eapply lookup_lt_Some).
  set (h2 := h1 <| host_log := host_log h ++ [call] |>).
  assert (frontend_syscall call h1 = Ret (host_reply (host_log h) call) h2) as E2 by done.
  unfold spike_file_open, spike_file_openat. rewrite (bind_ret_eq _ _ _ _ _ E1).
  assert ((Z.of_nat i + 1 =? 0) = false) as Ef by (apply Z.eqb_neq; lia). rewrite Ef. fold call. rewrite (bind_ret_eq _ _ _ _ _ E2). fold r.
  destruct (Z.leb_spec 0 r) as [H0|H0].
  - step (get_spike_eq h2 i _ Ex1). step (set_spike_eq h2 i _ (x <| refcnt := INIT_FILE_REF |> <| kfd := i32 r |>) Ex1).
    set (h3 := h2 <| spike_files := _ |>). eexists _, h3. split; [done|]. split; [done|]. split; [lia|]. intros _. split; [done|].
    assert (spike_files h3 !! i = Some {| kfd := r; refcnt := 3 |}) as Ex3.
    { rewrite <- Hr. apply list_lookup_insert_eq. by eapply lookup_lt_Some. }
    destruct (Hfd H0) as (old & Eo & Ho). apply Z.eqb_neq in Ho.
    unfold spike_file_close. rewrite Ef. step (get_spike_eq h3 i _ Ex3).
    assert (take_fd (Z.of_nat i + 1) r h3 = Ret old h3) as E3.
    { unfold take_fd, bind, gets, id. change (spike_fds h3) with (spike_fds h). rewrite Eo. cbn [deref ret]. by rewrite Ho. }
    step E3. rewrite (bind_ret_eq _ _ _ _ _ (decref_eq h3 i _ Ex3 ltac:(done))). rewrite Ho. cbn [negb].
    eexists. split; [done|]. split_and!; [|done|done]. cbn. by rewrite !list_insert_insert_eq.
  - rewrite (bind_ret_eq _ _ _ _ _ (decref_eq h2 i _ Ex1 ltac:(done))). eexists _, _. split; [done|]. split; [done|].
    split; [|lia]. intros _. split; [done|]. exists x. cbn. by rewrite list_insert_insert_eq.
Qed.
End spike_rules.

(** A host that opens every file as descriptor 5. *)
Definition small_host : Host := {| host_reply _ _ := (5, []); fresh_stack _ := 0 |}.

Lemma spike_file_close_leaks_witness :
  exists h1 h2, spike_file_open (HO := small_host) [97] 0 0 blank_host = Ret 1 h1 /\
    spike_file_close (HO := small_host) 1 h1 = Ret (-1) h2 /\
    head (spike_files h2) = Some {| kfd := 5; refcnt := 2 |} /\ length (host_log h2) = 1%nat.
Proof.
  destruct (spike_file_close_leaks (HO := small_host) blank_host [97] 0 0 0) as (f & h1 & E & _ & _ & H).
  - by vm_compute.
  - by vm_compute.
  - intros _. exists 0. by vm_compute.
  - destruct (H ltac:(by vm_compute)) as (-> & h2 & E2 & E3 & _ & E5). exists h1, h2.
    split; [exact E|]. split; [exact E2|]. rewrite E3, E5. by vm_compute.
Defined.
