(* ===== verification/FsData.v ===== *)
(** The objects of the file systems: kernel/vfs.h, kernel/rfs.h, kernel/ramdev.h
    and util/types.h.  Every object occupies a page of the page allocator and is
    stored under the address of that page; pointers are addresses, 0 is NULL. *)

From S2P Require Import Prelude PageAlloc HashTable SpikeFile.

(** A C string: its bytes, without the terminating NUL. *)
Notation cname := (list Z) (only parsing).

Definition MAX_DENTRY_NAME_LEN : Z := 30.
Definition MAX_DEVICE_NAME_LEN : Z := 30.
Definition MAX_VFS_DEV : Z := 10.
Definition MAX_MOUNTS : Z := 10.
Definition MAX_PATH_LEN : Z := 30.
Definition MAX_SUPPORTED_FS : Z := 10.
Definition DIRECT_BLKNUM : Z := 10.
Definition MAX_FILES : Z := 128.

Definition FILE_I : Z := 0.
Definition DIR_I : Z := 1.
Definition FD_NONE : Z := 0.
Definition FD_OPENED : Z := 1.
Definition LSEEK_SET : Z := 0.
Definition LSEEK_CUR : Z := 1.

(** * vfs.h *)

Record dentry := {
  d_name : cname;
  d_ref : Z;
  dentry_inode : Z;
  d_parent : Z;
  d_sb : Z;
}.

(** [struct file] *)
Record file := {
  f_status : Z;
  f_readable : Z;
  f_writable : Z;
  f_offset : Z;
  f_dentry : Z;
}.

(** The two tables of operations a vinode can point to. *)
Inductive vinode_ops := rfs_i_ops | hostfs_i_ops.

Record vinode := {
  inum : Z;
  i_ref : Z;
  i_size : Z;
  i_type : Z;
  i_nlinks : Z;
  i_blocks : Z;
  i_addrs : list Z;
  i_fs_info : Z;
  i_sb : Z;
  i_ops : vinode_ops;
}.

Record super_block := {
  s_magic : Z;
  s_size : Z;
  s_nblocks : Z;
  s_ninodes : Z;
  s_root : Z;
  s_dev : Z;
  s_fs_info : Z;
}.

Record file_system_type := { type_num : Z }.

Record device := {
  dev_name : cname;
  dev_id : Z;
  dev_fs_type : Z;
}.

Record dentry_key := { dk_parent : Z; dk_name : cname }.
Record vinode_key := { vk_inum : Z; vk_sb : Z }.

(** * util/types.h *)

Record istat := { st_inum : Z; st_size : Z; st_type : Z; st_nlinks : Z; st_blocks : Z }.
Record dir := { dir_name : cname; dir_inum : Z }.

(** * ramdev.h *)

(** [d_data] is the disk behind [d_address], the list of its blocks, each a list of
    bytes; [iobuffer] is the page all transfers go through.  The number and the size
    of the blocks and the two function pointers are the same for every device. *)
Record rfs_device := {
  d_data : list (list Z);
  iobuffer : list Z;
}.

(** * rfs.h *)

Record rfs_dinode := {
  di_size : Z;
  di_type : Z;
  di_nlinks : Z;
  di_blocks : Z;
  di_addrs : list Z;
}.

Record rfs_direntry := { de_inum : Z; de_name : cname }.

(** [dir_base] holds the bytes of the directory from [dir_base_addr] on. *)
Record rfs_dir_cache := {
  block_count : Z;
  dir_base_addr : Z;
  dir_base : list Z;
}.

(** * proc_file.h *)

Record proc_file_management := {
  cwd : Z;
  opened_files : list file;
  nfiles : Z;
}.

(** * The file-system state *)

(** [fs_pages] is the page allocator and [fs_host] the state of spike_interface/spike_file.c;
    the maps hold the live objects by address. *)
Record fs (A : Type) := {
  fs_pages : A;
  dentries : gmap Z dentry;
  vinodes : gmap Z vinode;
  files : gmap Z file;
  super_blocks : gmap Z super_block;
  devices : gmap Z device;
  fs_types : gmap Z file_system_type;
  freemaps : gmap Z (list Z);
  dir_caches : gmap Z rfs_dir_cache;
  pfiles_store : gmap Z proc_file_management;
  rfs_device_list : list (option rfs_device);
  fs_list : list Z;
  vfs_dev_list : list Z;
  vfs_sb_list : list Z;
  vfs_root_dentry : Z;
  dentry_hash_table : hash_table dentry_key;
  vinode_hash_table : hash_table vinode_key;
  fs_host : host;
}.
Arguments Build_fs {A}.
Arguments fs_pages {A}.
Arguments dentries {A}.
Arguments vinodes {A}.
Arguments files {A}.
Arguments super_blocks {A}.
Arguments devices {A}.
Arguments fs_types {A}.
Arguments freemaps {A}.
Arguments dir_caches {A}.
Arguments pfiles_store {A}.
Arguments rfs_device_list {A}.
Arguments fs_list {A}.
Arguments vfs_dev_list {A}.
Arguments vfs_sb_list {A}.
Arguments vfs_root_dentry {A}.
Arguments dentry_hash_table {A}.
Arguments vinode_hash_table {A}.
Arguments fs_host {A}.

#[export] Instance eta_dentry : Eta dentry := fun d =>
  Build_dentry (d_name d) (d_ref d) (dentry_inode d) (d_parent d) (d_sb d).
#[export] Instance eta_file : Eta file := fun f =>
  Build_file (f_status f) (f_readable f) (f_writable f) (f_offset f) (f_dentry f).
#[export] Instance eta_vinode : Eta vinode := fun v =>
  Build_vinode (inum v) (i_ref v) (i_size v) (i_type v) (i_nlinks v) (i_blocks v) (i_addrs v)
    (i_fs_info v) (i_sb v) (i_ops v).
#[export] Instance eta_super_block : Eta super_block := fun b =>
  Build_super_block (s_magic b) (s_size b) (s_nblocks b) (s_ninodes b) (s_root b) (s_dev b) (s_fs_info b).
#[export] Instance eta_device : Eta device := fun d =>
  Build_device (dev_name d) (dev_id d) (dev_fs_type d).
#[export] Instance eta_rfs_device : Eta rfs_device := fun d =>
  Build_rfs_device (d_data d) (iobuffer d).
#[export] Instance eta_rfs_dinode : Eta rfs_dinode := fun d =>
  Build_rfs_dinode (di_size d) (di_type d) (di_nlinks d) (di_blocks d) (di_addrs d).
#[export] Instance eta_proc_file_management : Eta proc_file_management := fun p =>
  Build_proc_file_management (cwd p) (opened_files p) (nfiles p).
#[export] Instance eta_fs A : Eta (fs A) := fun s =>
  Build_fs (fs_pages s) (dentries s) (vinodes s) (files s) (super_blocks s) (devices s) (fs_types s)
    (freemaps s) (dir_caches s) (pfiles_store s) (rfs_device_list s) (fs_list s) (vfs_dev_list s)
    (vfs_sb_list s) (vfs_root_dentry s) (dentry_hash_table s) (vinode_hash_table s) (fs_host s).

#[export] Instance dentry_key_eq_dec : EqDecision dentry_key.
Proof. solve_decision. Defined.
#[export] Instance vinode_key_eq_dec : EqDecision vinode_key.
Proof. solve_decision. Defined.

(** What a page held before it is reused, read as an object of the given type, what the
    stack holds where a local array is not set, and what the argument registers hold behind
    the arguments of a call. *)
Class Stale := {
  stale_vinode : Z -> vinode;
  stale_dentry_sb : Z -> Z;
  stale_bytes : Z -> list Z;
  stale_super_block : Z -> super_block;
  stale_stack : Z -> Z;
  stale_args : list Z;
}.

(** * Access to the store *)

Section store.
Context {A : Type} `{PageAlloc A}.

Definition fs_alloc : M (fs A) Z := zoom fs_pages (fun a s => s <| fs_pages := a |>) pg_alloc.
Definition fs_free (p : Z) : M (fs A) unit :=
  zoom fs_pages (fun a s => s <| fs_pages := a |>) (pg_free p).

Definition get_dentry (p : Z) : M (fs A) dentry := s <- gets id ;; deref (dentries s !! p).
Definition get_vinode (p : Z) : M (fs A) vinode := s <- gets id ;; deref (vinodes s !! p).
Definition get_file (p : Z) : M (fs A) file := s <- gets id ;; deref (files s !! p).
Definition get_sb (p : Z) : M (fs A) super_block := s <- gets id ;; deref (super_blocks s !! p).
Definition get_device (p : Z) : M (fs A) device := s <- gets id ;; deref (devices s !! p).
Definition get_freemap (p : Z) : M (fs A) (list Z) := s <- gets id ;; deref (freemaps s !! p).

Definition put_dentry (p : Z) (d : dentry) : M (fs A) unit :=
  modify (fun s => s <| dentries := <[p := d]> (dentries s) |>).
Definition put_vinode (p : Z) (v : vinode) : M (fs A) unit :=
  modify (fun s => s <| vinodes := <[p := v]> (vinodes s) |>).
Definition put_file (p : Z) (f : file) : M (fs A) unit :=
  modify (fun s => s <| files := <[p := f]> (files s) |>).
Definition put_sb (p : Z) (b : super_block) : M (fs A) unit :=
  modify (fun s => s <| super_blocks := <[p := b]> (super_blocks s) |>).
Definition put_device (p : Z) (d : device) : M (fs A) unit :=
  modify (fun s => s <| devices := <[p := d]> (devices s) |>).
Definition put_freemap (p : Z) (l : list Z) : M (fs A) unit :=
  modify (fun s => s <| freemaps := <[p := l]> (freemaps s) |>).

(** A page for a new object; the first store through a NULL result traps. *)
Definition alloc_obj : M (fs A) Z := p <- fs_alloc ;; if p =? 0 then fault else ret p.

(** * Constructors and destructors (kernel/vfs.c) *)

(** Fields that a constructor leaves alone keep what the page held before. *)
Context {ST : Stale}.

Definition default_alloc_vinode (sb : Z) : M (fs A) Z :=
  p <- alloc_obj ;;
  put_vinode p ((stale_vinode p) <| i_blocks := 0 |> <| inum := 0 |> <| i_nlinks := 0 |> <| i_ref := 0 |>
    <| i_sb := sb |> <| i_size := 0 |>) ;;;
  ret p.

Definition free_vinode (p : Z) : M (fs A) unit :=
  modify (fun s => s <| vinodes := delete p (vinodes s) |>) ;;; fs_free p.

(** A name that does not fit its array overruns it. *)
Definition alloc_vfs_dentry (name : cname) (inode parent : Z) : M (fs A) Z :=
  p <- alloc_obj ;;
  (if MAX_DENTRY_NAME_LEN <=? Z.of_nat (length name) then fault else ret tt) ;;;
  (if inode =? 0 then ret tt
   else v <- get_vinode inode ;; put_vinode inode (v <| i_ref := i32 (i_ref v + 1) |>)) ;;;
  put_dentry p {| d_name := name; d_ref := 0; dentry_inode := inode; d_parent := parent;
                  d_sb := stale_dentry_sb p |} ;;;
  ret p.

(** [free_page(dentry)] *)
Definition drop_dentry (p : Z) : M (fs A) unit :=
  modify (fun s => s <| dentries := delete p (dentries s) |>) ;;; fs_free p.

Definition free_vfs_dentry (p : Z) : M (fs A) Z :=
  d <- get_dentry p ;;
  if 0 <? d_ref d then ret (-1) else drop_dentry p ;;; ret 0.

Definition alloc_vfs_file (file_dentry readable writable : Z) : M (fs A) Z :=
  p <- alloc_obj ;;
  d <- get_dentry file_dentry ;;
  put_dentry file_dentry (d <| d_ref := i32 (d_ref d + 1) |>) ;;;
  put_file p {| f_status := FD_OPENED; f_readable := readable; f_writable := writable; f_offset := 0;
                f_dentry := file_dentry |} ;;;
  ret p.
End store.

(** * Reading the store *)

Section store_rules.
Context {A : Type} `{PageAlloc A}.
Implicit Types (s : fs A).

Lemma get_vinode_eq s p v : vinodes s !! p = Some v -> get_vinode p s = Ret v s.
Proof. intros E. unfold get_vinode, bind, gets, id. by rewrite E. Qed.

Lemma get_dentry_eq s p d : dentries s !! p = Some d -> get_dentry p s = Ret d s.
Proof. intros E. unfold get_dentry, bind, gets, id. by rewrite E. Qed.

Lemma get_file_eq s p f : files s !! p = Some f -> get_file p s = Ret f s.
Proof. intros E. unfold get_file, bind, gets, id. by rewrite E. Qed.

Lemma get_sb_eq s p b : super_blocks s !! p = Some b -> get_sb p s = Ret b s.
Proof. intros E. unfold get_sb, bind, gets, id. by rewrite E. Qed.

Lemma get_device_eq s p d : devices s !! p = Some d -> get_device p s = Ret d s.
Proof. intros E. unfold get_device, bind, gets, id. by rewrite E. Qed.

Lemma get_freemap_eq s p l : freemaps s !! p = Some l -> get_freemap p s = Ret l s.
Proof. intros E. unfold get_freemap, bind, gets, id. by rewrite E. Qed.
End store_rules.
