(* ===== verification/Ramdev.v ===== *)
(** kernel/ramdev.c and the device-level half of kernel/rfs.c: blocks, the I/O
    buffer, and disk inodes as bytes. *)

From S2P Require Import Prelude PageAlloc HashTable FsData.

(** * Bytes *)

(** [memcpy] into and out of a page; an access outside the page traps. *)
Definition copy_in (b : list Z) (o : Z) (l : list Z) : option (list Z) :=
  if (0 <=? o) && (o + Z.of_nat (length l) <=? Z.of_nat (length b))
  then Some (splice (Z.to_nat o) l b) else None.

Definition copy_out (b : list Z) (o n : Z) : option (list Z) :=
  if (0 <=? o) && (0 <=? n) && (o + n <=? Z.of_nat (length b))
  then Some (take (Z.to_nat n) (drop (Z.to_nat o) b)) else None.

(** An [int] in memory, little endian. *)
Definition le32 (v : Z) : list Z :=
  [v mod 256; v / 256 mod 256; v / 65536 mod 256; v / 16777216 mod 256].
Definition of_le32 (b : list Z) : Z :=
  match b with [b0; b1; b2; b3] => i32 (b0 + 256 * b1 + 65536 * b2 + 16777216 * b3) | _ => 0 end.

Definition ints (l : list Z) : list Z := l ≫= le32.
Fixpoint of_ints (n : nat) (b : list Z) : list Z :=
  match n with O => [] | S n' => of_le32 (take 4 b) :: of_ints n' (drop 4 b) end.

Definition read_int (b : list Z) (o : Z) : option Z := of_le32 <$> copy_out b o 4.

(** The bytes of a string before its NUL; [None] when there is no NUL. *)
Fixpoint cstr_bytes (b : list Z) : option cname :=
  match b with
  | [] => None
  | c :: b' => if c =? 0 then Some [] else cons c <$> cstr_bytes b'
  end.

(** [strcmp(b, name) == 0], [b] in a page. *)
Fixpoint name_eq (b : list Z) (name : cname) : option bool :=
  match b, name with
  | [], _ => None
  | c :: b', [] => Some (c =? 0)
  | c :: b', d :: name' => if c =? d then name_eq b' name' else Some false
  end.

(** * ramdev.c *)

Definition RAMDISK_BLOCK_COUNT : Z := 128.
Definition RAMDISK_BLOCK_SIZE : Z := PGSIZE.
Definition MAX_RAMDISK_COUNT : nat := 10.

Definition ramdisk_write (blkno : Z) : M rfs_device Z :=
  if (blkno <? 0) || (RAMDISK_BLOCK_COUNT <=? blkno)
  then panic "ramdisk_write: write block No out of range!"
  else modify (fun d => d <| d_data := <[Z.to_nat blkno := iobuffer d]> (d_data d) |>) ;;; ret 0.

Definition ramdisk_read (blkno : Z) : M rfs_device Z :=
  if (blkno <? 0) || (RAMDISK_BLOCK_COUNT <=? blkno)
  then panic "ramdisk_read: read block No out of range!"
  else
    d <- gets id ;;
    b <- deref (d_data d !! Z.to_nat blkno) ;;
    modify (fun d => d <| iobuffer := b |>) ;;;
    ret 0.

(** Reading and writing the I/O buffer. *)
Definition buf_put (o : Z) (l : list Z) : M rfs_device unit :=
  d <- gets id ;;
  b <- deref (copy_in (iobuffer d) o l) ;;
  modify (fun d => d <| iobuffer := b |>).
Definition buf_get (o n : Z) : M rfs_device (list Z) :=
  d <- gets id ;; deref (copy_out (iobuffer d) o n).

(** * rfs.h *)

Definition RFS_TYPE : Z := 0.
Definition RFS_MAGIC : Z := 48815.
Definition RFS_BLKSIZE : Z := PGSIZE.
Definition RFS_INODESIZE : Z := 128.
Definition RFS_MAX_INODE_BLKNUM : Z := 10.
Definition RFS_DIRECT_BLKNUM : Z := DIRECT_BLKNUM.
Definition RFS_BLK_OFFSET_SUPER : Z := 0.
Definition RFS_BLK_OFFSET_INODE : Z := 1.
Definition RFS_BLK_OFFSET_BITMAP : Z := 11.
Definition RFS_BLK_OFFSET_FREE : Z := 12.
Definition R_FILE : Z := FILE_I.
Definition R_DIR : Z := DIR_I.
Definition R_FREE : Z := 2.

(** [sizeof(struct rfs_dinode)] and [sizeof(struct rfs_direntry)] *)
Definition DINODE_SIZE : Z := 56.
Definition DIRENTRY_SIZE : Z := 32.

Definition dinode_bytes (d : rfs_dinode) : list Z :=
  ints ([di_size d; di_type d; di_nlinks d; di_blocks d] ++ di_addrs d).

Definition dinode_of_bytes (b : list Z) : rfs_dinode :=
  {| di_size := of_le32 (take 4 b); di_type := of_le32 (take 4 (drop 4 b));
     di_nlinks := of_le32 (take 4 (drop 8 b)); di_blocks := of_le32 (take 4 (drop 12 b));
     di_addrs := of_ints 10 (drop 16 b) |}.

Definition rfs_r1block (n_block : Z) : M rfs_device Z := ramdisk_read n_block.
Definition rfs_w1block (n_block : Z) : M rfs_device Z := ramdisk_write n_block.

Definition inodes_per_block : Z := RFS_BLKSIZE / RFS_INODESIZE.

(** The disk half of [rfs_read_dinode]: the bytes that are copied into the fresh page. *)
Definition load_dinode (n_inode : Z) : M rfs_device rfs_dinode :=
  let n_block := Z.quot n_inode inodes_per_block + RFS_BLK_OFFSET_INODE in
  let offset := Z.rem n_inode inodes_per_block in
  rfs_r1block n_block ;;;
  b <- buf_get (offset * RFS_INODESIZE) DINODE_SIZE ;;
  ret (dinode_of_bytes b).

Definition rfs_write_dinode (dinode : rfs_dinode) (n_inode : Z) : M rfs_device Z :=
  let n_block := Z.quot n_inode inodes_per_block + RFS_BLK_OFFSET_INODE in
  let offset := Z.rem n_inode inodes_per_block in
  rfs_r1block n_block ;;;
  buf_put (offset * RFS_INODESIZE) (dinode_bytes dinode) ;;;
  rfs_w1block n_block.

(** * Encodings *)

Definition is_int (v : Z) : Prop := -2147483648 <= v < 2147483648.

Lemma of_le32_le32 v : is_int v -> of_le32 (le32 v) = v.
Proof.
  unfold is_int, of_le32, le32, i32. intros Hv.
  assert (v mod 256 + 256 * (v / 256 mod 256) + 65536 * (v / 65536 mod 256) + 16777216 * (v / 16777216 mod 256)
    = v mod 4294967296) as -> by zdiv.
  zdiv.
Qed.

Lemma length_ints l : length (ints l) = (4 * length l)%nat.
Proof. induction l as [|x l IH]; [done|]. cbn [ints mbind list_bind]. rewrite length_app. fold (ints l). cbn. lia. Qed.

Lemma ints_cons x l : ints (x :: l) = le32 x ++ ints l.
Proof. done. Qed.

Lemma of_ints_ints l rest : Forall is_int l -> of_ints (length l) (ints l ++ rest) = l.
Proof.
  induction 1 as [|x l Hx _ IH]; [done|]. rewrite ints_cons, <-app_assoc. cbn [length of_ints].
  rewrite (take_app_length' (le32 x)), (drop_app_length' (le32 x)) by done.
  by rewrite of_le32_le32, IH.
Qed.

Record dinode_ok (d : rfs_dinode) : Prop := {
  dok_size : is_int (di_size d);
  dok_type : is_int (di_type d);
  dok_nlinks : is_int (di_nlinks d);
  dok_blocks : is_int (di_blocks d);
  dok_length : length (di_addrs d) = 10%nat;
  dok_addrs : Forall is_int (di_addrs d);
}.

Lemma length_dinode_bytes d : dinode_ok d -> length (dinode_bytes d) = 56%nat.
Proof. intros H. unfold dinode_bytes. rewrite length_ints, length_app, (dok_length _ H). done. Qed.

Lemma dinode_roundtrip d rest : dinode_ok d -> dinode_of_bytes (dinode_bytes d ++ rest) = d.
Proof.
  intros [H1 H2 H3 H4 H5 H6]. unfold dinode_of_bytes, dinode_bytes. cbn [app]. rewrite !ints_cons, <-!app_assoc.
  set (r := ints (di_addrs d) ++ rest). cbn [app].
  change (Build_rfs_dinode (of_le32 (le32 (di_size d))) (of_le32 (le32 (di_type d)))
    (of_le32 (le32 (di_nlinks d))) (of_le32 (le32 (di_blocks d))) (of_ints 10 r) = d).
  unfold r. rewrite !of_le32_le32, <-H5, of_ints_ints by done. by destruct d.
Qed.

(** * The device *)

Definition block (d : rfs_device) (n : Z) : list Z := default [] (d_data d !! Z.to_nat n).

Record rdev_wf (d : rfs_device) : Prop := {
  rw_count : length (d_data d) = 128%nat;
  rw_blocks b : b ∈ d_data d -> length b = 4096%nat;
  rw_buffer : length (iobuffer d) = 4096%nat;
}.

Definition is_block (n : Z) : Prop := 0 <= n < 128.

Lemma block_lookup d n : rdev_wf d -> is_block n -> d_data d !! Z.to_nat n = Some (block d n).
Proof.
  intros Hw Hn. unfold block. destruct (d_data d !! Z.to_nat n) eqn:E; [done|].
  apply lookup_ge_None in E. rewrite (rw_count _ Hw) in E. unfold is_block in Hn. lia.
Qed.

Lemma length_block d n : rdev_wf d -> is_block n -> length (block d n) = 4096%nat.
Proof.
  intros Hw Hn. apply (rw_blocks _ Hw). eapply list_elem_of_lookup_2. by apply block_lookup.
Qed.

Lemma ramdisk_read_eq d n :
  rdev_wf d -> is_block n -> ramdisk_read n d = Ret 0 (d <| iobuffer := block d n |>).
Proof.
  intros Hw Hn. unfold ramdisk_read. unfold is_block in Hn.
  destruct (Z.ltb_spec n 0); [lia|]. unfold RAMDISK_BLOCK_COUNT. destruct (Z.leb_spec 128 n); [lia|].
  cbn [orb]. unfold bind, gets, id. by rewrite block_lookup by done.
Qed.

Lemma ramdisk_write_eq d n :
  rdev_wf d -> is_block n ->
  ramdisk_write n d = Ret 0 (d <| d_data := <[Z.to_nat n := iobuffer d]> (d_data d) |>).
Proof.
  intros Hw Hn. unfold ramdisk_write. unfold is_block in Hn.
  destruct (Z.ltb_spec n 0); [lia|]. unfold RAMDISK_BLOCK_COUNT. by destruct (Z.leb_spec 128 n); [lia|].
Qed.

Lemma buffer_wf d b : rdev_wf d -> length b = 4096%nat -> rdev_wf (d <| iobuffer := b |>).
Proof. intros [H1 H2 H3] Hb. by split. Qed.

Lemma disk_wf d n b :
  rdev_wf d -> length b = 4096%nat -> rdev_wf (d <| d_data := <[Z.to_nat n := b]> (d_data d) |>).
Proof.
  intros [H1 H2 H3] Hb. split; [cbn; by rewrite length_insert| |done].
  intros b' Hb'. apply list_elem_of_lookup in Hb' as [j Hj]. cbn in Hj.
  apply list_lookup_insert_Some in Hj as [(_ & <- & _)|[_ Hj]]; [done|].
  by eapply H2, list_elem_of_lookup_2.
Qed.

Lemma block_insert d n m b :
  rdev_wf d -> is_block n -> 0 <= m ->
  block (d <| d_data := <[Z.to_nat n := b]> (d_data d) |>) m = if m =? n then b else block d m.
Proof.
  intros Hw Hn Hm. unfold block. cbn. unfold is_block in Hn.
  destruct (Z.eqb_spec m n) as [->|Hne].
  - rewrite list_lookup_insert_eq; [done|]. rewrite (rw_count _ Hw). lia.
  - by rewrite list_lookup_insert_ne by lia.
Qed.

Lemma copy_in_eq b o l :
  0 <= o -> o + Z.of_nat (length l) <= Z.of_nat (length b) -> copy_in b o l = Some (splice (Z.to_nat o) l b).
Proof.
  intros Ho Hl. unfold copy_in. destruct (Z.leb_spec 0 o); [|lia].
  by destruct (Z.leb_spec (o + Z.of_nat (length l)) (Z.of_nat (length b))); [|lia].
Qed.

Lemma copy_out_eq b o n :
  0 <= o -> 0 <= n -> o + n <= Z.of_nat (length b) ->
  copy_out b o n = Some (take (Z.to_nat n) (drop (Z.to_nat o) b)).
Proof.
  intros Ho Hn Hl. unfold copy_out. destruct (Z.leb_spec 0 o); [|lia]. destruct (Z.leb_spec 0 n); [|lia].
  by destruct (Z.leb_spec (o + n) (Z.of_nat (length b))); [|lia].
Qed.

Lemma buf_put_eq d o l :
  rdev_wf d -> 0 <= o -> o + Z.of_nat (length l) <= 4096 ->
  buf_put o l d = Ret tt (d <| iobuffer := splice (Z.to_nat o) l (iobuffer d) |>) /\
  rdev_wf (d <| iobuffer := splice (Z.to_nat o) l (iobuffer d) |>).
Proof.
  intros Hw Ho Hl. pose proof (rw_buffer _ Hw) as Hb. split.
  - unfold buf_put, bind, gets, id. rewrite copy_in_eq by lia. done.
  - apply buffer_wf; [done|]. rewrite length_splice; lia.
Qed.

Lemma buf_get_eq d o n :
  rdev_wf d -> 0 <= o -> 0 <= n -> o + n <= 4096 ->
  buf_get o n d = Ret (take (Z.to_nat n) (drop (Z.to_nat o) (iobuffer d))) d.
Proof.
  intros Hw Ho Hn Hl. pose proof (rw_buffer _ Hw) as Hb.
  unfold buf_get, bind, gets, id. rewrite copy_out_eq by lia. done.
Qed.

(** * Disk inodes *)

Definition is_inode (n : Z) : Prop := 0 <= n < 320.

(** The inode stored in slot [n] of the disk. *)
Definition disk_inode (d : rfs_device) (n : Z) : rfs_dinode :=
  dinode_of_bytes (take 56 (drop (Z.to_nat (n mod 32 * 128)) (block d (n / 32 + 1)))).

Lemma inode_place n : is_inode n ->
  Z.quot n inodes_per_block = n / 32 /\ Z.rem n inodes_per_block = n mod 32 /\
  is_block (n / 32 + 1) /\ 0 <= n mod 32 < 32.
Proof.
  unfold is_inode, is_block. intros Hn. change inodes_per_block with 32.
  rewrite Z.quot_div_nonneg, Z.rem_mod_nonneg by lia. split_and!; try done; zdiv.
Qed.

Lemma load_dinode_eq d n :
  rdev_wf d -> is_inode n ->
  load_dinode n d = Ret (disk_inode d n) (d <| iobuffer := block d (n / 32 + 1) |>).
Proof.
  intros Hw Hn. destruct (inode_place n Hn) as (Eq & Er & Hb & Hr). unfold load_dinode. rewrite Eq, Er.
  unfold rfs_r1block, RFS_BLK_OFFSET_INODE. step (ramdisk_read_eq d _ Hw Hb).
  pose proof (buffer_wf d _ Hw (length_block d _ Hw Hb)) as Hw1.
  unfold RFS_INODESIZE, DINODE_SIZE.
  by step (buf_get_eq _ (n mod 32 * 128) 56 Hw1 ltac:(lia) ltac:(lia) ltac:(lia)).
Qed.

(** What [rfs_write_dinode] leaves behind. *)
Lemma write_dinode_run d di n :
  rdev_wf d -> dinode_ok di -> is_inode n ->
  exists d', rfs_write_dinode di n d = Ret 0 d' /\ rdev_wf d' /\
    (forall m, is_inode m -> disk_inode d' m = if m =? n then di else disk_inode d m) /\
    (forall b, 0 <= b -> b <> n / 32 + 1 -> block d' b = block d b).
Proof.
  intros Hw Hd Hn. destruct (inode_place n Hn) as (Eq & Er & Hb & Hr). unfold rfs_write_dinode. rewrite Eq, Er.
  unfold rfs_r1block, rfs_w1block, RFS_BLK_OFFSET_INODE, RFS_INODESIZE.
  set (nb := n / 32 + 1) in *. set (o := n mod 32 * 128).
  pose proof (length_block d nb Hw Hb) as Hlb. pose proof (length_dinode_bytes di Hd) as Hld.
  pose proof (buffer_wf d _ Hw Hlb) as Hw1.
  destruct (buf_put_eq _ o (dinode_bytes di) Hw1) as [Ep Hw2]; [lia|rewrite Hld; lia|].
  change (iobuffer (d <| iobuffer := block d nb |>)) with (block d nb) in *.
  set (b' := splice (Z.to_nat o) (dinode_bytes di) (block d nb)) in *.
  assert (length b' = 4096%nat) as Hlb' by (unfold b'; rewrite length_splice; lia).
  set (d2 := d <| iobuffer := block d nb |> <| iobuffer := b' |>) in *.
  exists (d2 <| d_data := <[Z.to_nat nb := b']> (d_data d2) |>). split_and!.
  - step (ramdisk_read_eq d nb Hw Hb). step Ep. apply (ramdisk_write_eq d2 nb Hw2 Hb).
  - by apply disk_wf.
  - intros m Hm. destruct (inode_place m Hm) as (_ & _ & Hbm & Hrm). unfold disk_inode.
    rewrite (block_insert d2 nb) by (done || unfold is_block in Hbm; lia).
    change (block d2 (m / 32 + 1)) with (block d (m / 32 + 1)).
    destruct (Z.eqb_spec m n) as [->|Hne].
    + fold nb o. rewrite Z.eqb_refl. rewrite <-Hld at 1. unfold b'. rewrite take_drop_splice by lia.
      rewrite <-(app_nil_r (dinode_bytes di)). by apply dinode_roundtrip.
    + destruct (Z.eqb_spec (m / 32 + 1) nb) as [E|?]; [|done]. f_equal. unfold b'. rewrite E.
      apply take_drop_splice_ne; [lia|]. rewrite Hld. unfold o, nb in *. unfold is_inode in *. zdiv.
  - intros b Hb0 Hbn. rewrite (block_insert d2 nb) by done.
    destruct (Z.eqb_spec b nb); [done|]. reflexivity.
Qed.

(** Writing a disk inode stores exactly that inode: the write succeeds, reading
    the slot back gives the inode that was written, every other inode of the disk
    keeps its contents, and so does every other block. *)
Theorem dinode_write_read d di n :
  rdev_wf d -> dinode_ok di -> is_inode n ->
  exists d', rfs_write_dinode di n d = Ret 0 d' /\ rdev_wf d' /\
    (exists d2, load_dinode n d' = Ret di d2) /\
    (forall m, is_inode m -> m <> n -> disk_inode d' m = disk_inode d m) /\
    (forall b, 0 <= b -> b <> n / 32 + 1 -> block d' b = block d b).
Proof.
  intros Hw Hd Hn. destruct (write_dinode_run d di n Hw Hd Hn) as (d' & E & Hw' & Hi & Hb).
  exists d'. split_and!; [done|done|..|done].
  - rewrite (load_dinode_eq d' n) by done. rewrite Hi, Z.eqb_refl by done. by eexists.
  - intros m Hm Hne. rewrite Hi by done. by destruct (Z.eqb_spec m n).
Qed.

(** ** Witnesses *)

Definition blank_rdev : rfs_device :=
  {| d_data := replicate 128 (replicate 4096 0); iobuffer := replicate 4096 0 |}.

Lemma blank_rdev_wf : rdev_wf blank_rdev.
Proof.
  split; [apply length_replicate| |apply length_replicate].
  intros b Hb. apply elem_of_replicate in Hb as [-> _]. apply length_replicate.
Qed.

Definition small_dinode : rfs_dinode :=
  {| di_size := 7; di_type := R_FILE; di_nlinks := 1; di_blocks := 1; di_addrs := 13 :: replicate 9 (-1) |}.

Lemma dinode_write_read_witness :
  exists d', rfs_write_dinode small_dinode 33 blank_rdev = Ret 0 d' /\
    exists d2, load_dinode 33 d' = Ret small_dinode d2.
Proof.
  destruct (dinode_write_read blank_rdev small_dinode 33 blank_rdev_wf) as (d' & E & _ & H & _);
    [|clear; done|exists d'; split; [exact E|exact H]].
  split; try (clear; done). repeat constructor; clear; done.
Defined.
