(* ===== verification/Rfs.v ===== *)
(** kernel/rfs.c: the RAM-disk file system, and [init_rfs_device] of
    kernel/ramdev.c.  Buffers that the caller passes are lists of bytes; a file
    offset passed by reference is an argument and part of the result. *)

From S2P Require Import Prelude PageAlloc HashTable FsData Ramdev.

Section rfs.
Context {A : Type} {PA : PageAlloc A} {ST : Stale}.
Implicit Types (vp sb name_len : Z).

(** * Access to the device *)

(** [rfs_device_list[id]] *)
Definition on_rdev {B} (id : Z) (c : M rfs_device B) : M (fs A) B := fun s =>
  match at_index (rfs_device_list s) id with
  | Some (Some d) =>
      zoom (fun _ => d) (fun d' s => s <| rfs_device_list := <[Z.to_nat id := Some d']> (rfs_device_list s) |>) c s
  | _ => Fault
  end.

(** [rfs_device_list[vinode->sb->s_dev->dev_id]] *)
Definition rdev_of vp : M (fs A) Z :=
  v <- get_vinode vp ;; b <- get_sb (i_sb v) ;; d <- get_device (s_dev b) ;; ret (dev_id d).

(** * Utility functions *)

(** The first NULL of a table of pointers. *)
Fixpoint first_null (l : list Z) : option nat :=
  match l with
  | [] => None
  | p :: l' => if p =? 0 then Some 0%nat else S <$> first_null l'
  end.

Definition register_rfs : M (fs A) Z :=
  p <- alloc_obj ;;
  modify (fun s => s <| fs_types := <[p := {| type_num := RFS_TYPE |}]> (fs_types s) |>) ;;;
  s <- gets id ;;
  match first_null (fs_list s) with
  | Some i => modify (fun s => s <| fs_list := <[i := p]> (fs_list s) |>) ;;; ret 0
  | None => ret (-1)
  end.

(** The empty inode block: four fields of each of the 32 inodes. *)
Fixpoint clear_dinodes (n : nat) (i : Z) : M rfs_device unit :=
  match n with
  | O => ret tt
  | S n' => buf_put (i * RFS_INODESIZE) (ints [0; R_FREE; 0; 0]) ;;; clear_dinodes n' (i + 1)
  end.

Fixpoint write_inode_blocks (n : nat) (inode_block : Z) : M rfs_device unit :=
  match n with
  | O => ret tt
  | S n' =>
      r <- rfs_w1block (RFS_BLK_OFFSET_INODE + inode_block) ;;
      (if negb (r =? 0) then panic "RFS: failed to initialize empty inodes!" else ret tt) ;;;
      write_inode_blocks n' (inode_block + 1)
  end.

(** [junk] is what the stack holds in the nine block addresses that are not set. *)
Definition format_rdev (junk : list Z) : M rfs_device Z :=
  buf_put 0 (ints [RFS_MAGIC; 1 + RFS_MAX_INODE_BLKNUM + 1 + RFS_MAX_INODE_BLKNUM * RFS_DIRECT_BLKNUM;
    RFS_MAX_INODE_BLKNUM * RFS_DIRECT_BLKNUM; RFS_BLKSIZE / RFS_INODESIZE * RFS_MAX_INODE_BLKNUM]) ;;;
  r <- rfs_w1block RFS_BLK_OFFSET_SUPER ;;
  (if negb (r =? 0) then panic "RFS: failed to write superblock!" else ret tt) ;;;
  clear_dinodes (Z.to_nat inodes_per_block) 0 ;;;
  write_inode_blocks (Z.to_nat RFS_MAX_INODE_BLKNUM) 0 ;;;
  r <- rfs_write_dinode {| di_size := 0; di_type := R_DIR; di_nlinks := 1; di_blocks := 1;
                           di_addrs := RFS_BLK_OFFSET_FREE :: junk |} 0 ;;
  if negb (r =? 0) then ret (-1) else
  buf_put 0 (replicate (Z.to_nat RFS_BLKSIZE) 0) ;;;
  buf_put 0 (le32 1) ;;;
  r <- rfs_w1block RFS_BLK_OFFSET_BITMAP ;;
  if negb (r =? 0) then ret (-1) else ret 0.

Definition rfs_format_dev (junk : list Z) (dev : Z) : M (fs A) Z :=
  d <- get_device dev ;; on_rdev (dev_id d) (format_rdev junk).

(** The disk inode in a fresh page, with the address of the page. *)
Definition rfs_read_dinode (rdev n_inode : Z) : M (fs A) (Z * rfs_dinode) :=
  d <- on_rdev rdev (load_dinode n_inode) ;;
  p <- alloc_obj ;;
  ret (p, d).

(** The first free entry of the bitmap among the first [n]. *)
Fixpoint find_block (n : nat) (block : Z) (freemap : list Z) : option (option Z) :=
  match n with
  | O => Some None
  | S n' =>
      match at_index freemap block with
      | None => None
      | Some x => if x =? 0 then Some (Some block) else find_block n' (block + 1) freemap
      end
  end.

Definition rfs_alloc_block sb : M (fs A) Z :=
  b <- get_sb sb ;;
  freemap <- get_freemap (s_fs_info b) ;;
  o <- deref (find_block (Z.to_nat (s_nblocks b)) 0 freemap) ;;
  match o with
  | None => panic "rfs_alloc_block: no more free block!"
  | Some block =>
      freemap' <- deref (set_index freemap block 1) ;;
      put_freemap (s_fs_info b) freemap' ;;;
      ret (RFS_BLK_OFFSET_FREE + block)
  end.

Definition rfs_free_block sb (block_num : Z) : M (fs A) Z :=
  b <- get_sb sb ;;
  freemap <- get_freemap (s_fs_info b) ;;
  freemap' <- deref (set_index freemap (block_num - RFS_BLK_OFFSET_FREE) 0) ;;
  put_freemap (s_fs_info b) freemap' ;;;
  ret 0.

Definition rfs_write_back_vinode vp : M (fs A) Z :=
  v <- get_vinode vp ;;
  rdev <- rdev_of vp ;;
  r <- on_rdev rdev (rfs_write_dinode {| di_size := i_size v; di_type := i_type v; di_nlinks := i_nlinks v;
    di_blocks := i_blocks v; di_addrs := i_addrs v |} (inum v)) ;;
  if negb (r =? 0) then ret (-1) else ret 0.

Definition rfs_add_direntry dir (name : cname) (inum : Z) : M (fs A) Z :=
  v <- get_vinode dir ;;
  if negb (i_type v =? DIR_I) then ret (-1) else
  rdev <- rdev_of dir ;;
  n_block <- deref (at_index (i_addrs v) (Z.quot (i_size v) RFS_BLKSIZE)) ;;
  r <- on_rdev rdev (rfs_r1block n_block) ;;
  if negb (r =? 0) then ret (-1) else
  let addr := Z.rem (i_size v) RFS_BLKSIZE in
  on_rdev rdev (buf_put addr (le32 inum)) ;;;
  on_rdev rdev (buf_put (addr + 4) (name ++ [0])) ;;;
  r <- on_rdev rdev (rfs_w1block n_block) ;;
  if negb (r =? 0) then ret (-1) else
  put_vinode dir (v <| i_size := i32 (i_size v + DIRENTRY_SIZE) |>) ;;;
  r <- rfs_write_back_vinode dir ;;
  if negb (r =? 0) then ret (-1) else ret 0.

Definition rfs_alloc_vinode sb : M (fs A) Z :=
  p <- default_alloc_vinode sb ;;
  v <- get_vinode p ;;
  put_vinode p (v <| i_ops := rfs_i_ops |>) ;;;
  ret p.

Definition rfs_update_vinode vp : M (fs A) Z :=
  rdev <- rdev_of vp ;;
  v <- get_vinode vp ;;
  pd <- rfs_read_dinode rdev (inum v) ;;
  let '(page, d) := pd in
  put_vinode vp (v <| i_size := di_size d |> <| i_nlinks := di_nlinks d |> <| i_blocks := di_blocks d |>
    <| i_type := di_type d |> <| i_addrs := di_addrs d |>) ;;;
  fs_free page ;;;
  ret 0.

(** * Files *)

(** The complete blocks of a read. *)
Fixpoint read_blocks (n : nat) (rdev : Z) (addrs : list Z) (block_offset : Z) : M (fs A) (list Z) :=
  match n with
  | O => ret []
  | S n' =>
      a <- deref (at_index addrs block_offset) ;;
      on_rdev rdev (rfs_r1block a) ;;;
      b <- on_rdev rdev (buf_get 0 RFS_BLKSIZE) ;;
      rest <- read_blocks n' rdev addrs (block_offset + 1) ;;
      ret (b ++ rest)
  end.

(** The bytes [strcpy] stores in [r_buf], the number returned and the new offset. *)
Definition rfs_read (f_inode len offset : Z) : M (fs A) (list Z * Z * Z) :=
  v <- get_vinode f_inode ;;
  if i_size v <? offset then panic "rfs_read:offset should less than file size!" else
  let len := if i_size v <? offset + len then i_size v - offset else len in
  if len <? 0 then fault else
  let align := Z.rem offset RFS_BLKSIZE in
  let block_offset := Z.quot offset RFS_BLKSIZE in
  let readtimes := i32 (Z.quot (align + len) RFS_BLKSIZE) in
  let remain := i32 (Z.rem (align + len) RFS_BLKSIZE) in
  rdev <- rdev_of f_inode ;;
  a <- deref (at_index (i_addrs v) block_offset) ;;
  on_rdev rdev (rfs_r1block a) ;;;
  let first_block_len := if readtimes =? 0 then len else RFS_BLKSIZE - align in
  first <- on_rdev rdev (buf_get align first_block_len) ;;
  let readtimes := readtimes - 1 in
  rest <- (if readtimes <? 0 then ret [] else
    middle <- read_blocks (Z.to_nat readtimes) rdev (i_addrs v) (block_offset + 1) ;;
    last <- (if 0 <? remain then
       a <- deref (at_index (i_addrs v) (block_offset + 1 + readtimes)) ;;
       on_rdev rdev (rfs_r1block a) ;;;
       on_rdev rdev (buf_get 0 remain)
     else ret []) ;;
    ret (middle ++ last)) ;;
  r_buf <- deref (cstr_bytes (first ++ rest ++ [0])) ;;
  ret (r_buf ++ [0], len, i32 (offset + len)).

(** Write [n] bytes of [w_buf] to a block of the file, which is added when the file
    ends before it. *)
Definition write_block vp (rdev block_offset : Z) (w_buf : list Z) (buf_offset n : Z) : M (fs A) unit :=
  v <- get_vinode vp ;;
  (if block_offset =? i_blocks v then
     nb <- rfs_alloc_block (i_sb v) ;;
     addrs <- deref (set_index (i_addrs v) block_offset nb) ;;
     put_vinode vp (v <| i_addrs := addrs |> <| i_blocks := i32 (i_blocks v + 1) |>)
   else ret tt) ;;;
  chunk <- deref (copy_out w_buf buf_offset n) ;;
  on_rdev rdev (buf_put 0 chunk) ;;;
  v <- get_vinode vp ;;
  a <- deref (at_index (i_addrs v) block_offset) ;;
  on_rdev rdev (rfs_w1block a) ;;;
  ret tt.

Fixpoint write_blocks (n : nat) vp (rdev block_offset : Z) (w_buf : list Z) (buf_offset : Z) : M (fs A) unit :=
  match n with
  | O => ret tt
  | S n' =>
      write_block vp rdev block_offset w_buf buf_offset RFS_BLKSIZE ;;;
      write_blocks n' vp rdev (block_offset + 1) w_buf (buf_offset + RFS_BLKSIZE)
  end.

(** The number of bytes returned and the new offset. *)
Definition rfs_write (f_inode : Z) (w_buf : list Z) (len offset : Z) : M (fs A) (Z * Z) :=
  v <- get_vinode f_inode ;;
  if i_size v <? offset then panic "rfs_write:offset should less than file size!" else
  let align := Z.rem offset RFS_BLKSIZE in
  let writetimes := i32 (Z.quot (len + align) RFS_BLKSIZE) in
  let remain := i32 (Z.rem (len + align) RFS_BLKSIZE) in
  let block_offset := Z.quot offset RFS_BLKSIZE in
  rdev <- rdev_of f_inode ;;
  pos <-
    (if align =? 0 then ret (0, block_offset, writetimes) else
       a <- deref (at_index (i_addrs v) block_offset) ;;
       on_rdev rdev (rfs_r1block a) ;;;
       let first_block_len := if writetimes =? 0 then len else RFS_BLKSIZE - align in
       chunk <- deref (copy_out w_buf 0 first_block_len) ;;
       on_rdev rdev (buf_put align chunk) ;;;
       on_rdev rdev (rfs_w1block a) ;;;
       ret (first_block_len, block_offset + 1, writetimes - 1)) ;;
  let '(buf_offset, block_offset, writetimes) := pos in
  (if writetimes <? 0 then ret tt else
     write_blocks (Z.to_nat writetimes) f_inode rdev block_offset w_buf buf_offset ;;;
     if 0 <? remain
     then write_block f_inode rdev (block_offset + writetimes) w_buf
            (buf_offset + writetimes * RFS_BLKSIZE) remain
     else ret tt) ;;;
  v <- get_vinode f_inode ;;
  put_vinode f_inode (v <| i_size := if i_size v <? offset + len then i32 (offset + len) else i_size v |>) ;;;
  ret (len, i32 (offset + len)).

Definition rfs_lseek (f_inode new_offset whence offset : Z) : M (fs A) (Z * Z) :=
  v <- get_vinode f_inode ;;
  if whence =? LSEEK_SET then
    if (new_offset <? 0) || (i_size v <? new_offset) then ret (-1, offset) else ret (0, i32 new_offset)
  else if whence =? LSEEK_CUR then
    if (i64 (offset + new_offset) <? 0) || (i_size v <? i64 (offset + new_offset)) then ret (-1, offset)
    else ret (0, i32 (offset + new_offset))
  else ret (-1, offset).

Definition rfs_disk_stat vp : M (fs A) (Z * istat) :=
  rdev <- rdev_of vp ;;
  v <- get_vinode vp ;;
  pd <- rfs_read_dinode rdev (inum v) ;;
  let '(page, d) := pd in
  fs_free page ;;;
  ret (0, {| st_inum := inum v; st_size := di_size d; st_type := di_type d; st_nlinks := di_nlinks d;
             st_blocks := di_blocks d |}).
(** * Directories *)

Definition one_block_direntrys : Z := RFS_BLKSIZE / DIRENTRY_SIZE.

(** [dir->size / sizeof(struct rfs_direntry)]; the division is unsigned. *)
Definition total_direntrys (size : Z) : Z := i32 (u64 size / DIRENTRY_SIZE).

(** The search of [rfs_lookup] and [rfs_unlink] through the entries of a directory.
    [p] is the index of [p_direntry] in the I/O buffer; the result is the index of the
    entry and its inode number. *)
Fixpoint scan_direntries (n : nat) (rdev : Z) (addrs : list Z) (i p : Z) (name : cname)
    : M (fs A) (option (Z * Z)) :=
  match n with
  | O => ret None
  | S n' =>
      p <- (if Z.rem i one_block_direntrys =? 0 then
              a <- deref (at_index addrs (Z.quot i one_block_direntrys)) ;;
              on_rdev rdev (rfs_r1block a) ;;; ret 0
            else ret p) ;;
      d <- on_rdev rdev (gets id) ;;
      found <- deref (name_eq (drop (Z.to_nat (p * DIRENTRY_SIZE + 4)) (iobuffer d)) name) ;;
      if found
      then inum <- deref (read_int (iobuffer d) (p * DIRENTRY_SIZE)) ;; ret (Some (i, inum))
      else scan_direntries n' rdev addrs (i + 1) (p + 1) name
  end.

(** The vinode of the entry, or NULL. *)
Definition rfs_lookup (parent sub_dentry : Z) : M (fs A) Z :=
  v <- get_vinode parent ;;
  d <- get_dentry sub_dentry ;;
  rdev <- rdev_of parent ;;
  found <- scan_direntries (Z.to_nat (total_direntrys (i_size v))) rdev (i_addrs v) 0 0 (d_name d) ;;
  match found with
  | None => ret 0
  | Some (_, n) =>
      child <- rfs_alloc_vinode (i_sb v) ;;
      c <- get_vinode child ;;
      put_vinode child (c <| inum := n |>) ;;;
      r <- rfs_update_vinode child ;;
      if negb (r =? 0) then panic "rfs_lookup: read inode failed!" else ret child
  end.

(** The search for a free disk inode: its page, its contents and its number.  When
    there is none the caller goes on with the last page it freed, which traps here;
    the test of the source for a NULL [free_dinode] never succeeds. *)
Fixpoint find_free_dinode (n : nat) (rdev i : Z) : M (fs A) (Z * rfs_dinode * Z) :=
  match n with
  | O => fault
  | S n' =>
      pd <- rfs_read_dinode rdev i ;;
      let '(page, d) := pd in
      if di_type d =? R_FREE then ret (page, d, i)
      else fs_free page ;;; find_free_dinode n' rdev (i + 1)
  end.

(** The disk inode of a new file or directory. *)
Definition new_dinode (parent type : Z) : M (fs A) Z :=
  rdev <- rdev_of parent ;;
  v <- get_vinode parent ;;
  f <- find_free_dinode (Z.to_nat (RFS_BLKSIZE / RFS_INODESIZE * RFS_MAX_INODE_BLKNUM)) rdev 0 ;;
  let '(page, d, free_inum) := f in
  nb <- rfs_alloc_block (i_sb v) ;;
  addrs <- deref (set_index (di_addrs d) 0 nb) ;;
  on_rdev rdev (rfs_write_dinode {| di_size := 0; di_type := type; di_nlinks := 1; di_blocks := 1;
    di_addrs := addrs |} free_inum) ;;;
  fs_free page ;;;
  ret free_inum.

(** A vinode read from the disk. *)
Definition load_vinode (sb n : Z) : M (fs A) Z :=
  p <- rfs_alloc_vinode sb ;;
  c <- get_vinode p ;;
  put_vinode p (c <| inum := n |>) ;;;
  rfs_update_vinode p ;;;
  ret p.

Definition rfs_create (parent sub_dentry : Z) : M (fs A) Z :=
  free_inum <- new_dinode parent R_FILE ;;
  v <- get_vinode parent ;;
  new_vinode <- load_vinode (i_sb v) free_inum ;;
  d <- get_dentry sub_dentry ;;
  result <- rfs_add_direntry parent (d_name d) free_inum ;;
  if result =? -1 then ret 0 else ret new_vinode.

Definition rfs_mkdir (parent sub_dentry : Z) : M (fs A) Z :=
  free_inum <- new_dinode parent R_DIR ;;
  d <- get_dentry sub_dentry ;;
  result <- rfs_add_direntry parent (d_name d) free_inum ;;
  if result =? -1 then ret 0 else
  v <- get_vinode parent ;;
  load_vinode (i_sb v) free_inum.

Definition rfs_link (parent sub_dentry link_node : Z) : M (fs A) Z :=
  v <- get_vinode link_node ;;
  put_vinode link_node (v <| i_nlinks := i32 (i_nlinks v + 1) |>) ;;;
  d <- get_dentry sub_dentry ;;
  rfs_add_direntry parent (d_name d) (inum v) ;;;
  rfs_write_back_vinode link_node ;;;
  ret 0.

(** Free the blocks [addrs[i]] for [i] below [n]. *)
Fixpoint free_blocks (n : nat) (i sb : Z) (addrs : list Z) : M (fs A) unit :=
  match n with
  | O => ret tt
  | S n' => a <- deref (at_index addrs i) ;; rfs_free_block sb a ;;; free_blocks n' (i + 1) sb addrs
  end.

(** Move the entries behind [offset] one place to the front of the buffer. *)
Definition close_gap (offset : Z) (b : list Z) : list Z :=
  splice (Z.to_nat (offset * DIRENTRY_SIZE))
    (take (Z.to_nat ((one_block_direntrys - offset - 1) * DIRENTRY_SIZE))
       (drop (Z.to_nat ((offset + 1) * DIRENTRY_SIZE)) b)) b.

(** The blocks behind the one that lost an entry: each gives its first entry to the
    block before it.  [previous] is the page and the contents of that block. *)
Fixpoint shift_blocks (n : nat) (rdev : Z) (addrs : list Z) (i : Z) (previous : Z * list Z)
    : M (fs A) (Z * list Z) :=
  match n with
  | O => ret previous
  | S n' =>
      a <- deref (at_index addrs i) ;;
      on_rdev rdev (rfs_r1block a) ;;;
      this <- alloc_obj ;;
      io <- on_rdev rdev (buf_get 0 RFS_BLKSIZE) ;;
      first <- deref (copy_out io 0 DIRENTRY_SIZE) ;;
      prev <- deref (copy_in previous.2 ((one_block_direntrys - 1) * DIRENTRY_SIZE) first) ;;
      on_rdev rdev (buf_put 0 prev) ;;;
      a <- deref (at_index addrs (i - 1)) ;;
      on_rdev rdev (rfs_w1block a) ;;;
      fs_free previous.1 ;;;
      shift_blocks n' rdev addrs (i + 1) (this, close_gap 0 io)
  end.

Definition rfs_unlink (parent sub_dentry unlink_vinode : Z) : M (fs A) Z :=
  rdev <- rdev_of parent ;;
  v <- get_vinode parent ;;
  d <- get_dentry sub_dentry ;;
  let total := total_direntrys (i_size v) in
  if total <=? 0 then fault else
  found <- scan_direntries (Z.to_nat total) rdev (i_addrs v) 0 0 (d_name d) ;;
  match found with
  | None => ret (-1)
  | Some (delete_index, n) =>
      pd <- rfs_read_dinode rdev n ;;
      let '(page, dinode) := pd in
      u <- get_vinode unlink_vinode ;;
      kassert (i_nlinks u =? di_nlinks dinode) "unlink_vinode->nlinks == unlink_dinode->nlinks" ;;;
      let nlinks := i32 (i_nlinks u - 1) in
      put_vinode unlink_vinode (u <| i_nlinks := nlinks |>) ;;;
      (if nlinks =? 0 then free_blocks (Z.to_nat (di_blocks dinode)) 0 (i_sb v) (di_addrs dinode) else ret tt) ;;;
      let dinode := if nlinks =? 0 then dinode <| di_nlinks := nlinks |> <| di_type := R_FREE |>
                    else dinode <| di_nlinks := nlinks |> in
      on_rdev rdev (rfs_write_dinode dinode n) ;;;
      fs_free page ;;;
      let delete_block_index := Z.quot delete_index one_block_direntrys in
      a <- deref (at_index (i_addrs v) delete_block_index) ;;
      on_rdev rdev (rfs_r1block a) ;;;
      on_rdev rdev (modify (fun d => d <| iobuffer := close_gap (Z.rem delete_index one_block_direntrys) (iobuffer d) |>)) ;;;
      previous <- alloc_obj ;;
      io <- on_rdev rdev (buf_get 0 RFS_BLKSIZE) ;;
      last <- shift_blocks (Z.to_nat (i_blocks v - (delete_block_index + 1))) rdev (i_addrs v)
                (delete_block_index + 1) (previous, io) ;;
      on_rdev rdev (buf_put 0 last.2) ;;;
      a <- deref (at_index (i_addrs v) (i_blocks v - 1)) ;;
      on_rdev rdev (rfs_w1block a) ;;;
      fs_free last.1 ;;;
      v <- get_vinode parent ;;
      (if (Z.rem (total - 1) one_block_direntrys =? 0) && (1 <? i_blocks v) then
         a <- deref (at_index (i_addrs v) (i_blocks v - 1)) ;;
         rfs_free_block (i_sb v) a ;;;
         put_vinode parent (v <| i_blocks := i32 (i_blocks v - 1) |>)
       else ret tt) ;;;
      v <- get_vinode parent ;;
      put_vinode parent (v <| i_size := i32 (i_size v - DIRENTRY_SIZE) |>) ;;;
      r <- rfs_write_back_vinode parent ;;
      if negb (r =? 0) then ret (-1) else ret 0
  end.

(** The blocks of the directory are read from the last to the first into pages that
    must lie behind one another. *)
Fixpoint read_dir (n : nat) (rdev : Z) (addrs : list Z) (pdire : Z) (bytes : list Z) : M (fs A) (Z * list Z) :=
  match n with
  | O => ret (pdire, bytes)
  | S i =>
      let previous := pdire in
      pdire <- fs_alloc ;;
      (if negb (previous =? 0) && negb (previous - pdire =? RFS_BLKSIZE)
       then panic "rfs_hook_opendir: memory discontinuity" else ret tt) ;;;
      a <- deref (addrs !! i) ;;
      on_rdev rdev (rfs_r1block a) ;;;
      (if pdire =? 0 then fault else ret tt) ;;;
      io <- on_rdev rdev (buf_get 0 RFS_BLKSIZE) ;;
      read_dir i rdev addrs pdire (io ++ bytes)
  end.

Definition rfs_hook_opendir (dir_vinode : Z) : M (fs A) Z :=
  rdev <- rdev_of dir_vinode ;;
  v <- get_vinode dir_vinode ;;
  r <- read_dir (Z.to_nat (i_blocks v)) rdev (i_addrs v) 0 [] ;;
  let '(pdire, bytes) := r in
  c <- alloc_obj ;;
  modify (fun s => s <| dir_caches := <[c := {| block_count := i_blocks v; dir_base_addr := pdire;
    dir_base := bytes |}]> (dir_caches s) |>) ;;;
  put_vinode dir_vinode (v <| i_fs_info := c |>) ;;;
  ret 0.

Fixpoint free_run (n : nat) (p : Z) : M (fs A) unit :=
  match n with O => ret tt | S n' => fs_free p ;;; free_run n' (p + RFS_BLKSIZE) end.

Definition rfs_hook_closedir (dir_vinode : Z) : M (fs A) Z :=
  v <- get_vinode dir_vinode ;;
  s <- gets id ;;
  c <- deref (dir_caches s !! i_fs_info v) ;;
  free_run (Z.to_nat (block_count c)) (dir_base_addr c) ;;;
  ret 0.

(** The result, the entry that is filled in, and the new offset. *)
Definition rfs_readdir (dir_vinode offset : Z) : M (fs A) (Z * option dir * Z) :=
  v <- get_vinode dir_vinode ;;
  if total_direntrys (i_size v) <=? offset then ret (-1, None, offset) else
  s <- gets id ;;
  c <- deref (dir_caches s !! i_fs_info v) ;;
  (if offset <? 0 then fault else ret tt) ;;;
  name <- deref (cstr_bytes (drop (Z.to_nat (offset * DIRENTRY_SIZE + 4)) (dir_base c))) ;;
  n <- deref (read_int (dir_base c) (offset * DIRENTRY_SIZE)) ;;
  ret (0, Some {| dir_name := name; dir_inum := n |}, i32 (offset + 1)).

(** * Mounting *)

Definition rfs_get_superblock (dev : Z) : M (fs A) Z :=
  d <- get_device dev ;;
  let rdev := dev_id d in
  r <- on_rdev rdev (rfs_r1block RFS_BLK_OFFSET_SUPER) ;;
  (if negb (r =? 0) then panic "RFS: failed to read superblock!" else ret tt) ;;;
  b <- on_rdev rdev (buf_get 0 16) ;;
  let w := of_ints 4 b in
  sb <- alloc_obj ;;
  magic <- deref (w !! 0%nat) ;; size <- deref (w !! 1%nat) ;;
  nblocks <- deref (w !! 2%nat) ;; ninodes <- deref (w !! 3%nat) ;;
  put_sb sb {| s_magic := magic; s_size := size; s_nblocks := nblocks; s_ninodes := ninodes;
               s_root := 0; s_dev := dev; s_fs_info := 0 |} ;;;
  (if negb (magic =? RFS_MAGIC) then panic "rfs_get_superblock: wrong ramdisk device!" else ret tt) ;;;
  root_inode <- load_vinode sb 0 ;;
  root_dentry <- alloc_vfs_dentry [47] root_inode 0 ;;
  r <- on_rdev rdev (rfs_r1block RFS_BLK_OFFSET_BITMAP) ;;
  (if negb (r =? 0) then panic "RFS: failed to read bitmap!" else ret tt) ;;;
  bitmap <- alloc_obj ;;
  io <- on_rdev rdev (buf_get 0 RFS_BLKSIZE) ;;
  put_freemap bitmap (of_ints 1024 io) ;;;
  x <- get_sb sb ;;
  put_sb sb (x <| s_root := root_dentry |> <| s_fs_info := bitmap |>) ;;;
  ret sb.

(** * init_rfs_device *)

(** The first registered file system of type RFS. *)
Fixpoint find_rfs_type (types : gmap Z file_system_type) (l : list Z) : option Z :=
  match l with
  | [] => None
  | p :: l' =>
      match types !! p with
      | Some t => if type_num t =? RFS_TYPE then Some p else find_rfs_type types l'
      | None => find_rfs_type types l'
      end
  end.

(** [n] pages, each below the one before it; the list holds the last one first. *)
Fixpoint alloc_disk (n : nat) (curr_addr : Z) (pages : list Z) : M (fs A) (list Z) :=
  match n with
  | O => ret pages
  | S n' =>
      p <- fs_alloc ;;
      (if negb (curr_addr =? 0) && negb (curr_addr - p =? PGSIZE)
       then panic "RAM Disk0: address is discontinuous!" else ret tt) ;;;
      alloc_disk n' p (p :: pages)
  end.

Fixpoint first_free_rdev (l : list (option rfs_device)) : option nat :=
  match l with
  | [] => None
  | None :: _ => Some 0%nat
  | Some _ :: l' => S <$> first_free_rdev l'
  end.

Definition init_rfs_device (dev_name : cname) : M (fs A) Z :=
  s <- gets id ;;
  match find_rfs_type (fs_types s) (fs_list s) with
  | None => panic "No RFS file system found!"
  | Some fs_type =>
      pages <- alloc_disk (Z.to_nat RAMDISK_BLOCK_COUNT) 0 [] ;;
      s <- gets id ;;
      match first_free_rdev (rfs_device_list s) with
      | None => panic "RAM Disk0: no free device!"
      | Some device_id =>
          alloc_obj ;;;
          io <- fs_alloc ;;
          modify (fun s => s <| rfs_device_list := <[device_id := Some
            {| d_data := stale_bytes <$> pages; iobuffer := if io =? 0 then [] else stale_bytes io |}]> (rfs_device_list s) |>) ;;;
          device <- alloc_obj ;;
          put_device device {| dev_name := dev_name; dev_id := Z.of_nat device_id; dev_fs_type := fs_type |} ;;;
          s <- gets id ;;
          (match first_null (vfs_dev_list s) with
           | Some i => modify (fun s => s <| vfs_dev_list := <[i := device]> (vfs_dev_list s) |>)
           | None => ret tt
           end) ;;;
          ret device
      end
  end.
End rfs.
