(* ===== verification/RfsFile.v ===== *)
(** Files of the RAM-disk file system: what [rfs_read] and [rfs_write] do to the
    bytes of a file, the bitmap and the blocks of the disk. *)

From S2P Require Import Prelude PageAlloc Pmm HashTable SpikeFile FsData Ramdev Rfs.

(** * Files on the disk *)

Definition BLOCKS : Z := 100.

(** Byte [j] of a file. *)
Definition fbyte (d : rfs_device) (v : vinode) (j : Z) : option Z :=
  match at_index (i_addrs v) (j / 4096) with
  | Some a => at_index (block d a) (j mod 4096)
  | None => None
  end.

Definition free_count (fm : list Z) : Z := Z.of_nat (length (filter (fun x => x = 0) (take 100 fm))).

(** The blocks of the file are different data blocks that the bitmap marks as used,
    and they hold its size. *)
Record file_ok (v : vinode) (fm : list Z) : Prop := {
  fo_addrs : length (i_addrs v) = 10%nat;
  fo_blocks : 0 <= i_blocks v <= 10;
  fo_size : 0 <= i_size v <= i_blocks v * 4096;
  fo_map : length fm = 1024%nat;
  fo_used j : 0 <= j < i_blocks v ->
    exists a, at_index (i_addrs v) j = Some a /\ 12 <= a < 112 /\ at_index fm (a - 12) = Some 1;
  fo_inj j k a : 0 <= j < i_blocks v -> 0 <= k < i_blocks v ->
    at_index (i_addrs v) j = Some a -> at_index (i_addrs v) k = Some a -> j = k;
}.

(** ** The bitmap *)

Lemma find_block_run n block fm :
  0 <= block -> (Z.to_nat block + n <= length fm)%nat ->
  (exists x, find_block n block fm = Some (Some x) /\ block <= x < block + Z.of_nat n /\ at_index fm x = Some 0 /\
     forall y, block <= y < x -> at_index fm y <> Some 0) \/
  find_block n block fm = Some None /\ forall y, block <= y < block + Z.of_nat n -> at_index fm y <> Some 0.
Proof.
  revert block. induction n as [|n IH]; intros block Hb Hn; cbn [find_block].
  - right. split; [done|]. intros. lia.
  - destruct (at_index_is_Some fm block) as [x Hx]; [lia|]. rewrite Hx.
    destruct (Z.eqb_spec x 0) as [->|Hx0].
    + left. exists block. split_and!; [done|lia|lia|done|]. intros. lia.
    + assert (forall y, y = block -> at_index fm y <> Some 0) as H0 by (intros y ->; rewrite Hx; congruence).
      destruct (IH (block + 1)) as [(y & Hy & Hr & Hz & Hmin)|[Hn' Hall]]; [lia|lia|left|right].
      * exists y. split_and!; [done|lia|lia|done|]. intros z Hz'.
        destruct (decide (z = block)); [by apply H0|]. apply Hmin. lia.
      * split; [done|]. intros y Hy. destruct (decide (y = block)); [by apply H0|]. apply Hall. lia.
Qed.

Lemma free_count_insert fm x :
  0 <= x < 100 -> at_index fm x = Some 0 -> free_count (<[Z.to_nat x := 1]> fm) = free_count fm - 1.
Proof.
  intros Hx Hz. rewrite at_index_nat in Hz by lia. unfold free_count.
  rewrite take_insert, decide_True by lia.
  assert (take 100 fm !! Z.to_nat x = Some 0) as Hz' by (rewrite lookup_take_lt; [done|lia]).
  pose proof (take_drop_middle _ _ _ Hz') as E.
  set (l := take 100 fm) in *.
  rewrite (insert_take_drop l) by (by eapply lookup_lt_Some).
  replace (length (filter (fun y => y = 0) l)) with
    (length (filter (fun y => y = 0) (take (Z.to_nat x) l ++ 0 :: drop (S (Z.to_nat x)) l))) by by rewrite E.
  rewrite !filter_app, !filter_cons. cbn beta.
  rewrite (decide_False (P := 1 = 0)), (decide_True (P := 0 = 0)) by done.
  rewrite !length_app. cbn [length]. lia.
Qed.

Lemma find_block_free fm :
  length fm = 1024%nat -> 0 < free_count fm ->
  exists x, find_block 100 0 fm = Some (Some x) /\ 0 <= x < 100 /\ at_index fm x = Some 0.
Proof.
  intros Hl Hc. destruct (find_block_run 100 0 fm) as [(x & Hx & Hr & Hz & _)|[_ Hall]]; [lia|lia|by exists x|].
  exfalso. unfold free_count in Hc.
  destruct (filter (fun x => x = 0) (take 100 fm)) as [|y l] eqn:E; [cbn in Hc; lia|].
  assert (y ∈ filter (fun x => x = 0) (take 100 fm)) as Hy by (rewrite E; left).
  apply list_elem_of_filter in Hy as [-> Hy]. apply list_elem_of_lookup in Hy as [i Hi].
  assert (i < 100)%nat as Hi' by (apply lookup_lt_Some in Hi; rewrite length_take in Hi; lia).
  rewrite lookup_take_lt in Hi by done. apply (Hall (Z.of_nat i)); [lia|].
  rewrite at_index_nat by lia. by rewrite Nat2Z.id.
Qed.

(** ** A mounted file *)

(** [vp] is a vinode of the mounted RAM disk [rd], whose bitmap is at [bm]. *)
Record mounted {A} (s : fs A) (vp rd bm : Z) (b : super_block) (v : vinode) (d : rfs_device) (fm : list Z)
    : Prop := {
  mt_vinode : vinodes s !! vp = Some v;
  mt_sb : super_blocks s !! i_sb v = Some b;
  mt_dev : exists x, devices s !! s_dev b = Some x /\ dev_id x = rd;
  mt_rdev : at_index (rfs_device_list s) rd = Some (Some d);
  mt_map : freemaps s !! bm = Some fm;
  mt_info : s_fs_info b = bm;
  mt_nblocks : s_nblocks b = BLOCKS;
  mt_wf : rdev_wf d;
}.

Section file.
Context {A : Type} {PA : PageAlloc A} {ST : Stale}.
Context (s : fs A) (vp rd bm : Z) (b : super_block).

(** The state with another device, vinode and bitmap. *)
Definition fs_at (d : rfs_device) (v : vinode) (fm : list Z) : fs A :=
  s <| rfs_device_list := <[Z.to_nat rd := Some d]> (rfs_device_list s) |> <| vinodes := <[vp := v]> (vinodes s) |>
    <| freemaps := <[bm := fm]> (freemaps s) |>.

Lemma fs_at_id v d fm : mounted s vp rd bm b v d fm -> fs_at d v fm = s.
Proof.
  intros [H1 _ _ H4 H5 _ _ _]. unfold fs_at, upd. destruct s; cbn in *.
  pose proof (at_index_Some _ _ _ H4). rewrite at_index_nat in H4 by lia.
  by rewrite list_insert_id, !insert_id.
Qed.

Context (v0 : vinode) (d0 : rfs_device) (fm0 : list Z) (Hm : mounted s vp rd bm b v0 d0 fm0).

Lemma fa_rdev {B} (c : M rfs_device B) d v fm a d' :
  c d = Ret a d' -> on_rdev rd c (fs_at d v fm) = Ret a (fs_at d' v fm).
Proof.
  intros E. pose proof (mt_rdev _ _ _ _ _ _ _ _ Hm) as Hr. pose proof (at_index_Some _ _ _ Hr) as Hb.
  unfold on_rdev. cbn. rewrite at_index_insert by done. rewrite Z.eqb_refl. unfold zoom. rewrite E.
  unfold fs_at. cbn. by rewrite list_insert_insert_eq.
Qed.

Lemma fa_get d v fm : get_vinode vp (fs_at d v fm) = Ret v (fs_at d v fm).
Proof. unfold get_vinode, bind, gets, id. cbn. by rewrite lookup_insert_eq. Qed.

Lemma fa_put d v fm v' : put_vinode vp v' (fs_at d v fm) = Ret tt (fs_at d v' fm).
Proof. unfold put_vinode, modify, fs_at. cbn. by rewrite insert_insert_eq. Qed.

Lemma fa_rdev_of d v fm : i_sb v = i_sb v0 -> rdev_of vp (fs_at d v fm) = Ret rd (fs_at d v fm).
Proof.
  intros E. destruct Hm as [_ Hs (x & Hx & Hid) _ _ _ _ _]. unfold rdev_of. step (fa_get d v fm).
  rewrite E. unfold bind, get_sb, get_device, gets. cbn. unfold id.
  change (super_blocks (fs_at d v fm)) with (super_blocks s). rewrite Hs. cbn.
  change (devices (fs_at d v fm)) with (devices s). rewrite Hx. cbn. by rewrite Hid.
Qed.

Lemma fa_sb d v fm : get_sb (i_sb v0) (fs_at d v fm) = Ret b (fs_at d v fm).
Proof.
  destruct Hm as [_ Hs _ _ _ _ _ _]. unfold get_sb, bind, gets. cbn.
  change (super_blocks (fs_at d v fm)) with (super_blocks s). by rewrite Hs.
Qed.

Lemma fa_alloc_block d v fm x :
  find_block 100 0 fm = Some (Some x) -> length fm = 1024%nat -> 0 <= x < 100 ->
  rfs_alloc_block (i_sb v0) (fs_at d v fm) = Ret (12 + x) (fs_at d v (<[Z.to_nat x := 1]> fm)).
Proof.
  intros Hf Hl Hx. destruct Hm as [_ _ _ _ _ Hi Hn _]. unfold rfs_alloc_block. step (fa_sb d v fm). rewrite Hi, Hn.
  assert (get_freemap bm (fs_at d v fm) = Ret fm (fs_at d v fm)) as Eg.
  { unfold get_freemap, bind, gets, id. cbn. by rewrite lookup_insert_eq. }
  step Eg. change (Z.to_nat BLOCKS) with 100%nat. rewrite Hf. unfold deref.
  step (eq_refl : ret (Some x) (fs_at d v fm) = Ret (Some x) (fs_at d v fm)).
  rewrite set_index_eq by lia.
  step (eq_refl : ret (<[Z.to_nat x := 1]> fm) (fs_at d v fm) = Ret (<[Z.to_nat x := 1]> fm) (fs_at d v fm)).
  unfold put_freemap, bind, modify, ret, fs_at, RFS_BLK_OFFSET_FREE. cbn. by rewrite insert_insert_eq.
Qed.
(** ** The effect of a write *)

(** The bytes [lo, hi) of the file become [data]; those before [lo] stay, and so do the
    blocks behind the one that holds the last byte written, whose contents are in the I/O
    buffer.  Blocks the file gained were free; no other block of the disk changed. *)
Record wrote (d : rfs_device) (v : vinode) (fm : list Z) (d' : rfs_device) (v' : vinode) (fm' : list Z)
    (lo hi : Z) (data : Z -> option Z) : Prop := {
  wr_wf : rdev_wf d';
  wr_ok : file_ok v' fm';
  wr_vinode : v' = v <| i_addrs := i_addrs v' |> <| i_blocks := i_blocks v' |>;
  wr_blocks : i_blocks v' = Z.max (i_blocks v) ((hi + 4095) / 4096);
  wr_bytes j : 0 <= j < hi -> fbyte d' v' j = if lo <=? j then data j else fbyte d v j;
  wr_frame x : 0 <= x -> (forall j, 0 <= j < i_blocks v' -> at_index (i_addrs v') j <> Some x) ->
    block d' x = block d x;
  wr_map x : at_index fm' x = at_index fm x \/ at_index fm x = Some 0 /\ at_index fm' x = Some 1;
  wr_old j a : 0 <= j < i_blocks v -> at_index (i_addrs v) j = Some a -> at_index (i_addrs v') j = Some a;
  wr_new j a : i_blocks v <= j < i_blocks v' -> at_index (i_addrs v') j = Some a -> at_index fm (a - 12) = Some 0;
  wr_free : free_count fm' = free_count fm - (i_blocks v' - i_blocks v);
  wr_rest j : (hi + 4095) / 4096 * 4096 <= j < i_blocks v * 4096 -> fbyte d' v' j = fbyte d v j;
  wr_last j : lo < hi -> j / 4096 = (hi - 1) / 4096 -> fbyte d' v' j = at_index (iobuffer d') (j mod 4096);
  wr_nil : lo = hi -> d' = d /\ v' = v;
}.

Lemma wrote_trans d v fm d1 v1 fm1 d2 v2 fm2 lo mid hi data :
  0 <= lo <= mid -> mid <= hi -> 0 <= i_blocks v -> wrote d v fm d1 v1 fm1 lo mid data -> wrote d1 v1 fm1 d2 v2 fm2 mid hi data ->
  wrote d v fm d2 v2 fm2 lo hi data.
Proof.
  intros Hlo Hhi Hb0 [W1 O1 V1 B1 Y1 F1 U1 D1 N1 C1 R1 L1 Q1] [W2 O2 V2 B2 Y2 F2 U2 D2 N2 C2 R2 L2 Q2].
  split; [done|done|..].
  - rewrite V2, V1. reflexivity.
  - rewrite B2, B1. zdiv.
  - intros j Hj. rewrite Y2 by done. destruct (Z.leb_spec mid j), (Z.leb_spec lo j); try lia; try done.
    + rewrite Y1 by lia. by destruct (Z.leb_spec lo j); [|lia].
    + rewrite Y1 by lia. by destruct (Z.leb_spec lo j); [lia|].
  - intros x Hx Hn. rewrite F2 by done. apply F1; [done|]. intros j Hj E. apply (Hn j); [lia|]. by apply D2.
  - intros x. destruct (U1 x) as [E1|[Z1 E1]], (U2 x) as [E2|[Z2 E2]]; try congruence;
      [left; congruence|right; split; congruence..].
  - intros j a Hj E. apply D2; [lia|]. by apply D1.
  - intros j a Hj E. destruct (decide (j < i_blocks v1)).
    + destruct (fo_used _ _ O1 j) as (a' & Ea & _); [lia|].
      rewrite (D2 j a') in E by (lia || done). simplify_eq. apply (N1 j); [lia|done].
    + destruct (fo_used _ _ O2 j) as (a' & Ea & Ha & _); [lia|]. simplify_eq.
      assert (at_index fm1 (a - 12) = Some 0) as H0 by (apply (N2 j); [lia|done]).
      destruct (U1 (a - 12)) as [Hu|[_ Hu]]; congruence.
  - lia.
  - intros j Hj. rewrite R2, R1; [done|zdiv|zdiv].
  - intros j Hlt Ej. destruct (decide (mid = hi)) as [->|]; [|apply L2; [lia|done]].
    destruct (Q2 eq_refl) as [-> ->]. by apply L1.
  - intros ->. destruct Q2 as [-> ->]; [lia|]. apply Q1. lia.
Qed.
(** The file has block [bo], which was added if it had only [bo] blocks. *)
Record grown (v : vinode) (fm : list Z) (v' : vinode) (fm' : list Z) (bo : Z) : Prop := {
  gr_ok : file_ok v' fm';
  gr_vinode : v' = v <| i_addrs := i_addrs v' |> <| i_blocks := i_blocks v' |>;
  gr_blocks : i_blocks v' = Z.max (i_blocks v) (bo + 1);
  gr_map x : at_index fm' x = at_index fm x \/ at_index fm x = Some 0 /\ at_index fm' x = Some 1;
  gr_old j a : 0 <= j < i_blocks v -> at_index (i_addrs v) j = Some a -> at_index (i_addrs v') j = Some a;
  gr_new j a : i_blocks v <= j < i_blocks v' -> at_index (i_addrs v') j = Some a -> at_index fm (a - 12) = Some 0;
  gr_free : free_count fm' = free_count fm - (i_blocks v' - i_blocks v);
}.

Lemma grown_refl v fm bo : file_ok v fm -> 0 <= bo < i_blocks v -> grown v fm v fm bo.
Proof. intros Ho Hb. split; try done; [by destruct v|lia|by left|intros; lia|lia]. Qed.

Lemma grown_new v fm x :
  file_ok v fm -> i_blocks v < 10 -> 0 <= x < 100 -> at_index fm x = Some 0 ->
  grown v fm (v <| i_addrs := <[Z.to_nat (i_blocks v) := 12 + x]> (i_addrs v) |> <| i_blocks := i_blocks v + 1 |>)
    (<[Z.to_nat x := 1]> fm) (i_blocks v).
Proof.
  intros [H1 H2 H3 H4 H5 H6] Hb Hx Hz.
  assert (forall j, at_index (<[Z.to_nat (i_blocks v):=12 + x]> (i_addrs v)) j =
    if j =? i_blocks v then Some (12 + x) else at_index (i_addrs v) j) as Ha
    by (intros; apply at_index_insert; lia).
  assert (forall j, at_index (<[Z.to_nat x := 1]> fm) j = if j =? x then Some 1 else at_index fm j) as Hf
    by (intros; apply at_index_insert; lia).
  assert (forall j a, 0 <= j < i_blocks v -> at_index (i_addrs v) j = Some a -> a <> 12 + x) as Hne.
  { intros j a Hj Ej ->. destruct (H5 j Hj) as (a' & Ea & _ & Eu). simplify_eq.
    replace (12 + x - 12) with x in Eu by lia. congruence. }
  split; cbn.
  - split; cbn.
    + by rewrite length_insert.
    + lia.
    + lia.
    + by rewrite length_insert.
    + intros j Hj. rewrite Ha. destruct (Z.eqb_spec j (i_blocks v)).
      * exists (12 + x). rewrite Hf. replace (12 + x - 12) with x by lia. rewrite Z.eqb_refl. split_and!; [done|lia|lia|done].
      * destruct (H5 j) as (a & Ea & Hr & Eu); [lia|]. exists a. split_and!; [done|lia|lia|].
        rewrite Hf. destruct (Z.eqb_spec (a - 12) x); done.
    + intros j k a Hj Hk. rewrite !Ha.
      destruct (Z.eqb_spec j (i_blocks v)), (Z.eqb_spec k (i_blocks v)); intros Ej Ek; simplify_eq; try lia.
      * destruct (Hne k (12 + x)); [lia|done|done].
      * destruct (Hne j (12 + x)); [lia|done|done].
      * apply (H6 j k a); [lia|lia|done|done].
  - by destruct v.
  - lia.
  - intros j. rewrite Hf. destruct (Z.eqb_spec j x) as [->|]; [right; done|by left].
  - intros j a Hj Ej. rewrite Ha. destruct (Z.eqb_spec j (i_blocks v)); [lia|done].
  - intros j a Hj. assert (j = i_blocks v) as -> by lia. rewrite Ha, Z.eqb_refl. intros [= <-].
    by replace (12 + x - 12) with x by lia.
  - rewrite free_count_insert by done. lia.
Qed.

(** Storing [nb] in block [bo] of the file. *)
Lemma grown_wrote d v fm d' v' fm' bo a nb lo hi data :
  file_ok v fm -> grown v fm v' fm' bo -> 0 <= bo <= i_blocks v -> at_index (i_addrs v') bo = Some a ->
  rdev_wf d' -> (forall x, 0 <= x -> block d' x = if x =? a then nb else block d x) -> iobuffer d' = nb ->
  bo * 4096 <= lo -> lo < hi <= bo * 4096 + 4096 -> (bo = i_blocks v -> lo = bo * 4096) ->
  (forall j, bo * 4096 <= j < hi ->
     at_index nb (j - bo * 4096) = if lo <=? j then data j else at_index (block d a) (j - bo * 4096)) ->
  wrote d v fm d' v' fm' lo hi data.
Proof.
  intros Ho [G1 G2 G3 G4 G5 G6 G7] Hbo Ha Hw Hb Hio Hlo Hhi Hnew Hn.
  assert ((hi + 4095) / 4096 = bo + 1) as Ehi by zdiv.
  split; try done.
  - by rewrite Ehi.
  - intros j Hj. unfold fbyte. destruct (decide (bo * 4096 <= j)).
    + assert (j / 4096 = bo) as -> by zdiv. assert (j mod 4096 = j - bo * 4096) as -> by zdiv.
      rewrite Ha. destruct (fo_used _ _ G1 bo) as (a' & Ea & Hr & _); [lia|]. simplify_eq.
      rewrite Hb, Z.eqb_refl, Hn by lia. destruct (Z.leb_spec lo j); [done|].
      destruct (fo_used _ _ Ho bo) as (a' & Ea' & _); [lia|]. rewrite Ea'.
      rewrite (G5 bo a') in Ha by (lia || done). by simplify_eq.
    + destruct (Z.leb_spec lo j); [lia|]. assert (0 <= j / 4096 < bo) as Hj' by zdiv.
      destruct (fo_used _ _ Ho (j / 4096)) as (a' & Ea' & Hr & _); [lia|]. rewrite Ea'.
      pose proof (G5 (j / 4096) a' ltac:(lia) Ea') as Ej. rewrite Ej, Hb by lia.
      destruct (Z.eqb_spec a' a) as [->|]; [|done].
      assert (j / 4096 = bo); [|lia]. apply (fo_inj _ _ G1 _ _ a); [lia|lia|done|done].
  - intros x Hx Hne. rewrite Hb by done. destruct (Z.eqb_spec x a) as [->|]; [|done].
    destruct (Hne bo); [lia|done].
  - rewrite Ehi. intros j Hj. assert (bo < j / 4096 < i_blocks v) as Hj' by zdiv. unfold fbyte.
    destruct (fo_used _ _ Ho (j / 4096)) as (a' & Ea' & Hr & _); [lia|]. rewrite Ea'.
    pose proof (G5 (j / 4096) a' ltac:(lia) Ea') as Ej. rewrite Ej, Hb by lia.
    destruct (Z.eqb_spec a' a) as [->|]; [|done].
    assert (j / 4096 = bo); [|lia]. apply (fo_inj _ _ G1 _ _ a); [lia|lia|done|done].
  - intros j _ Hjb. assert ((hi - 1) / 4096 = bo) as El by zdiv. rewrite El in Hjb. unfold fbyte.
    destruct (fo_used _ _ G1 bo) as (a' & Ea & Hr & _); [lia|]. assert (a' = a) as -> by congruence.
    rewrite Hjb, Ha, Hb, Z.eqb_refl, Hio by lia. done.
  - lia.
Qed.
(** The block [write_block] writes to. *)
Lemma grow_run d v fm bo :
  file_ok v fm -> i_sb v = i_sb v0 -> 0 <= bo <= i_blocks v -> bo < 10 ->
  (bo = i_blocks v -> 0 < free_count fm) ->
  exists v' fm', grown v fm v' fm' bo /\ i_sb v' = i_sb v0 /\
    (if bo =? i_blocks v then
       nb <- rfs_alloc_block (i_sb v) ;;
       addrs <- deref (set_index (i_addrs v) bo nb) ;;
       put_vinode vp (v <| i_addrs := addrs |> <| i_blocks := i32 (i_blocks v + 1) |>)
     else ret tt) (fs_at d v fm) = Ret tt (fs_at d v' fm').
Proof.
  intros Ho Hsb Hbo Hlt Hf. destruct (Z.eqb_spec bo (i_blocks v)) as [->|Hne].
  - destruct (find_block_free fm) as (x & Ex & Hx & Hz); [apply Ho|by apply Hf|].
    do 2 eexists. split; [by apply (grown_new v fm x)|]. split; [done|].
    rewrite Hsb. step (fa_alloc_block d v fm x Ex (fo_map _ _ Ho) Hx).
    pose proof (fo_addrs _ _ Ho). rewrite set_index_eq by lia. unfold deref, bind, ret.
    rewrite i32_small by lia. apply fa_put.
  - exists v, fm. split; [apply grown_refl; [done|lia]|]. done.
Qed.

Lemma write_block_run d v fm bo w_buf bf n data :
  rdev_wf d -> file_ok v fm -> i_sb v = i_sb v0 -> 0 <= bo <= i_blocks v -> bo < 10 ->
  0 < n <= 4096 -> 0 <= bf -> bf + n <= Z.of_nat (length w_buf) -> (bo = i_blocks v -> 0 < free_count fm) ->
  (forall j, bo * 4096 <= j < bo * 4096 + n -> at_index w_buf (bf + (j - bo * 4096)) = data j) ->
  exists d' v' fm',
    write_block vp rd bo w_buf bf n (fs_at d v fm) = Ret tt (fs_at d' v' fm') /\
    wrote d v fm d' v' fm' (bo * 4096) (bo * 4096 + n) data /\
    (forall j, bo * 4096 + n <= j < bo * 4096 + 4096 -> fbyte d' v' j = at_index (iobuffer d) (j - bo * 4096)).
Proof.
  intros Hw Ho Hsb Hbo Hlt Hn Hbf Hlen Hf Hdata.
  destruct (grow_run d v fm bo Ho Hsb Hbo Hlt Hf) as (v' & fm' & Hg & Hsb' & Eg).
  pose proof (gr_blocks _ _ _ _ _ Hg) as Hgb.
  destruct (fo_used _ _ (gr_ok _ _ _ _ _ Hg) bo) as (a & Ea & Hra & _); [lia|].
  set (chunk := take (Z.to_nat n) (drop (Z.to_nat bf) w_buf)).
  assert (length chunk = Z.to_nat n) as Hlc by (unfold chunk; rewrite length_take, length_drop; lia).
  destruct (buf_put_eq d 0 chunk Hw) as [Ep Hw1]; [lia|lia|]. pose proof (rw_buffer _ Hw) as Hio.
  set (nb := splice (Z.to_nat 0) chunk (iobuffer d)) in *. set (d1 := d <| iobuffer := nb |>) in *.
  assert (is_block a) as Hba by (unfold is_block; lia).
  pose proof (ramdisk_write_eq d1 a Hw1 Hba) as Ew. set (d2 := d1 <| d_data := _ |>) in Ew.
  assert (forall x, 0 <= x -> block d2 x = if x =? a then nb else block d x) as Hb2.
  { intros x Hx. unfold d2. rewrite block_insert by done. by destruct (x =? a). }
  assert (forall j, 0 <= j -> at_index nb j = if j <? n then at_index w_buf (bf + j) else at_index (iobuffer d) j) as Hnb.
  { intros j Hj. unfold nb. rewrite at_index_splice by lia. rewrite Hlc.
    destruct (Z.leb_spec 0 j); [|lia]. replace (0 + Z.of_nat (Z.to_nat n)) with n by lia.
    destruct (Z.ltb_spec j n); cbn [andb]; [|done]. replace (j - 0) with j by lia. apply at_index_sub; lia. }
  exists d2, v', fm'. split_and!.
  - unfold write_block. step (fa_get d v fm). step Eg.
    rewrite copy_out_eq by lia. fold chunk.
    step (eq_refl : deref (Some chunk) (fs_at d v' fm') = Ret chunk (fs_at d v' fm')).
    step (fa_rdev (buf_put 0 chunk) d v' fm' tt d1 Ep). step (fa_get d1 v' fm').
    rewrite Ea. step (eq_refl : deref (Some a) (fs_at d1 v' fm') = Ret a (fs_at d1 v' fm')).
    by step (fa_rdev (rfs_w1block a) d1 v' fm' 0 d2 Ew).
  - apply (grown_wrote d v fm d2 v' fm' bo a nb); try done; try lia.
    + apply disk_wf; [done|exact (rw_buffer _ Hw1)].
    + intros j Hj. rewrite Hnb by lia. destruct (Z.ltb_spec (j - bo * 4096) n); [|lia].
      destruct (Z.leb_spec (bo * 4096) j); [|lia]. apply Hdata. lia.
  - intros j Hj. unfold fbyte. assert (j / 4096 = bo) as -> by zdiv. assert (j mod 4096 = j - bo * 4096) as -> by zdiv.
    rewrite Ea, Hb2, Z.eqb_refl, Hnb by lia. by destruct (Z.ltb_spec (j - bo * 4096) n); [lia|].
Qed.

Lemma wrote_sb d v fm d' v' fm' lo hi data : wrote d v fm d' v' fm' lo hi data -> i_sb v' = i_sb v /\ i_size v' = i_size v.
Proof. intros W. rewrite (wr_vinode _ _ _ _ _ _ _ _ _ W). done. Qed.

Lemma wrote_nil d v fm lo data :
  rdev_wf d -> file_ok v fm -> 0 <= lo -> (lo + 4095) / 4096 <= i_blocks v ->
  wrote d v fm d v fm lo lo data.
Proof.
  intros Hw Ho Hlo Hb. split; try done; [by destruct v|lia| |by left|intros; lia|lia|lia].
  intros j Hj. by destruct (Z.leb_spec lo j); [lia|].
Qed.

Lemma write_blocks_run n : forall d v fm bo w_buf bf data,
  rdev_wf d -> file_ok v fm -> i_sb v = i_sb v0 -> 0 <= bo <= i_blocks v -> bo + Z.of_nat n <= 10 ->
  0 <= bf -> bf + Z.of_nat n * 4096 <= Z.of_nat (length w_buf) -> bo + Z.of_nat n - i_blocks v <= free_count fm ->
  (forall j, bo * 4096 <= j < (bo + Z.of_nat n) * 4096 -> at_index w_buf (bf + (j - bo * 4096)) = data j) ->
  exists d' v' fm',
    write_blocks n vp rd bo w_buf bf (fs_at d v fm) = Ret tt (fs_at d' v' fm') /\
    wrote d v fm d' v' fm' (bo * 4096) ((bo + Z.of_nat n) * 4096) data.
Proof.
  induction n as [|n IH]; intros d v fm bo w_buf bf data Hw Ho Hsb Hbo Hlt Hbf Hlen Hf Hd; cbn [write_blocks].
  - exists d, v, fm. split; [done|]. replace (bo + Z.of_nat 0) with bo by lia.
    apply wrote_nil; [done|done|lia|zdiv].
  - destruct (write_block_run d v fm bo w_buf bf 4096 data) as (d1 & v1 & fm1 & E1 & W1 & _);
      try done; try lia; [intros; apply Hd; lia|].
    destruct (wrote_sb _ _ _ _ _ _ _ _ _ W1) as [Hsb1 _]. pose proof (wr_blocks _ _ _ _ _ _ _ _ _ W1) as Hb1.
    pose proof (wr_free _ _ _ _ _ _ _ _ _ W1) as Hf1.
    assert ((bo * 4096 + 4096 + 4095) / 4096 = bo + 1) as Ec by zdiv. rewrite Ec in Hb1.
    destruct (IH d1 v1 fm1 (bo + 1) w_buf (bf + 4096) data) as (d2 & v2 & fm2 & E2 & W2);
      [apply W1|apply W1|congruence|lia|lia|lia|lia|lia| |].
    { intros j Hj. rewrite <-Hd by lia. f_equal. lia. }
    exists d2, v2, fm2. split; [step E1; exact E2|].
    apply (wrote_trans _ _ _ d1 v1 fm1 _ _ _ _ ((bo + 1) * 4096)); [lia|lia|apply Ho| |].
    + by replace ((bo + 1) * 4096) with (bo * 4096 + 4096) by lia.
    + by replace (bo + Z.of_nat (S n)) with (bo + 1 + Z.of_nat n) by lia.
Qed.
(** The blocks of a write from a block boundary on. *)
Lemma write_tail_run d v fm bo wt remain w_buf bf data :
  rdev_wf d -> file_ok v fm -> i_sb v = i_sb v0 -> 0 <= bo <= i_blocks v -> 0 <= wt -> 0 <= remain < 4096 ->
  let hi := (bo + wt) * 4096 + remain in
  hi <= 40960 -> 0 <= bf -> bf + wt * 4096 + remain <= Z.of_nat (length w_buf) ->
  (hi + 4095) / 4096 - i_blocks v <= free_count fm ->
  (forall j, bo * 4096 <= j < hi -> at_index w_buf (bf + (j - bo * 4096)) = data j) ->
  exists d' v' fm',
    (write_blocks (Z.to_nat wt) vp rd bo w_buf bf ;;;
     if 0 <? remain then write_block vp rd (bo + wt) w_buf (bf + wt * RFS_BLKSIZE) remain else ret tt)
      (fs_at d v fm) = Ret tt (fs_at d' v' fm') /\
    wrote d v fm d' v' fm' (bo * 4096) hi data /\
    (forall j, hi <= j -> j / 4096 = bo + wt -> 0 < remain ->
       fbyte d' v' j = if wt =? 0 then at_index (iobuffer d) (j mod 4096) else fbyte d' v' (j - 4096)).
Proof.
  intros Hw Ho Hsb Hbo Hwt Hr hi Hhi Hbf Hlen Hf Hd. assert (hi = (bo + wt) * 4096 + remain) as Ehi by done.
  pose proof (fo_blocks _ _ Ho) as Hbl.
  destruct (write_blocks_run (Z.to_nat wt) d v fm bo w_buf bf data) as (d1 & v1 & fm1 & E1 & W1);
    try done; try lia; [zdiv|intros; apply Hd; lia|]. rewrite Z2Nat.id in W1 by lia.
  destruct (wrote_sb _ _ _ _ _ _ _ _ _ W1) as [Hsb1 _]. pose proof (wr_blocks _ _ _ _ _ _ _ _ _ W1) as Hb1.
  pose proof (wr_free _ _ _ _ _ _ _ _ _ W1) as Hf1.
  assert (((bo + wt) * 4096 + 4095) / 4096 = bo + wt) as Ec by zdiv. rewrite Ec in Hb1.
  destruct (Z.ltb_spec 0 remain).
  - destruct (write_block_run d1 v1 fm1 (bo + wt) w_buf (bf + wt * 4096) remain data) as (d2 & v2 & fm2 & E2 & W2 & Ht);
      [apply W1|apply W1|congruence|lia|zdiv|lia|lia|lia| | |].
    + intros E. assert ((hi + 4095) / 4096 = bo + wt + 1) by zdiv. lia.
    + intros j Hj. rewrite <-Hd by lia. f_equal. lia.
    + exists d2, v2, fm2. split; [by step E1|]. split; [apply (wrote_trans _ _ _ d1 v1 fm1 _ _ _ _ ((bo + wt) * 4096)); [lia|lia|lia|exact W1|exact W2]|].
      intros j Hj Ej _. assert (j mod 4096 = j - (bo + wt) * 4096) as Em by zdiv. rewrite Ht, Em by zdiv.
      destruct (Z.eqb_spec wt 0) as [->|].
      * destruct (wr_nil _ _ _ _ _ _ _ _ _ W1) as [-> _]; [lia|done].
      * rewrite (wr_bytes _ _ _ _ _ _ _ _ _ W2) by zdiv. destruct (Z.leb_spec ((bo + wt) * 4096) (j - 4096)); [zdiv|].
        rewrite (wr_last _ _ _ _ _ _ _ _ _ W1) by zdiv. f_equal. zdiv.
  - exists d1, v1, fm1. split; [by step E1|]. split; [by replace hi with ((bo + wt) * 4096) by lia|]. lia.
Qed.

(** The part of a write that fills up a block the file has already. *)
Lemma write_first_run d v fm offset w_buf n data :
  rdev_wf d -> file_ok v fm -> 0 <= offset -> offset / 4096 < i_blocks v -> offset mod 4096 + n <= 4096 -> 0 < n ->
  n <= Z.of_nat (length w_buf) -> (forall j, offset <= j < offset + n -> at_index w_buf (j - offset) = data j) ->
  exists a d1 d2 d3, at_index (i_addrs v) (offset / 4096) = Some a /\
    rfs_r1block a d = Ret 0 d1 /\ buf_put (offset mod 4096) (take (Z.to_nat n) w_buf) d1 = Ret tt d2 /\
    rfs_w1block a d2 = Ret 0 d3 /\ wrote d v fm d3 v fm offset (offset + n) data /\
    (forall j, offset + n <= j -> j / 4096 = offset / 4096 -> fbyte d3 v j = fbyte d v j).
Proof.
  intros Hw Ho Hoff Hb Hal Hn Hlen Hd. assert (0 <= offset / 4096) as Hq by zdiv.
  destruct (fo_used _ _ Ho (offset / 4096)) as (a & Ea & Hra & _); [lia|].
  assert (is_block a) as Hba by (unfold is_block; lia). exists a.
  pose proof (length_block d a Hw Hba) as Hlb. pose proof (buffer_wf d _ Hw Hlb) as Hw1.
  assert (length (take (Z.to_nat n) w_buf) = Z.to_nat n) as Hlt by (rewrite length_take; lia).
  destruct (buf_put_eq (d <| iobuffer := block d a |>) (offset mod 4096) (take (Z.to_nat n) w_buf) Hw1) as [Ep Hw2];
    [zdiv|lia|]. change (iobuffer (d <| iobuffer := block d a |>)) with (block d a) in *.
  set (nb := splice _ _ (block d a)) in *. set (d2 := d <| iobuffer := block d a |> <| iobuffer := nb |>) in *.
  do 3 eexists. split_and!; [done|apply (ramdisk_read_eq d a Hw Hba)|exact Ep|apply (ramdisk_write_eq d2 a Hw2 Hba)| |].
  2:{ intros j Hj Ej. unfold fbyte. rewrite Ej, Ea, block_insert, Z.eqb_refl by (done || lia).
      change (iobuffer d2) with nb. unfold nb. rewrite at_index_splice by (rewrite ?Hlt, ?Hlb; zdiv). rewrite Hlt.
      destruct (Z.ltb_spec (j mod 4096) (offset mod 4096 + Z.of_nat (Z.to_nat n))); [zdiv|]. by rewrite andb_false_r. }
  apply (grown_wrote d v fm _ v fm (offset / 4096) a nb); try done; try lia; try zdiv.
  - by apply grown_refl.
  - apply disk_wf; [done|exact (rw_buffer _ Hw2)].
  - intros x Hx. rewrite block_insert by done. by destruct (x =? a).
  - intros j Hj. unfold nb. rewrite at_index_splice by (rewrite ?Hlt, ?Hlb; zdiv). rewrite Hlt.
    assert (j - offset / 4096 * 4096 = offset mod 4096 + (j - offset)) as -> by zdiv.
    destruct (Z.leb_spec (offset mod 4096) (offset mod 4096 + (j - offset))), (Z.leb_spec offset j); try lia; cbn [andb].
    + destruct (Z.ltb_spec (offset mod 4096 + (j - offset)) (offset mod 4096 + Z.of_nat (Z.to_nat n))); [|lia].
      replace (offset mod 4096 + (j - offset) - offset mod 4096) with (j - offset) by lia.
      rewrite <-Hd by lia. rewrite <-(drop_0 w_buf) at 1. rewrite (at_index_sub w_buf 0 n) by lia. f_equal.
    + done.
Qed.
Lemma rem_quot_4096 x : 0 <= x -> Z.rem x RFS_BLKSIZE = x mod 4096 /\ Z.quot x RFS_BLKSIZE = x / 4096.
Proof. intros. change RFS_BLKSIZE with 4096. by rewrite Z.rem_mod_nonneg, Z.quot_div_nonneg by lia. Qed.

(** The byte at [j], behind a write of [len] bytes at [offset].  A block behind the last
    one written keeps its bytes.  The rest of the last one keeps its bytes only when the
    write starts inside that block, which is then read first; otherwise it gets what the I/O
    buffer holds: the block written before it, or whatever the buffer held at the call. *)
Definition behind (d : rfs_device) (v : vinode) (d' : rfs_device) (v' : vinode) (offset len j : Z) : option Z :=
  let last := (offset + len - 1) / 4096 in
  if negb (j / 4096 =? last) then fbyte d v j
  else if negb (last =? offset / 4096) then fbyte d' v' (j - 4096)
  else if offset mod 4096 =? 0 then at_index (iobuffer d) (j mod 4096)
  else fbyte d v j.

Lemma behind_block d v fm d' v' fm' offset len j data :
  wrote d v fm d' v' fm' offset (offset + len) data -> 0 <= offset -> 0 < len ->
  (offset + len <= j -> j / 4096 = (offset + len - 1) / 4096 ->
     fbyte d' v' j = if negb ((offset + len - 1) / 4096 =? offset / 4096) then fbyte d' v' (j - 4096)
       else if offset mod 4096 =? 0 then at_index (iobuffer d) (j mod 4096) else fbyte d v j) ->
  offset + len <= j < i_blocks v' * 4096 -> fbyte d' v' j = behind d v d' v' offset len j.
Proof.
  intros W Ho Hl H Hj. destruct (decide (j / 4096 = (offset + len - 1) / 4096)) as [Ej|Ej]; unfold behind.
  { rewrite (proj2 (Z.eqb_eq _ _) Ej). cbn [negb]. apply H; [lia|done]. }
  rewrite (proj2 (Z.eqb_neq _ _) Ej). cbn [negb]. pose proof (wr_blocks _ _ _ _ _ _ _ _ _ W).
  apply (wr_rest _ _ _ _ _ _ _ _ _ W). zdiv.
Qed.

(** The blocks a write of [len] bytes at [offset] touches. *)
Lemma write_body_run w_buf len offset :
  file_ok v0 fm0 -> 0 <= offset <= i_size v0 -> 0 < len -> offset + len <= 40960 ->
  len <= Z.of_nat (length w_buf) -> (offset + len + 4095) / 4096 - i_blocks v0 <= free_count fm0 ->
  exists d' v' fm',
    wrote d0 v0 fm0 d' v' fm' offset (offset + len) (fun j => at_index w_buf (j - offset)) /\
    (forall j, offset + len <= j < i_blocks v' * 4096 -> fbyte d' v' j = behind d0 v0 d' v' offset len j) /\
    rfs_write vp w_buf len offset (fs_at d0 v0 fm0) =
      Ret (len, offset + len) (fs_at d' (v' <| i_size := Z.max (i_size v0) (offset + len) |>) fm').
Proof.
  intros Ho Hoff Hlen Hmax Hbuf Hf. pose proof (mt_wf _ _ _ _ _ _ _ _ Hm) as Hw.
  pose proof (fo_size _ _ Ho) as Hsz. pose proof (fo_blocks _ _ Ho) as Hbl.
  destruct (rem_quot_4096 offset) as [Er Eq]; [lia|]. destruct (rem_quot_4096 (len + offset mod 4096)) as [Er2 Eq2]; [zdiv|].
  set (align := offset mod 4096) in *. set (W := (len + align) / 4096) in *. set (R := (len + align) mod 4096) in *.
  assert (0 <= align < 4096 /\ 0 <= R < 4096 /\ 0 <= W <= 10 /\ len + align = W * 4096 + R /\
    offset = offset / 4096 * 4096 + align /\ 0 <= offset / 4096) as (Ha & HR & HW & Hsum & Hoffs & Hq)
    by (unfold W, R, align; zdiv).
  set (data := fun j => at_index w_buf (j - offset)).
  assert (forall s1 d' v' fm' (rest : M (fs A) unit), wrote d0 v0 fm0 d' v' fm' offset (offset + len) data ->
    rest s1 = Ret tt (fs_at d' v' fm') ->
    (rest ;;; v <- get_vinode vp ;;
       put_vinode vp (v <| i_size := if i_size v <? offset + len then i32 (offset + len) else i_size v |>) ;;;
       ret (len, i32 (offset + len))) s1 =
    Ret (len, offset + len) (fs_at d' (v' <| i_size := Z.max (i_size v0) (offset + len) |>) fm')) as Hend.
  { intros s1 d' v' fm' rest W' E. destruct (wrote_sb _ _ _ _ _ _ _ _ _ W') as [_ Hs'].
    step E. step (fa_get d' v' fm'). rewrite Hs', i32_small by lia.
    replace (if i_size v0 <? offset + len then offset + len else i_size v0) with (Z.max (i_size v0) (offset + len))
      by (destruct (Z.ltb_spec (i_size v0) (offset + len)); lia).
    by step (fa_put d' v' fm' (v' <| i_size := Z.max (i_size v0) (offset + len) |>)). }
  unfold rfs_write. rewrite Er, Eq, Er2, Eq2, (i32_small W), (i32_small R) by lia.
  destruct (Z.eqb_spec align 0) as [Ea|Ea].
  - destruct (write_tail_run d0 v0 fm0 (offset / 4096) W R w_buf 0 data) as (d' & v' & fm' & E & W' & Ht);
      [done|done|done|lia|lia|lia|lia|lia|lia| | |].
    { by replace ((offset / 4096 + W) * 4096 + R) with (offset + len) by lia. }
    { intros j Hj. unfold data. f_equal. lia. }
    replace (offset / 4096 * 4096) with offset in W' by lia.
    replace ((offset / 4096 + W) * 4096 + R) with (offset + len) in W' by lia.
    replace ((offset / 4096 + W) * 4096 + R) with (offset + len) in Ht by lia.
    exists d', v', fm'. split; [done|]. split.
    { intros j. apply (behind_block _ _ _ _ _ _ _ _ _ _ W'); [lia|lia|]. intros Hj Ej.
      assert (0 < R /\ (offset + len - 1) / 4096 = offset / 4096 + W) as [HR0 El] by zdiv.
      rewrite Ht, El by (lia || congruence). fold align. rewrite Ea. destruct (Z.eqb_spec W 0), (Z.eqb_spec (offset / 4096 + W) (offset / 4096)); done || lia. }
    step (fa_get d0 v0 fm0).
    destruct (Z.ltb_spec (i_size v0) offset); [lia|]. step (fa_rdev_of d0 v0 fm0 eq_refl).
    step (eq_refl : ret (0, offset / 4096, W) (fs_at d0 v0 fm0) = Ret (0, offset / 4096, W) (fs_at d0 v0 fm0)).
    apply (Hend _ d' v' fm'); [done|]. by destruct (Z.ltb_spec W 0); [lia|].
  - set (F := if W =? 0 then len else RFS_BLKSIZE - align).
    assert (0 < F <= len /\ align + F <= 4096 /\ (W <> 0 -> F = 4096 - align) /\ (W = 0 -> F = len)) as (HF & HF2 & HFW & HFL).
    { unfold F. destruct (Z.eqb_spec W 0); [|change RFS_BLKSIZE with 4096]; lia. }
    destruct (write_first_run d0 v0 fm0 offset w_buf F data) as (a & d1 & d2 & d3 & Eaddr & E1 & E2 & E3 & W1 & Hkeep);
      [done|done|lia|zdiv|done|lia|lia|done|].
    assert (forall wt, wt = W - 1 -> exists d' v' fm',
      wrote d0 v0 fm0 d' v' fm' offset (offset + len) data /\
      (forall j, offset + len <= j < i_blocks v' * 4096 -> fbyte d' v' j = behind d0 v0 d' v' offset len j) /\
      (if wt <? 0 then ret tt else
         write_blocks (Z.to_nat wt) vp rd (offset / 4096 + 1) w_buf F ;;;
         if 0 <? R then write_block vp rd (offset / 4096 + 1 + wt) w_buf (F + wt * RFS_BLKSIZE) R else ret tt)
        (fs_at d3 v0 fm0) = Ret tt (fs_at d' v' fm')) as Htail.
    { intros wt ->. destruct (Z.ltb_spec (W - 1) 0).
      - exists d3, v0, fm0. rewrite HFL in W1, Hkeep by lia. split; [done|]. split; [|done].
        intros j. apply (behind_block _ _ _ _ _ _ _ _ _ _ W1); [lia|lia|]. intros Hj Ej.
        assert ((offset + len - 1) / 4096 = offset / 4096) as El by zdiv. rewrite Hkeep by (lia || congruence).
        rewrite El, Z.eqb_refl. fold align. by rewrite (proj2 (Z.eqb_neq _ _) Ea).
      - assert (F = 4096 - align) as EF by lia. assert (offset / 4096 + 1 <= i_blocks v0) as Hb1 by zdiv.
        destruct (write_tail_run d3 v0 fm0 (offset / 4096 + 1) (W - 1) R w_buf F data) as (d' & v' & fm' & E & W' & Ht);
          [apply W1|done|done|lia|lia|lia|lia|lia|lia| | |].
        { by replace ((offset / 4096 + 1 + (W - 1)) * 4096 + R) with (offset + len) by lia. }
        { intros j Hj. unfold data. f_equal. lia. }
        replace ((offset / 4096 + 1 + (W - 1)) * 4096 + R) with (offset + len) in W', Ht by lia.
        replace ((offset / 4096 + 1) * 4096) with (offset + F) in W' by lia.
        assert (wrote d0 v0 fm0 d' v' fm' offset (offset + len) data) as Wt
          by (eapply wrote_trans; [| | |exact W1|exact W']; lia).
        exists d', v', fm'. split; [done|]. split; [|done].
        intros j. apply (behind_block _ _ _ _ _ _ _ _ _ _ Wt); [lia|lia|]. intros Hj Ej.
        assert (0 < R /\ (offset + len - 1) / 4096 = offset / 4096 + W) as [HR0 El] by zdiv.
        rewrite El. destruct (Z.eqb_spec (offset / 4096 + W) (offset / 4096)); [lia|]. cbn [negb].
        rewrite Ht by (lia || zdiv). destruct (Z.eqb_spec (W - 1) 0); [|done].
        rewrite (wr_bytes _ _ _ _ _ _ _ _ _ W') by zdiv. destruct (Z.leb_spec (offset + F) (j - 4096)); [zdiv|].
        rewrite (wr_last _ _ _ _ _ _ _ _ _ W1) by zdiv. f_equal. zdiv. }
    destruct (Htail (W - 1) eq_refl) as (d' & v' & fm' & W' & Hb' & Et). exists d', v', fm'. split; [done|]. split; [done|].
    step (fa_get d0 v0 fm0). destruct (Z.ltb_spec (i_size v0) offset); [lia|]. step (fa_rdev_of d0 v0 fm0 eq_refl).
    rewrite Eaddr. fold F.
    assert ((a <- deref (Some a) ;; on_rdev rd (rfs_r1block a) ;;;
       chunk <- deref (copy_out w_buf 0 F) ;; on_rdev rd (buf_put align chunk) ;;; on_rdev rd (rfs_w1block a) ;;;
       ret (F, offset / 4096 + 1, W - 1)) (fs_at d0 v0 fm0) = Ret (F, offset / 4096 + 1, W - 1) (fs_at d3 v0 fm0)) as E0.
    { step (eq_refl : deref (Some a) (fs_at d0 v0 fm0) = Ret a (fs_at d0 v0 fm0)).
      step (fa_rdev _ d0 v0 fm0 0 d1 E1). rewrite copy_out_eq, drop_0 by lia.
      step (eq_refl : deref (Some (take (Z.to_nat F) w_buf)) (fs_at d1 v0 fm0) = Ret (take (Z.to_nat F) w_buf) (fs_at d1 v0 fm0)).
      step (fa_rdev _ d1 v0 fm0 tt d2 E2). by step (fa_rdev _ d2 v0 fm0 0 d3 E3). }
    step E0. by apply (Hend _ d' v' fm').
Qed.
(** ** Reading *)

(** Only the I/O buffer differs. *)
Definition same_disk (d d' : rfs_device) : Prop := d_data d' = d_data d /\ rdev_wf d'.

(** [l] holds the bytes of the file from [o] on. *)
Definition holds (d : rfs_device) (v : vinode) (o : Z) (l : list Z) : Prop :=
  forall j, 0 <= j < Z.of_nat (length l) -> at_index l j = fbyte d v (o + j).

Lemma data_holds_app d v o l k :
  holds d v o l -> holds d v (o + Z.of_nat (length l)) k -> holds d v o (l ++ k).
Proof.
  intros Hl Hk j Hj. rewrite length_app in Hj. destruct (decide (j < Z.of_nat (length l))).
  - rewrite at_index_app_l by lia. apply Hl. lia.
  - rewrite at_index_app_r by lia. rewrite Hk by lia. f_equal. lia.
Qed.

Lemma fbyte_same d d' v j : same_disk d d' -> fbyte d' v j = fbyte d v j.
Proof. intros [E _]. unfold fbyte, block. by rewrite E. Qed.

Lemma read_block_run d v fm bo o n :
  rdev_wf d -> file_ok v fm -> 0 <= bo < i_blocks v -> 0 <= o -> 0 <= n -> o + n <= 4096 ->
  exists a d' l, at_index (i_addrs v) bo = Some a /\ rfs_r1block a d = Ret 0 d' /\ same_disk d d' /\
    buf_get o n d' = Ret l d' /\ length l = Z.to_nat n /\ holds d v (bo * 4096 + o) l.
Proof.
  intros Hw Ho Hb Hoo Hn Hon. destruct (fo_used _ _ Ho bo Hb) as (a & Ea & Hra & _).
  assert (is_block a) as Hba by (unfold is_block; lia). pose proof (length_block d a Hw Hba) as Hlb.
  pose proof (buffer_wf d _ Hw Hlb) as Hw1.
  exists a, (d <| iobuffer := block d a |>), (take (Z.to_nat n) (drop (Z.to_nat o) (block d a))).
  assert (length (take (Z.to_nat n) (drop (Z.to_nat o) (block d a))) = Z.to_nat n) as Hl
    by (rewrite length_take, length_drop; lia).
  split_and!; [done|by apply ramdisk_read_eq|done|by apply buf_get_eq|done|].
  intros j Hj. rewrite Hl in Hj. rewrite at_index_sub by lia. unfold fbyte.
  assert ((bo * 4096 + o + j) / 4096 = bo) as -> by zdiv. rewrite Ea. f_equal. zdiv.
Qed.

Lemma read_blocks_run v fm n : forall d bo,
  rdev_wf d -> file_ok v fm -> 0 <= bo -> bo + Z.of_nat n <= i_blocks v ->
  exists d' l, read_blocks n rd (i_addrs v) bo (fs_at d v0 fm0) = Ret l (fs_at d' v0 fm0) /\ same_disk d d' /\
    length l = (n * 4096)%nat /\ holds d v (bo * 4096) l.
Proof.
  induction n as [|n IH]; intros d bo Hw Ho Hb Hn; cbn [read_blocks].
  - exists d, []. split_and!; [done|done|done|]. intros j Hj. cbn in Hj. lia.
  - destruct (read_block_run d v fm bo 0 4096) as (a & d1 & l1 & Ea & E1 & S1 & G1 & L1 & H1); [done|done|lia..|].
    destruct (IH d1 (bo + 1)) as (d2 & l2 & E2 & S2 & L2 & H2); [apply S1|done|lia|lia|].
    exists d2, (l1 ++ l2). split_and!.
    + rewrite Ea. step (eq_refl : deref (Some a) (fs_at d v0 fm0) = Ret a (fs_at d v0 fm0)).
      step (fa_rdev _ d v0 fm0 0 d1 E1). step (fa_rdev _ d1 v0 fm0 l1 d1 G1). by step E2.
    + destruct S1, S2. split; [congruence|done].
    + rewrite length_app, L1, L2. lia.
    + apply data_holds_app; [by replace (bo * 4096) with (bo * 4096 + 0) by lia|].
      rewrite L1. replace (bo * 4096 + Z.of_nat (Z.to_nat 4096)) with ((bo + 1) * 4096) by lia.
      intros j Hj. rewrite H2 by done. by apply fbyte_same.
Qed.

(** The bytes [strcpy] copies. *)
Fixpoint before_nul (l : list Z) : list Z :=
  match l with [] => [] | c :: l' => if c =? 0 then [] else c :: before_nul l' end.

Lemma cstr_bytes_nul l : cstr_bytes (l ++ [0]) = Some (before_nul l).
Proof. induction l as [|c l IH]; [done|]. cbn. rewrite IH. by destruct (c =? 0). Qed.

(** What [rfs_read] collects. *)
Lemma read_body_run len offset :
  file_ok v0 fm0 -> 0 <= offset <= i_size v0 -> offset < i_blocks v0 * 4096 -> 0 <= len ->
  let n := Z.min len (i_size v0 - offset) in
  exists d' l, rfs_read vp len offset (fs_at d0 v0 fm0) =
      Ret (before_nul l ++ [0], n, offset + n) (fs_at d' v0 fm0) /\
    same_disk d0 d' /\ length l = Z.to_nat n /\ holds d0 v0 offset l.
Proof.
  intros Ho Hoff Hblk Hlen n. pose proof (mt_wf _ _ _ _ _ _ _ _ Hm) as Hw.
  pose proof (fo_size _ _ Ho) as Hsz. pose proof (fo_blocks _ _ Ho) as Hbl.
  unfold rfs_read. step (fa_get d0 v0 fm0). destruct (Z.ltb_spec (i_size v0) offset); [lia|].
  replace (if i_size v0 <? offset + len then i_size v0 - offset else len) with n
    by (unfold n; destruct (Z.ltb_spec (i_size v0) (offset + len)); lia).
  assert (0 <= n <= i_size v0 - offset) as Hn by lia. clearbody n. destruct (Z.ltb_spec n 0); [lia|].
  destruct (rem_quot_4096 offset) as [Er Eq]; [lia|]. destruct (rem_quot_4096 (offset mod 4096 + n)) as [Er2 Eq2]; [zdiv|].
  rewrite Er, Eq, Er2, Eq2. set (align := offset mod 4096) in *.
  set (W := (align + n) / 4096) in *. set (R := (align + n) mod 4096) in *.
  assert (0 <= align < 4096 /\ 0 <= R < 4096 /\ 0 <= W <= 10 /\ align + n = W * 4096 + R /\
    offset = offset / 4096 * 4096 + align /\ 0 <= offset / 4096 < i_blocks v0) as (Ha & HR & HW & Hsum & Hoffs & Hq)
    by (unfold W, R, align; zdiv).
  rewrite (i32_small W), (i32_small R) by lia. step (fa_rdev_of d0 v0 fm0 eq_refl).
  set (F := if W =? 0 then n else RFS_BLKSIZE - align).
  assert (0 <= F <= n /\ align + F <= 4096 /\ (W <> 0 -> F = 4096 - align) /\ (W = 0 -> F = n)) as (HF & HF2 & HFW & HFL).
  { unfold F. destruct (Z.eqb_spec W 0); [|change RFS_BLKSIZE with 4096]; lia. }
  destruct (read_block_run d0 v0 fm0 (offset / 4096) align F) as (a & d1 & l1 & Ea & E1 & S1 & G1 & L1 & H1); [done|done|lia..|].
  rewrite <-Hoffs in H1. rewrite Ea. step (eq_refl : deref (Some a) (fs_at d0 v0 fm0) = Ret a (fs_at d0 v0 fm0)).
  step (fa_rdev _ d0 v0 fm0 0 d1 E1). step (fa_rdev _ d1 v0 fm0 l1 d1 G1).
  match goal with |- exists d' l, bind ?rest ?k _ = _ /\ _ =>
    assert (exists d2 l2, rest (fs_at d1 v0 fm0) = Ret l2 (fs_at d2 v0 fm0) /\ same_disk d0 d2 /\
      length l2 = Z.to_nat (n - F) /\ holds d0 v0 (offset + F) l2) as (d2 & l2 & E2 & S2 & L2 & H2) end.
  { destruct (Z.ltb_spec (W - 1) 0) as [Hlt|Hge].
    { exists d1, []. rewrite HFL by lia. split_and!; [done|done|by rewrite Z.sub_diag|]. intros j Hj. cbn in Hj. lia. }
    assert (F = 4096 - align) as EF by lia.
    destruct (read_blocks_run v0 fm0 (Z.to_nat (W - 1)) d1 (offset / 4096 + 1)) as (d2 & l2 & E2 & S2 & L2 & H2);
      [apply S1|done|lia|zdiv|].
    assert (same_disk d0 d2) as S02 by (destruct S1, S2; split; [congruence|done]).
    assert (holds d0 v0 (offset + F) l2) as H2'.
    { replace (offset + F) with ((offset / 4096 + 1) * 4096) by lia.
      intros j Hj. rewrite H2 by done. by apply fbyte_same. }
    step E2. destruct (Z.ltb_spec 0 R) as [HRp|HRz].
    - destruct (read_block_run d2 v0 fm0 (offset / 4096 + 1 + (W - 1)) 0 R) as (a3 & d3 & l3 & Ea3 & E3 & S3 & G3 & L3 & H3);
        [apply S2|done|zdiv|lia..|].
      exists d3, (l2 ++ l3). split_and!.
      + rewrite Ea3. assert ((a <- deref (Some a3) ;; on_rdev rd (rfs_r1block a) ;;; on_rdev rd (buf_get 0 R))
          (fs_at d2 v0 fm0) = Ret l3 (fs_at d3 v0 fm0)) as E.
        { step (eq_refl : deref (Some a3) (fs_at d2 v0 fm0) = Ret a3 (fs_at d2 v0 fm0)).
          step (fa_rdev _ d2 v0 fm0 0 d3 E3). apply (fa_rdev _ d3 v0 fm0 l3 d3 G3). }
        by step E.
      + destruct S02, S3. split; [congruence|done].
      + rewrite length_app, L2, L3. lia.
      + apply data_holds_app; [done|]. rewrite L2.
        replace (offset + F + Z.of_nat (Z.to_nat (W - 1) * 4096)) with ((offset / 4096 + 1 + (W - 1)) * 4096 + 0) by lia.
        intros j Hj. rewrite H3 by done. by apply fbyte_same.
    - exists d2, l2. split_and!; [unfold bind, ret; by rewrite app_nil_r|done|rewrite L2; lia|done]. }
  step E2. rewrite app_assoc, cstr_bytes_nul. exists d2, (l1 ++ l2). split_and!.
  - unfold deref, bind, ret. by rewrite i32_small by lia.
  - done.
  - rewrite length_app, L1, L2. lia.
  - apply data_holds_app; [done|]. rewrite L1. by rewrite Z2Nat.id by lia.
Qed.
End file.

(** * Properties of files *)

Section file_properties.
Context {A : Type} {PA : PageAlloc A} {ST : Stale}.

(** C17.  [rfs_write] at an offset inside the file or at its end, with room on the
    disk: it always succeeds and returns the length and the new offset; the bytes
    from the offset on are those of the buffer, the bytes before it are untouched;
    the size becomes the larger of the old size and the end of the write; the file
    is well-formed again.  The bytes behind the write are those of [behind]: kept in the
    blocks that are not written, but in the last block written kept only when the write
    starts inside that same block; otherwise they are overwritten with what the I/O buffer
    holds (the block before it, or its contents at the call), also where the file reaches
    further.  Blocks the file gained were free, and no block of the disk outside the file
    changed. *)
Theorem rfs_write_spec (s : fs A) vp rd bm b v d fm w_buf len offset :
  mounted s vp rd bm b v d fm -> file_ok v fm -> 0 <= offset <= i_size v -> 0 < len ->
  offset + len <= 40960 -> len <= Z.of_nat (length w_buf) ->
  (offset + len + 4095) / 4096 - i_blocks v <= free_count fm ->
  exists d' v' fm',
    rfs_write vp w_buf len offset s = Ret (len, offset + len) (fs_at s vp rd bm d' v' fm') /\
    rdev_wf d' /\ file_ok v' fm' /\ i_size v' = Z.max (i_size v) (offset + len) /\
    (forall j, 0 <= j < i_blocks v' * 4096 ->
       fbyte d' v' j = if j <? offset then fbyte d v j else if j <? offset + len then at_index w_buf (j - offset)
                       else behind d v d' v' offset len j) /\
    (forall j a, i_blocks v <= j < i_blocks v' -> at_index (i_addrs v') j = Some a -> at_index fm (a - 12) = Some 0) /\
    (forall x, 0 <= x -> (forall j, 0 <= j < i_blocks v' -> at_index (i_addrs v') j <> Some x) -> block d' x = block d x).
Proof.
  intros Hm Ho Hoff Hlen Hmax Hbuf Hf.
  destruct (write_body_run s vp rd bm b v d fm Hm w_buf len offset) as (d' & v' & fm' & W & Hb & E); try done.
  rewrite (fs_at_id s vp rd bm b v d fm Hm) in E.
  destruct W as [W1 [F1 F2 F3 F4 F5 F6] W3 W4 W5 W6 W7 W8 W9 W10].
  do 3 eexists. split; [exact E|]. split_and!; [done| |done| |exact W9|exact W6].
  - pose proof (fo_size _ _ Ho). split; [done|done| |done|done|done]. cbn. rewrite W4 in *. zdiv.
  - intros j Hj. change (i_blocks _) with (i_blocks v') in Hj. change (fbyte d' _ j) with (fbyte d' v' j).
    destruct (Z.ltb_spec j offset), (Z.ltb_spec j (offset + len)); try lia; [| |exact (Hb j ltac:(lia))];
      rewrite W5 by lia; destruct (Z.leb_spec offset j); done || lia.
Qed.

(** C18.  [rfs_read] inside the blocks of the file returns
    min(len, size - offset) and advances the offset by it.  The bytes it collects
    are exactly those of the file; what reaches the caller's buffer is the part
    before the first NUL, because the result is copied with strcpy.  Nothing but the
    I/O buffer changes. *)
Theorem rfs_read_spec (s : fs A) vp rd bm b v d fm len offset :
  mounted s vp rd bm b v d fm -> file_ok v fm -> 0 <= offset <= i_size v -> offset < i_blocks v * 4096 -> 0 <= len ->
  let n := Z.min len (i_size v - offset) in
  exists d' data, rfs_read vp len offset s =
      Ret (before_nul data ++ [0], n, offset + n) (fs_at s vp rd bm d' v fm) /\
    d_data d' = d_data d /\ length data = Z.to_nat n /\
    forall j, 0 <= j < n -> at_index data j = fbyte d v (offset + j).
Proof.
  intros Hm Ho Hoff Hblk Hlen n.
  destruct (read_body_run s vp rd bm b v d fm Hm len offset) as (d' & l & E & [Sd _] & L & H); try done.
  rewrite (fs_at_id s vp rd bm b v d fm Hm) in E. exists d', l. split_and!; [done|done|done|].
  intros j Hj. apply H. rewrite L. unfold n in *. lia.
Qed.

(** A write that starts at a block boundary and ends inside the block does not
    read the block first: the bytes of the file between the end of the write and the
    end of the block are replaced by whatever the I/O buffer held. *)
Theorem rfs_write_clobbers (s : fs A) vp rd bm b v d fm w_buf len offset :
  mounted s vp rd bm b v d fm -> file_ok v fm -> 0 <= offset -> offset mod 4096 = 0 -> 0 < len < 4096 ->
  offset + len < i_size v -> len <= Z.of_nat (length w_buf) ->
  exists d' v' fm', rfs_write vp w_buf len offset s = Ret (len, offset + len) (fs_at s vp rd bm d' v' fm') /\
    i_size v' = i_size v /\
    forall j, offset + len <= j < offset + 4096 -> fbyte d' v' j = at_index (iobuffer d) (j - offset).
Proof.
  intros Hm Ho Hoff Hal Hlen Hin Hbuf. pose proof (fo_size _ _ Ho). pose proof (fo_blocks _ _ Ho).
  pose proof (mt_wf _ _ _ _ _ _ _ _ Hm) as Hw.
  destruct (write_block_run s vp rd bm b v d fm Hm d v fm (offset / 4096) w_buf 0 len (fun j => at_index w_buf (j - offset)))
    as (d' & v' & fm' & E & W & Hc); [done|done|done|zdiv|zdiv|lia|lia|lia|intros; zdiv|intros; f_equal; zdiv|].
  destruct (wrote_sb _ _ _ _ _ _ _ _ _ W) as [_ Hs].
  exists d', v', fm'. split_and!; [|done|].
  - rewrite <-(fs_at_id s vp rd bm b v d fm Hm) at 1. destruct (rem_quot_4096 offset) as [Er Eq]; [lia|].
    destruct (rem_quot_4096 len) as [Er2 Eq2]; [lia|].
    unfold rfs_write. rewrite Er, Hal, Z.add_0_r, Er2, Eq2, Eq, (Z.div_small len), (Z.mod_small len) by lia.
    rewrite (i32_small 0), (i32_small len) by lia. step (fa_get s vp rd bm d v fm).
    destruct (Z.ltb_spec (i_size v) offset); [lia|]. step (fa_rdev_of s vp rd bm b v d fm Hm d v fm eq_refl).
    rewrite Z.eqb_refl.
    step (eq_refl : ret (0, offset / 4096, 0) (fs_at s vp rd bm d v fm) = Ret (0, offset / 4096, 0) (fs_at s vp rd bm d v fm)).
    cbn [Z.ltb Z.compare Z.to_nat write_blocks].
    destruct (Z.ltb_spec 0 len); [|lia]. rewrite !Z.add_0_r.
    assert ((ret tt ;;; write_block vp rd (offset / 4096) w_buf 0 len) (fs_at s vp rd bm d v fm) =
      Ret tt (fs_at s vp rd bm d' v' fm')) as E' by exact E.
    step E'. step (fa_get s vp rd bm d' v' fm'). rewrite Hs. destruct (Z.ltb_spec (i_size v) (offset + len)); [lia|].
    replace (v' <| i_size := i_size v |>) with v' by (rewrite <-Hs; by destruct v').
    step (fa_put s vp rd bm d' v' fm' v'). by rewrite i32_small by lia.
  - intros j Hj. replace (j - offset) with (j - offset / 4096 * 4096) by zdiv. apply Hc. zdiv.
Qed.
End file_properties.

(** ** Witnesses *)

#[export] Instance small_stale : Stale := {|
  stale_vinode := fun _ => {| inum := 0; i_ref := 0; i_size := 0; i_type := 0; i_nlinks := 0; i_blocks := 0;
    i_addrs := []; i_fs_info := 0; i_sb := 0; i_ops := hostfs_i_ops |};
  stale_dentry_sb := fun _ => 0;
  stale_bytes := fun _ => replicate 4096 0;
  stale_super_block := fun _ => {| s_magic := 0; s_size := 0; s_nblocks := 0; s_ninodes := 0; s_root := 0; s_dev := 0;
    s_fs_info := 0 |};
  stale_stack := fun _ => 0;
  stale_args := [] |}.

(** A mounted disk with one vinode [v], at address 4096, that lives in block 12. *)
Definition small_disk_fs (v : vinode) (d : rfs_device) : fs pmm := {|
  fs_pages := small_running; dentries := {[ 24576 := {| d_name := [97]; d_ref := 0; dentry_inode := 0; d_parent := 0; d_sb := 0 |} ]};
  vinodes := {[ 4096 := v ]}; files := ∅;
  super_blocks := {[ 8192 := {| s_magic := RFS_MAGIC; s_size := 112; s_nblocks := 100; s_ninodes := 320; s_root := 0;
                                s_dev := 12288; s_fs_info := 16384 |} ]};
  devices := {[ 12288 := {| dev_name := [82]; dev_id := 0; dev_fs_type := 20480 |} ]};
  fs_types := ∅; freemaps := {[ 16384 := 1 :: replicate 1023 0 ]}; dir_caches := ∅; pfiles_store := ∅;
  rfs_device_list := [Some d]; fs_list := []; vfs_dev_list := []; vfs_sb_list := []; vfs_root_dentry := 0;
  dentry_hash_table := {| head := []; virtual_hash_equal := fun _ _ => false; virtual_hash_func := fun _ => 0 |};
  vinode_hash_table := {| head := []; virtual_hash_equal := fun _ _ => false; virtual_hash_func := fun _ => 0 |};
  fs_host := blank_host |}.

Definition small_vinode (type size : Z) : vinode := {|
  inum := 1; i_ref := 0; i_size := size; i_type := type; i_nlinks := 1; i_blocks := 1; i_addrs := 12 :: replicate 9 0;
  i_fs_info := 0; i_sb := 8192; i_ops := rfs_i_ops |}.

Lemma small_disk_mounted type size d :
  rdev_wf d -> mounted (small_disk_fs (small_vinode type size) d) 4096 0 16384
    {| s_magic := RFS_MAGIC; s_size := 112; s_nblocks := 100; s_ninodes := 320; s_root := 0; s_dev := 12288; s_fs_info := 16384 |}
    (small_vinode type size) d (1 :: replicate 1023 0).
Proof.
  intros Hw. split; [reflexivity|reflexivity|..|exact Hw]; [|reflexivity|reflexivity|reflexivity|reflexivity].
  eexists. split; reflexivity.
Qed.

Lemma small_file_ok type size : 0 <= size <= 4096 -> file_ok (small_vinode type size) (1 :: replicate 1023 0).
Proof.
  intros Hs. split; cbn -[Z.of_nat].
  - reflexivity.
  - lia.
  - lia.
  - reflexivity.
  - intros j Hj. assert (j = 0) as -> by lia. exists 12. split_and!; [done|lia|lia|done].
  - intros. lia.
Qed.

Lemma rfs_write_spec_witness :
  exists d' v' fm', rfs_write 4096 (replicate 5000 7) 5000 3 (small_disk_fs (small_vinode FILE_I 10) blank_rdev) =
      Ret (5000, 5003) (fs_at (small_disk_fs (small_vinode FILE_I 10) blank_rdev) 4096 0 16384 d' v' fm') /\
    fbyte d' v' 2 = Some 0 /\ fbyte d' v' 1904 = Some 7 /\ fbyte d' v' 6000 = Some 7.
Proof.
  destruct (rfs_write_spec _ 4096 0 16384 _ _ _ _ (replicate 5000 7) 5000 3
    (small_disk_mounted FILE_I 10 blank_rdev blank_rdev_wf) (small_file_ok FILE_I 10 ltac:(lia)))
    as (d' & v' & fm' & E & _ & Ho & Hs & H & _);
    [cbn; lia|lia|lia|rewrite length_replicate; lia|vm_compute; discriminate|].
  cbn [i_size small_vinode] in Hs. pose proof (fo_size _ _ Ho) as Hb. rewrite Hs in Hb.
  assert (5003 <= i_blocks v' * 4096) as Hb' by (cbn in Hb; lia). clear Hb.
  assert (8192 <= i_blocks v' * 4096) as Hb2 by lia. exists d', v', fm'. split; [exact E|].
  assert (fbyte d' v' 1904 = Some 7) as H7 by (rewrite H by lia; vm_compute; reflexivity).
  split; [rewrite H by lia; vm_compute; reflexivity|]. split; [exact H7|]. rewrite H by lia. exact H7.
Defined.

Lemma rfs_read_spec_witness :
  exists r s', rfs_read 4096 100 4 (small_disk_fs (small_vinode FILE_I 10) blank_rdev) = Ret (r, 6, 10) s'.
Proof.
  destruct (rfs_read_spec _ 4096 0 16384 _ _ _ _ 100 4
    (small_disk_mounted FILE_I 10 blank_rdev blank_rdev_wf) (small_file_ok FILE_I 10 ltac:(lia)))
    as (d' & data & E & _); [cbn; lia|cbn; lia|lia|]. eexists _, _. exact E.
Defined.

(** The disk holds zeros, the I/O buffer sevens. *)
Definition seven_rdev : rfs_device := blank_rdev <| iobuffer := replicate 4096 7 |>.

Lemma rfs_write_clobbers_witness :
  exists d' v' fm', rfs_write 4096 [1] 1 0 (small_disk_fs (small_vinode FILE_I 10) seven_rdev) =
      Ret (1, 1) (fs_at (small_disk_fs (small_vinode FILE_I 10) seven_rdev) 4096 0 16384 d' v' fm') /\
    fbyte seven_rdev (small_vinode FILE_I 10) 5 = Some 0 /\ fbyte d' v' 5 = Some 7.
Proof.
  assert (rdev_wf seven_rdev) as Hw by (apply buffer_wf; [exact blank_rdev_wf|apply length_replicate]).
  destruct (rfs_write_clobbers _ 4096 0 16384 _ _ _ _ [1] 1 0
    (small_disk_mounted FILE_I 10 seven_rdev Hw) (small_file_ok FILE_I 10 ltac:(lia)))
    as (d' & v' & fm' & E & _ & H); [lia|reflexivity|lia|cbn; lia|cbn; lia|].
  exists d', v', fm'. split; [exact E|]. split; [vm_compute; reflexivity|]. rewrite H by lia. vm_compute. reflexivity.
Defined.
