(* ===== verification/RfsDir.v ===== *)
(** Directories of the RAM-disk file system: lookup and adding an entry. *)

From S2P Require Import Prelude PageAlloc Pmm HashTable FsData Ramdev Rfs RfsFile.

(** * Directories on the disk *)

(** The directory [v] holds the entries [es], each an inode number and a name. *)
Record dir_view (d : rfs_device) (v : vinode) (es : list (Z * cname)) : Prop := {
  dv_size : i_size v = 32 * Z.of_nat (length es);
  dv_max : (length es <= 1280)%nat;
  dv_entry i n nm : es !! i = Some (n, nm) ->
    is_int n /\ Forall (fun c => c <> 0) nm /\ (length nm <= 27)%nat /\
    exists a, at_index (i_addrs v) (Z.of_nat i / 128) = Some a /\ is_block a /\
      take (5 + length nm) (drop (Z.to_nat (Z.of_nat i mod 128 * 32)) (block d a)) = le32 n ++ nm ++ [0];
}.

(** The first entry with the name: its index, counted from [i], and inode number. *)
Fixpoint find_entry (es : list (Z * cname)) (i : Z) (name : cname) : option (Z * Z) :=
  match es with
  | [] => None
  | (n, nm) :: es' => if decide (nm = name) then Some (i, n) else find_entry es' (i + 1) name
  end.

Lemma name_eq_run nm rest name :
  Forall (fun c => c <> 0) nm -> Forall (fun c => c <> 0) name ->
  name_eq (nm ++ 0 :: rest) name = Some (bool_decide (nm = name)).
Proof.
  intros Hn. revert name. induction Hn as [|c nm Hc _ IH]; intros [|x name] Hname; cbn [name_eq app].
  - done.
  - apply Forall_cons in Hname as [Hx _]. by destruct (Z.eqb_spec 0 x); [congruence|].
  - by destruct (Z.eqb_spec c 0).
  - apply Forall_cons in Hname as [_ Hname]. destruct (Z.eqb_spec c x) as [->|Hne].
    + rewrite IH by done. f_equal. apply bool_decide_ext. split; [by intros ->|by intros [= ->]].
    + rewrite bool_decide_false; [done|]. by intros [= ->].
Qed.

(** An entry in a block, as the search reads it. *)
Lemma entry_reads blk o n nm name :
  0 <= o -> is_int n -> Forall (fun c => c <> 0) nm -> Forall (fun c => c <> 0) name ->
  take (5 + length nm) (drop (Z.to_nat o) blk) = le32 n ++ nm ++ [0] ->
  read_int blk o = Some n /\ name_eq (drop (Z.to_nat (o + 4)) blk) name = Some (bool_decide (nm = name)).
Proof.
  intros Ho Hn Hnm Hname E. pose proof (take_drop (5 + length nm) (drop (Z.to_nat o) blk)) as Et.
  rewrite E in Et. set (rest := drop _ (drop _ blk)) in Et.
  assert (length (drop (Z.to_nat o) blk) >= 5)%nat as Hlen.
  { rewrite <-Et, !length_app. cbn. lia. }
  rewrite length_drop in Hlen. split.
  - unfold read_int. rewrite copy_out_eq by lia. change (Z.to_nat 4) with 4%nat. rewrite <-Et, <-!app_assoc.
    rewrite take_app_length' by done. cbn [fmap option_fmap option_map]. f_equal. by apply of_le32_le32.
  - replace (Z.to_nat (o + 4)) with (Z.to_nat o + 4)%nat by lia. rewrite <-drop_drop, <-Et, <-!app_assoc.
    rewrite drop_app_length' by done. cbn [app]. by apply name_eq_run.
Qed.

Section directory.
Context {A : Type} {PA : PageAlloc A} {ST : Stale}.
Context (s : fs A) (vp rd bm : Z) (b : super_block).
Context (v : vinode) (d0 : rfs_device) (fm : list Z) (Hm : mounted s vp rd bm b v d0 fm).
Context (es : list (Z * cname)) (Hv : dir_view d0 v es).
Context (name : cname) (Hname : Forall (fun c => c <> 0) name).

Lemma same_block d d' a : same_disk d d' -> block d' a = block d a.
Proof. intros [E _]. unfold block. by rewrite E. Qed.

Lemma scan_run es2 : forall es1 d p,
  es = es1 ++ es2 -> same_disk d0 d ->
  (Z.of_nat (length es1) mod 128 <> 0 -> p = Z.of_nat (length es1) mod 128 /\
     exists a, at_index (i_addrs v) (Z.of_nat (length es1) / 128) = Some a /\ iobuffer d = block d0 a) ->
  exists d', scan_direntries (length es2) rd (i_addrs v) (Z.of_nat (length es1)) p name (fs_at s vp rd bm d v fm) =
      Ret (find_entry es2 (Z.of_nat (length es1)) name) (fs_at s vp rd bm d' v fm) /\ same_disk d0 d'.
Proof.
  induction es2 as [|[n nm] es2 IH]; intros es1 d p Hes Hsd Hbuf; cbn [scan_direntries find_entry length].
  { by exists d. }
  set (i := Z.of_nat (length es1)) in *. assert (0 <= i) as Hi by lia.
  destruct (dv_entry _ _ _ Hv (length es1) n nm) as (Hn & Hnm & _ & a & Ea & Hba & Et).
  { rewrite Hes. by apply list_lookup_middle. }
  fold i in Ea, Et. change one_block_direntrys with 128. rewrite Z.rem_mod_nonneg, Z.quot_div_nonneg by lia.
  assert (exists d1, (if i mod 128 =? 0 then a <- deref (at_index (i_addrs v) (i / 128)) ;;
      on_rdev rd (rfs_r1block a) ;;; ret 0 else ret p) (fs_at s vp rd bm d v fm) =
    Ret (i mod 128) (fs_at s vp rd bm d1 v fm) /\ same_disk d0 d1 /\ iobuffer d1 = block d0 a)
    as (d1 & E1 & Hsd1 & Hio).
  { destruct (Z.eqb_spec (i mod 128) 0) as [E|E].
    - rewrite Ea, E. exists (d <| iobuffer := block d a |>). split_and!.
      + step (eq_refl : deref (Some a) (fs_at s vp rd bm d v fm) = Ret a (fs_at s vp rd bm d v fm)).
        by step (fa_rdev s vp rd bm b v d0 fm Hm _ d v fm 0 _ (ramdisk_read_eq d a (proj2 Hsd) Hba)).
      + destruct Hsd as [Hd Hw]. split; [done|]. apply buffer_wf; [done|]. by apply length_block.
      + cbn. by apply same_block.
    - destruct (Hbuf E) as (-> & a' & Ea' & Hio). exists d. split_and!; [done|done|]. congruence. }
  step E1. step (fa_rdev s vp rd bm b v d0 fm Hm (gets id) d1 v fm d1 d1 eq_refl). rewrite Hio.
  change DIRENTRY_SIZE with 32.
  destruct (entry_reads (block d0 a) (i mod 128 * 32) n nm name) as [Er En]; [zdiv|done..|].
  rewrite En. step (eq_refl : deref (Some (bool_decide (nm = name))) (fs_at s vp rd bm d1 v fm) = Ret (bool_decide (nm = name)) (fs_at s vp rd bm d1 v fm)).
  clear En. case_bool_decide as Hd.
  - rewrite decide_True, Er by done. by exists d1.
  - rewrite decide_False by done. destruct (IH (es1 ++ [(n, nm)]) d1 (i mod 128 + 1)) as (d' & E & Hsd').
    + by rewrite <-app_assoc.
    + done.
    + rewrite length_app. cbn [length]. replace (Z.of_nat (length es1 + 1)) with (i + 1) by lia. intros Hne.
      split; [zdiv|]. exists a. split; [|done]. by assert ((i + 1) / 128 = i / 128) as -> by zdiv.
    + rewrite length_app in E. cbn [length] in E. replace (Z.of_nat (length es1 + 1)) with (i + 1) in E by lia.
      by exists d'.
Qed.

Lemma total_entries : Z.to_nat (total_direntrys (i_size v)) = length es.
Proof.
  pose proof (dv_max _ _ _ Hv). unfold total_direntrys, DIRENTRY_SIZE. rewrite (dv_size _ _ _ Hv), u64_small by lia.
  rewrite i32_small by zdiv. zdiv.
Qed.

Lemma search_run :
  exists d', scan_direntries (Z.to_nat (total_direntrys (i_size v))) rd (i_addrs v) 0 0 name s =
      Ret (find_entry es 0 name) (fs_at s vp rd bm d' v fm) /\ same_disk d0 d'.
Proof.
  rewrite total_entries. destruct (scan_run es [] d0 0) as (d' & E & H); [done|split; [done|apply Hm]|done|].
  rewrite (fs_at_id s vp rd bm b v d0 fm Hm) in E. by exists d'.
Qed.
End directory.

(** * Vinodes read from the disk *)

(** The vinode of disk inode [di] in a page that held [st]. *)
Definition vinode_of (st : vinode) (sb n : Z) (di : rfs_dinode) : vinode :=
  {| inum := n; i_ref := 0; i_size := di_size di; i_type := di_type di; i_nlinks := di_nlinks di;
     i_blocks := di_blocks di; i_addrs := di_addrs di; i_fs_info := i_fs_info st; i_sb := sb; i_ops := rfs_i_ops |}.

Section loading.
Context {A : Type} `{PageAllocLaws A} {ST : Stale}.

Lemma alloc_obj_run (s : fs A) p fl h :
  pg_inv (fs_pages s) (p :: fl) h ->
  exists a, alloc_obj s = Ret p (s <| fs_pages := a |>) /\ pg_inv a fl ({[p]} ∪ h) /\ p ∉ h.
Proof.
  intros Hi. destruct (pg_alloc_ok _ _ _ _ Hi) as (Hp & Hh & a & E & Ha). exists a. split_and!; [|done|done].
  unfold alloc_obj, fs_alloc, bind, zoom. rewrite E. by destruct (Z.eqb_spec p 0).
Qed.

Lemma free_obj_run (s : fs A) p fl h :
  pg_inv (fs_pages s) fl h -> p ∈ h ->
  exists a, fs_free p s = Ret tt (s <| fs_pages := a |>) /\ pg_inv a (p :: fl) (h ∖ {[p]}).
Proof.
  intros Hi Hp. destruct (pg_free_ok _ _ _ _ Hi Hp) as (a & E & Ha). exists a. split; [|done].
  unfold fs_free, zoom. by rewrite E.
Qed.

Lemma on_rdev_run {B} (s : fs A) rd d (c : M rfs_device B) x d' :
  at_index (rfs_device_list s) rd = Some (Some d) -> c d = Ret x d' ->
  on_rdev rd c s = Ret x (s <| rfs_device_list := <[Z.to_nat rd := Some d']> (rfs_device_list s) |>).
Proof. intros Hr E. unfold on_rdev. rewrite Hr. unfold zoom. by rewrite E. Qed.

Lemma on_rdev_same {B} (s : fs A) rd d (c : M rfs_device B) x :
  at_index (rfs_device_list s) rd = Some (Some d) -> c d = Ret x d -> on_rdev rd c s = Ret x s.
Proof.
  intros Hr E. rewrite (on_rdev_run s rd d c x d Hr E). f_equal. pose proof (at_index_Some _ _ _ Hr).
  rewrite at_index_nat in Hr by lia. destruct s. cbn in *. unfold upd. cbn. by rewrite list_insert_id.
Qed.

Lemma rdev_of_run (s : fs A) vp v b x :
  vinodes s !! vp = Some v -> super_blocks s !! i_sb v = Some b -> devices s !! s_dev b = Some x ->
  rdev_of vp s = Ret (dev_id x) s.
Proof.
  intros Hv Hb Hx. unfold rdev_of, get_vinode, get_sb, get_device, bind, gets, id. rewrite Hv. cbn.
  rewrite Hb. cbn. by rewrite Hx.
Qed.

Lemma alloc_dentry_run (s : fs A) p fl h name inode v parent :
  pg_inv (fs_pages s) (p :: fl) h -> (length name < 30)%nat -> inode <> 0 -> vinodes s !! inode = Some v ->
  exists a, alloc_vfs_dentry name inode parent s =
      Ret p (s <| fs_pages := a |> <| vinodes := <[inode := v <| i_ref := i32 (i_ref v + 1) |>]> (vinodes s) |>
        <| dentries := <[p := {| d_name := name; d_ref := 0; dentry_inode := inode; d_parent := parent;
                                 d_sb := stale_dentry_sb p |}]> (dentries s) |>) /\
    pg_inv a fl ({[p]} ∪ h).
Proof.
  intros Hi Hn Hne Hv. destruct (alloc_obj_run s p fl h Hi) as (a & E & Hi' & _). exists a. split; [|exact Hi'].
  unfold alloc_vfs_dentry. step E. set (s1 := s <| fs_pages := a |>).
  assert ((MAX_DENTRY_NAME_LEN <=? Z.of_nat (length name)) = false) as -> by (apply Z.leb_gt; unfold MAX_DENTRY_NAME_LEN; lia).
  assert ((inode =? 0) = false) as -> by by apply Z.eqb_neq. step (eq_refl : ret tt s1 = Ret tt s1).
  assert (get_vinode inode s1 = Ret v s1) as Gv by by apply get_vinode_eq.
  unfold bind at 1. step Gv. reflexivity.
Qed.

(** The allocation and the read of a vinode. *)
Lemma load_vinode_run (s : fs A) p q fl h sb b x d n :
  pg_inv (fs_pages s) (p :: q :: fl) h -> super_blocks s !! sb = Some b -> devices s !! s_dev b = Some x ->
  at_index (rfs_device_list s) (dev_id x) = Some (Some d) -> rdev_wf d -> is_inode n ->
  exists a d', pg_inv a (q :: fl) ({[p]} ∪ h) /\ same_disk d d' /\
    let s' := s <| fs_pages := a |> <| vinodes := <[p := vinode_of (stale_vinode p) sb n (disk_inode d n)]> (vinodes s) |>
      <| rfs_device_list := <[Z.to_nat (dev_id x) := Some d']> (rfs_device_list s) |> in
    forall {B} (k : Z -> M (fs A) B),
    (child <- rfs_alloc_vinode sb ;; c <- get_vinode child ;; put_vinode child (c <| inum := n |>) ;;;
     r <- rfs_update_vinode child ;; if negb (r =? 0) then panic "rfs_lookup: read inode failed!" else k child) s = k p s' /\
    (child <- load_vinode sb n ;; k child) s = k p s'.
Proof.
  intros Hi Hb Hx Hr Hw Hn.
  destruct (alloc_obj_run s p (q :: fl) h Hi) as (a1 & E1 & Hi1 & Hp).
  set (s1 := s <| fs_pages := a1 |>) in *.
  set (c1 := (stale_vinode p) <| i_blocks := 0 |> <| inum := 0 |> <| i_nlinks := 0 |> <| i_ref := 0 |>
    <| i_sb := sb |> <| i_size := 0 |> <| i_ops := rfs_i_ops |>).
  set (s2 := s1 <| vinodes := <[p := c1]> (vinodes s) |>).
  assert (rfs_alloc_vinode sb s = Ret p s2) as E2.
  { unfold rfs_alloc_vinode, default_alloc_vinode. unfold bind at 1. unfold bind at 1. rewrite E1.
    unfold put_vinode, get_vinode, bind, modify, gets, ret, id. cbn. rewrite lookup_insert_eq. cbn.
    unfold s2, s1. cbn. by rewrite insert_insert_eq. }
  set (c2 := c1 <| inum := n |>). set (s3 := s2 <| vinodes := <[p := c2]> (vinodes s) |>).
  assert (get_vinode p s2 = Ret c1 s2) as G2.
  { unfold get_vinode, bind, gets, id. cbn. by rewrite lookup_insert_eq. }
  assert (put_vinode p c2 s2 = Ret tt s3) as E3.
  { unfold put_vinode, modify, s3, s2. cbn. by rewrite insert_insert_eq. }
  assert (get_vinode p s3 = Ret c2 s3) as G3.
  { unfold get_vinode, bind, gets, id. cbn. by rewrite lookup_insert_eq. }
  assert (rdev_of p s3 = Ret (dev_id x) s3) as R3.
  { apply (rdev_of_run s3 p c2 b x); [cbn; apply lookup_insert_eq|done|done]. }
  pose proof (load_dinode_eq d n Hw Hn) as L. set (d' := d <| iobuffer := _ |>) in L.
  pose proof (on_rdev_run s3 (dev_id x) d _ _ _ Hr L) as E4. set (s4 := s3 <| rfs_device_list := _ |>) in E4.
  destruct (alloc_obj_run s4 q fl ({[p]} ∪ h) Hi1) as (a5 & E5 & Hi5 & Hq).
  set (s5 := s4 <| fs_pages := a5 |>) in *.
  set (c6 := c2 <| i_size := di_size (disk_inode d n) |> <| i_nlinks := di_nlinks (disk_inode d n) |>
    <| i_blocks := di_blocks (disk_inode d n) |> <| i_type := di_type (disk_inode d n) |>
    <| i_addrs := di_addrs (disk_inode d n) |>).
  set (s6 := s5 <| vinodes := <[p := c6]> (vinodes s) |>).
  assert (put_vinode p c6 s5 = Ret tt s6) as E6.
  { unfold put_vinode, modify, s6, s5, s4, s3. cbn. by rewrite insert_insert_eq. }
  destruct (free_obj_run s6 q fl ({[q]} ∪ ({[p]} ∪ h)) Hi5) as (a7 & E7 & Hi7); [set_solver|].
  assert (({[q]} ∪ ({[p]} ∪ h)) ∖ {[q]} = {[p]} ∪ h) as Es by set_solver. rewrite Es in Hi7.
  exists a7, d'. split; [done|]. split.
  { split; [done|]. apply buffer_wf; [done|]. apply length_block; [done|].
    by destruct (inode_place n Hn) as (_ & _ & ? & _). }
  intros s' B k.
  assert (rfs_update_vinode p s3 = Ret 0 s') as EU.
  { unfold rfs_update_vinode. step R3. step G3. unfold rfs_read_dinode.
    change (inum c2) with n. unfold bind at 1. step E4. unfold bind at 1. rewrite E5. cbn [ret].
    unfold ret at 1. fold c6. step E6. step E7. unfold ret, s', s6, s5, s4, s3, s2, s1. cbn. reflexivity. }
  split.
  - step E2. step G2. step E3. step EU. reflexivity.
  - unfold bind at 1. unfold load_vinode. step E2. step G2. step E3. step EU. reflexivity.
Qed.
End loading.

(** * Properties of directories *)

Section directory_properties.
Context {A : Type} `{PageAllocLaws A} {ST : Stale}.

Lemma find_entry_In es i name j n :
  find_entry es i name = Some (j, n) -> exists k, es !! k = Some (n, name) /\ j = i + Z.of_nat k.
Proof.
  revert i. induction es as [|[m nm] es IH]; intros i; cbn; [done|]. case_decide as Hd.
  - intros [= <- <-]. subst. exists 0%nat. split; [done|lia].
  - intros E. destruct (IH _ E) as (k & Hk & ->). exists (S k). split; [done|lia].
Qed.

(** C19.  [rfs_lookup] of a name in a directory: NULL when no entry has the name;
    otherwise a fresh vinode that is filled from the disk inode of the first entry
    with the name.  The disk, the other vinodes and the directory entries in memory
    do not change, and exactly one page was taken from the page allocator. *)
Theorem rfs_lookup_spec (s : fs A) vp rd bm b v d fm es de dd p q fl h :
  mounted s vp rd bm b v d fm -> dir_view d v es -> dentries s !! de = Some dd ->
  Forall (fun c => c <> 0) (d_name dd) -> (forall i n nm, es !! i = Some (n, nm) -> is_inode n) ->
  pg_inv (fs_pages s) (p :: q :: fl) h ->
  match find_entry es 0 (d_name dd) with
  | None => exists d', d_data d' = d_data d /\ rfs_lookup vp de s = Ret 0 (fs_at s vp rd bm d' v fm)
  | Some (_, n) => exists s' d', rfs_lookup vp de s = Ret p s' /\ p <> 0 /\
      vinodes s' = <[p := vinode_of (stale_vinode p) (i_sb v) n (disk_inode d n)]> (vinodes s) /\
      dentries s' = dentries s /\ freemaps s' = freemaps s /\
      rfs_device_list s' = <[Z.to_nat rd := Some d']> (rfs_device_list s) /\ d_data d' = d_data d /\
      pg_inv (fs_pages s') (q :: fl) ({[p]} ∪ h)
  end.
Proof.
  intros Hm Hv Hde Hname Hino Hi. pose proof Hm as [Mv Ms (x & Mx & Mid) Mr Mm Mi Mn Mw].
  destruct (search_run s vp rd bm b v d fm Hm es Hv (d_name dd) Hname) as (d1 & E1 & Hsd).
  assert (get_vinode vp s = Ret v s) as Gv by (unfold get_vinode, bind, gets, id; by rewrite Mv).
  assert (get_dentry de s = Ret dd s) as Gd by (unfold get_dentry, bind, gets, id; by rewrite Hde).
  pose proof (rdev_of_run s vp v b x Mv Ms Mx) as Gr. rewrite Mid in Gr.
  destruct (find_entry es 0 (d_name dd)) as [[j n]|] eqn:Ef.
  - destruct (find_entry_In _ _ _ _ _ Ef) as (k & Hk & _). pose proof (Hino _ _ _ Hk) as Hn.
    set (s1 := fs_at s vp rd bm d1 v fm) in *.
    assert (at_index (rfs_device_list s1) (dev_id x) = Some (Some d1)) as Mr1.
    { rewrite Mid. cbn. rewrite at_index_insert by (by eapply at_index_Some). by rewrite Z.eqb_refl. }
    destruct (load_vinode_run s1 p q fl h (i_sb v) b x d1 n Hi Ms Mx Mr1 (proj2 Hsd) Hn)
      as (a & d2 & Hi2 & Hsd2 & Hk2). cbv zeta in Hk2. destruct (Hk2 Z (fun c => ret c)) as [E2 _].
    eexists. exists d2. split_and!.
    + unfold rfs_lookup. step Gv. step Gd. step Gr. step E1. exact E2.
    + by destruct (pg_alloc_ok _ _ _ _ Hi) as [? _].
    + cbn. rewrite (insert_id (vinodes s)) by done. unfold disk_inode. by rewrite (same_block d d1) by done.
    + reflexivity.
    + cbn. by apply insert_id.
    + cbn. by rewrite Mid, list_insert_insert_eq.
    + destruct Hsd, Hsd2. congruence.
    + exact Hi2.
  - exists d1. split; [apply Hsd|]. unfold rfs_lookup. step Gv. step Gd. step Gr. by step E1.
Qed.
(** The disk inode that [rfs_write_back_vinode] stores. *)
Definition vinode_dinode (v : vinode) : rfs_dinode :=
  {| di_size := i_size v; di_type := i_type v; di_nlinks := i_nlinks v; di_blocks := i_blocks v;
     di_addrs := i_addrs v |}.

Lemma write_back_run (s : fs A) vp rd bm b v d fm d1 v1 :
  mounted s vp rd bm b v d fm -> i_sb v1 = i_sb v -> rdev_wf d1 -> dinode_ok (vinode_dinode v1) -> is_inode (inum v1) ->
  exists d', rfs_write_back_vinode vp (fs_at s vp rd bm d1 v1 fm) = Ret 0 (fs_at s vp rd bm d' v1 fm) /\ rdev_wf d' /\
    (forall m, is_inode m -> disk_inode d' m = if m =? inum v1 then vinode_dinode v1 else disk_inode d1 m) /\
    (forall x, 12 <= x -> block d' x = block d1 x).
Proof.
  intros Hm Hsb Hw Hd Hn. destruct (write_dinode_run d1 (vinode_dinode v1) (inum v1) Hw Hd Hn) as (d' & E & Hw' & Hi & Hb).
  exists d'. split_and!; [|done|done|].
  - unfold rfs_write_back_vinode. step (fa_get s vp rd bm d1 v1 fm). step (fa_rdev_of s vp rd bm b v d fm Hm d1 v1 fm Hsb).
    by step (fa_rdev s vp rd bm b v d fm Hm _ d1 v1 fm 0 d' E).
  - intros x Hx. apply Hb; [lia|]. unfold is_inode in Hn. zdiv.
Qed.

(** The entries of a directory after one more was written behind them. *)
Lemma dir_view_snoc d v fm es n name a blk d' :
  file_ok v fm -> dir_view d v es -> i_size v < i_blocks v * 4096 ->
  is_int n -> Forall (fun c => c <> 0) name -> (length name <= 27)%nat ->
  at_index (i_addrs v) (i_size v / 4096) = Some a -> length (block d a) = 4096%nat ->
  blk = splice (Z.to_nat (i_size v mod 4096)) (le32 n ++ name ++ [0]) (block d a) ->
  (forall x, 12 <= x -> block d' x = if x =? a then blk else block d x) ->
  dir_view d' (v <| i_size := i_size v + 32 |>) (es ++ [(n, name)]).
Proof.
  intros Ho [D1 D2 D3] Hroom Hn Hname Hlen Ea Hla -> Hb. pose proof (fo_blocks _ _ Ho) as Hbl.
  assert (12 <= a < 112) as Hra by (destruct (fo_used _ _ Ho (i_size v / 4096)) as (? & ? & ? & _); [zdiv|by simplify_eq]).
  set (k := Z.of_nat (length es)) in *.
  assert (i_size v / 4096 = k / 128 /\ i_size v mod 4096 = k mod 128 * 32) as [Eq Em] by (rewrite D1; zdiv).
  assert (length (le32 n ++ name ++ [0]) = (5 + length name)%nat) as Hle by (rewrite !length_app; cbn; lia).
  split.
  - rewrite length_app. cbn. lia.
  - rewrite length_app. cbn. lia.
  - intros i m nm Hi. change (i_addrs (v <| i_size := i_size v + 32 |>)) with (i_addrs v).
    destruct (decide (i < length es)%nat) as [Hlt|Hge].
    + rewrite lookup_app_l in Hi by done. destruct (D3 i m nm Hi) as (H1 & H2 & H3 & a' & Ea' & Hba' & Et).
      split_and!; [done|done|done|]. exists a'. split_and!; [done|done|].
      destruct (fo_used _ _ Ho (Z.of_nat i / 128)) as (a'' & Ea'' & Hr'' & _); [zdiv|]. simplify_eq.
      rewrite Hb by lia. destruct (Z.eqb_spec a' a) as [->|]; [|done].
      assert (Z.of_nat i / 128 = k / 128) as Esame.
      { rewrite <-Eq. apply (fo_inj _ _ Ho _ _ a); [zdiv|zdiv|done|done]. }
      rewrite <-Et. rewrite Em. apply take_drop_splice_ne; [rewrite Hle; zdiv|]. left. zdiv.
    + rewrite lookup_app_r in Hi by lia. apply list_lookup_singleton_Some in Hi as [Hi [= <- <-]].
      assert (Z.of_nat i = k) as -> by lia. split_and!; [done|done|done|]. exists a. rewrite <-Eq, <-Em.
      split_and!; [done|unfold is_block; lia|]. rewrite Hb, Z.eqb_refl by lia. rewrite <-Hle.
      apply take_drop_splice. rewrite Hle. zdiv.
Qed.

(** C20.  [rfs_add_direntry] on a directory whose blocks have room, with a name of at
    most 27 bytes: the directory then holds its old entries and the new one behind
    them, its size grows by one entry, and its inode on the disk agrees with the one
    in memory; no other inode and no other data block of the disk changes. *)
Theorem rfs_add_direntry_spec (s : fs A) vp rd bm b v d fm es name n :
  mounted s vp rd bm b v d fm -> file_ok v fm -> dir_view d v es -> i_type v = DIR_I ->
  i_size v < i_blocks v * 4096 -> is_inode (inum v) -> dinode_ok (vinode_dinode v) ->
  is_int n -> Forall (fun c => c <> 0) name -> (length name <= 27)%nat ->
  let v' := v <| i_size := i_size v + 32 |> in
  exists d', rfs_add_direntry vp name n s = Ret 0 (fs_at s vp rd bm d' v' fm) /\ rdev_wf d' /\
    dir_view d' v' (es ++ [(n, name)]) /\
    (forall m, is_inode m -> disk_inode d' m = if m =? inum v then vinode_dinode v' else disk_inode d m) /\
    (forall x, 12 <= x -> at_index (i_addrs v) (i_size v / 4096) <> Some x -> block d' x = block d x).
Proof.
  intros Hm Ho Hv Hty Hroom Hino Hdo Hn Hname Hlen v'. pose proof (mt_wf _ _ _ _ _ _ _ _ Hm) as Hw.
  pose proof (fo_blocks _ _ Ho) as Hbl. pose proof (fo_size _ _ Ho) as Hsz. pose proof (dv_size _ _ _ Hv) as Hds.
  destruct (rem_quot_4096 (i_size v)) as [Er Eq]; [lia|]. set (o := i_size v mod 4096) in *.
  assert (0 <= o <= 4064) as Hoo by (unfold o; rewrite Hds; zdiv).
  destruct (fo_used _ _ Ho (i_size v / 4096)) as (a & Ea & Hra & _); [zdiv|].
  assert (is_block a) as Hba by (unfold is_block; lia). pose proof (length_block d a Hw Hba) as Hla.
  pose proof (buffer_wf d _ Hw Hla) as Hw1. set (d1 := d <| iobuffer := block d a |>) in Hw1.
  destruct (buf_put_eq d1 o (le32 n) Hw1) as [E2 Hw2]; [lia|cbn; lia|].
  set (d2 := d1 <| iobuffer := _ |>) in E2, Hw2.
  destruct (buf_put_eq d2 (o + 4) (name ++ [0]) Hw2) as [E3 Hw3]; [lia|rewrite length_app; cbn; lia|].
  set (d3 := d2 <| iobuffer := _ |>) in E3, Hw3.
  assert (iobuffer d3 = splice (Z.to_nat o) (le32 n ++ name ++ [0]) (block d a)) as Hio.
  { change (iobuffer d3) with (splice (Z.to_nat (o + 4)) (name ++ [0]) (splice (Z.to_nat o) (le32 n) (block d a))).
    replace (Z.to_nat (o + 4)) with (Z.to_nat o + length (le32 n))%nat by (cbn; lia).
    apply splice_splice. rewrite length_app. cbn. lia. }
  pose proof (ramdisk_write_eq d3 a Hw3 Hba) as E4. set (d4 := d3 <| d_data := _ |>) in E4.
  assert (forall x, 0 <= x -> block d4 x = if x =? a then iobuffer d3 else block d x) as Hb4.
  { intros x Hx. unfold d4. rewrite block_insert by done. by destruct (x =? a). }
  destruct (write_back_run s vp rd bm b v d fm d4 v') as (d' & E5 & Hw' & Hi' & Hb');
    [done|done|apply disk_wf; [done|exact (rw_buffer _ Hw3)]| |done|].
  { destruct Hdo as [K1 K2 K3 K4 K5 K6]. split; try done. unfold is_int. cbn. lia. }
  exists d'. split_and!.
  - rewrite <-(fs_at_id s vp rd bm b v d fm Hm) at 1. unfold rfs_add_direntry. step (fa_get s vp rd bm d v fm).
    rewrite Hty. cbn [negb Z.eqb Pos.eqb DIR_I]. step (fa_rdev_of s vp rd bm b v d fm Hm d v fm eq_refl).
    rewrite Eq, Er, Ea.
    step (eq_refl : deref (Some a) (fs_at s vp rd bm d v fm) = Ret a (fs_at s vp rd bm d v fm)).
    step (fa_rdev s vp rd bm b v d fm Hm _ d v fm 0 d1 (ramdisk_read_eq d a Hw Hba)). cbn [negb Z.eqb].
    step (fa_rdev s vp rd bm b v d fm Hm _ d1 v fm tt d2 E2). step (fa_rdev s vp rd bm b v d fm Hm _ d2 v fm tt d3 E3).
    step (fa_rdev s vp rd bm b v d fm Hm _ d3 v fm 0 d4 E4). cbn [negb Z.eqb].
    change (i32 (i_size v + DIRENTRY_SIZE)) with (i32 (i_size v + 32)). rewrite i32_small by lia. fold v'.
    step (fa_put s vp rd bm d4 v fm v'). step E5. reflexivity.
  - done.
  - eapply (dir_view_snoc d v fm es n name a); try done. intros x Hx. rewrite Hb', Hb4 by lia. by rewrite Hio.
  - intros m Hmi. rewrite Hi' by done. change (inum v') with (inum v). destruct (m =? inum v); [done|].
    unfold disk_inode. destruct (inode_place m Hmi) as (_ & _ & Hbm & _). rewrite Hb4 by (unfold is_block in Hbm; lia).
    destruct (Z.eqb_spec (m / 32 + 1) a); [|done]. unfold is_inode in Hmi. zdiv.
  - intros x Hx Hne. rewrite Hb', Hb4 by lia. destruct (Z.eqb_spec x a) as [->|]; [|done]. congruence.
Qed.
End directory_properties.

(** ** Witnesses *)

(** Block 12 holds one entry, "a" for inode 1. *)
Definition small_dir_rdev : rfs_device :=
  blank_rdev <| d_data := <[12%nat := le32 1 ++ [97; 0] ++ replicate 4090 0]> (d_data blank_rdev) |>.

Lemma small_dir_wf : rdev_wf small_dir_rdev.
Proof. apply (disk_wf blank_rdev 12); [exact blank_rdev_wf|]. vm_compute. reflexivity. Qed.

Lemma small_dir_view : dir_view small_dir_rdev (small_vinode DIR_I 32) [(1, [97])].
Proof.
  split; [reflexivity|cbn; lia|]. intros i n nm Hi. apply list_lookup_singleton_Some in Hi as [-> [= <- <-]].
  split; [unfold is_int; lia|]. split; [by repeat constructor|]. split; [cbn; lia|].
  exists 12. split; [reflexivity|]. split; [unfold is_block; lia|]. vm_compute. reflexivity.
Qed.

Lemma rfs_lookup_spec_witness :
  exists s', rfs_lookup 4096 24576 (small_disk_fs (small_vinode DIR_I 32) small_dir_rdev) = Ret (KERN_BASE + 13 * PGSIZE) s'.
Proof.
  destruct (rfs_lookup_spec (small_disk_fs (small_vinode DIR_I 32) small_dir_rdev) 4096 0 16384 _ _ small_dir_rdev _ [(1, [97])] 24576
    {| d_name := [97]; d_ref := 0; dentry_inode := 0; d_parent := 0; d_sb := 0 |}
    (KERN_BASE + 13 * PGSIZE) (KERN_BASE + 12 * PGSIZE) (tail (tail small_free)) ∅
    (small_disk_mounted DIR_I 32 small_dir_rdev small_dir_wf) small_dir_view) as (s' & d' & E & _).
  - reflexivity.
  - by repeat constructor.
  - intros i n nm Hi. apply list_lookup_singleton_Some in Hi as [_ [= <- _]]. unfold is_inode. lia.
  - exact small_client_ok.
  - exists s'. exact E.
Defined.

Lemma rfs_add_direntry_spec_witness :
  exists s', rfs_add_direntry 4096 [98; 99] 2 (small_disk_fs (small_vinode DIR_I 32) small_dir_rdev) = Ret 0 s'.
Proof.
  destruct (rfs_add_direntry_spec (small_disk_fs (small_vinode DIR_I 32) small_dir_rdev) 4096 0 16384 _ _ small_dir_rdev _ [(1, [97])]
    [98; 99] 2 (small_disk_mounted DIR_I 32 small_dir_rdev small_dir_wf) (small_file_ok DIR_I 32 ltac:(lia)) small_dir_view)
    as (d' & E & _).
  - reflexivity.
  - cbn. lia.
  - unfold is_inode. cbn. lia.
  - split; [vm_compute; by split..|reflexivity|]. by repeat constructor.
  - unfold is_int. lia.
  - by repeat constructor.
  - cbn. lia.
  - eexists. exact E.
Defined.
