(* ===== verification/RfsMount.v ===== *)
(** Formatting and mounting the RAM disk. *)

From S2P Require Import Prelude PageAlloc Pmm HashTable FsData Ramdev Rfs RfsFile RfsDir.

(** * Formatting *)

(** The four fields of slot [m] in an inode block. *)
Definition slot_head (b : list Z) (m : Z) : list Z := take 16 (drop (Z.to_nat (m * 128)) b).

Lemma clear_dinodes_run n : forall i d,
  rdev_wf d -> 0 <= i -> i + Z.of_nat n <= 32 ->
  exists b', clear_dinodes n i d = Ret tt (d <| iobuffer := b' |>) /\ length b' = 4096%nat /\
    forall m, 0 <= m < 32 -> slot_head b' m =
      if (i <=? m) && (m <? i + Z.of_nat n) then ints [0; R_FREE; 0; 0] else slot_head (iobuffer d) m.
Proof.
  induction n as [|n IH]; intros i d Hw Hi Hn; cbn [clear_dinodes].
  - exists (iobuffer d). split_and!; [by destruct d|exact (rw_buffer _ Hw)|]. intros m Hm.
    destruct (Z.leb_spec i m), (Z.ltb_spec m (i + Z.of_nat 0)); try done; lia.
  - change RFS_INODESIZE with 128.
    destruct (buf_put_eq d (i * 128) (ints [0; R_FREE; 0; 0]) Hw) as [E1 Hw1]; [lia|cbn; lia|].
    destruct (IH (i + 1) _ Hw1) as (b' & E2 & Hl & Hs); [lia|lia|]. exists b'. split_and!; [|done|].
    + step E1. rewrite E2. by destruct d.
    + intros m Hm. rewrite Hs by done. pose proof (rw_buffer _ Hw) as Hb.
      change (iobuffer (d <| iobuffer := splice (Z.to_nat (i * 128)) (ints [0; R_FREE; 0; 0]) (iobuffer d) |>))
        with (splice (Z.to_nat (i * 128)) (ints [0; R_FREE; 0; 0]) (iobuffer d)).
      destruct (Z.leb_spec (i + 1) m), (Z.ltb_spec m (i + 1 + Z.of_nat n)), (Z.leb_spec i m),
        (Z.ltb_spec m (i + Z.of_nat (S n))); cbn [andb]; try lia; try done;
        try (unfold slot_head; apply take_drop_splice_ne; [change (length (ints [0; R_FREE; 0; 0])) with 16%nat; lia|];
             change (length (ints [0; R_FREE; 0; 0])) with 16%nat; lia).
      assert (m = i) as -> by lia. unfold slot_head. change 16%nat with (length (ints [0; R_FREE; 0; 0])) at 1.
      apply take_drop_splice. change (length (ints [0; R_FREE; 0; 0])) with 16%nat. lia.
Qed.

Lemma write_inode_blocks_run n : forall i d,
  rdev_wf d -> 0 <= i -> i + Z.of_nat n <= 10 ->
  exists d', write_inode_blocks n i d = Ret tt d' /\ rdev_wf d' /\ iobuffer d' = iobuffer d /\
    forall x, 0 <= x -> block d' x = if (1 + i <=? x) && (x <? 1 + i + Z.of_nat n) then iobuffer d else block d x.
Proof.
  induction n as [|n IH]; intros i d Hw Hi Hn; cbn [write_inode_blocks].
  - exists d. split_and!; [done|done|done|]. intros x Hx.
    destruct (Z.leb_spec (1 + i) x), (Z.ltb_spec x (1 + i + Z.of_nat 0)); try done; lia.
  - change RFS_BLK_OFFSET_INODE with 1. assert (is_block (1 + i)) as Hb by (unfold is_block; lia).
    pose proof (ramdisk_write_eq d (1 + i) Hw Hb) as E1. set (d1 := d <| d_data := _ |>) in E1.
    assert (rdev_wf d1) as Hw1 by (apply disk_wf; [done|exact (rw_buffer _ Hw)]).
    destruct (IH (i + 1) d1 Hw1) as (d' & E2 & Hw' & Hio & Hx); [lia|lia|].
    exists d'. split_and!; [|done|done|].
    + step E1. cbn [negb Z.eqb]. by step (eq_refl : ret tt d1 = Ret tt d1).
    + intros x Hx0. rewrite Hx by done. unfold d1 at 2. rewrite block_insert by done.
      change (iobuffer d1) with (iobuffer d).
      destruct (Z.leb_spec (1 + (i + 1)) x), (Z.ltb_spec x (1 + (i + 1) + Z.of_nat n)), (Z.leb_spec (1 + i) x),
        (Z.ltb_spec x (1 + i + Z.of_nat (S n))), (Z.eqb_spec x (1 + i)); cbn [andb]; try lia; done.
Qed.

Lemma slot_type b m : di_type (dinode_of_bytes (take 56 (drop (Z.to_nat (m * 128)) b))) =
  of_le32 (take 4 (drop 4 (slot_head b m))).
Proof.
  unfold slot_head, dinode_of_bytes. cbn [di_type]. f_equal.
  change 56%nat with (16 + 40)%nat. rewrite <-(take_drop 16 (drop (Z.to_nat (m * 128)) b)) at 1.
  set (x := drop (Z.to_nat (m * 128)) b).
  apply list_eq. intros i. destruct (decide (i < 4)%nat).
  - rewrite !lookup_take_lt, !lookup_drop, !lookup_take_lt by lia. by rewrite take_drop.
  - by rewrite !lookup_take_ge by lia.
Qed.

(** The disk after formatting. *)
Record formatted (d0 d : rfs_device) (junk : list Z) : Prop := {
  fm_wf : rdev_wf d;
  fm_super : of_ints 4 (take 16 (block d 0)) = [RFS_MAGIC; 112; 100; 320];
  fm_root : disk_inode d 0 = {| di_size := 0; di_type := R_DIR; di_nlinks := 1; di_blocks := 1; di_addrs := 12 :: junk |};
  fm_free n : 0 < n < 320 -> di_type (disk_inode d n) = R_FREE;
  fm_bitmap : of_ints 1024 (block d 11) = 1 :: replicate 1023 0;
  fm_data x : 12 <= x -> block d x = block d0 x;
}.

Lemma buf_fill d l : rdev_wf d -> length l = 4096%nat -> buf_put 0 l d = Ret tt (d <| iobuffer := l |>).
Proof.
  intros Hw Hl. destruct (buf_put_eq d 0 l Hw) as [-> _]; [lia|lia|]. f_equal. unfold splice.
  rewrite drop_ge; [by rewrite app_nil_r|]. rewrite (rw_buffer _ Hw). change (Z.to_nat 0) with 0%nat. lia.
Qed.

Lemma take_splice_0 (k l : list Z) : take (length k) (splice 0 k l) = k.
Proof. unfold splice. rewrite take_0, app_nil_l. apply take_app_length. Qed.

Lemma format_rdev_run d junk :
  rdev_wf d -> length junk = 9%nat -> Forall is_int junk ->
  exists d', format_rdev junk d = Ret 0 d' /\ formatted d d' junk.
Proof.
  intros Hw Hj Hjs. unfold format_rdev.
  set (sbi := [RFS_MAGIC; 1 + RFS_MAX_INODE_BLKNUM + 1 + RFS_MAX_INODE_BLKNUM * RFS_DIRECT_BLKNUM;
    RFS_MAX_INODE_BLKNUM * RFS_DIRECT_BLKNUM; RFS_BLKSIZE / RFS_INODESIZE * RFS_MAX_INODE_BLKNUM]).
  destruct (buf_put_eq d 0 (ints sbi) Hw) as [E1 Hw1]; [lia|cbn; lia|]. set (d1 := d <| iobuffer := _ |>) in *.
  assert (is_block 0 /\ is_block 11) as [Hb0 Hb11] by (unfold is_block; lia).
  pose proof (ramdisk_write_eq d1 0 Hw1 Hb0) as E2. set (d2 := d1 <| d_data := _ |>) in E2.
  assert (rdev_wf d2) as Hw2 by (apply disk_wf; [done|exact (rw_buffer _ Hw1)]).
  destruct (clear_dinodes_run 32 0 d2 Hw2) as (b3 & E3 & Hl3 & Hs3); [lia|lia|]. set (d3 := d2 <| iobuffer := b3 |>) in *.
  assert (rdev_wf d3) as Hw3 by (apply buffer_wf; done).
  destruct (write_inode_blocks_run 10 0 d3 Hw3) as (d4 & E4 & Hw4 & Hio4 & Hx4); [lia|lia|].
  set (root := {| di_size := 0; di_type := R_DIR; di_nlinks := 1; di_blocks := 1; di_addrs := RFS_BLK_OFFSET_FREE :: junk |}).
  destruct (write_dinode_run d4 root 0 Hw4) as (d5 & E5 & Hw5 & Hi5 & Hx5).
  { split; try done; cbn; [by rewrite Hj|]. constructor; [done|done]. }
  { done. }
  pose proof (buf_fill d5 (replicate 4096 0) Hw5 (length_replicate 4096 0)) as E6.
  assert (rdev_wf (d5 <| iobuffer := replicate 4096 0 |>)) as Hw6 by (apply buffer_wf; [done|apply length_replicate]).
  set (d6 := d5 <| iobuffer := _ |>) in *.
  destruct (buf_put_eq d6 0 (le32 1) Hw6) as [E7 Hw7]; [lia|cbn; lia|]. set (d7 := d6 <| iobuffer := _ |>) in *.
  pose proof (ramdisk_write_eq d7 11 Hw7 Hb11) as E8. set (d8 := d7 <| d_data := _ |>) in E8.
  assert (forall x, 0 <= x -> block d8 x = if x =? 11 then iobuffer d7 else block d5 x) as Hx8.
  { intros x Hx. unfold d8. rewrite block_insert by done. by destruct (x =? 11). }
  assert (forall x, 0 <= x -> block d2 x = if x =? 0 then iobuffer d1 else block d x) as Hx2.
  { intros x Hx. unfold d2. rewrite block_insert by done. by destruct (x =? 0). }
  assert (forall n, is_inode n -> disk_inode d8 n = disk_inode d5 n) as Hi8.
  { intros n Hn. unfold disk_inode. rewrite Hx8 by (unfold is_inode in Hn; zdiv).
    destruct (Z.eqb_spec (n / 32 + 1) 11); [|done]. unfold is_inode in Hn. zdiv. }
  exists d8. split.
  - step E1. step E2. cbn [negb Z.eqb]. step (eq_refl : ret tt d2 = Ret tt d2). step E3. step E4. step E5.
    cbn [negb Z.eqb]. step E6. step E7. by step E8.
  - split.
    + apply disk_wf; [done|exact (rw_buffer _ Hw7)].
    + rewrite Hx8, Hx5, Hx4 by (done || lia). change (block d3 0) with (block d2 0). rewrite Hx2 by done.
      change (of_ints 4 (take (length (ints sbi)) (splice 0 (ints sbi) (iobuffer d))) = [RFS_MAGIC; 112; 100; 320]).
      rewrite take_splice_0. reflexivity.
    + rewrite Hi8, Hi5 by done. reflexivity.
    + intros n Hn. assert (is_inode n) as Hin by (unfold is_inode; lia). rewrite Hi8, Hi5 by done.
      destruct (Z.eqb_spec n 0); [lia|]. unfold disk_inode. rewrite slot_type, Hx4 by zdiv.
      destruct (Z.leb_spec (1 + 0) (n / 32 + 1)); [|zdiv].
      destruct (Z.ltb_spec (n / 32 + 1) (1 + 0 + Z.of_nat 10)); [|zdiv]. cbn [andb]. change (iobuffer d3) with b3.
      rewrite Hs3 by zdiv. destruct (Z.leb_spec 0 (n mod 32)); [|zdiv].
      destruct (Z.ltb_spec (n mod 32) (0 + Z.of_nat 32)); [|zdiv]. reflexivity.
    + rewrite Hx8 by done. vm_compute. reflexivity.
    + intros x Hx. rewrite Hx8, Hx5, Hx4 by (zdiv || lia). destruct (Z.eqb_spec x 11); [lia|].
      destruct (Z.ltb_spec x (1 + 0 + Z.of_nat 10)); [lia|]. rewrite andb_false_r. change (block d3 x) with (block d2 x).
      rewrite Hx2 by lia. by destruct (Z.eqb_spec x 0); [lia|].
Qed.

(** * Mounting *)

Section mounting.
Context {A : Type} `{PageAllocLaws A} {ST : Stale}.

Lemma put_get_sb (s : fs A) p x : put_sb p x s = Ret tt (s <| super_blocks := <[p := x]> (super_blocks s) |>).
Proof. reflexivity. Qed.

(** The root directory as [rfs_get_superblock] leaves it. *)
Definition root_vinode (st : vinode) (sb : Z) (junk : list Z) : vinode :=
  {| inum := 0; i_ref := 1; i_size := 0; i_type := DIR_I; i_nlinks := 1; i_blocks := 1; i_addrs := 12 :: junk;
     i_fs_info := i_fs_info st; i_sb := sb; i_ops := rfs_i_ops |}.

Lemma root_file_ok st sb junk :
  length junk = 9%nat -> file_ok (root_vinode st sb junk) (1 :: replicate 1023 0).
Proof.
  intros Hj. split; cbn -[Z.of_nat].
  - by rewrite Hj.
  - lia.
  - lia.
  - reflexivity.
  - intros j Hjj. assert (j = 0) as -> by lia. exists 12. split_and!; [done|lia|lia|done].
  - intros j k a Hjj Hk _ _. lia.
Qed.

Lemma get_superblock_run (s : fs A) dev x d d0 junk p1 p2 p3 p4 fl h :
  devices s !! dev = Some x -> at_index (rfs_device_list s) (dev_id x) = Some (Some d) ->
  formatted d0 d junk -> length junk = 9%nat -> pg_inv (fs_pages s) (p1 :: p2 :: p3 :: p4 :: fl) h ->
  exists s' b d', rfs_get_superblock dev s = Ret p1 s' /\
    mounted s' p2 (dev_id x) p4 b (root_vinode (stale_vinode p2) p1 junk) d' (1 :: replicate 1023 0) /\
    d_data d' = d_data d /\ s_root b = p3 /\ super_blocks s' !! p1 = Some b /\
    dentries s' !! p3 = Some {| d_name := [47]; d_ref := 0; dentry_inode := p2; d_parent := 0; d_sb := stale_dentry_sb p3 |} /\
    pg_inv (fs_pages s') fl ({[p1; p2; p3; p4]} ∪ h).
Proof.
  intros Hx Hr [F1 F2 F3 F4 F5 F6] Hj Hi. unfold rfs_get_superblock.
  assert (get_device dev s = Ret x s) as G by (unfold get_device, bind, gets, id; by rewrite Hx). step G.
  assert (is_block 0 /\ is_block 11) as [Hb0 Hb11] by (unfold is_block; lia).
  pose proof (on_rdev_run s (dev_id x) d (rfs_r1block 0) 0 _ Hr (ramdisk_read_eq d 0 F1 Hb0)) as E1.
  set (s1 := s <| rfs_device_list := _ |>) in E1. set (d1 := d <| iobuffer := block d 0 |>) in *.
  assert (rdev_wf d1) as Hw1 by (apply buffer_wf; [done|by apply length_block]).
  assert (at_index (rfs_device_list s1) (dev_id x) = Some (Some d1)) as Hr1.
  { cbn. rewrite at_index_insert by (by eapply at_index_Some). by rewrite Z.eqb_refl. }
  step E1. cbn [negb Z.eqb]. step (eq_refl : ret tt s1 = Ret tt s1).
  pose proof (on_rdev_same s1 (dev_id x) d1 (buf_get 0 16) _ Hr1 (buf_get_eq d1 0 16 Hw1 ltac:(lia) ltac:(lia) ltac:(lia))) as E2.
  step E2. change (iobuffer d1) with (block d 0).
  change (Z.to_nat 16) with 16%nat. change (Z.to_nat 0) with 0%nat. rewrite drop_0, F2.
  destruct (alloc_obj_run s1 p1 _ h Hi) as (a2 & E3 & Hi2 & N1). step E3. set (s2 := s1 <| fs_pages := a2 |>) in *.
  set (l := [RFS_MAGIC; 112; 100; 320]).
  step (eq_refl : deref (l !! 0%nat) s2 = Ret RFS_MAGIC s2). step (eq_refl : deref (l !! 1%nat) s2 = Ret 112 s2).
  step (eq_refl : deref (l !! 2%nat) s2 = Ret 100 s2). step (eq_refl : deref (l !! 3%nat) s2 = Ret 320 s2).
  set (b0 := {| s_magic := RFS_MAGIC; s_size := 112; s_nblocks := 100; s_ninodes := 320; s_root := 0; s_dev := dev; s_fs_info := 0 |}).
  step (put_get_sb s2 p1 b0). set (s3 := s2 <| super_blocks := _ |>). rewrite Z.eqb_refl. cbn [negb].
  step (eq_refl : ret tt s3 = Ret tt s3).
  destruct (load_vinode_run s3 p2 p3 (p4 :: fl) ({[p1]} ∪ h) p1 b0 x d1 0) as (a4 & d4 & Hi4 & Sd4 & Hk4);
    [done|cbn; apply lookup_insert_eq|done|done|done|done|].
  cbv zeta in Hk4. rewrite (proj2 (Hk4 _ _)). clear Hk4. set (s4 := s3 <| fs_pages := a4 |> <| vinodes := _ |> <| rfs_device_list := _ |>).
  set (v4 := vinode_of (stale_vinode p2) p1 0 (disk_inode d1 0)) in *.
  assert (p2 <> 0) as Hp2 by exact (proj1 (pg_alloc_ok _ _ _ _ Hi2)).
  destruct (alloc_dentry_run s4 p3 (p4 :: fl) _ [47] p2 v4 0 Hi4) as (a5 & E6 & Hi5);
    [cbn; lia|exact Hp2|exact (lookup_insert_eq _ _ _)|].
  set (dn := {| d_name := [47]; d_ref := 0; dentry_inode := p2; d_parent := 0; d_sb := stale_dentry_sb p3 |}) in *.
  step E6. set (s6 := s4 <| fs_pages := a5 |> <| vinodes := _ |> <| dentries := _ |>).
  assert (at_index (rfs_device_list s6) (dev_id x) = Some (Some d4)) as Hr6.
  { cbn. rewrite list_insert_insert_eq. rewrite at_index_insert by (by eapply at_index_Some). by rewrite Z.eqb_refl. }
  destruct Sd4 as [Sd4 Hw4].
  pose proof (on_rdev_run s6 (dev_id x) d4 (rfs_r1block 11) 0 _ Hr6 (ramdisk_read_eq d4 11 Hw4 Hb11)) as E7.
  set (s7 := s6 <| rfs_device_list := _ |>) in E7. set (d7 := d4 <| iobuffer := block d4 11 |>) in *.
  step E7. cbn [negb Z.eqb]. step (eq_refl : ret tt s7 = Ret tt s7).
  destruct (alloc_obj_run s7 p4 fl _ Hi5) as (a8 & E8 & Hi8 & N4). step E8. set (s8 := s7 <| fs_pages := a8 |>) in *.
  assert (rdev_wf d7) as Hw7 by (apply buffer_wf; [exact Hw4|by apply length_block]).
  assert (at_index (rfs_device_list s8) (dev_id x) = Some (Some d7)) as Hr8.
  { cbn. rewrite !list_insert_insert_eq. rewrite at_index_insert by (by eapply at_index_Some). by rewrite Z.eqb_refl. }
  step (on_rdev_same s8 (dev_id x) d7 (buf_get 0 4096) _ Hr8 (buf_get_eq d7 0 4096 Hw7 ltac:(lia) ltac:(lia) ltac:(lia))).
  change (iobuffer d7) with (block d4 11). change (Z.to_nat 0) with 0%nat. rewrite drop_0.
  assert (block d4 11 = block d 11) as Eb by (unfold block; by rewrite Sd4).
  rewrite take_ge by (rewrite length_block by (exact Hw4 || exact Hb11); reflexivity).
  rewrite Eb, F5. set (fm := 1 :: replicate 1023 0).
  set (s9 := s8 <| freemaps := <[p4 := fm]> (freemaps s8) |>).
  step (eq_refl : put_freemap p4 fm s8 = Ret tt s9).
  assert (super_blocks s9 !! p1 = Some b0) as Hb9 by exact (lookup_insert_eq _ _ _).
  step (get_sb_eq s9 p1 b0 Hb9). set (b1 := b0 <| s_root := p3 |> <| s_fs_info := p4 |>).
  step (put_get_sb s9 p1 b1). set (s10 := s9 <| super_blocks := _ |>).
  assert (v4 <| i_ref := i32 (i_ref v4 + 1) |> = root_vinode (stale_vinode p2) p1 junk) as Ev.
  { unfold v4. change (disk_inode d1 0) with (disk_inode d 0). rewrite F3. reflexivity. }
  assert (dentries s10 !! p3 = Some dn) as Hd10 by exact (lookup_insert_eq _ _ _).
  assert (super_blocks s10 !! p1 = Some b1) as Hs10 by exact (lookup_insert_eq _ _ _).
  exists s10, b1, d7. split; [reflexivity|]. split.
  { split.
    - rewrite <-Ev. exact (lookup_insert_eq _ _ _).
    - exact Hs10.
    - exists x. split; [exact Hx|reflexivity].
    - exact Hr8.
    - exact (lookup_insert_eq _ _ _).
    - reflexivity.
    - reflexivity.
    - exact Hw7. }
  split; [exact Sd4|]. split; [reflexivity|]. split; [exact Hs10|]. split; [exact Hd10|].
  change (fs_pages s10) with a8.
  assert ({[p1; p2; p3; p4]} ∪ h = {[p4]} ∪ ({[p3]} ∪ ({[p2]} ∪ ({[p1]} ∪ h)))) as Eh by (clear; set_solver).
  rewrite Eh. exact Hi8.
Qed.

(** C21.  Formatting a RAM disk and mounting it: both succeed, and the result is a
    mounted file system whose root directory is an empty, well-formed directory with
    one block; the bitmap marks exactly that block, so that 99 blocks are free, every
    other inode of the disk is free, the root dentry is "/" and four pages were taken. *)
Theorem rfs_format_mount (s : fs A) dev x d junk p1 p2 p3 p4 fl h :
  devices s !! dev = Some x -> at_index (rfs_device_list s) (dev_id x) = Some (Some d) -> rdev_wf d ->
  length junk = 9%nat -> Forall is_int junk -> pg_inv (fs_pages s) (p1 :: p2 :: p3 :: p4 :: fl) h ->
  let v := root_vinode (stale_vinode p2) p1 junk in
  exists s' b d' fm,
    (rfs_format_dev junk dev ;;; rfs_get_superblock dev) s = Ret p1 s' /\
    mounted s' p2 (dev_id x) p4 b v d' fm /\ file_ok v fm /\ dir_view d' v [] /\ i_type v = DIR_I /\ i_blocks v = 1 /\
    free_count fm = 99 /\ (forall n, 0 < n < 320 -> di_type (disk_inode d' n) = R_FREE) /\
    (exists dn, dentries s' !! s_root b = Some dn /\ d_name dn = [47] /\ dentry_inode dn = p2) /\
    pg_inv (fs_pages s') fl ({[p1; p2; p3; p4]} ∪ h).
Proof.
  intros Hx Hr Hw Hj Hjs Hi v. destruct (format_rdev_run d junk Hw Hj Hjs) as (d1 & E1 & F).
  pose proof (on_rdev_run s (dev_id x) d (format_rdev junk) 0 d1 Hr E1) as E2. set (s1 := s <| rfs_device_list := _ |>) in E2.
  assert (at_index (rfs_device_list s1) (dev_id x) = Some (Some d1)) as Hr1.
  { cbn. rewrite at_index_insert by (by eapply at_index_Some). by rewrite Z.eqb_refl. }
  destruct (get_superblock_run s1 dev x d1 d junk p1 p2 p3 p4 fl h Hx Hr1 F Hj Hi)
    as (s' & b & d' & E3 & Hm & Hd & Hroot & _ & Hdn & Hi').
  exists s', b, d', (1 :: replicate 1023 0).
  assert (rfs_format_dev junk dev s = Ret 0 s1) as E0.
  { unfold rfs_format_dev. by step (get_device_eq s dev x Hx). }
  split; [by step E0|]. split; [exact Hm|]. split; [by apply root_file_ok|]. split.
  { split; [reflexivity|cbn; lia|]. intros i n nm Hn. by rewrite lookup_nil in Hn. }
  split; [reflexivity|]. split; [reflexivity|]. split; [reflexivity|]. split.
  { intros n Hn. unfold disk_inode, block. rewrite Hd. by apply (fm_free _ _ _ F). }
  split; [|exact Hi']. eexists. rewrite Hroot. split; [exact Hdn|]. split; reflexivity.
Qed.
End mounting.

(** ** Witnesses *)

Lemma rfs_format_mount_witness :
  exists s', (rfs_format_dev (replicate 9 77) 12288 ;;; rfs_get_superblock 12288)
    (small_disk_fs (small_vinode DIR_I 32) blank_rdev) = Ret (KERN_BASE + 13 * PGSIZE) s'.
Proof.
  destruct (rfs_format_mount (small_disk_fs (small_vinode DIR_I 32) blank_rdev) 12288
    {| dev_name := [82]; dev_id := 0; dev_fs_type := 20480 |} blank_rdev (replicate 9 77)
    (KERN_BASE + 13 * PGSIZE) (KERN_BASE + 12 * PGSIZE) (KERN_BASE + 11 * PGSIZE) (KERN_BASE + 10 * PGSIZE)
    (drop 4 small_free) ∅) as (s' & b & d' & fm & E & _).
  - reflexivity.
  - reflexivity.
  - exact blank_rdev_wf.
  - reflexivity.
  - by repeat constructor.
  - exact small_client_ok.
  - exists s'. exact E.
Defined.
