(* ===== verification/Hostfs.v ===== *)
(** kernel/hostfs.c: the file system on the files of the host, reached through the
    calls of spike_interface/spike_file.c. *)

From S2P Require Import Prelude PageAlloc HashTable SpikeFile FsData Ramdev Rfs.

Definition HOSTFS_TYPE : Z := 1.
Definition H_FILE : Z := FILE_I.
Definition H_DIR : Z := DIR_I.

(** [H_ROOT_DIR], the text "./hostfs_root". *)
Definition H_ROOT_DIR : cname := [46; 47; 104; 111; 115; 116; 102; 115; 95; 114; 111; 111; 116].

Definition O_RDONLY : Z := 0.
Definition O_WRONLY : Z := 1.
Definition O_RDWR : Z := 2.
Definition O_CREAT : Z := 64.
Definition MASK_FILEMODE : Z := 3.
Definition S_IRUSR : Z := 256.
Definition S_IWUSR : Z := 128.

(** [S_ISDIR] and [S_ISREG] of sys/stat.h. *)
Definition S_ISDIR (mode : Z) : bool := Z.land mode 61440 =? 16384.
Definition S_ISREG (mode : Z) : bool := Z.land mode 61440 =? 32768.

Section hostfs.
Context {A : Type} {PA : PageAlloc A} {ST : Stale} {HO : Host}.

(** A call of spike_interface/spike_file.c. *)
Definition on_host {B} (c : M host B) : M (fs A) B := zoom fs_host (fun h s => s <| fs_host := h |>) c.

(** * Registration *)

Definition register_hostfs : M (fs A) Z :=
  p <- alloc_obj ;;
  modify (fun s => s <| fs_types := <[p := {| type_num := HOSTFS_TYPE |}]> (fs_types s) |>) ;;;
  s <- gets id ;;
  match first_null (fs_list s) with
  | Some i => modify (fun s => s <| fs_list := <[i := p]> (fs_list s) |>) ;;; ret 0
  | None => ret (-1)
  end.

(** The first registered file system of type HOSTFS. *)
Fixpoint find_hostfs_type (types : gmap Z file_system_type) (l : list Z) : option Z :=
  match l with
  | [] => None
  | p :: l' =>
      match types !! p with
      | Some t => if type_num t =? HOSTFS_TYPE then Some p else find_hostfs_type types l'
      | None => find_hostfs_type types l'
      end
  end.

Definition init_host_device (name : cname) : M (fs A) Z :=
  s <- gets id ;;
  match find_hostfs_type (fs_types s) (fs_list s) with
  | None => panic "init_host_device: No HOSTFS file system found!"
  | Some fs_type =>
      device <- alloc_obj ;;
      (if MAX_DEVICE_NAME_LEN <=? Z.of_nat (length name) then fault else ret tt) ;;;
      put_device device {| dev_name := name; dev_id := 0; dev_fs_type := fs_type |} ;;;
      s <- gets id ;;
      (match first_null (vfs_dev_list s) with
       | Some i => modify (fun s => s <| vfs_dev_list := <[i := device]> (vfs_dev_list s) |>)
       | None => ret tt
       end) ;;;
      ret device
  end.

(** * Paths *)

(** The recursion stops at a dentry without a parent; on a cycle of parents it never
    does and exhausts the stack. *)
Fixpoint path_backtrack (fuel : nat) (path : cname) (dp : Z) : M (fs A) cname :=
  match fuel with
  | O => fault
  | S f =>
      d <- get_dentry dp ;;
      if d_parent d =? 0 then ret path
      else
        path <- path_backtrack f path (d_parent d) ;;
        ret (path ++ [47] ++ d_name d)
  end.

(** The array of the caller has [MAX_PATH_LEN] bytes. *)
Definition get_path_string (dp : Z) : M (fs A) cname :=
  s <- gets id ;;
  path <- path_backtrack (S (size (dentries s))) H_ROOT_DIR dp ;;
  if MAX_PATH_LEN <=? Z.of_nat (length path) then fault else ret path.

(** * Vinodes *)

Definition hostfs_alloc_vinode (sb : Z) : M (fs A) Z :=
  p <- default_alloc_vinode sb ;;
  v <- get_vinode p ;;
  put_vinode p (v <| inum := -1 |> <| i_fs_info := 0 |> <| i_ops := hostfs_i_ops |>) ;;;
  ret p.

Definition hostfs_write_back_vinode (vp : Z) : M (fs A) Z := ret 0.

Definition hostfs_update_vinode (vp : Z) : M (fs A) Z :=
  v <- get_vinode vp ;;
  let f := i_fs_info v in
  if f <? 0 then put_vinode vp (v <| i_type := H_DIR |>) ;;; ret (-1)
  else
    st <- on_host (spike_file_stat f) ;;
    let v := v <| inum := i32 (stat_ino st) |> <| i_size := i32 (stat_size st) |>
               <| i_nlinks := i32 (stat_nlink st) |> <| i_blocks := i32 (stat_blocks st) |> in
    if S_ISDIR (stat_mode st) then put_vinode vp (v <| i_type := H_DIR |>) ;;; ret 0
    else if S_ISREG (stat_mode st) then put_vinode vp (v <| i_type := H_FILE |>) ;;; ret 0
    else put_vinode vp v ;;; ret (-1).

(** * Operations *)

(** The test [pf < 0] of the source compares pointers and never holds.  The result is
    the bytes stored in the buffer, the number returned and the new offset. *)
Definition hostfs_read (f_inode len : Z) : M (fs A) (list Z * Z * Z) :=
  v <- get_vinode f_inode ;;
  r <- on_host (spike_file_read (i_fs_info v) len) ;;
  o <- on_host (spike_file_lseek (i_fs_info v) 0 1) ;;
  ret (snd r, i32 (fst r), i32 o).

Definition hostfs_write (f_inode : Z) (w_buf : list Z) (len : Z) : M (fs A) (Z * Z) :=
  v <- get_vinode f_inode ;;
  n <- on_host (spike_file_write (i_fs_info v) w_buf len) ;;
  o <- on_host (spike_file_lseek (i_fs_info v) 0 1) ;;
  ret (i32 n, i32 o).

Definition hostfs_lookup (parent sub_dentry : Z) : M (fs A) Z :=
  path <- get_path_string sub_dentry ;;
  f <- on_host (spike_file_open path O_RDWR 0) ;;
  pv <- get_vinode parent ;;
  child_inode <- hostfs_alloc_vinode (i_sb pv) ;;
  c <- get_vinode child_inode ;;
  put_vinode child_inode (c <| i_fs_info := f |>) ;;;
  hostfs_update_vinode child_inode ;;;
  c <- get_vinode child_inode ;;
  put_vinode child_inode (c <| i_ref := 0 |>) ;;;
  ret child_inode.

Definition hostfs_create (parent sub_dentry : Z) : M (fs A) Z :=
  path <- get_path_string sub_dentry ;;
  f <- on_host (spike_file_open path (Z.lor O_RDWR O_CREAT) (Z.lor S_IRUSR S_IWUSR)) ;;
  if f <? 0 then ret 0
  else
    pv <- get_vinode parent ;;
    new_inode <- hostfs_alloc_vinode (i_sb pv) ;;
    c <- get_vinode new_inode ;;
    put_vinode new_inode (c <| i_fs_info := f |>) ;;;
    r <- hostfs_update_vinode new_inode ;;
    if negb (r =? 0) then ret 0
    else
      c <- get_vinode new_inode ;;
      put_vinode new_inode (c <| i_ref := 0 |>) ;;;
      ret new_inode.

(** The result and the new offset. *)
Definition hostfs_lseek (f_inode new_offset whence : Z) : M (fs A) (Z * Z) :=
  v <- get_vinode f_inode ;;
  o <- on_host (spike_file_lseek (i_fs_info v) (u64 new_offset) whence) ;;
  ret (if 0 <=? i32 o then 0 else -1, i32 o).

Definition hostfs_link (parent sub_dentry link_node : Z) : M (fs A) Z := panic "hostfs_link not implemented!".
Definition hostfs_unlink (parent sub_dentry unlink_node : Z) : M (fs A) Z := panic "hostfs_unlink not implemented!".
Definition hostfs_readdir (dir_vinode offset : Z) : M (fs A) (Z * option dir * Z) := panic "hostfs_readdir not implemented!".
Definition hostfs_mkdir (parent sub_dentry : Z) : M (fs A) Z := panic "hostfs_mkdir not implemented!".

Definition hostfs_hook_open (f_inode f_dentry : Z) : M (fs A) Z :=
  v <- get_vinode f_inode ;;
  if negb (i_fs_info v =? 0) then ret 0
  else
    path <- get_path_string f_dentry ;;
    f <- on_host (spike_file_open path O_RDWR 0) ;;
    if f <? 0 then ret (-1)
    else put_vinode f_inode (v <| i_fs_info := f |>) ;;; ret 0.

Definition hostfs_hook_close (f_inode dentry : Z) : M (fs A) Z :=
  v <- get_vinode f_inode ;;
  on_host (spike_file_close (i_fs_info v)) ;;;
  ret 0.

(** Only the device and the root of the superblock are set. *)
Definition hostfs_get_superblock (dev : Z) : M (fs A) Z :=
  sb <- alloc_obj ;;
  put_sb sb ((stale_super_block sb) <| s_dev := dev |>) ;;;
  root_inode <- hostfs_alloc_vinode sb ;;
  v <- get_vinode root_inode ;;
  put_vinode root_inode (v <| i_type := H_DIR |>) ;;;
  root_dentry <- alloc_vfs_dentry [47] root_inode 0 ;;
  b <- get_sb sb ;;
  put_sb sb (b <| s_root := root_dentry |>) ;;;
  ret sb.
End hostfs.
