(* ===== verification/Vfs.v ===== *)
(** kernel/vfs.c: the virtual file system: the caches of dentries and vinodes, path
    lookup, and the operations on files and directories, which dispatch to
    kernel/rfs.c and kernel/hostfs.c. *)

From S2P Require Import Prelude CString PageAlloc HashTable SpikeFile FsData Ramdev Rfs Hostfs.

Definition MOUNT_DEFAULT : Z := 0.
Definition MOUNT_AS_ROOT : Z := 1.

(** * Hash functions *)

Definition dentry_hash_equal (k1 k2 : dentry_key) : bool :=
  bool_decide (dk_name k1 = dk_name k2) && (dk_parent k1 =? dk_parent k2).

(** [hash * 33 + c], on 64 bits. *)
Definition hash_step (hash c : Z) : Z := u64 (u64 (u64 (Z.shiftl hash 5) + hash) + c).

Definition dentry_hash_func (k : dentry_key) : Z :=
  hash_step (fold_left hash_step (dk_name k) 5381) (dk_parent k) mod HASH_TABLE_SIZE.

Definition vinode_hash_equal (k1 k2 : vinode_key) : bool :=
  (vk_inum k1 =? vk_inum k2) && (vk_sb k1 =? vk_sb k2).

Definition vinode_hash_func (k : vinode_key) : Z := u64 (Z.rem (vk_inum k) HASH_TABLE_SIZE).

(** * Paths *)

(** The tokens that successive calls of [strtok] with the delimiter "/" yield. *)
Fixpoint tokens (fuel : nat) (l : list Z) : list cname :=
  match fuel with
  | O => []
  | S f =>
      match next_token [47] l with
      | None => []
      | Some (t, None) => [t]
      | Some (t, Some rest) => t :: tokens f rest
      end
  end.

Definition path_tokens (path : cname) : list cname := tokens (S (length path)) path.

Definition is_absolute (path : cname) : bool := match path with 47 :: _ => true | _ => false end.

Section vfs.
Context {A : Type} {PA : PageAlloc A} {ST : Stale} {HO : Host}.

(** * The caches *)

Definition on_dentry_table {B} (c : M (hstate A dentry_key) B) : M (fs A) B :=
  zoom (fun s => {| h_pages := fs_pages s; h_table := dentry_hash_table s |})
    (fun h s => s <| fs_pages := h_pages h |> <| dentry_hash_table := h_table h |>) c.

Definition on_vinode_table {B} (c : M (hstate A vinode_key) B) : M (fs A) B :=
  zoom (fun s => {| h_pages := fs_pages s; h_table := vinode_hash_table s |})
    (fun h s => s <| fs_pages := h_pages h |> <| vinode_hash_table := h_table h |>) c.

Definition hash_get_dentry (parent : Z) (name : cname) : M (fs A) Z :=
  on_dentry_table (defalut_get {| dk_parent := parent; dk_name := name |}).

(** The key lives in a page of its own, whose name field points into the dentry; the
    name of a dentry does not change while it is in the table. *)
Definition hash_put_dentry (dp : Z) : M (fs A) Z :=
  key <- alloc_obj ;;
  d <- get_dentry dp ;;
  r <- on_dentry_table (default_put {| dk_parent := d_parent d; dk_name := d_name d |} dp) ;;
  (if negb (r =? 0) then fs_free key else ret tt) ;;;
  ret r.

Definition hash_erase_dentry (dp : Z) : M (fs A) Z :=
  d <- get_dentry dp ;;
  on_dentry_table (default_erase {| dk_parent := d_parent d; dk_name := d_name d |}).

Definition hash_get_vinode (sb n : Z) : M (fs A) Z :=
  if n <? 0 then ret 0 else on_vinode_table (defalut_get {| vk_inum := n; vk_sb := sb |}).

Definition hash_put_vinode (vp : Z) : M (fs A) Z :=
  v <- get_vinode vp ;;
  if inum v <? 0 then ret (-1)
  else
    key <- alloc_obj ;;
    r <- on_vinode_table (default_put {| vk_inum := inum v; vk_sb := i_sb v |} vp) ;;
    (if negb (r =? 0) then fs_free key else ret tt) ;;;
    ret r.

Definition hash_erase_vinode (vp : Z) : M (fs A) Z :=
  v <- get_vinode vp ;;
  if inum v <? 0 then ret (-1)
  else on_vinode_table (default_erase {| vk_inum := inum v; vk_sb := i_sb v |}).

Definition vfs_init : M (fs A) Z :=
  r <- on_dentry_table (hash_table_init (Some dentry_hash_equal) (Some dentry_hash_func)) ;;
  if negb (r =? 0) then ret r
  else
    r <- on_vinode_table (hash_table_init (Some vinode_hash_equal) (Some vinode_hash_func)) ;;
    if negb (r =? 0) then ret r else ret 0.

(** * Dispatch *)

Definition ops_of (vp : Z) : M (fs A) vinode_ops := v <- get_vinode vp ;; ret (i_ops v).

Definition viop_read (vp len offset : Z) : M (fs A) (list Z * Z * Z) :=
  o <- ops_of vp ;; match o with rfs_i_ops => rfs_read vp len offset | hostfs_i_ops => hostfs_read vp len end.
Definition viop_write (vp : Z) (buf : list Z) (len offset : Z) : M (fs A) (Z * Z) :=
  o <- ops_of vp ;; match o with rfs_i_ops => rfs_write vp buf len offset | hostfs_i_ops => hostfs_write vp buf len end.
Definition viop_create (parent sub_dentry : Z) : M (fs A) Z :=
  o <- ops_of parent ;; match o with rfs_i_ops => rfs_create parent sub_dentry | hostfs_i_ops => hostfs_create parent sub_dentry end.
Definition viop_lseek (vp new_off whence off : Z) : M (fs A) (Z * Z) :=
  o <- ops_of vp ;; match o with rfs_i_ops => rfs_lseek vp new_off whence off | hostfs_i_ops => hostfs_lseek vp new_off whence end.
(** hostfs leaves this entry NULL. *)
Definition viop_disk_stat (vp : Z) : M (fs A) (Z * istat) :=
  o <- ops_of vp ;; match o with rfs_i_ops => rfs_disk_stat vp | hostfs_i_ops => fault end.
Definition viop_link (parent sub_dentry link_node : Z) : M (fs A) Z :=
  o <- ops_of parent ;;
  match o with rfs_i_ops => rfs_link parent sub_dentry link_node | hostfs_i_ops => hostfs_link parent sub_dentry link_node end.
Definition viop_unlink (parent sub_dentry unlink_node : Z) : M (fs A) Z :=
  o <- ops_of parent ;;
  match o with rfs_i_ops => rfs_unlink parent sub_dentry unlink_node | hostfs_i_ops => hostfs_unlink parent sub_dentry unlink_node end.
Definition viop_lookup (parent sub_dentry : Z) : M (fs A) Z :=
  o <- ops_of parent ;; match o with rfs_i_ops => rfs_lookup parent sub_dentry | hostfs_i_ops => hostfs_lookup parent sub_dentry end.
Definition viop_readdir (vp offset : Z) : M (fs A) (Z * option dir * Z) :=
  o <- ops_of vp ;; match o with rfs_i_ops => rfs_readdir vp offset | hostfs_i_ops => hostfs_readdir vp offset end.
Definition viop_mkdir (parent sub_dentry : Z) : M (fs A) Z :=
  o <- ops_of parent ;; match o with rfs_i_ops => rfs_mkdir parent sub_dentry | hostfs_i_ops => hostfs_mkdir parent sub_dentry end.
Definition viop_write_back_vinode (vp : Z) : M (fs A) Z :=
  o <- ops_of vp ;; match o with rfs_i_ops => rfs_write_back_vinode vp | hostfs_i_ops => hostfs_write_back_vinode vp end.

(** Hooks that a file system leaves NULL are skipped; a failure is only reported. *)
Definition hook_open (vp dp : Z) : M (fs A) unit :=
  o <- ops_of vp ;; match o with rfs_i_ops => ret tt | hostfs_i_ops => hostfs_hook_open vp dp ;;; ret tt end.
Definition hook_close (vp dp : Z) : M (fs A) unit :=
  o <- ops_of vp ;; match o with rfs_i_ops => ret tt | hostfs_i_ops => hostfs_hook_close vp dp ;;; ret tt end.
Definition hook_opendir (vp : Z) : M (fs A) unit :=
  o <- ops_of vp ;; match o with rfs_i_ops => rfs_hook_opendir vp ;;; ret tt | hostfs_i_ops => ret tt end.
Definition hook_closedir (vp : Z) : M (fs A) unit :=
  o <- ops_of vp ;; match o with rfs_i_ops => rfs_hook_closedir vp ;;; ret tt | hostfs_i_ops => ret tt end.

(** * Mounting *)

(** The search loop: when no name matches, [p_device] is left at the last entry. *)
Fixpoint find_device (l : list Z) (p_device : Z) (name : cname) : M (fs A) Z :=
  match l with
  | [] => ret p_device
  | p :: l' =>
      if p =? 0 then find_device l' p name
      else
        d <- get_device p ;;
        if bool_decide (dev_name d = name) then ret p else find_device l' p name
  end.

(** [fs_type->get_superblock] is set by the routine that registers the type. *)
Definition get_superblock (fs_type dev : Z) : M (fs A) Z :=
  s <- gets id ;;
  t <- deref (fs_types s !! fs_type) ;;
  if type_num t =? HOSTFS_TYPE then hostfs_get_superblock dev else rfs_get_superblock dev.

Definition vfs_mount (name : cname) (mnt_type : Z) : M (fs A) Z :=
  s <- gets id ;;
  p_device <- find_device (vfs_dev_list s) 0 name ;;
  if p_device =? 0 then panic "vfs_mount: cannot find the device entry!"
  else
    dev <- get_device p_device ;;
    sb <- get_superblock (dev_fs_type dev) p_device ;;
    b <- get_sb sb ;;
    root <- get_dentry (s_root b) ;;
    hash_put_vinode (dentry_inode root) ;;;
    s <- gets id ;;
    match first_null (vfs_sb_list s) with
    | None => panic "vfs_mount: too many mounts!"
    | Some i =>
        modify (fun s => s <| vfs_sb_list := <[i := sb]> (vfs_sb_list s) |>) ;;;
        if mnt_type =? MOUNT_AS_ROOT then
          modify (fun s => s <| vfs_root_dentry := s_root b |>) ;;;
          hash_put_dentry (s_root b) ;;;
          ret sb
        else if mnt_type =? MOUNT_DEFAULT then
          s <- gets id ;;
          if vfs_root_dentry s =? 0 then panic "vfs_mount: root dentry not found, please mount the root device first!"
          else
            put_dentry (s_root b) (root <| d_name := dev_name dev |> <| d_parent := vfs_root_dentry s |>) ;;;
            hash_put_dentry (s_root b) ;;;
            ret sb
        else panic "vfs_mount: unknown mount type!"
    end.

(** * Path lookup *)

(** The dentry of [tok] in the directory [parent] when it is not cached: NULL, or a new
    dentry, with the vinode that is cached for it or the one read from the file system. *)
Definition lookup_uncached (parent : Z) (tok : cname) : M (fs A) Z :=
  new <- alloc_vfs_dentry tok 0 parent ;;
  pd <- get_dentry parent ;;
  found_vinode <- viop_lookup (dentry_inode pd) new ;;
  if found_vinode =? 0 then drop_dentry new ;;; ret 0
  else
    fv <- get_vinode found_vinode ;;
    same_inode <- hash_get_vinode (i_sb fv) (inum fv) ;;
    d <- get_dentry new ;;
    (if negb (same_inode =? 0) then
       put_dentry new (d <| dentry_inode := same_inode |>) ;;;
       sv <- get_vinode same_inode ;;
       put_vinode same_inode (sv <| i_ref := i32 (i_ref sv + 1) |>) ;;;
       free_vinode found_vinode
     else
       put_dentry new (d <| dentry_inode := found_vinode |>) ;;;
       put_vinode found_vinode (fv <| i_ref := i32 (i_ref fv + 1) |>) ;;;
       hash_put_vinode found_vinode ;;;
       ret tt) ;;;
    hash_put_dentry new ;;;
    ret new.

(** The loop over the tokens: the dentry reached or NULL, [*parent], and [miss_name],
    [None] where it is left unset. *)
Fixpoint walk_path (toks : list cname) (this parent : Z) : M (fs A) (Z * Z * option cname) :=
  match toks with
  | [] => ret (this, parent, None)
  | tok :: toks =>
      if bool_decide (tok = [46]) then walk_path toks this parent
      else if bool_decide (tok = [46; 46]) then
        d <- get_dentry this ;;
        if d_parent d =? 0 then ret (0, parent, None) else walk_path toks (d_parent d) parent
      else
        child <- hash_get_dentry this tok ;;
        if negb (child =? 0) then walk_path toks child this
        else
          new <- lookup_uncached this tok ;;
          if new =? 0 then ret (0, this, Some tok) else walk_path toks new this
  end.

(** [path_copy] has [MAX_PATH_LEN] bytes. *)
Definition check_path (path : cname) : M (fs A) unit :=
  if MAX_PATH_LEN <=? Z.of_nat (length path) then fault else ret tt.

Definition lookup_final_dentry (path : cname) (parent : Z) : M (fs A) (Z * Z * option cname) :=
  check_path path ;;;
  s <- gets id ;;
  walk_path (path_tokens path) (if is_absolute path then vfs_root_dentry s else parent) parent.

(** Without a token [last_token] is NULL, which [strcpy] reads. *)
Definition get_base_name (path : cname) : M (fs A) cname :=
  check_path path ;;; deref (last (path_tokens path)).

(** [strcmp(miss_name, basename) != 0]; comparing an unset [miss_name] is undefined. *)
Definition misses (miss_name : option cname) (basename : cname) : M (fs A) bool :=
  m <- deref miss_name ;; ret (negb (bool_decide (m = basename))).

(** * Files *)

Definition add_ref (vp : Z) : M (fs A) unit :=
  v <- get_vinode vp ;; put_vinode vp (v <| i_ref := i32 (i_ref v + 1) |>).

(** [None] stands for the two early returns of NULL. *)
Definition open_dentry (path : cname) (flags parent : Z) : M (fs A) (option Z) :=
  r <- lookup_final_dentry path parent ;;
  let '(file_dentry, parent, miss_name) := r in
  if negb (file_dentry =? 0) then ret (Some file_dentry)
  else if Z.land flags O_CREAT =? 0 then ret None
  else
    basename <- get_base_name path ;;
    m <- misses miss_name basename ;;
    if m : bool then ret None
    else
      file_dentry <- alloc_vfs_dentry basename 0 parent ;;
      pd <- get_dentry parent ;;
      new_inode <- viop_create (dentry_inode pd) file_dentry ;;
      if new_inode =? 0 then panic "vfs_open: cannot create file!"
      else
        d <- get_dentry file_dentry ;;
        put_dentry file_dentry (d <| dentry_inode := new_inode |>) ;;;
        add_ref new_inode ;;;
        hash_put_dentry file_dentry ;;;
        hash_put_vinode new_inode ;;;
        ret (Some file_dentry).

(** The file, or NULL. *)
Definition vfs_open (path : cname) (flags parent : Z) : M (fs A) Z :=
  o <- open_dentry path flags parent ;;
  match o with
  | None => ret 0
  | Some file_dentry =>
      d <- get_dentry file_dentry ;;
      v <- get_vinode (dentry_inode d) ;;
      if negb (i_type v =? FILE_I) then ret 0
      else
        let mode := Z.land flags MASK_FILEMODE in
        rw <- (if mode =? O_RDONLY then ret (1, 0)
               else if mode =? O_WRONLY then ret (0, 1)
               else if mode =? O_RDWR then ret (1, 1)
               else panic "fs_open: invalid open flags!") ;;
        file <- alloc_vfs_file file_dentry (fst rw) (snd rw) ;;
        hook_open (dentry_inode d) file_dentry ;;;
        ret file
  end.

(** The vinode of a file. *)
Definition file_inode (f : file) : M (fs A) Z := d <- get_dentry (f_dentry f) ;; ret (dentry_inode d).

(** [file] is passed by reference: the routines return it with its new offset or
    status.  A read also returns the bytes it stored. *)
Definition vfs_read (f : file) (count : Z) : M (fs A) (Z * list Z * file) :=
  if f_readable f =? 0 then ret (-1, [], f)
  else
    vp <- file_inode f ;;
    v <- get_vinode vp ;;
    if negb (i_type v =? FILE_I) then ret (-1, [], f)
    else
      r <- viop_read vp (i64 count) (f_offset f) ;;
      let '(buf, n, offset) := r in
      ret (n, buf, f <| f_offset := offset |>).

Definition vfs_write (f : file) (buf : list Z) (count : Z) : M (fs A) (Z * file) :=
  if f_writable f =? 0 then ret (-1, f)
  else
    vp <- file_inode f ;;
    v <- get_vinode vp ;;
    if negb (i_type v =? FILE_I) then ret (-1, f)
    else
      r <- viop_write vp buf (i64 count) (f_offset f) ;;
      ret (fst r, f <| f_offset := snd r |>).

Definition vfs_lseek (f : file) (offset whence : Z) : M (fs A) (Z * file) :=
  vp <- file_inode f ;;
  v <- get_vinode vp ;;
  if negb (i_type v =? FILE_I) then ret (-1, f)
  else
    r <- viop_lseek vp offset whence (f_offset f) ;;
    let f := f <| f_offset := snd r |> in
    ret (if negb (fst r =? 0) then -1 else f_offset f, f).

Definition vfs_stat (f : file) : M (fs A) (Z * istat) :=
  vp <- file_inode f ;;
  v <- get_vinode vp ;;
  ret (0, {| st_inum := inum v; st_size := i_size v; st_type := i_type v; st_nlinks := i_nlinks v;
             st_blocks := i_blocks v |}).

Definition vfs_disk_stat (f : file) : M (fs A) (Z * istat) :=
  vp <- file_inode f ;; viop_disk_stat vp.

(** The link is made in the directory [parent] that the caller passed. *)
Definition vfs_link (oldpath newpath : cname) (parent : Z) : M (fs A) Z :=
  r <- lookup_final_dentry oldpath parent ;;
  let '(old, _, _) := r in
  if old =? 0 then ret (-1)
  else
    od <- get_dentry old ;;
    ov <- get_vinode (dentry_inode od) ;;
    if negb (i_type ov =? FILE_I) then ret (-1)
    else
      r <- lookup_final_dentry newpath parent ;;
      let '(new, _, miss_name) := r in
      if negb (new =? 0) then ret (-1)
      else
        basename <- get_base_name newpath ;;
        m <- misses miss_name basename ;;
        if m : bool then ret (-1)
        else
          new <- alloc_vfs_dentry basename (dentry_inode od) parent ;;
          pd <- get_dentry parent ;;
          err <- viop_link (dentry_inode pd) new (dentry_inode od) ;;
          if negb (err =? 0) then ret (-1)
          else hash_put_dentry new ;;; ret 0.

Definition vfs_unlink (path : cname) (parent : Z) : M (fs A) Z :=
  r <- lookup_final_dentry path parent ;;
  let '(file_dentry, parent, _) := r in
  if file_dentry =? 0 then ret (-1)
  else
    d <- get_dentry file_dentry ;;
    v <- get_vinode (dentry_inode d) ;;
    if negb (i_type v =? FILE_I) then ret (-1)
    else if 0 <? d_ref d then ret (-1)
    else
      pd <- get_dentry parent ;;
      err <- viop_unlink (dentry_inode pd) file_dentry (dentry_inode d) ;;
      if negb (err =? 0) then ret (-1)
      else
        hash_erase_dentry file_dentry ;;;
        free_vfs_dentry file_dentry ;;;
        v <- get_vinode (dentry_inode d) ;;
        put_vinode (dentry_inode d) (v <| i_ref := i32 (i_ref v - 1) |>) ;;;
        (if i_nlinks v =? 0 then
           kassert (i32 (i_ref v - 1) =? 0) "unlinked_vinode->ref == 0" ;;;
           hash_erase_vinode (dentry_inode d) ;;;
           free_vinode (dentry_inode d)
         else ret tt) ;;;
        ret 0.

(** The dentry is dropped with its last open file, the vinode with its last dentry. *)
Definition vfs_close (f : file) : M (fs A) (Z * file) :=
  d <- get_dentry (f_dentry f) ;;
  let inode := dentry_inode d in
  v <- get_vinode inode ;;
  if negb (i_type v =? FILE_I) then ret (-1, f)
  else
    hook_close inode (f_dentry f) ;;;
    d <- get_dentry (f_dentry f) ;;
    let d_ref' := i32 (d_ref d - 1) in
    put_dentry (f_dentry f) (d <| d_ref := d_ref' |>) ;;;
    (if d_ref' =? 0 then
       hash_erase_dentry (f_dentry f) ;;;
       free_vfs_dentry (f_dentry f) ;;;
       v <- get_vinode inode ;;
       put_vinode inode (v <| i_ref := i32 (i_ref v - 1) |>) ;;;
       if i32 (i_ref v - 1) =? 0 then
         r <- viop_write_back_vinode inode ;;
         if negb (r =? 0) then panic "vfs_close: free inode failed!"
         else hash_erase_vinode inode ;;; free_vinode inode
       else ret tt
     else ret tt) ;;;
    ret (0, f <| f_status := FD_NONE |>).

(** * Directories *)

Definition vfs_opendir (path : cname) (parent : Z) : M (fs A) Z :=
  r <- lookup_final_dentry path parent ;;
  let '(file_dentry, _, _) := r in
  if file_dentry =? 0 then ret 0
  else
    d <- get_dentry file_dentry ;;
    v <- get_vinode (dentry_inode d) ;;
    if negb (i_type v =? DIR_I) then ret 0
    else
      file <- alloc_vfs_file file_dentry 1 0 ;;
      hook_opendir (dentry_inode d) ;;;
      ret file.

(** The result, the entry that is filled in, and the file. *)
Definition vfs_readdir (f : file) : M (fs A) (Z * option dir * file) :=
  vp <- file_inode f ;;
  v <- get_vinode vp ;;
  if negb (i_type v =? DIR_I) then ret (-1, None, f)
  else
    r <- viop_readdir vp (f_offset f) ;;
    let '(n, e, offset) := r in
    ret (n, e, f <| f_offset := offset |>).

Definition vfs_mkdir (path : cname) (parent : Z) : M (fs A) Z :=
  r <- lookup_final_dentry path parent ;;
  let '(file_dentry, parent, miss_name) := r in
  if negb (file_dentry =? 0) then ret (-1)
  else
    basename <- get_base_name path ;;
    m <- misses miss_name basename ;;
    if m : bool then ret (-1)
    else
      new_dentry <- alloc_vfs_dentry basename 0 parent ;;
      pd <- get_dentry parent ;;
      new_dir_inode <- viop_mkdir (dentry_inode pd) new_dentry ;;
      if new_dir_inode =? 0 then drop_dentry new_dentry ;;; ret (-1)
      else
        d <- get_dentry new_dentry ;;
        put_dentry new_dentry (d <| dentry_inode := new_dir_inode |>) ;;;
        add_ref new_dir_inode ;;;
        hash_put_dentry new_dentry ;;;
        hash_put_vinode new_dir_inode ;;;
        ret 0.

Definition vfs_closedir (f : file) : M (fs A) (Z * file) :=
  d <- get_dentry (f_dentry f) ;;
  v <- get_vinode (dentry_inode d) ;;
  if negb (i_type v =? DIR_I) then ret (-1, f)
  else
    put_dentry (f_dentry f) (d <| d_ref := i32 (d_ref d - 1) |>) ;;;
    hook_closedir (dentry_inode d) ;;;
    ret (0, f <| f_status := FD_NONE |>).
End vfs.
