(* ===== verification/VfsLookup.v ===== *)
(** Path lookup of kernel/vfs.c: what looking a path up leaves behind in the cache of
    dentries. *)

From S2P Require Import Prelude CString PageAlloc Pmm HashTable SpikeFile FsData Ramdev Rfs RfsFile Hostfs Vfs.

Section quiet.
Context {A : Type} {PA : PageAlloc A} {ST : Stale} {HO : Host}.
Implicit Types (s : fs A).

(** * Routines that leave the names alone *)

(** The dentries, their cache and the root are the same in both states. *)
Definition same_names s s' : Prop :=
  dentries s' = dentries s /\ dentry_hash_table s' = dentry_hash_table s /\ vfs_root_dentry s' = vfs_root_dentry s.

Definition quiet {B} (c : M (fs A) B) : Prop := forall s b s', c s = Ret b s' -> same_names s s'.

Lemma same_names_refl s : same_names s s.
Proof. done. Qed.

Lemma same_names_trans s1 s2 s3 : same_names s1 s2 -> same_names s2 s3 -> same_names s1 s3.
Proof. intros (H1 & H2 & H3) (I1 & I2 & I3). unfold same_names. by rewrite I1, I2, I3. Qed.

Lemma quiet_bind {B C} (c : M (fs A) B) (k : B -> M (fs A) C) :
  quiet c -> (forall b, quiet (k b)) -> quiet (bind c k).
Proof.
  intros Hc Hk s b s' (x & s1 & E1 & E2)%bind_Ret_inv.
  eapply same_names_trans; [by eapply Hc|by eapply Hk].
Qed.

Lemma quiet_ret {B} (b : B) : quiet (ret b).
Proof. by intros s x s' [= _ <-]. Qed.

Lemma quiet_fault {B} : quiet (fault : M (fs A) B).
Proof. done. Qed.

Lemma quiet_panic {B} msg : quiet (panic msg : M (fs A) B).
Proof. done. Qed.

Lemma quiet_gets {B} (f : fs A -> B) : quiet (gets f).
Proof. by intros s x s' [= _ <-]. Qed.

Lemma quiet_deref {B} (o : option B) : quiet (deref o).
Proof. destruct o; [apply quiet_ret|apply quiet_fault]. Qed.

Lemma quiet_modify (f : fs A -> fs A) : (forall s, same_names s (f s)) -> quiet (modify f).
Proof. intros Hf s x s' [= _ <-]. apply Hf. Qed.

Lemma quiet_pages {B} (c : M A B) : quiet (zoom fs_pages (fun a s => s <| fs_pages := a |>) c).
Proof. intros s x s' E. unfold zoom in E. destruct (c (fs_pages s)); try done. by injection E as _ <-. Qed.

Lemma quiet_host {B} (c : M host B) : quiet (zoom fs_host (fun h s => s <| fs_host := h |>) c).
Proof. intros s x s' E. unfold zoom in E. destruct (c (fs_host s)); try done. by injection E as _ <-. Qed.

Lemma quiet_rdev {B} i (c : M rfs_device B) : quiet (on_rdev i c).
Proof.
  intros s x s' E. unfold on_rdev in E. destruct (at_index _ i) as [[d|]|]; try done.
  unfold zoom in E. destruct (c d); try done. by injection E as _ <-.
Qed.

Lemma quiet_vinode_table {B} (c : M (hstate A vinode_key) B) : quiet (on_vinode_table c).
Proof. intros s x s' E. unfold on_vinode_table, zoom in E. destruct (c _); try done. by injection E as _ <-. Qed.
End quiet.

#[export] Hint Resolve quiet_ret quiet_fault quiet_panic quiet_gets quiet_deref quiet_pages quiet_host quiet_rdev
  quiet_vinode_table : quiet.

(** Take a routine apart down to the steps above. *)
Ltac quiet :=
  repeat first
    [ solve [auto with quiet nocore]
    | apply quiet_bind; [|intros ?]
    | apply quiet_modify; intros ?; done
    | match goal with |- quiet (match ?x with _ => _ end) => destruct x end ].

Section lookups.
Context {A : Type} {PA : PageAlloc A} {ST : Stale} {HO : Host}.
Implicit Types (s : fs A).

Lemma quiet_alloc_obj : quiet (alloc_obj (A := A)).
Proof. unfold alloc_obj, fs_alloc. quiet. Qed.

Lemma quiet_get_vinode p : quiet (get_vinode (A := A) p).
Proof. unfold get_vinode. quiet. Qed.
Lemma quiet_get_dentry p : quiet (get_dentry (A := A) p).
Proof. unfold get_dentry. quiet. Qed.
Lemma quiet_put_vinode p v : quiet (put_vinode (A := A) p v).
Proof. unfold put_vinode. quiet. Qed.
Hint Resolve quiet_alloc_obj quiet_get_vinode quiet_get_dentry quiet_put_vinode : quiet.

Lemma quiet_rdev_of vp : quiet (rdev_of (A := A) vp).
Proof. unfold rdev_of, get_sb, get_device. quiet. Qed.
Lemma quiet_free p : quiet (fs_free (A := A) p).
Proof. unfold fs_free. quiet. Qed.
Lemma quiet_default_alloc sb : quiet (default_alloc_vinode (A := A) sb).
Proof. unfold default_alloc_vinode. quiet. Qed.
Hint Resolve quiet_rdev_of quiet_free quiet_default_alloc : quiet.

Lemma quiet_scan n : forall rdev addrs i p name, quiet (scan_direntries (A := A) n rdev addrs i p name).
Proof. induction n as [|n IH]; intros; cbn [scan_direntries]; quiet. Qed.
Hint Resolve quiet_scan : quiet.

Lemma quiet_rfs_lookup parent sub : quiet (rfs_lookup (A := A) parent sub).
Proof. unfold rfs_lookup, rfs_alloc_vinode, rfs_update_vinode, rfs_read_dinode. quiet. Qed.

Lemma quiet_backtrack n : forall path dp, quiet (path_backtrack (A := A) n path dp).
Proof. induction n as [|n IH]; intros; cbn [path_backtrack]; quiet. Qed.
Hint Resolve quiet_backtrack : quiet.

Lemma quiet_hostfs_lookup parent sub : quiet (hostfs_lookup (A := A) parent sub).
Proof. unfold hostfs_lookup, get_path_string, on_host, hostfs_alloc_vinode, hostfs_update_vinode, on_host. quiet. Qed.
Hint Resolve quiet_rfs_lookup quiet_hostfs_lookup : quiet.

Lemma quiet_viop_lookup parent sub : quiet (viop_lookup (A := A) parent sub).
Proof. unfold viop_lookup, ops_of. quiet. Qed.

Lemma quiet_hash_get_vinode sb n : quiet (hash_get_vinode (A := A) sb n).
Proof. unfold hash_get_vinode. quiet. Qed.
Lemma quiet_hash_put_vinode vp : quiet (hash_put_vinode (A := A) vp).
Proof. unfold hash_put_vinode. quiet. Qed.
Lemma quiet_free_vinode vp : quiet (free_vinode (A := A) vp).
Proof. unfold free_vinode. quiet. Qed.
Hint Resolve quiet_viop_lookup quiet_hash_get_vinode quiet_hash_put_vinode quiet_free_vinode : quiet.

(** * The cache *)

(** Every binding of [t] is one of [t']. *)
Definition cache_ext (t t' : hash_table dentry_key) : Prop :=
  forall k, table_get t k <> 0 -> table_get t' k = table_get t k.

Lemma cache_ext_refl t : cache_ext t t.
Proof. done. Qed.

Lemma cache_ext_trans t1 t2 t3 : cache_ext t1 t2 -> cache_ext t2 t3 -> cache_ext t1 t3.
Proof. intros H1 H2 k Hk. rewrite H2; [by apply H1|]. by rewrite H1. Qed.

Lemma hash_get_dentry_eq s parent name :
  table_wf (dentry_hash_table s) ->
  hash_get_dentry parent name s = Ret (table_get (dentry_hash_table s) {| dk_parent := parent; dk_name := name |}) s.
Proof.
  intros Hw. unfold hash_get_dentry, on_dentry_table, zoom. rewrite defalut_get_table by done. by destruct s.
Qed.

Lemma hash_put_dentry_ret s dp d r s' :
  table_wf (dentry_hash_table s) -> dentries s !! dp = Some d -> dp <> 0 ->
  table_get (dentry_hash_table s) {| dk_parent := d_parent d; dk_name := d_name d |} = 0 ->
  hash_put_dentry dp s = Ret r s' ->
  table_wf (dentry_hash_table s') /\ cache_ext (dentry_hash_table s) (dentry_hash_table s') /\
  table_get (dentry_hash_table s') {| dk_parent := d_parent d; dk_name := d_name d |} = dp /\
  vfs_root_dentry s' = vfs_root_dentry s.
Proof.
  set (k := {| dk_parent := d_parent d; dk_name := d_name d |}). intros Hw Hd Hp Hg E. unfold hash_put_dentry in E.
  apply bind_Ret_inv in E as (key & s1 & E1 & E). apply quiet_alloc_obj in E1 as (D1 & T1 & R1).
  unfold bind at 1 in E. rewrite (get_dentry_eq s1 dp d) in E by (by rewrite D1). fold k in E.
  apply bind_Ret_inv in E as (r1 & s2 & E2 & E). unfold on_dentry_table, zoom in E2.
  destruct (default_put k dp _) as [r2 h2| | | | |] eqn:Ep; try done. injection E2 as -> <-.
  apply default_put_ret in Ep; [|by rewrite <-T1 in Hw|done]. cbn [h_table] in Ep. rewrite T1, Hg in Ep.
  destruct Ep as (-> & Hw' & Hget). injection E as _ <-. cbn.
  assert (virtual_hash_equal (dentry_hash_table s) k k = true) as Hk by (by apply (wf_equal _ Hw)).
  split_and!; [done| | |done].
  - intros k' Hk'. rewrite Hget. destruct (virtual_hash_equal _ k k') eqn:Eq; [|done].
    apply (wf_equal _ Hw) in Eq as <-. done.
  - by rewrite Hget, Hk.
Qed.

Lemma alloc_vfs_dentry_ret s name parent p s' :
  alloc_vfs_dentry name 0 parent s = Ret p s' ->
  p <> 0 /\ dentry_hash_table s' = dentry_hash_table s /\ vfs_root_dentry s' = vfs_root_dentry s /\
  exists d, dentries s' = <[p := d]> (dentries s) /\ d_name d = name /\ d_parent d = parent.
Proof.
  intros E. unfold alloc_vfs_dentry in E. apply bind_Ret_inv in E as (p' & s1 & E1 & E).
  assert (p' <> 0) as Hp.
  { unfold alloc_obj in E1. apply bind_Ret_inv in E1 as (q & s2 & _ & E1).
    destruct (Z.eqb_spec q 0); [done|]. by injection E1 as <- _. }
  apply quiet_alloc_obj in E1 as (D1 & T1 & R1).
  destruct (MAX_DENTRY_NAME_LEN <=? _); [done|]. injection E as <- <-. cbn.
  split_and!; [done..|]. rewrite D1. by eexists.
Qed.

(** A lookup in the file system caches what it finds. *)
Lemma lookup_uncached_ret s parent tok new s' :
  let k := {| dk_parent := parent; dk_name := tok |} in
  table_wf (dentry_hash_table s) -> table_get (dentry_hash_table s) k = 0 ->
  lookup_uncached parent tok s = Ret new s' -> new <> 0 ->
  table_wf (dentry_hash_table s') /\ cache_ext (dentry_hash_table s) (dentry_hash_table s') /\
  table_get (dentry_hash_table s') k = new /\ vfs_root_dentry s' = vfs_root_dentry s.
Proof.
  intros k Hw Hg E Hn. unfold lookup_uncached in E.
  apply bind_Ret_inv in E as (dp & s1 & E1 & E). apply alloc_vfs_dentry_ret in E1 as (Hp & T1 & R1 & d & D1 & Nd & Pd).
  apply bind_Ret_inv in E as (pd & s2 & E2 & E). apply quiet_get_dentry in E2 as S2.
  apply bind_Ret_inv in E as (fp & s3 & E3 & E). apply quiet_viop_lookup in E3 as S3.
  pose proof (same_names_trans _ _ _ S2 S3) as (D3 & T3 & R3).
  destruct (fp =? 0).
  { apply bind_Ret_inv in E as (u & s4 & _ & E). injection E as E _. congruence. }
  apply bind_Ret_inv in E as (fv & s4 & E4 & E). apply quiet_get_vinode in E4 as S4.
  apply bind_Ret_inv in E as (same & s5 & E5 & E). apply quiet_hash_get_vinode in E5 as S5.
  pose proof (same_names_trans _ _ _ S4 S5) as (D5 & T5 & R5).
  assert (dentries s5 !! dp = Some d) as Hd5 by (rewrite D5, D3, D1; apply lookup_insert_eq).
  unfold bind at 1 in E. rewrite (get_dentry_eq s5 dp d Hd5) in E.
  apply bind_Ret_inv in E as (u & s6 & E6 & E).
  assert (exists x, dentries s6 !! dp = Some (d <| dentry_inode := x |>) /\
    dentry_hash_table s6 = dentry_hash_table s5 /\ vfs_root_dentry s6 = vfs_root_dentry s5) as (x & D6 & T6 & R6).
  { destruct (negb (same =? 0)); apply bind_Ret_inv in E6 as (u1 & s7 & E7 & E6); injection E7 as _ <-.
    - assert (quiet (sv <- get_vinode same ;; put_vinode same (sv <| i_ref := i32 (i_ref sv + 1) |>) ;;; free_vinode fp)) as Q
        by quiet.
      apply Q in E6 as (D & T & R). exists same. rewrite D, T, R. split; [apply lookup_insert_eq|done].
    - assert (quiet (put_vinode fp (fv <| i_ref := i32 (i_ref fv + 1) |>) ;;; hash_put_vinode fp ;;; ret tt)) as Q by quiet.
      apply Q in E6 as (D & T & R). exists fp. rewrite D, T, R. split; [apply lookup_insert_eq|done]. }
  apply bind_Ret_inv in E as (r & s8 & E8 & E). injection E as Ea Eb. subst new s'.
  assert (dentry_hash_table s6 = dentry_hash_table s) as Ts by (by rewrite T6, T5, T3, T1).
  assert ({| dk_parent := d_parent (d <| dentry_inode := x |>); dk_name := d_name (d <| dentry_inode := x |>) |} = k) as Hk
    by (unfold k; rewrite <-Nd, <-Pd; done).
  destruct (hash_put_dentry_ret s6 dp _ r s8 ltac:(by rewrite Ts) D6 Hp ltac:(by rewrite Hk, Ts) E8) as (Hw' & Hx & Hget & R8).
  rewrite Hk in Hget. rewrite Ts in Hx. split_and!; [done..|]. by rewrite R8, R6, R5, R3, R1.
Qed.

Lemma walk_path_again toks : forall this parent s d p m s',
  table_wf (dentry_hash_table s) -> [46; 46] ∉ toks -> walk_path toks this parent s = Ret (d, p, m) s' -> d <> 0 ->
  table_wf (dentry_hash_table s') /\ cache_ext (dentry_hash_table s) (dentry_hash_table s') /\
  vfs_root_dentry s' = vfs_root_dentry s /\
  forall s2, table_wf (dentry_hash_table s2) -> cache_ext (dentry_hash_table s') (dentry_hash_table s2) ->
    walk_path toks this parent s2 = Ret (d, p, m) s2.
Proof.
  induction toks as [|tok toks IH]; intros this parent s d p m s' Hw Hnd E Hd; cbn [walk_path] in *.
  { injection E as <- <- <- <-. done. }
  apply not_elem_of_cons in Hnd as [Hnt Hnd].
  destruct (bool_decide_reflect (tok = [46])); [by apply IH|].
  destruct (bool_decide_reflect (tok = [46; 46])); [congruence|].
  set (k := {| dk_parent := this; dk_name := tok |}).
  assert (forall c s1, table_wf (dentry_hash_table s1) -> table_get (dentry_hash_table s1) k = c -> c <> 0 ->
    vfs_root_dentry s1 = vfs_root_dentry s -> cache_ext (dentry_hash_table s) (dentry_hash_table s1) ->
    walk_path toks c this s1 = Ret (d, p, m) s' ->
    table_wf (dentry_hash_table s') /\ cache_ext (dentry_hash_table s) (dentry_hash_table s') /\
    vfs_root_dentry s' = vfs_root_dentry s /\
    forall s2, table_wf (dentry_hash_table s2) -> cache_ext (dentry_hash_table s') (dentry_hash_table s2) ->
      bind (hash_get_dentry this tok) (fun child => if negb (child =? 0) then walk_path toks child this else
        new <- lookup_uncached this tok ;; if new =? 0 then ret (0, this, Some tok) else walk_path toks new this) s2 =
      Ret (d, p, m) s2) as Hgo.
  { intros c s1 Hw1 Hc Hc0 R1 X1 E1. destruct (IH c this s1 d p m s' Hw1 Hnd E1 Hd) as (Hw' & X & R & Hagain).
    split_and!; [done|by eapply cache_ext_trans|congruence|]. intros s2 Hw2 X2.
    unfold bind at 1. rewrite hash_get_dentry_eq by done. fold k.
    assert (table_get (dentry_hash_table s') k = c) as Hc' by (rewrite X; congruence).
    rewrite X2, Hc' by congruence. destruct (Z.eqb_spec c 0); [done|]. by apply Hagain. }
  unfold bind at 1 in E. rewrite hash_get_dentry_eq in E by done. fold k in E.
  destruct (Z.eqb_spec (table_get (dentry_hash_table s) k) 0) as [H0|H0]; cbn [negb] in E.
  - apply bind_Ret_inv in E as (new & s1 & E1 & E). destruct (Z.eqb_spec new 0); [by injection E as <- _|].
    destruct (lookup_uncached_ret s this tok new s1 Hw H0 E1) as (Hw1 & X1 & Hc & R1); [done|].
    by apply (Hgo new s1).
  - by apply (Hgo (table_get (dentry_hash_table s) k) s).
Qed.

(** * Claims *)

(** C27.  A path that was found is cached: looking it up again, from the same directory,
    gives the same dentry and the same parent and changes nothing, whichever file
    systems it leads through and whatever the host and the allocator do; no name that was
    cached before is lost.  (A path that
    goes up with ".." depends on more than the cache.) *)
Theorem lookup_again path parent s d p m s' :
  table_wf (dentry_hash_table s) -> [46; 46] ∉ path_tokens path ->
  lookup_final_dentry path parent s = Ret (d, p, m) s' -> d <> 0 ->
  lookup_final_dentry path parent s' = Ret (d, p, m) s' /\
  table_wf (dentry_hash_table s') /\ cache_ext (dentry_hash_table s) (dentry_hash_table s').
Proof.
  intros Hw Ht E Hd. unfold lookup_final_dentry, check_path in *.
  destruct (MAX_PATH_LEN <=? Z.of_nat (length path)); [done|].
  unfold bind, ret, gets, id in *.
  apply walk_path_again in E as (Hw' & X & R & Hagain); [|done..]. rewrite R. split; [|done].
  by apply Hagain.
Qed.
End lookups.

(** The comparison and the hash of dentry keys fit the table. *)
Lemma dentry_hash_equal_eq k1 k2 : dentry_hash_equal k1 k2 = true <-> k1 = k2.
Proof.
  unfold dentry_hash_equal. rewrite andb_true_iff, bool_decide_eq_true, Z.eqb_eq. destruct k1, k2; cbn.
  split; [by intros [-> ->]|by intros [= -> ->]].
Qed.

Lemma dentry_hash_func_range k : 0 <= dentry_hash_func k < HASH_TABLE_SIZE.
Proof. by apply Z.mod_pos_bound. Qed.

(** * Witness *)

(** A host on which nothing can be opened: every name is taken for a directory. *)
Definition no_host : Host := {| host_reply _ _ := (-2, []); fresh_stack _ := 0 |}.

(** The host file system mounted at "/", whose dentry is at 64 and vinode at 128. *)
Definition demo_fs : fs pmm := {|
  fs_pages := small_running;
  dentries := {[64 := {| d_name := [47]; d_ref := 0; dentry_inode := 128; d_parent := 0; d_sb := 0 |}]};
  vinodes := {[128 := {| inum := -1; i_ref := 1; i_size := 0; i_type := DIR_I; i_nlinks := 0; i_blocks := 0;
    i_addrs := []; i_fs_info := 0; i_sb := 192; i_ops := hostfs_i_ops |}]};
  files := ∅; super_blocks := ∅; devices := ∅; fs_types := ∅; freemaps := ∅; dir_caches := ∅; pfiles_store := ∅;
  rfs_device_list := []; fs_list := []; vfs_dev_list := []; vfs_sb_list := []; vfs_root_dentry := 64;
  dentry_hash_table := {| head := replicate (Z.to_nat HASH_TABLE_SIZE) [];
    virtual_hash_equal := dentry_hash_equal; virtual_hash_func := dentry_hash_func |};
  vinode_hash_table := {| head := replicate (Z.to_nat HASH_TABLE_SIZE) [];
    virtual_hash_equal := vinode_hash_equal; virtual_hash_func := vinode_hash_func |};
  fs_host := blank_host |}.

Definition found (o : outcome (fs pmm) (Z * Z * option cname)) : bool :=
  match o with Ret (d, _, _) _ => negb (d =? 0) | _ => false end.

Lemma demo_found : found (lookup_final_dentry (HO := no_host) [47; 97; 47; 46; 47; 98] 64 demo_fs) = true.
Proof. vm_compute. reflexivity. Qed.

Lemma demo_table_wf : table_wf (dentry_hash_table demo_fs).
Proof. apply empty_table_wf; [exact dentry_hash_equal_eq|exact dentry_hash_func_range]. Qed.

Lemma demo_no_dotdot : [46; 46] ∉ path_tokens [47; 97; 47; 46; 47; 98].
Proof. change (path_tokens _) with [[97]; [46]; [98]]. set_solver. Qed.

Lemma lookup_again_witness : exists d p m s', d <> 0 /\
  lookup_final_dentry (HO := no_host) [47; 97; 47; 46; 47; 98] 64 demo_fs = Ret (d, p, m) s' /\
  lookup_final_dentry (HO := no_host) [47; 97; 47; 46; 47; 98] 64 s' = Ret (d, p, m) s'.
Proof.
  pose proof demo_found as Hf.
  destruct (lookup_final_dentry (HO := no_host) [47; 97; 47; 46; 47; 98] 64 demo_fs) as [[[d p] m] s'| | | | |] eqn:E;
    try discriminate Hf.
  assert (d <> 0) as Hd by (intros ->; discriminate Hf). exists d, p, m, s'. split; [exact Hd|]. split; [reflexivity|].
  exact (proj1 (lookup_again (HO := no_host) _ 64 demo_fs d p m s' demo_table_wf demo_no_dotdot E Hd)).
Defined.
