(* ===== verification/Kernel.v ===== *)
(** kernel/process.h: the process control block and the state the whole kernel
    works on. *)

From S2P Require Import Prelude Mem CString PageAlloc Pmm HashTable SpikeFile FsData Symbol Leb128 DebugLine.

Definition NPROC : nat := 32.
Definition NCPU : nat := 2.
Definition MAX_HEAP_PAGES : nat := 32.
Definition SEM_MAX : nat := 100.
Definition TIME_SLICE_LEN : Z := 2.

Definition USER_STACK_TOP : Z := 2147479552.
Definition USER_FREE_ADDRESS_START : Z := PGSIZE * 1024.

(** * Processes *)

Inductive proc_status := FREE | READY | RUNNING | BLOCKED | ZOMBIE.
#[export] Instance proc_status_eq_dec : EqDecision proc_status.
Proof. solve_decision. Defined.

Inductive segment_type :=
  | STACK_SEGMENT | CONTEXT_SEGMENT | SYSTEM_SEGMENT | HEAP_SEGMENT | CODE_SEGMENT | DATA_SEGMENT.
#[export] Instance segment_type_eq_dec : EqDecision segment_type.
Proof. solve_decision. Defined.

(** The value of the enumerator, which is also the index of the region it names. *)
Definition seg_index (t : segment_type) : nat :=
  match t with
  | STACK_SEGMENT => 0 | CONTEXT_SEGMENT => 1 | SYSTEM_SEGMENT => 2
  | HEAP_SEGMENT => 3 | CODE_SEGMENT => 4 | DATA_SEGMENT => 5
  end%nat.

Record mapped_region := { mr_va : Z; mr_npages : Z; mr_seg_type : segment_type }.

Record process_heap_manager := {
  heap_top : Z;
  heap_bottom : Z;
  free_pages_address : list Z;
  free_pages_count : Z;
}.

Definition no_lines : line_info := {| debugline := 0; dir_tab := 0; file_tab := 0; line_tab := 0; line_cnt := 0 |}.

(** Pointers to processes are indices of [procs].  [mapped_info] is the content of
    the page of that name, an array of 256 regions; [trapframe], [pagetable] and
    [pfiles] are addresses; [line_table] is the fields [debugline], [dir], [file], [line] and
    [line_ind]. *)
Record process := {
  kstack : Z;
  pagetable : Z;
  trapframe : Z;
  mapped_info : list mapped_region;
  total_mapped_region : Z;
  user_heap : process_heap_manager;
  pid : Z;
  status : proc_status;
  parent : option nat;
  queue_next : option nat;
  tick_count : Z;
  pfiles : Z;
  line_table : line_info;
  first_free_block : Z;
  is_child : Z;
}.

#[export] Instance eta_mapped_region : Eta mapped_region := fun r =>
  Build_mapped_region (mr_va r) (mr_npages r) (mr_seg_type r).
#[export] Instance eta_process_heap_manager : Eta process_heap_manager := fun h =>
  Build_process_heap_manager (heap_top h) (heap_bottom h) (free_pages_address h) (free_pages_count h).
#[export] Instance eta_process : Eta process := fun p =>
  Build_process (kstack p) (pagetable p) (trapframe p) (mapped_info p) (total_mapped_region p)
    (user_heap p) (pid p) (status p) (parent p) (queue_next p) (tick_count p) (pfiles p) (line_table p)
    (first_free_block p) (is_child p).

(** Offsets in [struct trapframe_t]; the registers come first, [ra] at 0. *)
Definition TF_sp : Z := 8.
Definition TF_tp : Z := 24.
Definition TF_a0 : Z := 72.
Definition TF_a1 : Z := 80.
Definition TF_kernel_sp : Z := 248.
Definition TF_kernel_trap : Z := 256.
Definition TF_epc : Z := 264.
Definition TF_kernel_satp : Z := 272.
Definition TF_SIZE : Z := 280.

(** * The kernel state *)

(** The supervisor registers the kernel writes, one set per hart. *)
Record csrs := { stvec : Z; sstatus : Z; sepc : Z; satp : Z; sip : Z }.
#[export] Instance eta_csrs : Eta csrs := fun c =>
  Build_csrs (stvec c) (sstatus c) (sepc c) (satp c) (sip c).

(** A lock is [true] while it is held.  [symtab] is the arrays [symbols] and [sym_names] of
    kernel/symbol.c. *)
Record kern := {
  k_fs : fs pmm;
  procs : list process;
  current : list (option nat);
  ready_queue_head : option nat;
  ready_queue_lock : bool;
  sems : list Z;
  sem_cnt : Z;
  waiting_queue : list (option nat);
  sem_lock : list bool;
  cnt_lock : bool;
  queue_lock : bool;
  k_csrs : list csrs;
  g_ticks : list Z;
  child_running : Z;
  symtab : list sym_entry;
  sym_count : Z;
}.
#[export] Instance eta_kern : Eta kern := fun k =>
  Build_kern (k_fs k) (procs k) (current k) (ready_queue_head k) (ready_queue_lock k) (sems k)
    (sem_cnt k) (waiting_queue k) (sem_lock k) (cnt_lock k) (queue_lock k) (k_csrs k) (g_ticks k)
    (child_running k) (symtab k) (sym_count k).

(** * Access to the state *)

(** The page allocator and the memory it manages. *)
Definition k_pmm (k : kern) : pmm := fs_pages (k_fs k).
Definition set_pmm (p : pmm) (k : kern) : kern := k <| k_fs := (k_fs k) <| fs_pages := p |> |>.
Definition on_pmm {A} (c : M pmm A) : M kern A := zoom k_pmm set_pmm c.
Definition on_fs {A} (c : M (fs pmm) A) : M kern A := zoom k_fs (fun f k => k <| k_fs := f |>) c.

Definition get_proc (i : nat) : M kern process := k <- gets id ;; deref (procs k !! i).
Definition set_proc (i : nat) (p : process) : M kern unit :=
  modify (fun k => k <| procs := <[i := p]> (procs k) |>).
Definition mod_proc (i : nat) (f : process -> process) : M kern unit :=
  p <- get_proc i ;; set_proc i (f p).

(** [current[hart]], which must not be NULL where it is dereferenced. *)
Definition get_current (hart : nat) : M kern nat :=
  k <- gets id ;; deref (mjoin (current k !! hart)).

Definition mod_csrs (hart : nat) (f : csrs -> csrs) : M kern unit :=
  k <- gets id ;;
  c <- deref (k_csrs k !! hart) ;;
  modify (fun k => k <| k_csrs := <[hart := f c]> (k_csrs k) |>).

(** * Memory as buffers *)

(** The [n] bytes at [a]. *)
Definition ld_bytes (a n : Z) : M pmm (list Z) := fun s =>
  if in_dram a n && (0 <=? n)
  then Ret ((fun i => load8 (pm_mem s) (a + Z.of_nat i)) <$> seq 0 (Z.to_nat n)) s else Fault.

Definition st_bytes (a : Z) (l : list Z) : M pmm unit := fun s =>
  if in_dram a (Z.of_nat (length l)) then Ret tt (s <| pm_mem := store_bytes (pm_mem s) a l |>) else Fault.

(** The string at [a], or its first [n] bytes. *)
Fixpoint ld_string (n : nat) (a : Z) : M pmm cname :=
  match n with
  | O => ret []
  | S n' =>
      b <- ld_bytes a 1 ;;
      match b with
      | [c] => if c =? 0 then ret [] else l <- ld_string n' (a + 1) ;; ret (c :: l)
      | _ => fault
      end
  end.

(** * Locks *)

(** [spinlock_lock] on one hart: a lock that is held is never released. *)
Definition spinlock_lock (get : kern -> bool) (set : bool -> kern -> kern) : M kern unit := fun k =>
  if get k then Hang else Ret tt (set true k).
Definition spinlock_unlock (set : bool -> kern -> kern) : M kern unit := modify (set false).

Definition set_ready_lock (b : bool) (k : kern) : kern := k <| ready_queue_lock := b |>.
Definition set_queue_lock (b : bool) (k : kern) : kern := k <| queue_lock := b |>.
Definition set_cnt_lock (b : bool) (k : kern) : kern := k <| cnt_lock := b |>.

Definition lock_ready : M kern unit := spinlock_lock ready_queue_lock set_ready_lock.
Definition unlock_ready : M kern unit := spinlock_unlock set_ready_lock.
Definition lock_queue : M kern unit := spinlock_lock queue_lock set_queue_lock.
Definition unlock_queue : M kern unit := spinlock_unlock set_queue_lock.
Definition lock_cnt : M kern unit := spinlock_lock cnt_lock set_cnt_lock.
Definition unlock_cnt : M kern unit := spinlock_unlock set_cnt_lock.

(** [sem_lock[sem]]; a semaphore outside the array is an access outside it. *)
Definition lock_sem (sem : nat) : M kern unit := fun k =>
  match sem_lock k !! sem with
  | None => Fault
  | Some true => Hang
  | Some false => Ret tt (k <| sem_lock := <[sem := true]> (sem_lock k) |>)
  end.
Definition unlock_sem (sem : nat) : M kern unit := fun k =>
  match sem_lock k !! sem with
  | None => Fault
  | Some _ => Ret tt (k <| sem_lock := <[sem := false]> (sem_lock k) |>)
  end.
