(* ===== verification/Sched.v ===== *)
(** kernel/sched.c, with [switch_to] of kernel/process.c: the ready queue and the
    semaphores.  The queues are threaded through the process table by
    [queue_next]. *)

From S2P Require Import Prelude Semaphore Mem CString PageAlloc Pmm Vmm HashTable SpikeFile FsData Kernel.

(** * Switching to user mode *)

(** Addresses the linker fixes (kernel/strap_vector.S, kernel/kernel.lds, the array
    [debug_line] of kernel/elf.c). *)
Class Symbols := {
  smode_trap_vector : Z;
  smode_trap_handler : Z;
  trap_sec_start : Z;
  debug_line : Z;
}.

Definition SSTATUS_SPP : Z := Z.shiftl 1 8.
Definition SSTATUS_SPIE : Z := Z.shiftl 1 5.

(** [return_to_user]: control leaves the kernel. *)
Definition return_to_user {S A} : M S A := fun s => Switch s.

Section sched.
Context {SYM : Symbols}.

Definition switch_to (hart : nat) (proc : option nat) : M kern unit :=
  match proc with
  | None => panic "proc"
  | Some i =>
      modify (fun k => k <| current := <[hart := Some i]> (current k) |>) ;;;
      mod_csrs hart (fun c => c <| stvec := smode_trap_vector |>) ;;;
      p <- get_proc i ;;
      k <- gets id ;;
      c <- deref (k_csrs k !! hart) ;;
      on_pmm (st64 (trapframe p + TF_kernel_sp) (kstack p)) ;;;
      on_pmm (st64 (trapframe p + TF_kernel_satp) (satp c)) ;;;
      on_pmm (st64 (trapframe p + TF_kernel_trap) smode_trap_handler) ;;;
      mod_csrs hart (fun c => c <| sstatus :=
        Z.lor (Z.ldiff (sstatus c) SSTATUS_SPP) SSTATUS_SPIE |>) ;;;
      epc <- on_pmm (ld64 (trapframe p + TF_epc)) ;;
      mod_csrs hart (fun c => c <| sepc := epc |>) ;;;
      return_to_user
  end.

(** * The ready queue *)

(** The scan both insertions share: [Some p] is the last element, [None] means
    that [proc] was met before it. *)
Fixpoint queue_scan (fuel : nat) (p proc : nat) : M kern (option nat) :=
  match fuel with
  | O => hang
  | S f =>
      x <- get_proc p ;;
      match queue_next x with
      | None => ret (Some p)
      | Some q => if (p =? proc)%nat then ret None else queue_scan f q proc
      end
  end.

Definition insert_to_ready_queue (proc : nat) : M kern unit :=
  lock_ready ;;;
  k <- gets id ;;
  match ready_queue_head k with
  | None =>
      mod_proc proc (fun p => p <| status := READY |> <| queue_next := None |>) ;;;
      modify (fun k => k <| ready_queue_head := Some proc |>) ;;;
      unlock_ready
  | Some h =>
      r <- queue_scan (S (length (procs k))) h proc ;;
      unlock_ready ;;;
      match r with
      | None => ret tt
      | Some p =>
          if (p =? proc)%nat then ret tt
          else
            mod_proc p (fun x => x <| queue_next := Some proc |>) ;;;
            mod_proc proc (fun x => x <| status := READY |> <| queue_next := None |>)
      end
  end.

Definition idle (p : process) : bool :=
  bool_decide (status p = FREE) || bool_decide (status p = ZOMBIE).

Definition schedule (hart : nat) : M kern unit :=
  lock_ready ;;;
  k <- gets id ;;
  match ready_queue_head k with
  | None =>
      if forallb idle (procs k) then shutdown 0
      else panic "Not handled: we should let system wait for unfinished processes."
  | Some i =>
      modify (fun k => k <| current := <[hart := Some i]> (current k) |>) ;;;
      p <- get_proc i ;;
      kassert (bool_decide (status p = READY)) "current[hart_id]->status == READY" ;;;
      modify (fun k => k <| ready_queue_head := queue_next p |>) ;;;
      unlock_ready ;;;
      mod_proc i (fun p => p <| status := RUNNING |>) ;;;
      switch_to hart (Some i)
  end.

(** * Semaphores *)

Definition waiting_queue_push (proc sem : nat) : M kern unit :=
  lock_queue ;;;
  k <- gets id ;;
  w <- deref (waiting_queue k !! sem) ;;
  match w with
  | None =>
      mod_proc proc (fun p => p <| status := BLOCKED |> <| queue_next := None |>) ;;;
      modify (fun k => k <| waiting_queue := <[sem := Some proc]> (waiting_queue k) |>) ;;;
      unlock_queue
  | Some h =>
      r <- queue_scan (S (length (procs k))) h proc ;;
      match r with
      | None => unlock_queue
      | Some p =>
          if (p =? proc)%nat then unlock_queue
          else
            mod_proc p (fun x => x <| queue_next := Some proc |>) ;;;
            mod_proc proc (fun x => x <| status := BLOCKED |> <| queue_next := None |>) ;;;
            unlock_queue
      end
  end.

Definition waiting_queue_pop (sem : nat) : M kern nat :=
  lock_queue ;;;
  k <- gets id ;;
  w <- deref (waiting_queue k !! sem) ;;
  i <- deref w ;;
  p <- get_proc i ;;
  modify (fun k => k <| waiting_queue := <[sem := queue_next p]> (waiting_queue k) |>) ;;;
  unlock_queue ;;;
  ret i.

Definition sem_init (val : Z) : M kern Z :=
  lock_cnt ;;;
  cnt <- gets sem_cnt ;;
  k <- gets id ;;
  (if (0 <=? cnt) && (cnt <? Z.of_nat (length (sems k)))
   then modify (fun k => k <| sems := <[Z.to_nat cnt := val]> (sems k) |>) else fault) ;;;
  modify (fun k => k <| sem_cnt := i32 (cnt + 1) |>) ;;;
  unlock_cnt ;;;
  ret cnt.

Definition __acquire (hart sem : nat) : M kern unit :=
  lock_sem sem ;;;
  k <- gets id ;;
  v <- deref (sems k !! sem) ;;
  modify (fun k => k <| sems := <[sem := i32 (v - 1)]> (sems k) |>) ;;;
  (if i32 (v - 1) <? 0 then
     cur <- get_current hart ;;
     waiting_queue_push cur sem ;;;
     unlock_sem sem ;;;
     schedule hart
   else ret tt) ;;;
  unlock_sem sem.

Definition __release (sem : nat) : M kern unit :=
  lock_sem sem ;;;
  k <- gets id ;;
  v <- deref (sems k !! sem) ;;
  modify (fun k => k <| sems := <[sem := i32 (v + 1)]> (sems k) |>) ;;;
  (if i32 (v + 1) <=? 0 then
     unlock_sem sem ;;;
     p <- waiting_queue_pop sem ;;
     mod_proc p (fun x => x <| status := READY |>) ;;;
     insert_to_ready_queue p
   else ret tt) ;;;
  unlock_sem sem.
End sched.

(** * Queues *)

(** The processes reached from [h] through [queue_next], in order. *)
Fixpoint queue (ps : list process) (h : option nat) (l : list nat) : Prop :=
  match l with
  | [] => h = None
  | i :: l' => h = Some i /\ exists p, ps !! i = Some p /\ queue ps (queue_next p) l'
  end.

Lemma queue_ext ps ps' h l :
  (forall i p, i ∈ l -> ps !! i = Some p ->
     exists p', ps' !! i = Some p' /\ queue_next p' = queue_next p) ->
  queue ps h l -> queue ps' h l.
Proof.
  revert h. induction l as [|i l IH]; intros h Hx; cbn [queue]; [done|].
  intros (-> & p & Hi & Hq). split; [done|]. destruct (Hx i p) as (p' & Hi' & En); [set_solver|done|].
  exists p'. split; [done|]. rewrite En. apply IH; [|done]. set_solver.
Qed.

Lemma queue_insert_ne ps h l i p :
  i ∉ l -> queue ps h l -> queue (<[i := p]> ps) h l.
Proof.
  intros Hi. apply queue_ext. intros j q Hj Hq. exists q.
  rewrite list_lookup_insert_ne; [done|]. set_solver.
Qed.

(** Changing a process without touching its link keeps every queue. *)
Lemma queue_keep_link ps h l i p p' :
  ps !! i = Some p -> queue_next p' = queue_next p -> queue ps h l -> queue (<[i := p']> ps) h l.
Proof.
  intros Hi En. apply queue_ext. intros j q Hj Hq.
  destruct (decide (j = i)) as [->|]; [|exists q; by rewrite list_lookup_insert_ne].
  exists p'. rewrite list_lookup_insert_eq by (by eapply lookup_lt_Some). split; [done|]. congruence.
Qed.

Lemma queue_lookup ps h l i : queue ps h l -> i ∈ l -> exists p, ps !! i = Some p.
Proof.
  revert h. induction l as [|j l IH]; intros h; cbn [queue]; [set_solver|].
  intros (-> & p & Hj & Hq) [->|Hi]%elem_of_cons; eauto.
Qed.

Lemma queue_length ps h l : queue ps h l -> NoDup l -> (length l <= length ps)%nat.
Proof.
  intros Hq Hnd. rewrite <-(length_seq (length ps) 0).
  apply submseteq_length, NoDup_submseteq; [done|]. intros i Hi.
  destruct (queue_lookup _ _ _ _ Hq Hi) as [p Hp]. apply elem_of_seq.
  apply lookup_lt_Some in Hp. lia.
Qed.

Lemma queue_unique ps h l l' : queue ps h l -> queue ps h l' -> l = l'.
Proof.
  revert h l'. induction l as [|i l IH]; intros h [|j l']; cbn [queue]; [done|naive_solver..|].
  intros (-> & p & Hp & Hq) (? & p' & Hp' & Hq'). simplify_eq. f_equal. by eapply IH.
Qed.

(** Clearing the link of [i] cuts the queue behind it. *)
Lemma queue_cut ps ps' h pre i post p :
  queue ps h (pre ++ i :: post) -> ps' !! i = Some p -> queue_next p = None ->
  (forall j, j ∈ pre -> ps' !! j = ps !! j) -> queue ps' h (pre ++ [i]).
Proof.
  intros Hq Hi En. revert h Hq. induction pre as [|j pre IH]; intros h; cbn [app queue].
  - intros (-> & _) _. split; [done|]. exists p. by rewrite En.
  - intros (-> & q & Hq & Hr) Hs. split; [done|]. exists q. rewrite Hs by left. split; [done|].
    apply IH; [done|]. intros x Hx. apply Hs. by right.
Qed.

(** Linking [i] behind the last element. *)
Lemma queue_append ps h l last p i q q' :
  queue ps h (l ++ [last]) -> i ∉ l ++ [last] -> NoDup (l ++ [last]) ->
  ps !! last = Some p -> ps !! i = Some q -> queue_next q' = None ->
  queue (<[i := q']> (<[last := p <| queue_next := Some i |>]> ps)) h (l ++ [last; i]).
Proof.
  intros Hq Hi Hnd Hp Hqi En.
  assert (i <> last) as Hne by set_solver.
  assert (i < length ps)%nat as Hilt by (by eapply lookup_lt_Some).
  assert (last < length ps)%nat as Hllt by (by eapply lookup_lt_Some).
  revert h Hq. induction l as [|j l IH]; intros h; cbn [app queue].
  - intros (-> & p0 & Hp0 & _). split; [done|]. exists (p <| queue_next := Some i |>).
    rewrite list_lookup_insert_ne by done. rewrite list_lookup_insert_eq by done.
    split; [done|]. cbn. split; [done|]. exists q'.
    rewrite list_lookup_insert_eq by (by rewrite length_insert). by rewrite En.
  - intros (-> & p0 & Hp0 & Hq). split; [done|]. exists p0.
    apply NoDup_cons in Hnd as [Hj Hnd].
    rewrite !list_lookup_insert_ne by set_solver. split; [done|].
    apply IH; [set_solver|done|done].
Qed.

Lemma get_proc_eq k i p : procs k !! i = Some p -> get_proc i k = Ret p k.
Proof. intros E. unfold get_proc, bind, gets, id. by rewrite E. Qed.

Lemma mod_proc_eq k i p f :
  procs k !! i = Some p -> mod_proc i f k = Ret tt (k <| procs := <[i := f p]> (procs k) |>).
Proof. intros E. unfold mod_proc, bind. by rewrite (get_proc_eq k i p E). Qed.

(** The scan finds the end of a queue that does not hold [proc]. *)
Lemma queue_scan_last fuel k h l last proc :
  queue (procs k) (Some h) (l ++ [last]) -> proc ∉ l ++ [last] -> (length l < fuel)%nat ->
  queue_scan fuel h proc k = Ret (Some last) k.
Proof.
  revert h fuel. induction l as [|j l IH]; intros h fuel; cbn [app queue length].
  - intros (? & p & Hp & En) Hi Hf. destruct fuel as [|f]; [lia|]. simplify_eq. cbn [queue_scan].
    rewrite (bind_ret_eq _ _ _ _ _ (get_proc_eq k last p Hp)). by rewrite En.
  - intros (? & p & Hp & Hq) Hi Hf. destruct fuel as [|f]; [lia|]. simplify_eq. cbn [queue_scan].
    rewrite (bind_ret_eq _ _ _ _ _ (get_proc_eq k j p Hp)).
    assert (exists h', queue_next p = Some h') as [h' Eh'].
    { destruct l; cbn [app queue] in Hq; destruct Hq as [-> _]; eauto. }
    rewrite Eh' in Hq |- *. destruct (Nat.eqb_spec j proc); [set_solver|].
    apply IH; [done|set_solver|lia].
Qed.

(** * The scheduler's invariant *)

(** [rl] is the ready queue and [wl] the queues of the semaphores. *)
Record sched_wf (k : kern) (rl : list nat) (wl : list (list nat)) : Prop := {
  sw_ready : queue (procs k) (ready_queue_head k) rl;
  sw_waiting : length wl = length (waiting_queue k);
  sw_wait j l h : wl !! j = Some l -> waiting_queue k !! j = Some h -> queue (procs k) h l;
  sw_nodup : NoDup (rl ++ concat wl);
  sw_ready_status i p : i ∈ rl -> procs k !! i = Some p -> status p = READY;
  sw_wait_status i p : i ∈ concat wl -> procs k !! i = Some p -> status p = BLOCKED;
  sw_ready_lock : ready_queue_lock k = false;
  sw_queue_lock : queue_lock k = false;
}.

(** The counters agree with the queues, below zero they count the waiters, and no
    semaphore is locked. *)
Definition sems_wf (k : kern) (wl : list (list nat)) : Prop :=
  length (sems k) = length wl /\ length (sem_lock k) = length wl /\ Forall (eq false) (sem_lock k) /\
  forall j v l, sems k !! j = Some v -> wl !! j = Some l ->
    -2147483647 < v < 2147483647 /\ Z.of_nat (length l) = Z.max 0 (- v).

(** [ps'] differs from [ps] in links only, and in the status of [i]. *)
Definition relinked (i : nat) (st : proc_status) (ps ps' : list process) : Prop :=
  length ps' = length ps /\
  forall j p, ps !! j = Some p -> exists n,
    ps' !! j = Some (p <| queue_next := n |> <| status := if decide (j = i) then st else status p |>).

Lemma relinked_status i st ps ps' j p :
  relinked i st ps ps' -> ps' !! j = Some p ->
  exists p0, ps !! j = Some p0 /\ status p = if decide (j = i) then st else status p0.
Proof.
  intros [Hlen Hr] Hp. assert (j < length ps)%nat as Hj by (rewrite <-Hlen; by eapply lookup_lt_Some).
  apply lookup_lt_is_Some in Hj as [p0 Hp0]. destruct (Hr j p0 Hp0) as [n Hn].
  exists p0. split; [done|]. rewrite Hp in Hn. by simplify_eq.
Qed.

(** A process that is set aside, alone. *)
Lemma relinked_single ps i p st :
  ps !! i = Some p -> relinked i st ps (<[i := p <| status := st |> <| queue_next := None |>]> ps).
Proof.
  intros Hp. split; [apply length_insert|]. intros j q Hq.
  destruct (decide (j = i)) as [->|Hne].
  - rewrite list_lookup_insert_eq by (by eapply lookup_lt_Some). exists None.
    rewrite Hp in Hq. by simplify_eq.
  - rewrite list_lookup_insert_ne by done. exists (queue_next q). by rewrite Hq; destruct q.
Qed.

(** ... or behind [last]. *)
Lemma relinked_append ps i p last q st :
  ps !! i = Some p -> ps !! last = Some q -> i <> last ->
  relinked i st ps (<[i := p <| status := st |> <| queue_next := None |>]>
    (<[last := q <| queue_next := Some i |>]> ps)).
Proof.
  intros Hp Hq Hne. split; [by rewrite !length_insert|]. intros j x Hx.
  destruct (decide (j = i)) as [->|Hji].
  - rewrite list_lookup_insert_eq by (rewrite length_insert; by eapply lookup_lt_Some). exists None.
    rewrite Hp in Hx. by simplify_eq.
  - rewrite list_lookup_insert_ne by done. destruct (decide (j = last)) as [->|Hjl].
    + rewrite list_lookup_insert_eq by (by eapply lookup_lt_Some). exists (Some i).
      rewrite Hq in Hx. by simplify_eq; destruct x.
    + rewrite list_lookup_insert_ne by done. exists (queue_next x). by rewrite Hx; destruct x.
Qed.

(** What appending [i] to a queue [l] does to the table: its own queue grows, and a
    queue that shares no process with it is as before. *)
Record appended (ps : list process) (i : nat) (st : proc_status) (h : option nat) (l : list nat)
    (ps' : list process) : Prop := {
  ap_queue : queue ps' (Some (hd i l)) (l ++ [i]);
  ap_other h' l' : (forall j, j ∈ l' -> j ∉ l /\ j <> i) -> queue ps h' l' -> queue ps' h' l';
  ap_relinked : relinked i st ps ps';
}.

(** Both insertions come down to the same table. *)
Definition append_table (ps : list process) (h : option nat) (l : list nat) (i : nat) (p : process)
    (st : proc_status) : list process :=
  match last l with
  | None => <[i := p <| status := st |> <| queue_next := None |>]> ps
  | Some e =>
      match ps !! e with
      | Some q => <[i := p <| status := st |> <| queue_next := None |>]>
                    (<[e := q <| queue_next := Some i |>]> ps)
      | None => ps
      end
  end.

Lemma append_table_ok ps h l i p st :
  queue ps h l -> NoDup l -> i ∉ l -> ps !! i = Some p ->
  appended ps i st h l (append_table ps h l i p st).
Proof.
  intros Hq Hnd Hi Hp. unfold append_table.
  destruct l as [|e l _] using rev_ind.
  - cbn. split; [|intros h' l' Hd|by apply relinked_single].
    + cbn. split; [done|]. eexists. split; [apply list_lookup_insert_eq; by eapply lookup_lt_Some|done].
    + apply queue_insert_ne. intros Hin. by destruct (Hd i Hin).
  - rewrite last_snoc. destruct (queue_lookup _ _ _ e Hq) as [q Hqe]; [set_solver|]. rewrite Hqe.
    split; [|intros h' l' Hd Hq'|apply relinked_append; [done..|set_solver]].
    + assert (h = Some (hd i (l ++ [e]))) as <-.
      { destruct l; cbn in Hq |- *; by destruct Hq as [-> _]. }
      rewrite <-app_assoc. eapply queue_append; done.
    + apply queue_insert_ne; [intros Hin; by destruct (Hd i Hin)|].
      apply queue_insert_ne; [|done]. intros Hin. destruct (Hd e Hin). set_solver.
Qed.

(** The process appended ends its queue, and one in neither place is as before. *)
Lemma append_table_at ps h l i p st :
  queue ps h l -> i ∉ l -> ps !! i = Some p ->
  append_table ps h l i p st !! i = Some (p <| status := st |> <| queue_next := None |>).
Proof.
  intros Hq Hi Hp. pose proof (lookup_lt_Some _ _ _ Hp). unfold append_table.
  destruct (last l) as [e|] eqn:El; [|by apply list_lookup_insert_eq].
  apply last_Some_elem_of in El. destruct (queue_lookup _ _ _ e Hq El) as [q ->].
  apply list_lookup_insert_eq. by rewrite length_insert.
Qed.

Lemma append_table_ne ps h l i p st j :
  j ∉ l -> j <> i -> append_table ps h l i p st !! j = ps !! j.
Proof.
  intros Hj Hne. unfold append_table. destruct (last l) as [e|] eqn:El; [|by rewrite list_lookup_insert_ne].
  apply last_Some_elem_of in El. destruct (ps !! e); [|done].
  rewrite !list_lookup_insert_ne; [done|set_solver|done].
Qed.

Lemma queue_snoc_head ps h l e : queue ps h (l ++ [e]) -> exists h', h = Some h' /\ forall i, hd i (l ++ [e]) = h'.
Proof. destruct l; cbn; intros [-> _]; eauto. Qed.

Lemma insert_ready_eq k rl i p :
  queue (procs k) (ready_queue_head k) rl -> NoDup rl -> i ∉ rl -> procs k !! i = Some p ->
  ready_queue_lock k = false ->
  insert_to_ready_queue i k = Ret tt
    (k <| procs := append_table (procs k) (ready_queue_head k) rl i p READY |>
       <| ready_queue_head := Some (hd i rl) |>).
Proof.
  intros Hq Hnd Hi Hp Hl. pose proof (queue_length _ _ _ Hq Hnd) as Hlen.
  unfold insert_to_ready_queue. set (k1 := set_ready_lock true k).
  assert (lock_ready k = Ret tt k1) as E1 by (unfold lock_ready, spinlock_lock; by rewrite Hl).
  step E1. step (eq_refl : gets id k1 = Ret k1 k1).
  change (ready_queue_head k1) with (ready_queue_head k). change (procs k1) with (procs k).
  destruct rl as [|e rl _] using rev_ind.
  - cbn in Hq. rewrite Hq. step (mod_proc_eq k1 i p (fun p => p <| status := READY |> <| queue_next := None |>) Hp).
    destruct k; cbn in *; subst. done.
  - destruct (queue_snoc_head _ _ _ _ Hq) as (h & Eh & Ehd). rewrite Eh in *.
    destruct (queue_lookup _ _ _ e Hq) as [q Hqe]; [set_solver|].
    rewrite length_app in Hlen. cbn in Hlen.
    assert (queue_scan (S (length (procs k))) h i k1 = Ret (Some e) k1) as E2
      by (apply (queue_scan_last _ k1 h rl e i); [done|done|lia]).
    step E2. step (eq_refl : unlock_ready k1 = Ret tt (set_ready_lock false k1)).
    assert (e <> i) as Hne by set_solver. destruct (Nat.eqb_spec e i); [done|].
    step (mod_proc_eq (set_ready_lock false k1) e q (fun x => x <| queue_next := Some i |>) Hqe).
    rewrite (mod_proc_eq _ i p) by (cbn; by rewrite list_lookup_insert_ne).
    unfold append_table. rewrite last_snoc, Hqe, Ehd. destruct k; cbn in *; subst. done.
Qed.

Lemma waiting_push_eq k sem h wl i p :
  waiting_queue k !! sem = Some h -> queue (procs k) h wl -> NoDup wl -> i ∉ wl ->
  procs k !! i = Some p -> queue_lock k = false ->
  waiting_queue_push i sem k = Ret tt
    (k <| procs := append_table (procs k) h wl i p BLOCKED |>
       <| waiting_queue := <[sem := Some (hd i wl)]> (waiting_queue k) |>).
Proof.
  intros Hw Hq Hnd Hi Hp Hl. pose proof (queue_length _ _ _ Hq Hnd) as Hlen.
  unfold waiting_queue_push. set (k1 := set_queue_lock true k).
  assert (lock_queue k = Ret tt k1) as E1 by (unfold lock_queue, spinlock_lock; by rewrite Hl).
  step E1. step (eq_refl : gets id k1 = Ret k1 k1).
  change (waiting_queue k1) with (waiting_queue k). change (procs k1) with (procs k). rewrite Hw.
  step (eq_refl : deref (Some h) k1 = Ret h k1).
  destruct wl as [|e wl _] using rev_ind.
  - cbn in Hq. subst h. step (mod_proc_eq k1 i p (fun p => p <| status := BLOCKED |> <| queue_next := None |>) Hp).
    destruct k; cbn in *; subst. done.
  - destruct (queue_snoc_head _ _ _ _ Hq) as (h' & -> & Ehd).
    destruct (queue_lookup _ _ _ e Hq) as [q Hqe]; [set_solver|].
    rewrite length_app in Hlen. cbn in Hlen.
    assert (queue_scan (S (length (procs k))) h' i k1 = Ret (Some e) k1) as E2
      by (apply (queue_scan_last _ k1 h' wl e i); [done|done|lia]).
    step E2. assert (e <> i) as Hne by set_solver. destruct (Nat.eqb_spec e i); [done|].
    step (mod_proc_eq k1 e q (fun x => x <| queue_next := Some i |>) Hqe).
    match goal with |- bind _ _ ?k2 = _ =>
      assert (procs k2 !! i = Some p) as Hp2 by (cbn; by rewrite list_lookup_insert_ne);
      step (mod_proc_eq k2 i p (fun x => x <| status := BLOCKED |> <| queue_next := None |>) Hp2) end.
    unfold append_table. rewrite last_snoc, Hqe, Ehd. rewrite (list_insert_id (waiting_queue k) sem (Some h') Hw).
    destruct k; cbn in *; subst. done.
Qed.

Lemma concat_insert_perm {A} (ls : list (list A)) j l l' :
  ls !! j = Some l -> exists rest, concat ls ≡ₚ l ++ rest /\ concat (<[j := l']> ls) ≡ₚ l' ++ rest.
Proof.
  intros Hj. exists (concat (take j ls) ++ concat (drop (S j) ls)).
  assert (j < length ls)%nat by (by eapply lookup_lt_Some).
  rewrite <-(take_drop_middle ls j l Hj) at 1. rewrite insert_take_drop by done.
  rewrite !concat_app. cbn [concat]. split; solve_Permutation.
Qed.

Lemma in_wait (wl : list (list nat)) j l i : wl !! j = Some l -> i ∈ l -> i ∈ concat wl.
Proof.
  intros Hj Hi. rewrite list_elem_of_In in Hi |- *. apply in_concat. exists l. split; [|done].
  apply list_elem_of_In. by eapply list_elem_of_lookup_2.
Qed.

(** Two different semaphores have no waiter in common. *)
Lemma wait_disjoint (wl : list (list nat)) j j' l l' i :
  NoDup (concat wl) -> wl !! j = Some l -> wl !! j' = Some l' -> i ∈ l -> i ∈ l' -> j = j'.
Proof.
  intros Hnd Hj Hj' Hi Hi'. destruct (decide (j = j')) as [|Hne]; [done|]. exfalso.
  destruct (concat_insert_perm wl j l [] Hj) as (rest & Hp & Hp').
  rewrite Hp in Hnd. apply NoDup_app in Hnd as (_ & Hd & _). apply (Hd i Hi).
  assert (i ∈ concat (<[j := []]> wl)) as Hin.
  { eapply (in_wait _ j' l'); [|done]. by rewrite list_lookup_insert_ne. }
  by rewrite Hp' in Hin.
Qed.

(** A process in no queue can be changed at will. *)
Lemma sched_wf_set k rl wl i p :
  i ∉ rl ++ concat wl -> sched_wf k rl wl ->
  sched_wf (k <| procs := <[i := p]> (procs k) |>) rl wl.
Proof.
  intros Hi [H1 H2 H3 H4 H5 H6 H7 H8]. split; cbn; try done.
  - apply queue_insert_ne; [set_solver|done].
  - intros j l h Hj Hh. apply queue_insert_ne; [|by eapply H3].
    intros Hin. apply Hi, elem_of_app. right. by eapply in_wait.
  - intros j q Hj Hq. rewrite list_lookup_insert_ne in Hq by set_solver. by eapply H5.
  - intros j q Hj Hq. rewrite list_lookup_insert_ne in Hq by set_solver. by eapply H6.
Qed.

Lemma insert_ready_inv k rl wl i p :
  sched_wf k rl wl -> i ∉ rl ++ concat wl -> procs k !! i = Some p ->
  exists ps', let k' := k <| procs := ps' |> <| ready_queue_head := Some (hd i rl) |> in
    insert_to_ready_queue i k = Ret tt k' /\ relinked i READY (procs k) ps' /\
    sched_wf k' (rl ++ [i]) wl.
Proof.
  intros [H1 H2 H3 H4 H5 H6 H7 H8] Hi Hp. pose proof H4 as (Hnr & Hdr & Hnw)%NoDup_app.
  assert (i ∉ rl) as Hir by set_solver.
  destruct (append_table_ok (procs k) (ready_queue_head k) rl i p READY H1 Hnr Hir Hp) as [Aq Ao Ar].
  eexists. split; [by apply insert_ready_eq|]. split; [done|]. split; cbn; try done.
  - intros j l h Hj Hh. apply Ao; [|by eapply H3]. intros x Hx.
    pose proof (in_wait _ _ _ _ Hj Hx) as Hxw. split; [intros Hxr; by apply (Hdr x)|].
    intros ->. apply Hi. set_solver.
  - rewrite <-app_assoc. cbn. rewrite <-Permutation_middle. apply NoDup_cons. split; [set_solver|done].
  - intros j q Hj Hq. destruct (relinked_status _ _ _ _ _ _ Ar Hq) as (q0 & Hq0 & ->).
    destruct (decide (j = i)); [done|]. eapply H5; [|done]. set_solver.
  - intros j q Hj Hq. destruct (relinked_status _ _ _ _ _ _ Ar Hq) as (q0 & Hq0 & ->).
    destruct (decide (j = i)) as [->|]; [set_solver|]. by eapply H6.
Qed.

Lemma waiting_push_inv k rl wl sem l i p :
  sched_wf k rl wl -> wl !! sem = Some l -> i ∉ rl ++ concat wl -> procs k !! i = Some p ->
  exists ps', let k' := k <| procs := ps' |>
                          <| waiting_queue := <[sem := Some (hd i l)]> (waiting_queue k) |> in
    waiting_queue_push i sem k = Ret tt k' /\ relinked i BLOCKED (procs k) ps' /\
    sched_wf k' rl (<[sem := l ++ [i]]> wl).
Proof.
  intros [H1 H2 H3 H4 H5 H6 H7 H8] Hl Hi Hp. pose proof H4 as (Hnr & Hdr & Hnw)%NoDup_app.
  destruct (concat_insert_perm wl sem l (l ++ [i]) Hl) as (rest & Hperm & Hperm').
  assert (concat (<[sem := l ++ [i]]> wl) ≡ₚ i :: concat wl) as Hc.
  { rewrite Hperm', Hperm. solve_Permutation. }
  assert (NoDup l) as Hnl by (rewrite Hperm in Hnw; by apply NoDup_app in Hnw as [? _]).
  assert (i ∉ l) as Hil by (intros Hin; apply Hi, elem_of_app; right; by eapply in_wait).
  assert (sem < length (waiting_queue k))%nat as Hsem by (rewrite <-H2; by eapply lookup_lt_Some).
  destruct (lookup_lt_is_Some_2 _ _ Hsem) as [h Hh].
  destruct (append_table_ok (procs k) h l i p BLOCKED (H3 _ _ _ Hl Hh) Hnl Hil Hp) as [Aq Ao Ar].
  eexists. split; [by apply waiting_push_eq; [|apply (H3 sem)|..]|]. split; [done|]. split; cbn; try done.
  - apply Ao; [|done]. intros x Hx. split; [|set_solver]. intros Hxl. apply (Hdr x Hx).
    by eapply in_wait.
  - by rewrite !length_insert.
  - intros j l' h' Hj Hh'. destruct (decide (j = sem)) as [->|Hne].
    + rewrite list_lookup_insert_eq in Hj by (by eapply lookup_lt_Some).
      rewrite list_lookup_insert_eq in Hh' by done. by simplify_eq.
    + rewrite list_lookup_insert_ne in Hj by done. rewrite list_lookup_insert_ne in Hh' by done. apply Ao; [|by eapply H3].
      intros x Hx. split; [|intros ->; apply Hi, elem_of_app; right; by eapply in_wait].
      intros Hxl. apply Hne. by eapply (wait_disjoint wl j sem l' l x).
  - rewrite Hc, <-Permutation_middle. apply NoDup_cons. by split.
  - intros j q Hj Hq. destruct (relinked_status _ _ _ _ _ _ Ar Hq) as (q0 & Hq0 & ->).
    destruct (decide (j = i)) as [->|]; [set_solver|]. by eapply H5.
  - intros j q Hj Hq. destruct (relinked_status _ _ _ _ _ _ Ar Hq) as (q0 & Hq0 & ->).
    destruct (decide (j = i)) as [->|]; [done|]. eapply H6; [|done].
    rewrite Hc in Hj. set_solver.
Qed.

Lemma waiting_pop_inv k rl wl sem i l :
  sched_wf k rl wl -> wl !! sem = Some (i :: l) ->
  exists p, let k' := k <| waiting_queue := <[sem := queue_next p]> (waiting_queue k) |> in
    procs k !! i = Some p /\ waiting_queue_pop sem k = Ret i k' /\
    sched_wf k' rl (<[sem := l]> wl) /\ i ∉ rl ++ concat (<[sem := l]> wl).
Proof.
  intros [H1 H2 H3 H4 H5 H6 H7 H8] Hl. pose proof H4 as (Hnr & Hdr & Hnw)%NoDup_app.
  destruct (concat_insert_perm wl sem (i :: l) l Hl) as (rest & Hperm & Hperm').
  assert (concat wl ≡ₚ i :: concat (<[sem := l]> wl)) as Hc by (rewrite Hperm', Hperm; done).
  assert (sem < length (waiting_queue k))%nat as Hsem by (rewrite <-H2; by eapply lookup_lt_Some).
  destruct (lookup_lt_is_Some_2 _ _ Hsem) as [h Hh].
  destruct (H3 _ _ _ Hl Hh) as (-> & p & Hp & Hq). exists p. split; [done|]. split_and!.
  - unfold waiting_queue_pop.
    assert (lock_queue k = Ret tt (set_queue_lock true k)) as E1
      by (unfold lock_queue, spinlock_lock; by rewrite H8).
    step E1. set (k1 := set_queue_lock true k). step (eq_refl : gets id k1 = Ret k1 k1).
    change (waiting_queue k1) with (waiting_queue k). rewrite Hh.
    step (eq_refl : deref (Some (Some i)) k1 = Ret (Some i) k1).
    step (eq_refl : deref (Some i) k1 = Ret i k1). step (get_proc_eq k1 i p Hp).
    unfold k1. destruct k; cbn in *; subst. done.
  - rewrite Hc in H4. rewrite <-Permutation_middle in H4. apply NoDup_cons in H4 as [Hni H4].
    split; cbn; try done.
    + by rewrite !length_insert.
    + intros j l' h' Hj Hh'. destruct (decide (j = sem)) as [->|Hne].
      * rewrite list_lookup_insert_eq in Hj by (by eapply lookup_lt_Some).
        rewrite list_lookup_insert_eq in Hh' by done. by simplify_eq.
      * rewrite list_lookup_insert_ne in Hj by done. rewrite list_lookup_insert_ne in Hh' by done. by eapply H3.
    + intros j q Hj Hq'. eapply H6; [|done]. rewrite Hc. set_solver.
  - rewrite Hc in H4. rewrite <-Permutation_middle in H4. by apply NoDup_cons in H4 as [Hni H4].
Qed.

(** ** Leaving the kernel *)

Section switching.
Context {SYM : Symbols}.

Lemma on_pmm_st64 k a v :
  in_dram a 8 = true ->
  on_pmm (st64 a v) k =
  Ret tt (set_pmm ((k_pmm k) <| pm_mem := store64 (pm_mem (k_pmm k)) a v |>) k).
Proof. intros Hd. unfold on_pmm, zoom, st64. by rewrite Hd. Qed.

Lemma on_pmm_ld64 k a :
  in_dram a 8 = true -> on_pmm (ld64 a) k = Ret (load64 (pm_mem (k_pmm k)) a) k.
Proof.
  intros Hd. unfold on_pmm, zoom, ld64. rewrite Hd. f_equal.
  destruct k as [kfs]; destruct kfs. done.
Qed.

Lemma mod_csrs_eq k hart c f :
  k_csrs k !! hart = Some c ->
  mod_csrs hart f k = Ret tt (k <| k_csrs := <[hart := f c]> (k_csrs k) |>).
Proof. intros E. unfold mod_csrs, bind, gets, id. rewrite E. done. Qed.

(** The hart runs [p]: its program counter and the user's page table are taken from
    [p], user mode and interrupts are selected, and only the three kernel fields of
    the trapframe are written. *)
Record switched (k : kern) (hart i : nat) (p : process) (k' : kern) : Prop := {
  sw_current : current k' = <[hart := Some i]> (current k);
  sw_csrs : exists c', k_csrs k' !! hart = Some c' /\ stvec c' = smode_trap_vector /\
    sepc c' = load64 (pm_mem (k_pmm k)) (trapframe p + TF_epc) /\
    has (sstatus c') SSTATUS_SPP = false /\ has (sstatus c') SSTATUS_SPIE = true;
  sw_mem : exists m', k' = set_pmm ((k_pmm k) <| pm_mem := m' |>)
      (k <| current := current k' |> <| k_csrs := k_csrs k' |>) /\
    load64 m' (trapframe p + TF_kernel_sp) = u64 (kstack p) /\
    load64 m' (trapframe p + TF_kernel_trap) = u64 smode_trap_handler /\
    unchanged_outside (trapframe p + TF_kernel_sp) (trapframe p + TF_SIZE) (pm_mem (k_pmm k)) m' /\
    load64 m' (trapframe p + TF_epc) = load64 (pm_mem (k_pmm k)) (trapframe p + TF_epc);
}.

Lemma sstatus_user x :
  has (Z.lor (Z.ldiff x SSTATUS_SPP) SSTATUS_SPIE) SSTATUS_SPP = false /\
  has (Z.lor (Z.ldiff x SSTATUS_SPP) SSTATUS_SPIE) SSTATUS_SPIE = true.
Proof.
  rewrite !has_lor. split.
  - unfold has at 1. by rewrite Z.land_ldiff.
  - apply orb_true_iff. by right.
Qed.

Lemma switch_to_run k hart i p :
  procs k !! i = Some p -> (hart < length (k_csrs k))%nat ->
  in_dram (trapframe p) TF_SIZE = true ->
  exists k', switch_to hart (Some i) k = Switch k' /\ switched k hart i p k'.
Proof.
  intros Hp Hh Hd. destruct (lookup_lt_is_Some_2 _ _ Hh) as [c Hc].
  assert (forall o, 0 <= o -> o + 8 <= TF_SIZE -> in_dram (trapframe p + o) 8 = true) as Hin.
  { intros o Ho Ho'. unfold in_dram in *. bools. apply andb_true_intro.
    split; apply Z.leb_le; lia. }
  unfold switch_to. set (k1 := k <| current := <[hart := Some i]> (current k) |>).
  step (eq_refl : modify (fun k => k <| current := <[hart := Some i]> (current k) |>) k = Ret tt k1).
  step (mod_csrs_eq k1 hart c (fun c => c <| stvec := smode_trap_vector |>) Hc).
  set (k2 := k1 <| k_csrs := _ |>). step (get_proc_eq k2 i p Hp).
  step (eq_refl : gets id k2 = Ret k2 k2).
  assert (k_csrs k2 !! hart = Some (c <| stvec := smode_trap_vector |>)) as Hc2
    by (unfold k2, k1; cbn; by rewrite list_lookup_insert_eq).
  rewrite Hc2. step (eq_refl : deref (Some (c <| stvec := smode_trap_vector |>)) k2 = Ret _ k2).
  step (on_pmm_st64 k2 (trapframe p + TF_kernel_sp) (kstack p) (Hin 248 ltac:(done) ltac:(done))).
  set (k3 := set_pmm _ k2).
  step (on_pmm_st64 k3 (trapframe p + TF_kernel_satp) (satp (c <| stvec := smode_trap_vector |>))
    (Hin 272 ltac:(done) ltac:(done))). set (k4 := set_pmm _ k3).
  step (on_pmm_st64 k4 (trapframe p + TF_kernel_trap) smode_trap_handler
    (Hin 256 ltac:(done) ltac:(done))). set (k5 := set_pmm _ k4).
  step (mod_csrs_eq k5 hart _ (fun c => c <| sstatus :=
        Z.lor (Z.ldiff (sstatus c) SSTATUS_SPP) SSTATUS_SPIE |>) (Hc2 : k_csrs k5 !! hart = Some _)).
  set (k6 := k5 <| k_csrs := _ |>).
  step (on_pmm_ld64 k6 (trapframe p + TF_epc) (Hin 264 ltac:(done) ltac:(done))).
  set (m' := store64 (store64 (store64 (pm_mem (k_pmm k)) (trapframe p + TF_kernel_sp) (kstack p))
    (trapframe p + TF_kernel_satp) (satp c)) (trapframe p + TF_kernel_trap) smode_trap_handler).
  assert (load64 m' (trapframe p + TF_epc) = load64 (pm_mem (k_pmm k)) (trapframe p + TF_epc)) as He.
  { unfold m'. rewrite !load64_store64_ne; [done|unfold TF_epc, TF_kernel_sp, TF_kernel_satp, TF_kernel_trap; lia..]. }
  assert (k_csrs k6 !! hart = Some (c <| stvec := smode_trap_vector |> <| sstatus :=
        Z.lor (Z.ldiff (sstatus c) SSTATUS_SPP) SSTATUS_SPIE |>)) as Hc6.
  { unfold k6. cbn. rewrite list_insert_insert_eq, list_lookup_insert_eq; done. }
  step (mod_csrs_eq k6 hart _ (fun c => c <| sepc :=
    load64 (pm_mem (k_pmm k6)) (trapframe p + TF_epc) |>) Hc6).
  eexists. split; [done|]. split; [done|eexists; split_and!|exists m'; split_and!].
  - cbn. rewrite list_lookup_insert_eq; [done|]. by rewrite !length_insert.
  - done.
  - cbn. exact He.
  - apply sstatus_user.
  - apply sstatus_user.
  - destruct k as [kfs]; destruct kfs as [kp]; destruct kp. done.
  - unfold m'. rewrite !load64_store64_ne by (unfold TF_epc, TF_kernel_sp, TF_kernel_satp, TF_kernel_trap; lia).
    apply load64_store64_eq.
  - apply load64_store64_eq.
  - unfold m'. intros a Ha. unfold TF_kernel_sp, TF_kernel_satp, TF_kernel_trap, TF_SIZE in *.
    rewrite !(unchanged_store64 _ _ _ a) by lia. done.
  - done.
Qed.
End switching.

(** * Properties *)

Section properties.
Context {SYM : Symbols}.

Lemma switched_wf k hart i p k' rl wl :
  switched k hart i p k' -> sched_wf k rl wl -> sched_wf k' rl wl.
Proof.
  intros [_ _ (m' & -> & _)] [H1 H2 H3 H4 H5 H6 H7 H8]. by split.
Qed.

(** The head of the ready queue gets the hart. *)
Lemma schedule_run k rl wl i p hart :
  sched_wf k (i :: rl) wl -> procs k !! i = Some p -> (hart < length (k_csrs k))%nat ->
  in_dram (trapframe p) TF_SIZE = true ->
  let k1 := k <| current := <[hart := Some i]> (current k) |> <| ready_queue_head := queue_next p |>
              <| procs := <[i := p <| status := RUNNING |>]> (procs k) |> in
  exists k', schedule hart k = Switch k' /\
    switched k1 hart i (p <| status := RUNNING |>) k' /\ sched_wf k' rl wl.
Proof.
  intros Hwf Hp Hh Hd k1. pose proof Hwf as [H1 H2 H3 H4 H5 H6 H7 H8].
  destruct H1 as (Hhd & p0 & Hp0 & Hq). assert (p0 = p) as -> by congruence.
  assert (status p = READY) as Hst by (eapply H5; [|done]; set_solver).
  assert (i ∉ rl ++ concat wl) as Hni by (cbn in H4; by apply NoDup_cons in H4 as [? _]).
  assert (sched_wf k1 rl wl) as Hwf1.
  { pose (kx := k <| current := <[hart := Some i]> (current k) |> <| ready_queue_head := queue_next p |>).
    apply (sched_wf_set kx rl wl i (p <| status := RUNNING |>) Hni).
    split; cbn; try done; [by apply NoDup_cons in H4 as [_ ?]|]. intros j q Hj Hjq.
    eapply H5; [|done]. set_solver. }
  assert (procs k1 !! i = Some (p <| status := RUNNING |>)) as Hp1.
  { cbn. apply list_lookup_insert_eq. by eapply lookup_lt_Some. }
  destruct (switch_to_run k1 hart i _ Hp1) as (k' & E & Hsw); [done|done|].
  exists k'. split; [|split; [done|by eapply switched_wf]].
  unfold schedule. set (kl := set_ready_lock true k).
  assert (lock_ready k = Ret tt kl) as E1 by (unfold lock_ready, spinlock_lock; by rewrite H7).
  step E1. step (eq_refl : gets id kl = Ret kl kl).
  change (ready_queue_head kl) with (ready_queue_head k). rewrite Hhd.
  set (k2 := kl <| current := <[hart := Some i]> (current kl) |>).
  step (eq_refl : modify (fun k => k <| current := <[hart := Some i]> (current k) |>) kl = Ret tt k2).
  step (get_proc_eq k2 i p Hp). rewrite Hst. change (bool_decide (READY = READY)) with true.
  step (eq_refl : kassert true "current[hart_id]->status == READY" k2 = Ret tt k2).
  set (k3 := set_ready_lock false (k2 <| ready_queue_head := queue_next p |>)).
  step (eq_refl : modify (fun k => k <| ready_queue_head := queue_next p |>) k2 =
    Ret tt (k2 <| ready_queue_head := queue_next p |>)).
  step (eq_refl : unlock_ready (k2 <| ready_queue_head := queue_next p |>) = Ret tt k3).
  step (mod_proc_eq k3 i p (fun p => p <| status := RUNNING |>) Hp).
  rewrite <-E. f_equal. unfold k3, k2, kl, k1. destruct k; cbn in *; subst. done.
Qed.

(** [insert_to_ready_queue] puts a process that waits nowhere at the end of
    the ready queue and makes it READY; the order of the others, the queues of the
    semaphores and everything else in the table stay as they were. *)
Theorem insert_to_ready_queue_spec k rl wl i p :
  sched_wf k rl wl -> i ∉ rl ++ concat wl -> procs k !! i = Some p ->
  exists k', insert_to_ready_queue i k = Ret tt k' /\ sched_wf k' (rl ++ [i]) wl /\
    relinked i READY (procs k) (procs k').
Proof.
  intros Hwf Hi Hp. destruct (insert_ready_inv k rl wl i p Hwf Hi Hp) as (ps' & E & Hr & Hwf').
  eexists. split; [done|]. split; done.
Qed.

(** [schedule] takes the process at the head of the ready queue, and only it:
    the hart leaves the kernel for that process, at the program counter saved in
    its trapframe, and the queue keeps the others in their order. *)
Theorem schedule_spec k rl wl i p hart :
  sched_wf k (i :: rl) wl -> procs k !! i = Some p ->
  (hart < length (k_csrs k))%nat -> (hart < length (current k))%nat ->
  in_dram (trapframe p) TF_SIZE = true ->
  exists k' c', schedule hart k = Switch k' /\ sched_wf k' rl wl /\
    current k' !! hart = Some (Some i) /\
    procs k' = <[i := p <| status := RUNNING |>]> (procs k) /\
    k_csrs k' !! hart = Some c' /\
    sepc c' = load64 (pm_mem (k_pmm k)) (trapframe p + TF_epc) /\ has (sstatus c') SSTATUS_SPP = false.
Proof.
  intros Hwf Hp Hh Hh' Hd.
  destruct (schedule_run k rl wl i p hart Hwf Hp Hh Hd) as (k' & E & [Hc Hcs Hm] & Hwf').
  destruct Hcs as (c' & Hc' & _ & He & Hspp & _). destruct Hm as (m' & Hk' & _).
  exists k', c'. split_and!; try done.
  - rewrite Hc. cbn. rewrite list_insert_insert_eq. by apply list_lookup_insert_eq.
  - by rewrite Hk'.
Qed.

(** With an empty ready queue [schedule] shuts the machine down when every
    process is FREE or ZOMBIE, and panics otherwise; it never returns. *)
Theorem schedule_empty k wl hart :
  sched_wf k [] wl ->
  schedule hart k =
    if forallb idle (procs k) then Shutdown 0
    else Panic "Not handled: we should let system wait for unfinished processes.".
Proof.
  intros [H1 _ _ _ _ _ H7 _]. cbn in H1. unfold schedule.
  assert (lock_ready k = Ret tt (set_ready_lock true k)) as E1
    by (unfold lock_ready, spinlock_lock; by rewrite H7).
  step E1. set (kl := set_ready_lock true k). step (eq_refl : gets id kl = Ret kl kl).
  change (ready_queue_head kl) with (ready_queue_head k). rewrite H1.
  change (procs kl) with (procs k). by destruct (forallb idle (procs k)).
Qed.

Lemma lock_sem_eq k sem :
  (sem < length (sem_lock k))%nat -> Forall (eq false) (sem_lock k) ->
  lock_sem sem k = Ret tt (k <| sem_lock := <[sem := true]> (sem_lock k) |>).
Proof.
  intros Hs Hf. destruct (lookup_lt_is_Some_2 _ _ Hs) as [b Hb]. unfold lock_sem. rewrite Hb.
  rewrite Forall_lookup in Hf. by rewrite <-(Hf _ _ Hb).
Qed.

Lemma unlock_sem_eq k sem :
  (sem < length (sem_lock k))%nat ->
  unlock_sem sem k = Ret tt (k <| sem_lock := <[sem := false]> (sem_lock k) |>).
Proof. intros Hs. destruct (lookup_lt_is_Some_2 _ _ Hs) as [b Hb]. unfold unlock_sem. by rewrite Hb. Qed.

(** Releasing a lock that was free before restores the array. *)
Lemma unlock_restores sem (l : list bool) :
  Forall (eq false) l -> (sem < length l)%nat -> <[sem := false]> (<[sem := true]> l) = l.
Proof.
  intros Hf Hs. rewrite list_insert_insert_eq. apply list_insert_id.
  destruct (lookup_lt_is_Some_2 _ _ Hs) as [b Hb]. rewrite Forall_lookup in Hf. by rewrite Hb, (Hf _ _ Hb).
Qed.

Lemma sems_wf_insert k k' wl sem v l l' :
  sems_wf k wl -> wl !! sem = Some l ->
  sems k' = <[sem := v]> (sems k) -> sem_lock k' = sem_lock k ->
  -2147483647 < v < 2147483647 -> Z.of_nat (length l') = Z.max 0 (- v) ->
  sems_wf k' (<[sem := l']> wl).
Proof.
  intros (H1 & H2 & Hf & H3) Hl Es El Hv Hlen. unfold sems_wf. rewrite Es, El, !length_insert.
  split_and!; [done|done|done|]. intros j w x Hw Hx.
  assert (sem < length wl)%nat by (by eapply lookup_lt_Some).
  destruct (decide (j = sem)) as [->|Hne].
  - rewrite list_lookup_insert_eq in Hx by done. rewrite list_lookup_insert_eq in Hw by lia.
    by simplify_eq.
  - rewrite list_lookup_insert_ne in Hx by done. rewrite list_lookup_insert_ne in Hw by done.
    by eapply H3.
Qed.

Lemma acquire_run k rl wl hart sem v l :
  sched_wf k rl wl -> sems_wf k wl -> sems k !! sem = Some v -> wl !! sem = Some l ->
  -2147483646 < v ->
  (0 < v -> __acquire hart sem k = Ret tt (k <| sems := <[sem := v - 1]> (sems k) |>) /\
     sems_wf (k <| sems := <[sem := v - 1]> (sems k) |>) wl) /\
  (v <= 0 -> forall i rl' p c pc, rl = i :: rl' -> procs k !! i = Some p ->
     current k !! hart = Some (Some c) -> procs k !! c = Some pc -> c ∉ rl ++ concat wl ->
     (hart < length (k_csrs k))%nat -> in_dram (trapframe p) TF_SIZE = true ->
     exists k', __acquire hart sem k = Switch k' /\
       sched_wf k' rl' (<[sem := l ++ [c]]> wl) /\ sems_wf k' (<[sem := l ++ [c]]> wl) /\
       current k' !! hart = Some (Some i)).
Proof.
  intros Hwf Hsem Hv Hl Hlo. pose proof Hsem as (Hs1 & Hs2 & Hf & Hs3).
  destruct (Hs3 _ _ _ Hv Hl) as [Hr Hlen].
  assert (sem < length (sem_lock k))%nat as Hlt by (rewrite Hs2; by eapply lookup_lt_Some).
  unfold __acquire. set (k1 := k <| sem_lock := <[sem := true]> (sem_lock k) |>).
  step (lock_sem_eq k sem Hlt Hf : lock_sem sem k = Ret tt k1).
  step (eq_refl : gets id k1 = Ret k1 k1). change (sems k1) with (sems k). rewrite Hv.
  step (eq_refl : deref (Some v) k1 = Ret v k1). rewrite i32_small by lia.
  set (k2 := k1 <| sems := <[sem := v - 1]> (sems k) |>).
  step (eq_refl : modify (fun k => k <| sems := <[sem := v - 1]> (sems k) |>) k1 = Ret tt k2).
  assert (sem < length (sem_lock k2))%nat as Hlt2 by (cbn; by rewrite length_insert).
  split.
  - intros Hpos. destruct (Z.ltb_spec (v - 1) 0); [lia|]. step (eq_refl : ret tt k2 = Ret tt k2).
    rewrite unlock_sem_eq by done. split.
    + unfold k2, k1. cbn. rewrite unlock_restores by done. destruct k; done.
    + rewrite <-(list_insert_id wl sem l Hl). eapply sems_wf_insert; [done|done|done|done|lia|lia].
  - intros Hneg i rl' p c pc -> Hp Hc Hpc Hni Hh Hd. destruct (Z.ltb_spec (v - 1) 0); [|lia].
    assert (get_current hart k2 = Ret c k2) as Ec
      by (unfold get_current, bind, gets, id; cbn; by rewrite Hc).
    assert (sched_wf k2 (i :: rl') wl) as Hwf2 by (destruct Hwf; by split).
    destruct (waiting_push_inv k2 _ _ sem l c pc Hwf2 Hl Hni Hpc) as (ps' & Epush & Hrel & Hwf3).
    set (k3 := k2 <| procs := ps' |> <| waiting_queue := _ |>) in *.
    destruct Hrel as [_ Hrel]. destruct (Hrel i p Hp) as [n Hp3].
    destruct (decide (i = c)) as [->|Hic]; [set_solver|].
    set (p3 := p <| queue_next := n |> <| status := status p |>) in Hp3.
    set (k4 := k3 <| sem_lock := sem_lock k |>).
    assert (sched_wf k4 (i :: rl') (<[sem := l ++ [c]]> wl)) as Hwf4 by (destruct Hwf3; by split).
    destruct (schedule_run k4 rl' _ i p3 hart Hwf4 Hp3 Hh Hd) as (k' & Es & Hsw & Hwf').
    exists k'. split_and!; [|done|..].
    + apply bind_switch_eq. step Ec. step Epush.
      assert (unlock_sem sem k3 = Ret tt k4) as Eu.
      { rewrite unlock_sem_eq by (cbn; by rewrite length_insert). unfold k4, k3, k2, k1. cbn.
        by rewrite unlock_restores. }
      by step Eu.
    + destruct Hsw as [_ _ (m' & Hk' & _)].
      eapply (sems_wf_insert k _ _ _ (v - 1)); [done|done|by rewrite Hk'|by rewrite Hk'|lia|].
      rewrite length_app. cbn. lia.
    + destruct Hsw as [Hcur _ _]. rewrite Hcur. cbn. rewrite list_insert_insert_eq.
      apply list_lookup_insert_eq. by eapply lookup_lt_Some.
Qed.

(** C11.  P operation.  A positive semaphore is decremented and the caller goes on.
    Otherwise the caller becomes the last waiter of the semaphore, BLOCKED, and the
    hart goes to the head of the ready queue; either way the counter below zero
    still is the number of waiters and no lock stays held. *)
Theorem acquire_spec k rl wl hart sem v l :
  sched_wf k rl wl -> sems_wf k wl -> sems k !! sem = Some v -> wl !! sem = Some l ->
  -2147483646 < v ->
  (0 < v -> __acquire hart sem k = Ret tt (k <| sems := <[sem := v - 1]> (sems k) |>) /\
     sems_wf (k <| sems := <[sem := v - 1]> (sems k) |>) wl) /\
  (v <= 0 -> forall i rl' p c pc, rl = i :: rl' -> procs k !! i = Some p ->
     current k !! hart = Some (Some c) -> procs k !! c = Some pc -> c ∉ rl ++ concat wl ->
     (hart < length (k_csrs k))%nat -> in_dram (trapframe p) TF_SIZE = true ->
     exists k', __acquire hart sem k = Switch k' /\
       sched_wf k' rl' (<[sem := l ++ [c]]> wl) /\ sems_wf k' (<[sem := l ++ [c]]> wl) /\
       current k' !! hart = Some (Some i)).
Proof. apply acquire_run. Qed.

(** The first waiter of a semaphore moves to the end of the ready queue. *)
Lemma wake_first k rl wl sem i l :
  sched_wf k rl wl -> wl !! sem = Some (i :: l) ->
  exists k', bind (waiting_queue_pop sem) (fun p => bind (mod_proc p (fun x => x <| status := READY |>))
      (fun _ => insert_to_ready_queue p)) k = Ret tt k' /\
    sched_wf k' (rl ++ [i]) (<[sem := l]> wl) /\ relinked i READY (procs k) (procs k') /\
    sems k' = sems k /\ sem_lock k' = sem_lock k.
Proof.
  intros Hwf Hl. destruct (waiting_pop_inv k rl wl sem i l Hwf Hl) as (p & Hp & Epop & Hwf4 & Hni).
  set (k4 := k <| waiting_queue := _ |>) in *.
  pose proof (mod_proc_eq k4 i p (fun x => x <| status := READY |>) Hp) as Em.
  pose proof (sched_wf_set k4 rl (<[sem := l]> wl) i (p <| status := READY |>) Hni Hwf4) as Hwf5.
  set (k5 := k4 <| procs := _ |>) in *.
  assert (procs k5 !! i = Some (p <| status := READY |>)) as Hp5.
  { cbn. apply list_lookup_insert_eq. by eapply lookup_lt_Some. }
  destruct (insert_ready_inv k5 rl (<[sem := l]> wl) i _ Hwf5 Hni Hp5) as (ps' & Ei & Hrel & Hwf6).
  eexists. split; [by step Epop; step Em|]. split; [done|]. split; [|done].
  destruct Hrel as [Hlen' Hrel]. split; [cbn in *; by rewrite Hlen', length_insert|].
  intros j q Hq. destruct (decide (j = i)) as [->|Hne].
  - assert (q = p) as -> by (cbn in Hp; congruence). destruct (Hrel i _ Hp5) as [n Hn]. exists n. cbn. rewrite Hn.
    destruct (decide (i = i)); [|done]. done.
  - destruct (Hrel j q) as [n Hn]; [cbn; by rewrite list_lookup_insert_ne|].
    exists n. cbn. rewrite Hn. by destruct (decide (j = i)).
Qed.

Lemma release_run k rl wl sem v l :
  sched_wf k rl wl -> sems_wf k wl -> sems k !! sem = Some v -> wl !! sem = Some l ->
  v < 2147483646 ->
  exists k', __release sem k = Ret tt k' /\ sems k' = <[sem := v + 1]> (sems k) /\
    match l with
    | [] => k' = k <| sems := <[sem := v + 1]> (sems k) |> /\ sched_wf k' rl wl /\ sems_wf k' wl
    | i :: l' => sched_wf k' (rl ++ [i]) (<[sem := l']> wl) /\ sems_wf k' (<[sem := l']> wl) /\
                 relinked i READY (procs k) (procs k')
    end.
Proof.
  intros Hwf Hsem Hv Hl Hhi. pose proof Hsem as (Hs1 & Hs2 & Hf & Hs3).
  destruct (Hs3 _ _ _ Hv Hl) as [Hr Hlen].
  assert (sem < length (sem_lock k))%nat as Hlt by (rewrite Hs2; by eapply lookup_lt_Some).
  unfold __release. set (k1 := k <| sem_lock := <[sem := true]> (sem_lock k) |>).
  step (lock_sem_eq k sem Hlt Hf : lock_sem sem k = Ret tt k1).
  step (eq_refl : gets id k1 = Ret k1 k1). change (sems k1) with (sems k). rewrite Hv.
  step (eq_refl : deref (Some v) k1 = Ret v k1). rewrite i32_small by lia.
  set (k2 := k1 <| sems := <[sem := v + 1]> (sems k) |>).
  step (eq_refl : modify (fun k => k <| sems := <[sem := v + 1]> (sems k) |>) k1 = Ret tt k2).
  assert (sem < length (sem_lock k2))%nat as Hlt2 by (cbn; by rewrite length_insert).
  destruct l as [|i l].
  - cbn in Hlen. destruct (Z.leb_spec (v + 1) 0); [lia|]. step (eq_refl : ret tt k2 = Ret tt k2).
    rewrite unlock_sem_eq by done. exists (k <| sems := <[sem := v + 1]> (sems k) |>). split_and!; try done.
    + unfold k2, k1. cbn. by rewrite unlock_restores.
    + destruct Hwf; by split.
    + rewrite <-(list_insert_id wl sem [] Hl). eapply sems_wf_insert; [done|done|done|done|lia|cbn; lia].
  - cbn in Hlen. destruct (Z.leb_spec (v + 1) 0); [|lia].
    set (k3 := k <| sems := <[sem := v + 1]> (sems k) |>).
    assert (unlock_sem sem k2 = Ret tt k3) as Eu.
    { rewrite unlock_sem_eq by done. unfold k3, k2, k1. cbn. by rewrite unlock_restores. }
    assert (sched_wf k3 rl wl) as Hwf3 by (destruct Hwf; by split).
    destruct (wake_first k3 rl wl sem i l Hwf3 Hl) as (k6 & E6 & Hwf6 & Hrel & Es6 & Ek6).
    assert (bind (unlock_sem sem) (fun _ => bind (waiting_queue_pop sem) (fun p => bind
      (mod_proc p (fun x => x <| status := READY |>)) (fun _ => insert_to_ready_queue p))) k2 = Ret tt k6) as E
      by (by step Eu).
    step E. exists k6. split_and!; [|by rewrite Es6|done| |done].
    + rewrite unlock_sem_eq by (by rewrite Ek6). f_equal. rewrite Ek6. change (sem_lock k3) with (sem_lock k).
      destruct (lookup_lt_is_Some_2 _ _ Hlt) as [b Hb]. rewrite Forall_lookup in Hf.
      rewrite (list_insert_id (sem_lock k) sem false); [|by rewrite Hb, (Hf _ _ Hb)].
      replace (sem_lock k) with (sem_lock k6) by (by rewrite Ek6). by destruct k6.
    + eapply (sems_wf_insert k _ _ _ (v + 1)); [done|done|by rewrite Es6|by rewrite Ek6|lia|lia].
Qed.

(** ** The kernel's semaphores are semaphores *)

(** The value of semaphore [sem] in a state whose queues are [wl]. *)
Definition sem_value (k : kern) (wl : list (list nat)) (sem : nat) (s : Z * list nat) : Prop :=
  sems k !! sem = Some (fst s) /\ wl !! sem = Some (snd s).

Lemma sem_value_ok k wl sem s : sems_wf k wl -> sem_value k wl sem s -> sem_ok s.
Proof. intros (_ & _ & _ & H) [Hv Hl]. by destruct (H _ _ _ Hv Hl). Qed.

(** [__acquire] does [sem_down]: the caller goes on, or waits and the hart goes to the next
    ready process. *)
Lemma acquire_sem_down k rl wl hart sem s c i rl' p pc :
  sched_wf k rl wl -> sems_wf k wl -> sem_value k wl sem s -> -2147483646 < fst s ->
  rl = i :: rl' -> procs k !! i = Some p ->
  current k !! hart = Some (Some c) -> procs k !! c = Some pc -> c ∉ rl ++ concat wl ->
  (hart < length (k_csrs k))%nat -> in_dram (trapframe p) TF_SIZE = true ->
  let s' := snd (sem_down c s) in let wl' := <[sem := snd s']> wl in
  exists k', __acquire hart sem k = (if fst (sem_down c s) then Ret tt k' else Switch k') /\
    sched_wf k' (if fst (sem_down c s) then rl else rl') wl' /\ sems_wf k' wl' /\ sem_value k' wl' sem s'.
Proof.
  intros Hwf Hsem [Hv Hl] Hlo Hrl Hp Hc Hpc Hni Hh Hd.
  destruct (acquire_run k rl wl hart sem (fst s) (snd s) Hwf Hsem Hv Hl Hlo) as [Hgo Hblock].
  assert (sem < length wl)%nat as Hlt by (by eapply lookup_lt_Some).
  unfold sem_down. destruct (Z.ltb_spec (fst s - 1) 0); cbn [fst snd].
  - destruct (Hblock ltac:(lia) i rl' p c pc Hrl Hp Hc Hpc Hni Hh Hd) as (k' & E & Hwf' & Hsem' & _).
    exists k'. split_and!; try done. pose proof Hsem' as (Hlen & _ & _ & Hval).
    pose proof Hsem as (Hlen0 & _ & _ & Hval0). destruct (Hval0 _ _ _ Hv Hl) as [_ Hn].
    destruct (lookup_lt_is_Some_2 (sems k') sem) as [v' Hv']; [rewrite Hlen, length_insert; done|].
    assert (<[sem := snd s ++ [c]]> wl !! sem = Some (snd s ++ [c])) as Hl' by by apply list_lookup_insert_eq.
    destruct (Hval _ _ _ Hv' Hl') as [_ Hn']. rewrite length_app in Hn'. cbn [length] in Hn'.
    split; [|done]. cbn [fst]. rewrite Hv'. f_equal. lia.
  - destruct (Hgo ltac:(lia)) as [E Hsem']. exists (k <| sems := <[sem := fst s - 1]> (sems k) |>).
    rewrite (list_insert_id wl sem (snd s) Hl). split_and!; try done; [destruct Hwf; by split|].
    split; [|done]. cbn. apply list_lookup_insert_eq. by eapply lookup_lt_Some.
Qed.

(** [__release] does [sem_up]: the process it wakes goes behind the ready queue. *)
Lemma release_sem_up k rl wl sem s :
  sched_wf k rl wl -> sems_wf k wl -> sem_value k wl sem s -> fst s < 2147483646 ->
  let s' := snd (sem_up s) in let wl' := <[sem := snd s']> wl in
  exists k', __release sem k = Ret tt k' /\ sched_wf k' (rl ++ option_list (fst (sem_up s))) wl' /\
    sems_wf k' wl' /\ sem_value k' wl' sem s'.
Proof.
  intros Hwf Hsem Hs Hhi. pose proof (sem_value_ok _ _ _ _ Hsem Hs) as Hok. destruct Hs as [Hv Hl].
  assert (sem < length (sems k))%nat as Hlt by (by eapply lookup_lt_Some).
  assert (sem < length wl)%nat as Hlt' by (by eapply lookup_lt_Some).
  destruct (release_run k rl wl sem (fst s) (snd s) Hwf Hsem Hv Hl Hhi) as (k' & E & Es & H).
  exists k'. split; [done|]. unfold sem_up, sem_ok in *. destruct s as [v [|i l]]; cbn [fst snd length] in *.
  - destruct H as (_ & Hwf' & Hsem'). destruct (Z.leb_spec (v + 1) 0); [lia|]. cbn [fst snd option_list].
    rewrite app_nil_r, (list_insert_id wl sem [] Hl). split_and!; try done.
    split; [|done]. rewrite Es. by apply list_lookup_insert_eq.
  - destruct H as (Hwf' & Hsem' & _). destruct (Z.leb_spec (v + 1) 0); [|lia]. cbn [fst snd option_list].
    split_and!; try done. split; [|by apply list_lookup_insert_eq]. rewrite Es. by apply list_lookup_insert_eq.
Qed.

(** C12.  V operation.  Without waiters the semaphore is incremented.  Otherwise the
    first waiter leaves the semaphore and becomes the last of the ready queue; the
    caller goes on, the counter still is the number of waiters, and no lock stays
    held.  Together with the P operation, waiters are served first come, first served. *)
Theorem release_spec k rl wl sem v l :
  sched_wf k rl wl -> sems_wf k wl -> sems k !! sem = Some v -> wl !! sem = Some l ->
  v < 2147483646 ->
  exists k', __release sem k = Ret tt k' /\ sems k' = <[sem := v + 1]> (sems k) /\
    match l with
    | [] => k' = k <| sems := <[sem := v + 1]> (sems k) |> /\ sched_wf k' rl wl /\ sems_wf k' wl
    | i :: l' => sched_wf k' (rl ++ [i]) (<[sem := l']> wl) /\ sems_wf k' (<[sem := l']> wl) /\
                 relinked i READY (procs k) (procs k')
    end.
Proof. apply release_run. Qed.
End properties.

(** ** Witnesses *)

Definition blank_table (K : Type) : hash_table K :=
  {| head := []; virtual_hash_equal := fun _ _ => false; virtual_hash_func := fun _ => 0 |}.

Definition small_fs : fs pmm := {|
  fs_pages := small_running; dentries := ∅; vinodes := ∅; files := ∅; super_blocks := ∅; devices := ∅;
  fs_types := ∅; freemaps := ∅; dir_caches := ∅; pfiles_store := ∅; rfs_device_list := []; fs_list := [];
  vfs_dev_list := []; vfs_sb_list := []; vfs_root_dentry := 0;
  dentry_hash_table := blank_table _; vinode_hash_table := blank_table _; fs_host := blank_host |}.

Definition blank_process (i : Z) (st : proc_status) : process := {|
  kstack := KERN_BASE + 8192; pagetable := small_top; trapframe := KERN_BASE + 4096; mapped_info := [];
  total_mapped_region := 0;
  user_heap := {| heap_top := 0; heap_bottom := 0; free_pages_address := []; free_pages_count := 0 |};
  pid := i; status := st; parent := None; queue_next := None; tick_count := 0; pfiles := 0; line_table := no_lines;
  first_free_block := 0; is_child := 0 |}.

(** Process 0 runs on hart 0, process 1 is ready, process 2 is unused; the first
    semaphore is 1, all others 0. *)
Definition small_kern : kern := {|
  k_fs := small_fs;
  procs := [blank_process 0 RUNNING; blank_process 1 READY; blank_process 2 FREE];
  current := [Some 0%nat; None]; ready_queue_head := Some 1%nat; ready_queue_lock := false;
  sems := 1 :: replicate 99 0; sem_cnt := 1; waiting_queue := replicate SEM_MAX None;
  sem_lock := replicate SEM_MAX false; cnt_lock := false; queue_lock := false;
  k_csrs := replicate NCPU {| stvec := 0; sstatus := 256; sepc := 0; satp := 0; sip := 0 |};
  g_ticks := replicate NCPU 0; child_running := 0; symtab := []; sym_count := 0 |}.

#[local] Instance small_symbols : Symbols :=
  {| smode_trap_vector := KERN_BASE; smode_trap_handler := KERN_BASE + 256; trap_sec_start := KERN_BASE; debug_line := KERN_BASE |}.

Definition no_waiters : list (list nat) := replicate SEM_MAX [].

Lemma no_waiters_concat : concat no_waiters = [].
Proof. reflexivity. Qed.

Lemma small_kern_wf : sched_wf small_kern [1%nat] no_waiters.
Proof.
  split; try reflexivity.
  - cbn. split; [reflexivity|]. eexists. split; reflexivity.
  - intros j l h Hj Hh. apply lookup_replicate in Hj as [-> _]. by apply lookup_replicate in Hh as [-> _].
  - rewrite no_waiters_concat. apply NoDup_singleton.
  - intros i p ->%list_elem_of_singleton Hp. cbn in Hp. by simplify_eq.
  - intros i p Hi. rewrite no_waiters_concat in Hi. set_solver.
Qed.

Lemma small_kern_sems : sems_wf small_kern no_waiters.
Proof.
  split_and!; [reflexivity|reflexivity|by apply Forall_replicate|].
  intros j v l Hv Hl. apply lookup_replicate in Hl as [-> _]. cbn [length].
  destruct j as [|j]; cbn in Hv; [by simplify_eq|]. change (replicate 99 0 !! j = Some v) in Hv.
  apply lookup_replicate in Hv as [-> _]. split; done.
Qed.

Lemma insert_to_ready_queue_spec_witness :
  exists k', insert_to_ready_queue 0 small_kern = Ret tt k' /\ sched_wf k' [1%nat; 0%nat] no_waiters.
Proof.
  destruct (insert_to_ready_queue_spec small_kern [1%nat] no_waiters 0 (blank_process 0 RUNNING) small_kern_wf)
    as (k' & E & Hwf & _).
  - rewrite no_waiters_concat. set_solver.
  - reflexivity.
  - exists k'. split; [exact E|exact Hwf].
Defined.

Lemma schedule_spec_witness :
  exists k', schedule 1 small_kern = Switch k' /\ current k' !! 1%nat = Some (Some 1%nat).
Proof.
  destruct (schedule_spec small_kern [] no_waiters 1 (blank_process 1 READY) 1 small_kern_wf)
    as (k' & c' & E & _ & Hc & _); [reflexivity|cbn; lia|cbn; lia|reflexivity|].
  exists k'. split; [exact E|exact Hc].
Defined.

Lemma schedule_empty_witness :
  schedule 0 (small_kern <| ready_queue_head := None |>) =
  Panic "Not handled: we should let system wait for unfinished processes.".
Proof.
  rewrite (schedule_empty (small_kern <| ready_queue_head := None |>) no_waiters 0); [reflexivity|].
  destruct small_kern_wf. split; try done.
  - rewrite no_waiters_concat. constructor.
  - intros i p Hi. set_solver.
Defined.

Lemma acquire_spec_witness :
  __acquire 0 0 small_kern = Ret tt (small_kern <| sems := 0 :: replicate 99 0 |>) /\
  exists k', __acquire 0 1 small_kern = Switch k' /\ current k' !! 0%nat = Some (Some 1%nat).
Proof.
  split.
  - apply (acquire_spec small_kern [1%nat] no_waiters 0 0 1 [] small_kern_wf small_kern_sems);
      [reflexivity|reflexivity|clear; done|clear; done].
  - destruct (acquire_spec small_kern [1%nat] no_waiters 0 1 0 [] small_kern_wf small_kern_sems) as [_ H];
      [reflexivity|reflexivity|clear; done|].
    destruct (H ltac:(clear; done) 1%nat [] (blank_process 1 READY) 0%nat (blank_process 0 RUNNING))
      as (k' & E & _ & _ & Hc); [reflexivity|reflexivity|reflexivity|reflexivity| |cbn; lia|reflexivity|].
    + rewrite no_waiters_concat. set_solver.
    + exists k'. split; [exact E|exact Hc].
Defined.

Lemma release_spec_witness :
  exists k', __release 0 small_kern = Ret tt k' /\ sems k' = 2 :: replicate 99 0.
Proof.
  destruct (release_spec small_kern [1%nat] no_waiters 0 1 [] small_kern_wf small_kern_sems)
    as (k' & E & Hs & _); [reflexivity|reflexivity|clear; done|].
  exists k'. split; [exact E|exact Hs].
Defined.
