(* ===== verification/Process.v ===== *)
(** kernel/process.c (and [init_proc_file_management] of kernel/proc_file.c): the
    life of a process: allocation, fork, wait, exit, exec, and its heap. *)

From S2P Require Import Prelude Mem CString PageAlloc Pmm Vmm HashTable FsData Kernel Sched.

(** * Helpers *)

Definition memset_mem (p byte len : Z) : M pmm unit := fun s =>
  if in_dram p len then Ret tt (s <| pm_mem := memset (pm_mem s) p byte len |>) else Fault.

Definition memcpy_mem (dest src len : Z) : M pmm unit := fun s =>
  if in_dram dest len && in_dram src len
  then Ret tt (s <| pm_mem := memcpy (pm_mem s) dest src len |>) else Fault.

(** [p->mapped_info[i] = r]; the page holds 256 regions. *)
Definition set_region (i : nat) (r : mapped_region) (p : process) : process :=
  p <| mapped_info := <[i := r]> (mapped_info p) |>.

Definition blank_region : mapped_region :=
  {| mr_va := 0; mr_npages := 0; mr_seg_type := STACK_SEGMENT |}.
Definition MAPPED_REGIONS : nat := 256.

Section process.
Context {SYM : Symbols}.

(** * The pool *)

(** A process structure of zero bytes. *)
Definition zero_process : process := {|
  kstack := 0; pagetable := 0; trapframe := 0; mapped_info := []; total_mapped_region := 0;
  user_heap := {| heap_top := 0; heap_bottom := 0;
                  free_pages_address := replicate MAX_HEAP_PAGES 0; free_pages_count := 0 |};
  pid := 0; status := FREE; parent := None; queue_next := None; tick_count := 0; pfiles := 0;
  line_table := no_lines; first_free_block := 0; is_child := 0 |}.

Definition init_proc_pool : M kern unit :=
  modify (fun k => k <| procs :=
    (fun i => zero_process <| status := FREE |> <| pid := Z.of_nat i |>) <$> seq 0 NPROC |>).

(** The index of the first FREE process. *)
Fixpoint find_free (ps : list process) : option nat :=
  match ps with
  | [] => None
  | p :: ps' => if decide (status p = FREE) then Some 0%nat else S <$> find_free ps'
  end.

(** kernel/proc_file.c.  [stale] is what the page held before; only the status of
    each file is set. *)
Definition init_proc_file_management (stale : list file) : M (fs pmm) Z :=
  page <- fs_alloc ;;
  (if page =? 0 then fault else ret tt) ;;;
  modify (fun s => s <| pfiles_store := <[page :=
    {| cwd := vfs_root_dentry s; nfiles := 0;
       opened_files := (fun f => f <| f_status := FD_NONE |>) <$> stale |}]> (pfiles_store s) |>) ;;;
  ret page.

(** The mappings and bookkeeping that [alloc_process] and [exec_clean] share: the
    stack, the trapframe, the trap section and the empty heap. *)
Definition map_fixed_segments (i : nat) (user_stack : Z) : M kern unit :=
  p <- get_proc i ;;
  on_pmm (user_vm_map (pagetable p) (USER_STACK_TOP - PGSIZE) PGSIZE user_stack
    (prot_to_type (Z.lor PROT_WRITE PROT_READ) true)) ;;;
  mod_proc i (set_region (seg_index STACK_SEGMENT)
    {| mr_va := USER_STACK_TOP - PGSIZE; mr_npages := 1; mr_seg_type := STACK_SEGMENT |}) ;;;
  on_pmm (user_vm_map (pagetable p) (trapframe p) PGSIZE (trapframe p)
    (prot_to_type (Z.lor PROT_WRITE PROT_READ) false)) ;;;
  mod_proc i (set_region (seg_index CONTEXT_SEGMENT)
    {| mr_va := trapframe p; mr_npages := 1; mr_seg_type := CONTEXT_SEGMENT |}) ;;;
  on_pmm (user_vm_map (pagetable p) trap_sec_start PGSIZE trap_sec_start
    (prot_to_type (Z.lor PROT_READ PROT_EXEC) false)) ;;;
  mod_proc i (set_region (seg_index SYSTEM_SEGMENT)
    {| mr_va := trap_sec_start; mr_npages := 1; mr_seg_type := SYSTEM_SEGMENT |}) ;;;
  mod_proc i (fun p => p <| user_heap := (user_heap p) <| heap_top := USER_FREE_ADDRESS_START |>
    <| heap_bottom := USER_FREE_ADDRESS_START |> <| free_pages_count := 0 |> |>) ;;;
  mod_proc i (set_region (seg_index HEAP_SEGMENT)
    {| mr_va := USER_FREE_ADDRESS_START; mr_npages := 0; mr_seg_type := HEAP_SEGMENT |}) ;;;
  mod_proc i (fun p => p <| total_mapped_region := 4 |>).

Definition alloc_process (stale : list file) : M kern nat :=
  k <- gets id ;;
  match find_free (procs k) with
  | None => panic "cannot find any free process structure."
  | Some i =>
      tf <- on_pmm alloc_page ;;
      mod_proc i (fun p => p <| trapframe := tf |>) ;;;
      on_pmm (memset_mem tf 0 TF_SIZE) ;;;
      pt <- on_pmm alloc_page ;;
      mod_proc i (fun p => p <| pagetable := pt |>) ;;;
      on_pmm (memset_page pt 0) ;;;
      ks <- on_pmm alloc_page ;;
      mod_proc i (fun p => p <| kstack := u64 (ks + PGSIZE) |>) ;;;
      user_stack <- on_pmm alloc_page ;;
      on_pmm (st64 (tf + TF_sp) USER_STACK_TOP) ;;;
      mi <- on_pmm alloc_page ;;
      on_pmm (memset_page mi 0) ;;;
      mod_proc i (fun p => p <| mapped_info := replicate MAPPED_REGIONS blank_region |>) ;;;
      map_fixed_segments i user_stack ;;;
      pf <- on_fs (init_proc_file_management stale) ;;
      mod_proc i (fun p => p <| pfiles := pf |>) ;;;
      ret i
  end.

(** * Exit and wait *)

Definition wakeup (proc : option nat) : M kern unit :=
  match proc with
  | None => ret tt
  | Some i =>
      p <- get_proc i ;;
      if decide (status p = BLOCKED)
      then mod_proc i (fun p => p <| status := READY |>) ;;; insert_to_ready_queue i
      else ret tt
  end.

Definition free_process (proc : nat) : M kern Z :=
  mod_proc proc (fun p => p <| status := ZOMBIE |>) ;;;
  p <- get_proc proc ;;
  wakeup (parent p) ;;;
  ret 0.

(** The scan of [do_wait(-1)]: the first dead child, and whether a live one was
    passed on the way. *)
Fixpoint wait_scan (ps : list process) (i : nat) (cur : nat) (flag : bool) : option nat * bool :=
  match ps with
  | [] => (None, flag)
  | p :: ps' =>
      if decide (parent p = Some cur) then
        if decide (status p = ZOMBIE) then (Some i, flag) else wait_scan ps' (S i) cur true
      else wait_scan ps' (S i) cur flag
  end.

Fixpoint do_wait (fuel : nat) (hart : nat) (wpid : Z) : M kern Z :=
  match fuel with
  | O => hang
  | S f =>
      cur <- get_current hart ;;
      k <- gets id ;;
      let block := (mod_proc cur (fun p => p <| status := BLOCKED |>) ;;; schedule hart ;;; do_wait f hart wpid) in
      if wpid =? -1 then
        match wait_scan (procs k) 0 cur false with
        | (Some i, _) =>
            mod_proc i (fun p => p <| status := FREE |>) ;;;
            p <- get_proc i ;;
            ret (i32 (pid p))
        | (None, false) => ret (-1)
        | (None, true) => block
        end
      else if (0 <? wpid) && (wpid <? Z.of_nat NPROC) then
        let i := Z.to_nat wpid in
        p <- get_proc i ;;
        if decide (parent p = Some cur) then
          if decide (status p = ZOMBIE)
          then mod_proc i (fun p => p <| status := FREE |>) ;;; ret wpid
          else block
        else ret (-1)
      else ret (-1)
  end.

(** * Fork *)

(** [parent->mapped_info[i]] *)
Definition region (p : process) (i : nat) : M kern mapped_region := deref (mapped_info p !! i).

(** [for (int i = 0; ...)] over [n] values from [i] on. *)
Fixpoint for_range (n i : nat) (body : nat -> M kern unit) : M kern unit :=
  match n with
  | O => ret tt
  | S n' => body i ;;; for_range n' (S i) body
  end.

(** [free_block_filter] after its [memset], which clears MAX_HEAP_PAGES bytes, that is
    the first eight of its 32 entries; [junk] is what the stack held before. *)
Definition filter_init (junk : list Z) : list Z := replicate 8 0 ++ drop 8 junk.

Fixpoint filter_mark (addrs : list Z) (n : nat) (heap_bottom : Z) (filter : list Z) : option (list Z) :=
  match n, addrs with
  | O, _ => Some filter
  | S n', a :: addrs' =>
      let index := i32 (u64 (a - heap_bottom) / PGSIZE) in
      if (0 <=? index) && (index <? Z.of_nat (length filter))
      then filter_mark addrs' n' heap_bottom (<[Z.to_nat index := 1]> filter) else None
  | S _, [] => None
  end.

(** The loop over the heap pages, from [block] up to [top]. *)
Fixpoint fork_heap (n : nat) (block top bottom : Z) (filter : list Z) (ppt cpt : Z) : M kern unit :=
  match n with
  | O => ret tt
  | S n' =>
      if block <? top then
        f <- deref (filter !! Z.to_nat (u64 (block - bottom) / PGSIZE)) ;;
        (if f =? 0 then
           pa <- on_pmm (lookup_pa ppt block) ;;
           on_pmm (cow_vm_map cpt block pa)
         else ret tt) ;;;
        fork_heap n' (u64 (block + PGSIZE)) top bottom filter ppt cpt
      else ret tt
  end.

(** Record a region of the child behind the others. *)
Definition add_region (child : nat) (r : mapped_region) : M kern unit :=
  c <- get_proc child ;;
  (if total_mapped_region c <? Z.of_nat (length (mapped_info c)) then ret tt else fault) ;;;
  mod_proc child (fun c => set_region (Z.to_nat (total_mapped_region c)) r c
    <| total_mapped_region := i32 (total_mapped_region c + 1) |>).

Definition fork_region (hart parent child : nat) (junk : list Z) (i : nat) : M kern unit :=
  p <- get_proc parent ;;
  c <- get_proc child ;;
  r <- region p i ;;
  match mr_seg_type r with
  | SYSTEM_SEGMENT => ret tt
  | CONTEXT_SEGMENT => on_pmm (memcpy_mem (trapframe c) (trapframe p) TF_SIZE)
  | STACK_SEGMENT =>
      cs <- region c (seg_index STACK_SEGMENT) ;;
      dest <- on_pmm (lookup_pa (pagetable c) (mr_va cs)) ;;
      src <- on_pmm (lookup_pa (pagetable p) (mr_va r)) ;;
      on_pmm (memcpy_mem dest src PGSIZE)
  | HEAP_SEGMENT =>
      let bottom := heap_bottom (user_heap p) in
      filter <- deref (filter_mark (free_pages_address (user_heap p))
                 (Z.to_nat (free_pages_count (user_heap p))) bottom (filter_init junk)) ;;
      cur <- get_current hart ;;
      q <- get_proc cur ;;
      let lo := heap_bottom (user_heap q) in
      let hi := heap_top (user_heap q) in
      fork_heap (Z.to_nat ((hi - lo) / PGSIZE + 1)) lo hi bottom filter (pagetable p) (pagetable c) ;;;
      ph <- region p (seg_index HEAP_SEGMENT) ;;
      mod_proc child (fun c => c <| mapped_info :=
        alter (fun r => r <| mr_npages := mr_npages ph |>) (seg_index HEAP_SEGMENT) (mapped_info c) |>
        <| user_heap := user_heap p |>)
  | CODE_SEGMENT =>
      pa <- on_pmm (lookup_pa (pagetable p) (mr_va r)) ;;
      on_pmm (user_vm_map (pagetable c) (mr_va r) (u32 (mr_npages r * PGSIZE)) pa
        (prot_to_type (Z.lor PROT_READ PROT_EXEC) true)) ;;;
      add_region child {| mr_va := mr_va r; mr_npages := mr_npages r; mr_seg_type := CODE_SEGMENT |}
  | DATA_SEGMENT =>
      for_range (Z.to_nat (mr_npages r)) 0 (fun j =>
        let va := u64 (mr_va r + Z.of_nat j * PGSIZE) in
        addr <- on_pmm (lookup_pa (pagetable p) va) ;;
        newaddr <- on_pmm alloc_page ;;
        on_pmm (memcpy_mem newaddr addr PGSIZE) ;;;
        on_pmm (map_pages (pagetable c) va PGSIZE newaddr
          (prot_to_type (Z.lor PROT_WRITE PROT_READ) true)) ;;;
        ret tt) ;;;
      add_region child {| mr_va := mr_va r; mr_npages := mr_npages r; mr_seg_type := DATA_SEGMENT |}
  end.

(** The open files are copied one by one; each dentry gains a reference. *)
Fixpoint fork_files (fl : list file) : M (fs pmm) unit :=
  match fl with
  | [] => ret tt
  | f :: fl' =>
      (if f_dentry f =? 0 then ret tt
       else d <- get_dentry (f_dentry f) ;;
            put_dentry (f_dentry f) (d <| d_ref := i32 (d_ref d + 1) |>)) ;;;
      fork_files fl'
  end.

Definition fork_pfiles (ppf cpf : Z) : M (fs pmm) unit :=
  s <- gets id ;;
  pp <- deref (pfiles_store s !! ppf) ;;
  cp <- deref (pfiles_store s !! cpf) ;;
  modify (fun s => s <| pfiles_store := <[cpf := pp]> (pfiles_store s) |>) ;;;
  fork_files (opened_files pp).

Definition do_fork (hart parent_ : nat) (stale : list file) (junk : list Z) : M kern Z :=
  child <- alloc_process stale ;;
  p <- get_proc parent_ ;;
  for_range (Z.to_nat (total_mapped_region p)) 0 (fork_region hart parent_ child junk) ;;;
  p <- get_proc parent_ ;;
  c <- get_proc child ;;
  on_fs (fork_pfiles (pfiles p) (pfiles c)) ;;;
  mod_proc child (fun c => c <| status := READY |>) ;;;
  on_pmm (st64 (trapframe c + TF_a0) 0) ;;;
  mod_proc child (fun c => c <| parent := Some parent_ |>) ;;;
  insert_to_ready_queue child ;;;
  c <- get_proc child ;;
  ret (i32 (pid c)).

(** * Exec *)

(** The heap is freed from its top page downwards. *)
Fixpoint clean_heap (n : nat) (pt top : Z) : M pmm unit :=
  match n with
  | O => ret tt
  | S n' =>
      pa <- lookup_pa pt top ;;
      free_page pa ;;;
      clean_heap n' pt (u64 (top - PGSIZE))
  end.

(** Every writable page of another region is freed and unmapped. *)
Fixpoint clean_region (n : nat) (pt va : Z) : M pmm unit :=
  match n with
  | O => ret tt
  | S n' =>
      pte <- page_walk pt va false ;;
      e <- ld64 pte ;;
      (if has e PTE_W && has e PTE_V then
         free_page (PTE2PA e) ;;;
         e' <- ld64 pte ;;
         st64 pte (Z.ldiff e' PTE_V)
       else ret tt) ;;;
      clean_region n' pt (u64 (va + PGSIZE))
  end.

Definition proc_clean_pagetable (i : nat) : M kern unit :=
  p <- get_proc i ;;
  for_range (Z.to_nat (total_mapped_region p)) 0 (fun j =>
    r <- region p j ;;
    if decide (mr_seg_type r = HEAP_SEGMENT)
    then on_pmm (clean_heap (Z.to_nat (mr_npages r)) (pagetable p)
                   (u64 (heap_top (user_heap p) - PGSIZE)))
    else on_pmm (clean_region (Z.to_nat (mr_npages r)) (pagetable p) (mr_va r))).

Definition exec_clean (i : nat) : M kern unit :=
  proc_clean_pagetable i ;;;
  tf <- on_pmm alloc_page ;;
  mod_proc i (fun p => p <| trapframe := tf |>) ;;;
  on_pmm (memset_mem tf 0 TF_SIZE) ;;;
  p <- get_proc i ;;
  on_pmm (memset_page (pagetable p) 0) ;;;
  user_stack <- on_pmm alloc_page ;;
  on_pmm (st64 (tf + TF_sp) USER_STACK_TOP) ;;;
  mod_proc i (fun p => p <| mapped_info := replicate MAPPED_REGIONS blank_region |>) ;;;
  map_fixed_segments i user_stack.

(** * The heap *)

Definition BLOCK_HEAD : Z := 16.

(** The physical address of a [block_head] of the process with page table [pt]. *)
Definition block_at (pt va : Z) : M kern Z := on_pmm (user_va_to_pa pt va).
Definition get_capacity (h : Z) : M kern Z := on_pmm (ld64 h).
Definition get_next (h : Z) : M kern Z := on_pmm (ld64 (h + 8)).
Definition set_capacity (h v : Z) : M kern unit := on_pmm (st64 h v).
Definition set_next (h v : Z) : M kern unit := on_pmm (st64 (h + 8) v).

Definition set_first_free (i : nat) (va : Z) : M kern unit :=
  mod_proc i (fun p => p <| first_free_block := va |>).

(** One more heap page: the physical page is taken, zeroed and mapped at the old
    [heap_top], which is the result. *)
Definition grow_heap (i : nat) : M kern Z :=
  page <- on_pmm alloc_page ;;
  p <- get_proc i ;;
  let va := heap_top (user_heap p) in
  mod_proc i (fun p => p <| user_heap := (user_heap p) <| heap_top := u64 (va + PGSIZE) |> |>
    <| mapped_info := alter (fun r => r <| mr_npages := u32 (mr_npages r + 1) |>)
         (seg_index HEAP_SEGMENT) (mapped_info p) |>) ;;;
  on_pmm (memset_page page 0) ;;;
  on_pmm (user_vm_map (pagetable p) va PGSIZE page (prot_to_type (Z.lor PROT_WRITE PROT_READ) true)) ;;;
  ret va.

Definition try_alloc_free_block (i : nat) : M kern unit :=
  p <- get_proc i ;;
  if first_free_block p =? 0 then
    va <- grow_heap i ;;
    head <- block_at (pagetable p) va ;;
    set_capacity head PGSIZE ;;;
    set_next head 0 ;;;
    set_first_free i va
  else ret tt.

(** The free block with the largest address and the block before it in the list. *)
Fixpoint find_max_block (fuel : nat) (pt cur pre max_va max_pre : Z) : M kern (Z * Z) :=
  match fuel with
  | O => hang
  | S f =>
      if cur =? 0 then ret (max_va, max_pre)
      else
        head <- block_at pt cur ;;
        let '(max_va', max_pre') := if max_va <? cur then (cur, pre) else (max_va, max_pre) in
        next <- get_next head ;;
        find_max_block f pt next cur max_va' max_pre'
  end.

(** The [do ... while (need_size > PGSIZE)] loop: the last page and what is left. *)
Fixpoint grow_loop (fuel : nat) (i : nat) (need_size : Z) : M kern (Z * Z) :=
  match fuel with
  | O => hang
  | S f =>
      last_va <- grow_heap i ;;
      let need := if PGSIZE <? need_size then u64 (need_size - PGSIZE) else need_size in
      if PGSIZE <? need then grow_loop f i need else ret (last_va, need)
  end.

(** Round up to a multiple of eight. *)
Definition align8 (n : Z) : Z := if n mod 8 =? 0 then n else u64 (n + (8 - n mod 8)).

Definition alloc_from_new_block (fuel : nat) (i : nat) (n : Z) : M kern Z :=
  p <- get_proc i ;;
  let need_size := u64 (n + BLOCK_HEAD) in
  mm <- find_max_block fuel (pagetable p) (first_free_block p) 0 0 0 ;;
  let '(max_va, max_pre) := mm in
  head <- block_at (pagetable p) max_va ;;
  capacity <- get_capacity head ;;
  next <- get_next head ;;
  set_next head 0 ;;;
  set_capacity head need_size ;;;
  let need_size := u64 (need_size - capacity) in
  lv <- grow_loop fuel i need_size ;;
  let '(last_va, need_size) := lv in
  (if need_size =? 0 then ret tt
   else
     let need_size := align8 need_size in
     last_head <- block_at (pagetable p) (u64 (last_va + need_size)) ;;
     set_capacity last_head (u64 (PGSIZE - need_size)) ;;;
     set_next last_head next ;;;
     if max_pre =? 0 then set_first_free i (u64 (last_va + need_size))
     else
       max_pre_head <- block_at (pagetable p) max_pre ;;
       set_next max_pre_head (u64 (last_va + need_size))) ;;;
  ret (u64 (max_va + BLOCK_HEAD)).

(** The first-fit scan of [alloc_from_free_block]; the fuel bounds the length of the
    free list, a cyclic list is scanned for ever. *)
Fixpoint first_fit (fuel new_fuel : nat) (i : nat) (n cur pre : Z) : M kern Z :=
  match fuel with
  | O => hang
  | S f =>
      if cur =? 0 then alloc_from_new_block new_fuel i n
      else
        p <- get_proc i ;;
        let need_size := u64 (n + BLOCK_HEAD) in
        let relink := fun v =>
          if pre =? 0 then set_first_free i v
          else pre_head <- block_at (pagetable p) pre ;; set_next pre_head v in
        head <- block_at (pagetable p) cur ;;
        capacity <- get_capacity head ;;
        if need_size <=? capacity then
          if capacity =? need_size then
            next <- get_next head ;;
            relink next ;;;
            ret (u64 (cur + BLOCK_HEAD))
          else
            let need_size := align8 need_size in
            set_capacity head need_size ;;;
            let va := u64 (cur + need_size) in
            new_head <- block_at (pagetable p) va ;;
            set_capacity new_head (u64 (capacity - need_size)) ;;;
            next <- get_next head ;;
            set_next new_head next ;;;
            relink va ;;;
            ret (u64 (cur + BLOCK_HEAD))
        else
          next <- get_next head ;;
          first_fit f new_fuel i n next cur
  end.

Definition alloc_from_free_block (fuel : nat) (i : nat) (n : Z) : M kern Z :=
  p <- get_proc i ;; first_fit fuel fuel i n (first_free_block p) 0.

Definition vm_malloc (fuel : nat) (hart : nat) (n : Z) : M kern Z :=
  i <- get_current hart ;;
  try_alloc_free_block i ;;;
  alloc_from_free_block fuel i n.

Definition vm_free (hart : nat) (va : Z) : M kern unit :=
  i <- get_current hart ;;
  p <- get_proc i ;;
  head <- block_at (pagetable p) (u64 (va - BLOCK_HEAD)) ;;
  set_next head (first_free_block p) ;;;
  set_first_free i (u64 (va - BLOCK_HEAD)).
End process.

(** * Waiting *)

Lemma wait_scan_spec ps i0 cur flag :
  match wait_scan ps i0 cur flag with
  | (Some i, _) => (i0 <= i)%nat /\ (exists p, ps !! (i - i0)%nat = Some p /\
      parent p = Some cur /\ status p = ZOMBIE) /\
      forall j p, (j < i - i0)%nat -> ps !! j = Some p -> parent p = Some cur -> status p <> ZOMBIE
  | (None, flag') => (forall p, p ∈ ps -> parent p = Some cur -> status p <> ZOMBIE) /\
      (flag' = true <-> flag = true \/ exists p, p ∈ ps /\ parent p = Some cur)
  end.
Proof.
  revert i0 flag. induction ps as [|p ps IH]; intros i0 flag; cbn [wait_scan].
  - split; [set_solver|]. split; [by left|]. intros [?|(? & ? & _)]; [done|set_solver].
  - destruct (decide (parent p = Some cur)) as [Hp|Hp]; [destruct (decide (status p = ZOMBIE)) as [Hz|Hz]|].
    + rewrite Nat.sub_diag. split; [lia|]. split; [by exists p|]. intros j q Hj. lia.
    + specialize (IH (S i0) true). destruct (wait_scan ps (S i0) cur true) as [[i|] f].
      * destruct IH as (Hi & (q & Hq & Hqp) & Hall). split; [lia|].
        replace (i - i0)%nat with (S (i - S i0)) by lia. split; [by exists q|].
        intros [|j] x Hj Hx; cbn in Hx; [by simplify_eq|]. apply (Hall j); [lia|done].
      * destruct IH as [Hall Hf]. split; [set_solver|]. rewrite Hf. split; [|by left].
        intros _. right. exists p. set_solver.
    + specialize (IH (S i0) flag). destruct (wait_scan ps (S i0) cur flag) as [[i|] f].
      * destruct IH as (Hi & (q & Hq & Hqp) & Hall). split; [lia|].
        replace (i - i0)%nat with (S (i - S i0)) by lia. split; [by exists q|].
        intros [|j] x Hj Hx; cbn in Hx; [by simplify_eq|]. apply (Hall j); [lia|done].
      * destruct IH as [Hall Hf]. split; [set_solver|]. rewrite Hf. split.
        -- intros [?|(q & Hq & ?)]; [by left|]. right. exists q. set_solver.
        -- intros [?|(q & [->|Hq]%elem_of_cons & ?)]; [by left|done|]. right. by exists q.
Qed.

Lemma get_current_eq k hart cur :
  current k !! hart = Some (Some cur) -> get_current hart k = Ret cur k.
Proof. intros E. unfold get_current, bind, gets, id. by rewrite E. Qed.

Section waiting.
Context {SYM : Symbols}.

(** The scan finds nothing to reap but passes a slot of the caller: the caller is
    BLOCKED in no queue and the hart goes to the next ready process. *)
Lemma do_wait_blocks k rl wl hart cur pcur fuel :
  sched_wf k rl wl -> current k !! hart = Some (Some cur) -> procs k !! cur = Some pcur ->
  wait_scan (procs k) 0 cur false = (None, true) ->
  forall i rl' p, rl = i :: rl' -> cur ∉ rl ++ concat wl -> procs k !! i = Some p ->
    (hart < length (k_csrs k))%nat -> in_dram (trapframe p) TF_SIZE = true ->
    exists k', do_wait (S fuel) hart (-1) k = Switch k' /\ sched_wf k' rl' wl /\
      current k' !! hart = Some (Some i) /\
      procs k' !! cur = Some (pcur <| status := BLOCKED |>).
Proof.
  intros Hwf Hcur Hpc Ew i rl' p -> Hni Hp Hh Hd.
  pose proof (sched_wf_set k (i :: rl') wl cur (pcur <| status := BLOCKED |>) Hni Hwf) as Hwf1.
  set (k1 := k <| procs := _ |>) in Hwf1.
  assert (cur <> i) as Hne by set_solver.
  assert (procs k1 !! i = Some p) as Hp1 by (cbn; by rewrite list_lookup_insert_ne).
  destruct (schedule_run k1 rl' wl i p hart Hwf1 Hp1 Hh Hd) as (k' & E & [Hc _ (m' & Hk' & _)] & Hwf').
  exists k'. split_and!; [|done|..].
  - cbn [do_wait]. step (get_current_eq k hart cur Hcur). step (eq_refl : gets id k = Ret k k).
    rewrite Z.eqb_refl, Ew. step (mod_proc_eq k cur pcur (fun p => p <| status := BLOCKED |>) Hpc).
    fold k1. by apply bind_switch_eq.
  - rewrite Hc. cbn. rewrite list_insert_insert_eq. apply list_lookup_insert_eq.
    by eapply lookup_lt_Some.
  - rewrite Hk'. cbn. rewrite list_lookup_insert_ne by done.
    apply list_lookup_insert_eq. by eapply lookup_lt_Some.
Qed.

(** C13.  [do_wait(-1)] goes by the field [parent] of the slots, which reaping does not
    clear.  The first ZOMBIE slot that names the caller is reaped: it becomes FREE, its
    pid is returned, and it still names the caller.  A caller that no slot names gets -1.
    A caller with a child that lives, and none to reap, is BLOCKED in no queue and the
    hart goes to the next ready process; the call never returns, so the child that wakes
    the caller later is neither reaped nor reported.  And a caller without a child, all
    of them reaped already, does not get -1 either: as long as one of their FREE slots
    names it, it is BLOCKED in the same way, with no child left to wake it. *)
Theorem do_wait_any k rl wl hart cur pcur fuel :
  sched_wf k rl wl -> current k !! hart = Some (Some cur) -> procs k !! cur = Some pcur ->
  let mine p := parent p = Some cur in
  let blocks :=
    forall i rl' p, rl = i :: rl' -> cur ∉ rl ++ concat wl -> procs k !! i = Some p ->
      (hart < length (k_csrs k))%nat -> in_dram (trapframe p) TF_SIZE = true ->
      exists k', do_wait (S fuel) hart (-1) k = Switch k' /\ sched_wf k' rl' wl /\
        current k' !! hart = Some (Some i) /\
        procs k' !! cur = Some (pcur <| status := BLOCKED |>) in
  (forall p, p ∈ procs k -> ~ mine p) /\ do_wait (S fuel) hart (-1) k = Ret (-1) k \/
  (exists i p, procs k !! i = Some p /\ mine p /\ status p = ZOMBIE /\
    (forall j q, (j < i)%nat -> procs k !! j = Some q -> mine q -> status q <> ZOMBIE) /\
    do_wait (S fuel) hart (-1) k = Ret (i32 (pid p)) (k <| procs := <[i := p <| status := FREE |>]> (procs k) |>)) \/
  (exists p, p ∈ procs k /\ mine p /\ status p <> FREE) /\
    (forall p, p ∈ procs k -> mine p -> status p <> ZOMBIE) /\ blocks \/
  (exists p, p ∈ procs k /\ mine p) /\ (forall p, p ∈ procs k -> mine p -> status p = FREE) /\ blocks.
Proof.
  intros Hwf Hcur Hpc mine blocks.
  pose proof (wait_scan_spec (procs k) 0 cur false) as Hs.
  destruct (wait_scan (procs k) 0 cur false) as [[i|] f] eqn:Ew.
  - right. left. destruct Hs as (_ & (p & Hp & Hch & Hz) & Hmin). rewrite Nat.sub_0_r in *.
    exists i, p. split_and!; try done. cbn [do_wait]. step (get_current_eq k hart cur Hcur).
    step (eq_refl : gets id k = Ret k k). rewrite Z.eqb_refl, Ew.
    step (mod_proc_eq k i p (fun p => p <| status := FREE |>) Hp).
    set (k1 := k <| procs := _ |>).
    assert (procs k1 !! i = Some (p <| status := FREE |>)) as Hp1
      by (cbn; apply list_lookup_insert_eq; by eapply lookup_lt_Some).
    by step (get_proc_eq k1 i _ Hp1).
  - destruct Hs as [Hnz Hf]. destruct f.
    + assert blocks as Hb by exact (do_wait_blocks k rl wl hart cur pcur fuel Hwf Hcur Hpc Ew). right. right.
      destruct Hf as [Hf _]. destruct (Hf eq_refl) as [?|(p & Hp & Hm)]; [done|].
      destruct (decide (Forall (fun q => parent q = Some cur -> status q = FREE) (procs k))) as [Hall|Hsome].
      * right. rewrite Forall_forall in Hall. split; [by exists p|done].
      * left. apply not_Forall_Exists, Exists_exists in Hsome as (q & Hq & Hn); [|exact _].
        split; [|done]. exists q. split; [done|]. unfold compose in Hn.
        destruct (decide (parent q = Some cur)); [|by destruct Hn]. split; [done|]. intros E. by apply Hn.
    + left. split.
      * intros p Hp Hch. destruct Hf as [_ Hf]. discriminate Hf. right. by exists p.
      * cbn [do_wait]. step (get_current_eq k hart cur Hcur). step (eq_refl : gets id k = Ret k k).
        by rewrite Z.eqb_refl, Ew.
Qed.

(** Exit: the process becomes ZOMBIE, and a parent that is BLOCKED in
    [do_wait] (in no queue) becomes READY behind the processes that are ready
    already. *)
Theorem free_process_wakes_parent k rl wl i p par ppar :
  sched_wf k rl wl -> i ∉ rl ++ concat wl -> procs k !! i = Some p -> parent p = Some par ->
  i <> par -> procs k !! par = Some ppar -> status ppar = BLOCKED -> par ∉ rl ++ concat wl ->
  exists k', free_process i k = Ret 0 k' /\ sched_wf k' (rl ++ [par]) wl /\
    (exists q, procs k' !! i = Some q /\ status q = ZOMBIE) /\
    (exists q, procs k' !! par = Some q /\ status q = READY).
Proof.
  intros Hwf Hi Hp Hpar Hne Hpp Hb Hnp. unfold free_process.
  step (mod_proc_eq k i p (fun p => p <| status := ZOMBIE |>) Hp).
  pose proof (sched_wf_set k rl wl i (p <| status := ZOMBIE |>) Hi Hwf) as Hwf1.
  set (k1 := k <| procs := _ |>) in *.
  assert (procs k1 !! i = Some (p <| status := ZOMBIE |>)) as Hp1
    by (cbn; apply list_lookup_insert_eq; by eapply lookup_lt_Some).
  assert (procs k1 !! par = Some ppar) as Hpp1 by (cbn; by rewrite list_lookup_insert_ne).
  step (get_proc_eq k1 i _ Hp1). change (parent (p <| status := ZOMBIE |>)) with (parent p).
  rewrite Hpar. cbn [wakeup].
  pose proof (sched_wf_set k1 rl wl par (ppar <| status := READY |>) Hnp Hwf1) as Hwf2.
  pose proof (mod_proc_eq k1 par ppar (fun p => p <| status := READY |>) Hpp1) as Em.
  set (k2 := k1 <| procs := _ |>) in *.
  assert (procs k2 !! par = Some (ppar <| status := READY |>)) as Hpp2
    by (cbn; apply list_lookup_insert_eq; rewrite length_insert; by eapply lookup_lt_Some).
  destruct (insert_ready_inv k2 rl wl par _ Hwf2 Hnp Hpp2) as (ps' & E & Hrel & Hwf3).
  set (k3 := k2 <| procs := ps' |> <| ready_queue_head := _ |>) in *.
  assert (bind (get_proc par) (fun p0 => if decide (status p0 = BLOCKED)
    then mod_proc par (fun p1 => p1 <| status := READY |>) ;;; insert_to_ready_queue par
    else ret tt) k1 = Ret tt k3) as Ew.
  { step (get_proc_eq k1 par _ Hpp1). rewrite decide_True by done. by step Em. }
  step Ew. exists k3. split_and!; [done|done|..].
  - destruct (proj2 Hrel i (p <| status := ZOMBIE |>)) as [n Hn].
    { cbn. rewrite list_lookup_insert_ne by done. by apply list_lookup_insert_eq; eapply lookup_lt_Some. }
    rewrite decide_False in Hn by done. by eexists.
  - destruct (proj2 Hrel par _ Hpp2) as [n Hn]. rewrite decide_True in Hn by done. by eexists.
Qed.

(** Exit of a child whose parent is BLOCKED, wherever the parent waits: it goes behind
    the ready queue, and the processes of the other queues are as they were. *)
Lemma free_process_links k rl wl i p par ppar :
  sched_wf k rl wl -> i ∉ rl ++ concat wl -> procs k !! i = Some p -> parent p = Some par ->
  i <> par -> par ∉ rl -> procs k !! par = Some ppar -> status ppar = BLOCKED ->
  exists k', free_process i k = Ret 0 k' /\ waiting_queue k' = waiting_queue k /\
    queue (procs k') (ready_queue_head k') (rl ++ [par]) /\
    procs k' !! par = Some (ppar <| status := READY |> <| queue_next := None |>) /\
    forall j, j ∈ concat wl -> j <> par -> procs k' !! j = procs k !! j.
Proof.
  intros Hwf Hi Hp Hpar Hne Hpr Hpp Hb. pose proof Hwf as [H1 H2 H3 (Hnd & Hdis & _)%NoDup_app H5 H6 H7 H8].
  unfold free_process.
  step (mod_proc_eq k i p (fun p => p <| status := ZOMBIE |>) Hp). set (k1 := k <| procs := _ |>) in *.
  assert (procs k1 !! i = Some (p <| status := ZOMBIE |>)) as Hp1
    by (cbn; apply list_lookup_insert_eq; by eapply lookup_lt_Some).
  assert (procs k1 !! par = Some ppar) as Hpp1 by (cbn; by rewrite list_lookup_insert_ne).
  step (get_proc_eq k1 i _ Hp1). change (parent (p <| status := ZOMBIE |>)) with (parent p).
  rewrite Hpar. cbn [wakeup].
  pose proof (mod_proc_eq k1 par ppar (fun p => p <| status := READY |>) Hpp1) as Em.
  set (k2 := k1 <| procs := _ |>) in *.
  assert (procs k2 !! par = Some (ppar <| status := READY |>)) as Hpp2
    by (cbn; apply list_lookup_insert_eq; rewrite length_insert; by eapply lookup_lt_Some).
  assert (queue (procs k2) (ready_queue_head k2) rl) as Hq2.
  { cbn. apply queue_insert_ne; [done|]. apply queue_insert_ne; [set_solver|done]. }
  pose proof (insert_ready_eq k2 rl par _ Hq2 Hnd Hpr Hpp2 H7) as E.
  pose proof (append_table_ok (procs k2) (ready_queue_head k2) rl par _ READY Hq2 Hnd Hpr Hpp2) as Happ.
  pose proof (append_table_at (procs k2) (ready_queue_head k2) rl par _ READY Hq2 Hpr Hpp2) as Hat.
  set (k3 := k2 <| procs := _ |> <| ready_queue_head := _ |>) in E.
  assert (bind (get_proc par) (fun p0 => if decide (status p0 = BLOCKED)
    then mod_proc par (fun p1 => p1 <| status := READY |>) ;;; insert_to_ready_queue par
    else ret tt) k1 = Ret tt k3) as Ew.
  { step (get_proc_eq k1 par _ Hpp1). rewrite decide_True by done. by step Em. }
  step Ew. exists k3. split_and!; [done|done|apply Happ|exact Hat|]. intros j Hj Hjp.
  change (procs k3) with (append_table (procs k2) (ready_queue_head k2) rl par (ppar <| status := READY |>) READY).
  rewrite append_table_ne; [|intros ?; by apply (Hdis j)|done]. cbn.
  rewrite !list_lookup_insert_ne; [done|set_solver|done].
Qed.

(** C14.  [wakeup] takes every BLOCKED parent for one that waits for its child.  When
    the parent is blocked on a semaphore, anywhere in its queue, the exit of a child
    makes it READY and links it behind the ready queue while it is still on the queue
    of the semaphore: it is in both.  The two queues share the one link
    [queue_next], so the queue of the semaphore now ends at the parent and the
    processes that waited behind it are BLOCKED in no queue at all; no pair of queues
    explains the resulting state. *)
Theorem wakeup_steals_waiter k rl wl sem pre par post ppar i p :
  sched_wf k rl wl -> wl !! sem = Some (pre ++ par :: post) -> procs k !! par = Some ppar ->
  i ∉ rl ++ concat wl -> procs k !! i = Some p -> parent p = Some par ->
  let wl1 := <[sem := pre ++ [par]]> wl in
  exists k', free_process i k = Ret 0 k' /\
    (exists q, procs k' !! par = Some q /\ status q = READY) /\
    queue (procs k') (ready_queue_head k') (rl ++ [par]) /\
    (forall j l h, wl1 !! j = Some l -> waiting_queue k' !! j = Some h -> queue (procs k') h l) /\
    (forall j, j ∈ post -> j ∉ (rl ++ [par]) ++ concat wl1 /\
       exists q, procs k' !! j = Some q /\ status q = BLOCKED) /\
    forall rl' wl', ~ sched_wf k' rl' wl'.
Proof.
  intros Hwf Hl Hpp Hi Hp Hpar wl1. pose proof Hwf as [H1 H2 H3 (Hnd & Hdis & Hndw)%NoDup_app H5 H6 H7 H8].
  assert (par ∈ concat wl) as Hin by (eapply in_wait; [done|set_solver]).
  destruct (free_process_links k rl wl i p par ppar) as (k' & E & Ew & Hrq & Hat & Hsame); try done.
  { set_solver. }
  { intros Hx. by apply (Hdis par). }
  { by eapply H6. }
  destruct (concat_insert_perm wl sem _ (pre ++ [par]) Hl) as (rest & Hperm & Hperm').
  assert (NoDup ((pre ++ par :: post) ++ rest)) as Hnd2 by by rewrite <-Hperm.
  rewrite <-app_assoc in Hnd2. apply NoDup_app in Hnd2 as (_ & Hd1 & Hnd2). cbn in Hd1, Hnd2.
  apply NoDup_cons in Hnd2 as [Hd2 Hnd2]. apply NoDup_app in Hnd2 as (_ & Hd3 & _).
  assert (forall j l h, wl1 !! j = Some l -> waiting_queue k' !! j = Some h -> queue (procs k') h l) as Hwait.
  { intros j l h Hj Hh. rewrite Ew in Hh. unfold wl1 in Hj. destruct (decide (j = sem)) as [->|Hjs].
    - rewrite list_lookup_insert_eq in Hj by (by eapply lookup_lt_Some). simplify_eq.
      eapply (queue_cut (procs k)); [by eapply H3|done|done|]. intros j Hj.
      apply Hsame; [eapply in_wait; [done|set_solver]|]. intros ->. apply (Hd1 par Hj). left.
    - rewrite list_lookup_insert_ne in Hj by done. eapply (queue_ext (procs k)); [|by eapply H3].
      intros x y Hx Hy. exists y. split; [|done]. rewrite Hsame; [done|by eapply in_wait|].
      intros ->. apply Hjs. eapply (wait_disjoint wl j sem); [done..|set_solver]. }
  assert (sem < length (waiting_queue k))%nat as Hsem by (rewrite <-H2; by eapply lookup_lt_Some).
  destruct (lookup_lt_is_Some_2 _ _ Hsem) as [h Hh].
  exists k'. split_and!; [done|by eexists|done|done|..].
  - intros j Hj. assert (j ∈ concat wl) as Hjw by (eapply in_wait; [done|set_solver]).
    assert (j <> par) as Hjp by (intros ->; set_solver).
    assert (j ∉ rl) by (intros ?; by apply (Hdis j)).
    assert (j ∉ pre) by (intros Hx; apply (Hd1 j Hx); set_solver). specialize (Hd3 j Hj). split.
    + unfold wl1. rewrite Hperm'. set_solver.
    + destruct (queue_lookup _ _ _ j (H3 _ _ _ Hl Hh)) as [x Hx]; [set_solver|].
      exists x. rewrite Hsame by done. split; [done|]. by eapply H6.
  - intros rl' wl' [_ K2 K3 _ _ K6 _ _]. rewrite Ew in K2.
    assert (wl1 !! sem = Some (pre ++ [par])) as Hs1 by (apply list_lookup_insert_eq; by eapply lookup_lt_Some).
    destruct (lookup_lt_is_Some_2 wl' sem) as [l' Hl']; [lia|].
    rewrite <-Ew in Hh. assert (l' = pre ++ [par]) as -> by (eapply queue_unique; [by eapply K3|by eapply Hwait]).
    pose proof (K6 par _ ltac:(eapply in_wait; [done|set_solver]) Hat) as Hst. done.
Qed.
End waiting.

(** * Data pages *)

(** [page] is a page in use that is no table of [root]. *)
Record data_page (s : pmm) (fl : list Z) (own : gmap Z node) (page : Z) : Prop := {
  dp_page : is_page s page;
  dp_own : own !! page = None;
  dp_used : page ∉ fl;
}.

(** Writing into a data page disturbs neither the allocator nor the tables. *)
Lemma data_write s fl top root own page m' :
  pmm_inv s fl top -> pt_wf s root own -> data_page s fl own page ->
  unchanged_outside page (page + PGSIZE) (pm_mem s) m' ->
  let s' := s <| pm_mem := m' |> in
  pmm_inv s' fl top /\ pt_wf s' root own /\ data_page s' fl own page /\
  forall va, entry 2 m' root va = entry 2 (pm_mem s) root va.
Proof.
  intros Hi Hw [Hp Ho Hu] Hm s'.
  assert (forall q, q mod PGSIZE = 0 -> q <> page -> forall x, 0 <= x < 512 ->
    load64 m' (q + 8 * x) = load64 (pm_mem s) (q + 8 * x)) as Hl.
  { intros q Hq Hne x Hx. eapply unchanged_load64; [done|].
    destruct (pages_disjoint q page); [done|apply Hp|done|unfold PGSIZE in *; lia..]. }
  destruct (pt_wf_transport s s' root own) as (Hw' & _ & He); try done.
  { intros q n x Hq Hx. apply Hl; [|congruence|done]. by eapply (wf_page _ _ _ Hw). }
  split_and!; try done. apply pmm_inv_mem; [|done]. intros q Hq.
  pose proof (Hl q) as Hlq. rewrite <-(Z.add_0_r q). change 0 with (8 * 0).
  apply Hlq; [by apply (inv_pages _ _ _ Hi)|congruence|lia].
Qed.

Lemma data_page_dram s fl top root own page a :
  pmm_inv s fl top -> pt_wf s root own -> data_page s fl own page ->
  page <= a -> a + 8 <= page + PGSIZE -> in_dram a 8 = true.
Proof. intros Hi Hw [Hp _ _] ??. apply (in_dram_page s page); [apply Hi|apply Hi|done|done|done]. Qed.

(** * Growing the heap *)

Definition heap_perm : Z := prot_to_type (Z.lor PROT_WRITE PROT_READ) true.

Lemma heap_perm_range : 0 <= heap_perm < 1024.
Proof. by vm_compute. Qed.

(** [alloc_page], [memset] and [user_vm_map] of one page. *)
Lemma map_new_page perm s page fl top root own va :
  0 <= perm < 1024 ->
  pmm_inv s (page :: fl) top -> pt_wf s root own ->
  0 <= va -> va mod PGSIZE = 0 -> va + PGSIZE <= MAXVA ->
  (forall va', va <= va' < va + PGSIZE -> has (entry 2 (pm_mem s) root va') PTE_V = false) ->
  (2 <= length fl)%nat -> ref_total (ref_list s) + 3 <= REF_LIST_SIZE ->
  exists s1 s2 s3 fl' own',
    alloc_page s = Ret page s1 /\ memset_page page 0 s1 = Ret tt s2 /\
    user_vm_map root va PGSIZE page perm s2 = Ret tt s3 /\
    pmm_inv s3 fl' top /\ pt_wf s3 root own' /\ data_page s3 fl' own' page /\
    (forall x, 0 <= x < 512 -> load64 (pm_mem s3) (page + 8 * x) = 0) /\
    (forall va', 0 <= va' < MAXVA -> entry 2 (pm_mem s3) root va' =
       if va' / PGSIZE =? va / PGSIZE then map_entry page perm else entry 2 (pm_mem s) root va') /\
    (forall o, 0 <= o < PGSIZE -> load8 (pm_mem s3) (page + o) = 0) /\
    (forall q, data_page s (page :: fl) own q -> data_page s3 fl' own' q /\
       forall o, 0 <= o < PGSIZE -> load8 (pm_mem s3) (q + o) = load8 (pm_mem s) (q + o)) /\
    (length fl <= length fl' + 2)%nat /\ ref_total (ref_list s3) <= ref_total (ref_list s) + 3.
Proof.
  intros Hperm Hi Hw Hva Hal Hmax Hfree Hfl Hroom.
  destruct (alloc_data s page fl top root own Hi Hw) as (s1 & E1 & Hi1 & Hw1 & Hm1 & Ho & Hp & Ht & Hc & Hpg); [lia|].
  assert (data_page s1 fl own page) as Hd1.
  { split; [done|done|]. pose proof (inv_nodup _ _ _ Hi) as [? _]%NoDup_cons. done. }
  destruct (data_write s1 fl top root own page (memset (pm_mem s1) page 0 PGSIZE) Hi1 Hw1 Hd1)
    as (Hi2 & Hw2 & Hd2 & He2); [by apply memset_unchanged|].
  set (s2 := s1 <| pm_mem := _ |>) in *.
  assert (memset_page page 0 s1 = Ret tt s2) as E2.
  { unfold memset_page. rewrite (in_dram_page s1 page page PGSIZE); [done|apply Hi1|apply Hi1|done|lia|lia]. }
  assert (ROUNDDOWN va PGSIZE = va) as Ef by by apply ROUNDDOWN_page.
  assert (ROUNDDOWN (va + PGSIZE - 1) PGSIZE = va) as El by (unfold ROUNDDOWN, PGSIZE in *; zdiv).
  assert (crossings va va = 0) as Ec by (unfold crossings; lia).
  destruct (is_page_dram s1 page) as [Hd Hd']; [apply Hi1|apply Hi1|done|].
  pose proof (missing_le 2 (pm_mem s2) root va).
  destruct (map_pages_run s2 fl top root own va PGSIZE page perm)
    as (s3 & fl' & own' & used & E3 & Efl & Hi3 & Hw3 & Hg & Ht3 & Hused & He3);
    rewrite ?Ef, ?El, ?Ec in *; try done; try lia.
  { unfold PHYS_TOP, DRAM_BASE, PGSIZE in *. lia. }
  { intros va' Hva'. change (pm_mem s2) with (memset (pm_mem s1) page 0 PGSIZE).
    rewrite He2, Hm1. by apply Hfree. }
  { change (ref_list s2) with (ref_list s1). lia. }
  assert (page ∉ used) as Hnu.
  { intros Hin. apply (dp_used _ _ _ _ Hd2). rewrite Efl. set_solver. }
  assert (own' !! page = None) as Ho' by (by apply (grow_new _ _ _ _ _ Hg)).
  assert (forall q o, own' !! q = None -> q mod PGSIZE = 0 -> 0 <= o < PGSIZE ->
    load8 (pm_mem s3) (q + o) = load8 (pm_mem s2) (q + o)) as Hkeep.
  { intros q o Hq Hqa Hob. apply (grow_frame _ _ _ _ _ Hg). intros r n Hr.
    destruct (pages_disjoint r q); [by eapply (wf_page _ _ _ Hw3)|done|congruence|lia..]. }
  exists s1, s2, s3, fl', own'. split_and!; try done.
  - unfold user_vm_map, bind. by rewrite E3.
  - split; [|done|].
    + unfold is_page. rewrite (grow_lo _ _ _ _ _ Hg), (grow_hi _ _ _ _ _ Hg). apply Hd2.
    + intros Hin. apply (dp_used _ _ _ _ Hd2). rewrite Efl. set_solver.
  - intros x Hx. transitivity (load64 (memset (pm_mem s1) page 0 PGSIZE) (page + 8 * x)).
    + apply load64_ext. intros a Ha. replace a with (page + (a - page)) by lia. apply Hkeep; [done|apply Hp|unfold PGSIZE; lia].
    + apply load64_memset_zero; unfold PGSIZE; lia.
  - intros va' Hva'. rewrite He3 by done. unfold remap. change (pm_mem s2) with (memset (pm_mem s1) page 0 PGSIZE).
    rewrite He2, Hm1. unfold ROUNDDOWN, PGSIZE in *.
    destruct (Z.eqb_spec (va' / 4096) (va / 4096)), (Z.leb_spec va va'), (Z.ltb_spec va' (va + 4096));
      cbn [andb]; try done; try zdiv. f_equal. zdiv.
  - intros o Hoo. rewrite (Hkeep page o) by (done || apply Hp). change (pm_mem s2) with (memset (pm_mem s1) page 0 PGSIZE).
    rewrite load8_memset by (unfold PGSIZE; lia). unfold PGSIZE in *.
    destruct (Z.leb_spec page (page + o)), (Z.ltb_spec (page + o) (page + 4096)); done || lia.
  - intros q [Hq1 Hq2 Hq3]. apply not_elem_of_cons in Hq3 as [Hqp Hqf]. rewrite Efl in Hqf.
    assert (own' !! q = None) as Hq' by (apply (grow_new _ _ _ _ _ Hg); set_solver). split.
    + split; [|done|set_solver]. unfold is_page. rewrite (grow_lo _ _ _ _ _ Hg), (grow_hi _ _ _ _ _ Hg).
      exact (Hpg q Hq1).
    + intros o Hoo. rewrite (Hkeep q o) by (done || apply Hq1). change (pm_mem s2) with (memset (pm_mem s1) page 0 PGSIZE).
      rewrite (memset_unchanged (pm_mem s1) page 0 PGSIZE), Hm1; [done|unfold PGSIZE; lia|].
      destruct (pages_disjoint q page); [apply Hq1|apply Hp|done|unfold PGSIZE in *; lia..].
  - rewrite Efl, length_app. lia.
  - change (ref_list s2) with (ref_list s1) in Ht3. lia.
Qed.

(** * The heap of a process *)

Lemma user_va_to_pa_mapped perm s fl top root own va page :
  pmm_inv s fl top -> pt_wf s root own -> 0 <= va < MAXVA ->
  is_page s page -> 0 <= perm < 1024 -> has (Z.lor perm PTE_V) PTE_R = true -> entry 2 (pm_mem s) root va = map_entry page perm ->
  user_va_to_pa root va s = Ret (page + va mod PGSIZE) s.
Proof.
  intros Hi Hw Hva Hp Hperm Hr1 He. unfold user_va_to_pa, bind.
  rewrite (lookup_pa_translate s fl top root own) by done. unfold translate.
  destruct (is_page_dram s page) as [Hd Hd']; [apply Hi|apply Hi|done|].
  assert (0 <= page < 18446744073709551616) as Hr by (unfold PHYS_TOP, DRAM_BASE, PGSIZE in *; lia).
  destruct (Z.leb_spec MAXVA va); [lia|]. rewrite He, !map_entry_has by done.
  rewrite Hr1, has_lor. change (has PTE_V PTE_V) with true. rewrite orb_true_r.
  cbn [andb orb]. rewrite map_entry_pa, (ROUNDDOWN_page page) by (done || apply Hp). unfold ret. f_equal.
  change (Z.shiftl 1 PGSHIFT - 1) with (Z.ones 12). rewrite Z.land_ones by lia. change (2 ^ 12) with 4096.
  unfold PHYS_TOP, DRAM_BASE, PGSIZE in *. apply u64_small. zdiv.
Qed.

Lemma align8_spec n : 0 <= n < 9223372036854775808 ->
  n <= align8 n < n + 8 /\ align8 n mod 8 = 0.
Proof.
  intros Hn. unfold align8. destruct (Z.eqb_spec (n mod 8) 0); [lia|].
  rewrite u64_small by zdiv. zdiv.
Qed.

Section heap_state.
Context (k : kern) (i : nat) (p : process) (Hp : procs k !! i = Some p).
Context (s : pmm) (fl : list Z) (top : Z) (own : gmap Z node) (page base : Z).
Context (Hi : pmm_inv s fl top) (Hw : pt_wf s (pagetable p) own) (Hd : data_page s fl own page).
Context (Hbase : 0 <= base) (Hal : base mod PGSIZE = 0) (Hmax : base + PGSIZE <= MAXVA).
Context (He : forall va, 0 <= va < MAXVA -> va / PGSIZE = base / PGSIZE ->
  entry 2 (pm_mem s) (pagetable p) va = map_entry page heap_perm).

(** The kernel with memory [m] and process [q] in slot [i]. *)
Definition heap_kern (m : mem) (q : process) : kern :=
  set_pmm (s <| pm_mem := m |>) (k <| procs := <[i := q]> (procs k) |>).

Lemma hk_get m q : get_proc i (heap_kern m q) = Ret q (heap_kern m q).
Proof. apply get_proc_eq. cbn. apply list_lookup_insert_eq. by eapply lookup_lt_Some. Qed.

Lemma hk_mod m q f : mod_proc i f (heap_kern m q) = Ret tt (heap_kern m (f q)).
Proof.
  rewrite (mod_proc_eq _ i q); [|cbn; apply list_lookup_insert_eq; by eapply lookup_lt_Some].
  unfold heap_kern, set_pmm. cbn. by rewrite list_insert_insert_eq.
Qed.

Lemma hk_store m q a v :
  page <= a -> a + 8 <= page + PGSIZE -> on_pmm (st64 a v) (heap_kern m q) = Ret tt (heap_kern (store64 m a v) q).
Proof. intros. rewrite on_pmm_st64 by by eapply data_page_dram. done. Qed.

Lemma hk_load m q a :
  page <= a -> a + 8 <= page + PGSIZE -> on_pmm (ld64 a) (heap_kern m q) = Ret (load64 m a) (heap_kern m q).
Proof. intros. rewrite on_pmm_ld64 by by eapply data_page_dram. done. Qed.

Lemma hk_block m q va :
  unchanged_outside page (page + PGSIZE) (pm_mem s) m -> base <= va < base + PGSIZE ->
  block_at (pagetable p) va (heap_kern m q) = Ret (page + (va - base)) (heap_kern m q).
Proof.
  intros Hm Hva. unfold block_at, on_pmm, zoom.
  change (k_pmm (heap_kern m q)) with (s <| pm_mem := m |>).
  destruct (data_write s fl top (pagetable p) own page m Hi Hw Hd Hm) as (Hi' & Hw' & Hd' & He').
  assert (va / PGSIZE = base / PGSIZE) as Ev by (unfold PGSIZE in *; zdiv).
  rewrite (user_va_to_pa_mapped heap_perm _ fl top _ own va page Hi' Hw');
    [|lia|apply Hd'|exact heap_perm_range|done|cbn [pm_mem upd]; rewrite <-(He va) by (done || lia); apply He'].
  replace (va mod PGSIZE) with (va - base) by (unfold PGSIZE in *; zdiv). done.
Qed.

(** Writes to the page. *)
Lemma hk_unchanged m a v :
  unchanged_outside page (page + PGSIZE) (pm_mem s) m -> page <= a -> a + 8 <= page + PGSIZE ->
  unchanged_outside page (page + PGSIZE) (pm_mem s) (store64 m a v).
Proof.
  intros Hm Ha Ha'. eapply unchanged_trans; [done|].
  eapply unchanged_mono; [..|apply unchanged_store64]; lia.
Qed.

(** First fit on a free block at offset [o] of the page that is larger than needed:
    the block is split and the rest stays on the list in its place. *)
Lemma first_fit_split fuel nf n o m q :
  let need := align8 (n + BLOCK_HEAD) in
  let c := load64 m (page + o) in
  unchanged_outside page (page + PGSIZE) (pm_mem s) m -> pagetable q = pagetable p ->
  0 < base -> 0 <= n < PGSIZE -> 0 <= o -> n + BLOCK_HEAD < c -> o + c <= PGSIZE -> need <= c - 8 ->
  in_dram (page + o + need + 8) 8 = true ->
  first_fit (S fuel) nf i n (base + o) 0 (heap_kern m q) = Ret (base + o + BLOCK_HEAD)
    (heap_kern (store64 (store64 (store64 m (page + o) need) (page + o + need) (c - need))
       (page + o + need + 8) (load64 m (page + o + 8))) (q <| first_free_block := base + o + need |>)).
Proof.
  intros need c Hm Hq Hb0 Hn Ho Hc Hoc Hneed Hdram. assert (base + PGSIZE <= 274877906944) as Hmx by exact Hmax.
  assert (n + 16 <= need < n + 24 /\ need mod 8 = 0) as [Hnr Hn8].
  { destruct (align8_spec (n + BLOCK_HEAD)); unfold need, BLOCK_HEAD, PGSIZE in *; lia. }
  assert (forall v, base <= v <= base + PGSIZE -> u64 v = v) as Hu
    by (intros v Hv; apply u64_small; unfold PGSIZE in *; lia).
  assert (base <= base + o < base + PGSIZE) as Hin1 by (unfold BLOCK_HEAD, PGSIZE in *; lia).
  assert (base <= base + o + need < base + PGSIZE) as Hin2 by (unfold BLOCK_HEAD, PGSIZE in *; lia).
  cbn [first_fit]. destruct (Z.eqb_spec (base + o) 0); [lia|].
  step (hk_get m q). rewrite (u64_small (n + BLOCK_HEAD)) by (unfold BLOCK_HEAD, PGSIZE in *; lia).
  rewrite Hq. step (hk_block m q (base + o) Hm Hin1). replace (page + (base + o - base)) with (page + o) by lia.
  unfold get_capacity, set_capacity, get_next, set_next.
  step (hk_load m q (page + o) ltac:(lia) ltac:(unfold BLOCK_HEAD in *; lia)). fold c.
  destruct (Z.leb_spec (n + BLOCK_HEAD) c); [|lia]. destruct (Z.eqb_spec c (n + BLOCK_HEAD)); [lia|].
  fold need. step (hk_store m q (page + o) need ltac:(lia) ltac:(unfold BLOCK_HEAD in *; lia)).
  set (m1 := store64 m (page + o) need). rewrite (Hu (base + o + need)) by lia.
  assert (unchanged_outside page (page + PGSIZE) (pm_mem s) m1) as Hm1
    by (apply hk_unchanged; [done|lia|unfold BLOCK_HEAD in *; lia]).
  step (hk_block m1 q (base + o + need) Hm1 Hin2).
  replace (page + (base + o + need - base)) with (page + o + need) by lia.
  rewrite (u64_small (c - need)) by (unfold PGSIZE in *; lia).
  step (hk_store m1 q (page + o + need) (c - need) ltac:(lia) ltac:(lia)). set (m2 := store64 m1 _ _).
  step (hk_load m2 q (page + o + 8) ltac:(lia) ltac:(unfold BLOCK_HEAD in *; lia)).
  assert (load64 m2 (page + o + 8) = load64 m (page + o + 8)) as ->.
  { unfold m2, m1. by rewrite !load64_store64_ne by (unfold BLOCK_HEAD in *; lia). }
  step (on_pmm_st64 (heap_kern m2 q) (page + o + need + 8) (load64 m (page + o + 8)) Hdram).
  change (set_pmm _ (heap_kern m2 q)) with (heap_kern (store64 m2 (page + o + need + 8) (load64 m (page + o + 8))) q).
  cbn [Z.eqb]. unfold set_first_free. step (hk_mod (store64 m2 (page + o + need + 8) (load64 m (page + o + 8))) q
    (fun p => p <| first_free_block := base + o + need |>)).
  unfold ret. f_equal. apply Hu. unfold BLOCK_HEAD in *. lia.
Qed.

(** ... and a block of exactly the size needed leaves the list. *)
Lemma first_fit_exact fuel nf n o m q :
  unchanged_outside page (page + PGSIZE) (pm_mem s) m -> pagetable q = pagetable p ->
  0 < base -> 0 <= n < PGSIZE -> 0 <= o -> o + n + BLOCK_HEAD <= PGSIZE ->
  load64 m (page + o) = n + BLOCK_HEAD ->
  first_fit (S fuel) nf i n (base + o) 0 (heap_kern m q) = Ret (base + o + BLOCK_HEAD)
    (heap_kern m (q <| first_free_block := load64 m (page + o + 8) |>)).
Proof.
  intros Hm Hq Hb0 Hn Ho Hoc Hcap. assert (base + PGSIZE <= 274877906944) as Hmx by exact Hmax. unfold BLOCK_HEAD in Hoc, Hcap.
  assert (base <= base + o < base + PGSIZE) as Hin1 by lia.
  cbn [first_fit]. destruct (Z.eqb_spec (base + o) 0); [lia|].
  step (hk_get m q). unfold BLOCK_HEAD. rewrite (u64_small (n + 16)) by (unfold PGSIZE in *; lia).
  rewrite Hq. step (hk_block m q (base + o) Hm Hin1). replace (page + (base + o - base)) with (page + o) by lia.
  unfold get_capacity, get_next. step (hk_load m q (page + o) ltac:(lia) ltac:(lia)). rewrite Hcap.
  destruct (Z.leb_spec (n + 16) (n + 16)); [|lia]. rewrite Z.eqb_refl.
  step (hk_load m q (page + o + 8) ltac:(lia) ltac:(lia)).
  cbn [Z.eqb]. unfold set_first_free.
  step (hk_mod m q (fun p => p <| first_free_block := load64 m (page + o + 8) |>)).
  unfold ret. f_equal. apply u64_small. unfold PGSIZE in *. lia.
Qed.
End heap_state.

Section malloc.
Context {SYM : Symbols}.

(** [grow_heap] at the level of the kernel. *)
Lemma grow_heap_run k i p page fl top own :
  let va := heap_top (user_heap p) in
  procs k !! i = Some p -> pmm_inv (k_pmm k) (page :: fl) top -> pt_wf (k_pmm k) (pagetable p) own ->
  0 <= va -> va mod PGSIZE = 0 -> va + PGSIZE <= MAXVA ->
  (forall va', va <= va' < va + PGSIZE -> has (entry 2 (pm_mem (k_pmm k)) (pagetable p) va') PTE_V = false) ->
  (2 <= length fl)%nat ->
  ref_total (ref_list (k_pmm k)) + 3 <= REF_LIST_SIZE ->
  exists s fl' own' q,
    grow_heap i k = Ret va (heap_kern k i s (pm_mem s) q) /\
    pmm_inv s fl' top /\ pt_wf s (pagetable p) own' /\ data_page s fl' own' page /\
    pagetable q = pagetable p /\ first_free_block q = first_free_block p /\
    heap_top (user_heap q) = va + PGSIZE /\
    (forall x, 0 <= x < 512 -> load64 (pm_mem s) (page + 8 * x) = 0) /\
    (forall va', 0 <= va' < MAXVA -> entry 2 (pm_mem s) (pagetable p) va' =
       if va' / PGSIZE =? va / PGSIZE then map_entry page heap_perm
       else entry 2 (pm_mem (k_pmm k)) (pagetable p) va').
Proof.
  intros va Hp Hi Hw Hva Hal Hmax Hfree Hfl Hroom.
  destruct (map_new_page heap_perm (k_pmm k) page fl top (pagetable p) own va heap_perm_range Hi Hw Hva Hal Hmax Hfree Hfl Hroom)
    as (s1 & s2 & s3 & fl' & own' & E1 & E2 & E3 & Hi3 & Hw3 & Hd3 & Hz & He & _).
  exists s3, fl', own'. eexists. split; [|split_and!; [done|done|done|..]].
  - unfold grow_heap. step (zoom_ret_eq k_pmm set_pmm alloc_page k page s1 E1).
    set (k1 := set_pmm s1 k). step (get_proc_eq k1 i p Hp). fold va.
    match goal with |- bind (mod_proc i ?f) _ _ = _ => step (mod_proc_eq k1 i p f Hp) end.
    set (k2 := k1 <| procs := _ |>).
    step (zoom_ret_eq k_pmm set_pmm (memset_page page 0) k2 tt s2 E2). set (k3 := set_pmm s2 k2).
    step (zoom_ret_eq k_pmm set_pmm (user_vm_map (pagetable p) va PGSIZE page
      (prot_to_type (Z.lor PROT_WRITE PROT_READ) true)) k3 tt s3 E3).
    unfold ret, heap_kern. destruct s3. done.
  - done.
  - done.
  - cbn. change MAXVA with 274877906944 in *. apply u64_small. unfold PGSIZE in *. lia.
  - done.
  - done.
Qed.


(** The state in which a process makes its first allocation: no free block, and room
    for a page at the top of the heap. *)
Record heap_start (k : kern) (hart i : nat) (p : process) (page : Z) (fl : list Z) (top : Z)
    (own : gmap Z node) : Prop := {
  hs_current : current k !! hart = Some (Some i);
  hs_proc : procs k !! i = Some p;
  hs_first : first_free_block p = 0;
  hs_inv : pmm_inv (k_pmm k) (page :: fl) top;
  hs_wf : pt_wf (k_pmm k) (pagetable p) own;
  hs_top : 0 < heap_top (user_heap p) /\ heap_top (user_heap p) mod PGSIZE = 0 /\
    heap_top (user_heap p) + PGSIZE <= MAXVA;
  hs_free va : heap_top (user_heap p) <= va < heap_top (user_heap p) + PGSIZE ->
    has (entry 2 (pm_mem (k_pmm k)) (pagetable p) va) PTE_V = false;
  hs_pages : (2 <= length fl)%nat;
  hs_room : ref_total (ref_list (k_pmm k)) + 3 <= REF_LIST_SIZE;
}.

(** After the first page is taken it is one free block. *)
Lemma try_alloc_run k hart i p page fl top own :
  heap_start k hart i p page fl top own ->
  let va := heap_top (user_heap p) in
  exists s fl' own' q,
    try_alloc_free_block i k = Ret tt (heap_kern k i s
      (store64 (store64 (pm_mem s) page PGSIZE) (page + 8) 0) (q <| first_free_block := va |>)) /\
    pmm_inv s fl' top /\ pt_wf s (pagetable p) own' /\ data_page s fl' own' page /\
    pagetable q = pagetable p /\ heap_top (user_heap q) = va + PGSIZE /\
    (forall va', 0 <= va' < MAXVA -> entry 2 (pm_mem s) (pagetable p) va' =
       if va' / PGSIZE =? va / PGSIZE then map_entry page heap_perm
       else entry 2 (pm_mem (k_pmm k)) (pagetable p) va').
Proof.
  intros [Hcur Hp Hfirst Hi Hw (Hva & Hal & Hmax) Hfree Hfl Hroom] va.
  destruct (grow_heap_run k i p page fl top own Hp Hi Hw) as (s & fl' & own' & q & Eg & Hi' & Hw' & Hd
    & Hqp & Hqf & Hqt & Hz & He); [lia|done..|].
  exists s, fl', own', q. split_and!; try done.
  unfold try_alloc_free_block. step (get_proc_eq k i p Hp). rewrite Hfirst. cbn [Z.eqb]. step Eg.
  fold va. assert (block_at (pagetable p) va (heap_kern k i s (pm_mem s) q) =
    Ret page (heap_kern k i s (pm_mem s) q)) as Eb.
  { rewrite (hk_block k i p s fl' top own' page va); try done; try (unfold PGSIZE, va in *; lia).
    - do 2 f_equal. lia.
    - intros v' Hv' Ev'. rewrite He by done. by rewrite Ev', Z.eqb_refl. }
  step Eb. unfold set_capacity, set_next.
  step (hk_store k i p s fl' top own' page Hi' Hw' Hd (pm_mem s) q page PGSIZE ltac:(lia) ltac:(unfold PGSIZE; lia)).
  step (hk_store k i p s fl' top own' page Hi' Hw' Hd (store64 (pm_mem s) page PGSIZE) q (page + 8) 0
    ltac:(lia) ltac:(unfold PGSIZE; lia)).
  apply (hk_mod k i p Hp).
Qed.

Lemma vm_malloc_fresh k hart i p page fl top own fuel n :
  heap_start k hart i p page fl top own ->
  let va := heap_top (user_heap p) in
  let need := align8 (n + BLOCK_HEAD) in
  0 <= n < PGSIZE -> need <= PGSIZE - 8 -> in_dram (page + need + 8) 8 = true ->
  exists s fl' own' m q,
    vm_malloc (S fuel) hart n k = Ret (va + BLOCK_HEAD) (heap_kern k i s
      (store64 m (page + need + 8) 0) (q <| first_free_block := va + need |>)) /\
    pmm_inv s fl' top /\ pt_wf s (pagetable p) own' /\ data_page s fl' own' page /\
    pagetable q = pagetable p /\ heap_top (user_heap q) = va + PGSIZE /\
    unchanged_outside page (page + PGSIZE) (pm_mem s) m /\
    load64 m page = need /\ load64 m (page + need) = PGSIZE - need /\
    (forall va', 0 <= va' < MAXVA -> entry 2 (pm_mem s) (pagetable p) va' =
       if va' / PGSIZE =? va / PGSIZE then map_entry page heap_perm
       else entry 2 (pm_mem (k_pmm k)) (pagetable p) va').
Proof.
  intros Hs va need Hn Hneed Hdr. pose proof Hs as [Hcur Hp _ Hi _ (Hva & Hal & Hmax) _ _ _].
  destruct (try_alloc_run k hart i p page fl top own Hs)
    as (s & fl' & own' & q & E1 & Hi' & Hw' & Hd & Hqp & Hqt & He). fold va in E1, Hqt, He.
  assert (n + 16 <= need < n + 24 /\ need mod 8 = 0) as [Hnr Hn8].
  { destruct (align8_spec (n + BLOCK_HEAD)); unfold need, BLOCK_HEAD, PGSIZE in *; lia. }
  set (m2 := store64 (store64 (pm_mem s) page PGSIZE) (page + 8) 0) in *.
  set (q1 := q <| first_free_block := va |>) in *.
  assert (unchanged_outside page (page + PGSIZE) (pm_mem s) m2) as U2
    by (do 2 (apply hk_unchanged; [|unfold PGSIZE; lia..]); apply unchanged_refl).
  assert (load64 m2 (page + 0) = PGSIZE) as Ec.
  { unfold m2. rewrite Z.add_0_r, load64_store64_ne, load64_store64_eq by lia. done. }
  assert (load64 m2 (page + 0 + 8) = 0) as En.
  { unfold m2. rewrite Z.add_0_r, load64_store64_eq. done. }
  exists s, fl', own', (store64 (store64 m2 page need) (page + need) (PGSIZE - need)), q1.
  split_and!; try done.
  - unfold vm_malloc. step (get_current_eq k hart i Hcur). step E1. unfold alloc_from_free_block.
    step (hk_get k i p Hp s m2 q1). change (first_free_block q1) with va.
    rewrite <-(Z.add_0_r va) at 1.
    rewrite (first_fit_split k i p Hp s fl' top own' page va Hi' Hw' Hd) with (m := m2);
      rewrite ?Ec, ?En, ?Z.add_0_r; try done; try (unfold BLOCK_HEAD, PGSIZE, va in *; lia).
    intros v' Hv' Ev'. rewrite He by done. by rewrite Ev', Z.eqb_refl.
  - do 2 (apply hk_unchanged; [|unfold PGSIZE in *; lia..]). done.
  - rewrite load64_store64_ne, load64_store64_eq by lia. apply u64_small. unfold PGSIZE in *. lia.
  - rewrite load64_store64_eq. apply u64_small. unfold PGSIZE in *. lia.
Qed.

(** The first allocation of a process: one page is taken, zeroed and mapped at
    the top of the heap, the caller gets its start behind a header that records the
    size, and the rest of the page becomes the only free block.  The allocator and
    the page table stay well-formed, and the block the caller may use lies in the
    page. *)
Theorem vm_malloc_first k hart i p page fl top own fuel n :
  heap_start k hart i p page fl top own ->
  let va := heap_top (user_heap p) in
  let need := align8 (n + BLOCK_HEAD) in
  0 <= n < PGSIZE -> need <= PGSIZE - BLOCK_HEAD ->
  exists k' p' fl' own', vm_malloc (S fuel) hart n k = Ret (va + BLOCK_HEAD) k' /\
    procs k' !! i = Some p' /\ first_free_block p' = va + need /\
    heap_top (user_heap p') = va + PGSIZE /\ pagetable p' = pagetable p /\
    pmm_inv (k_pmm k') fl' top /\ pt_wf (k_pmm k') (pagetable p) own' /\
    (forall o, 0 <= o < PGSIZE -> user_va_to_pa (pagetable p) (va + o) (k_pmm k') = Ret (page + o) (k_pmm k')) /\
    load64 (pm_mem (k_pmm k')) page = need /\
    load64 (pm_mem (k_pmm k')) (page + need) = PGSIZE - need /\
    load64 (pm_mem (k_pmm k')) (page + need + 8) = 0.
Proof.
  intros Hs va need Hn Hneed. pose proof Hs as [Hcur Hp _ Hi _ (Hva & Hal & Hmax) _ _ _].
  assert (n + 16 <= need < n + 24 /\ need mod 8 = 0) as [Hnr Hn8].
  { destruct (align8_spec (n + BLOCK_HEAD)); unfold need, BLOCK_HEAD, PGSIZE in *; lia. }
  assert (is_page (k_pmm k) page) as Hpg by (apply Hi; set_solver).
  destruct (vm_malloc_fresh k hart i p page fl top own fuel n Hs Hn)
    as (s & fl' & own' & m & q & E & Hi' & Hw' & Hd & Hqp & Hqt & Hm & Hc1 & Hc2 & He).
  { fold need. unfold BLOCK_HEAD, PGSIZE in *. lia. }
  { fold need. apply (in_dram_page (k_pmm k) page); [apply Hi|apply Hi|done|lia|].
    unfold BLOCK_HEAD, PGSIZE in *. lia. }
  fold va need in E, Hqt, Hc1, Hc2, He.
  set (m' := store64 m (page + need + 8) 0) in *.
  assert (unchanged_outside page (page + PGSIZE) (pm_mem s) m') as Hm'
    by (apply hk_unchanged; [done|lia|unfold BLOCK_HEAD, PGSIZE in *; lia]).
  destruct (data_write s fl' top (pagetable p) own' page m' Hi' Hw' Hd Hm') as (Hi2 & Hw2 & Hd2 & He2).
  set (p' := q <| first_free_block := va + need |>).
  exists (heap_kern k i s m' p'), p', fl', own'. split_and!; try done.
  - cbn. apply list_lookup_insert_eq. by eapply lookup_lt_Some.
  - intros o Ho. assert (0 <= va + o < MAXVA) as Hvo by lia.
    pose proof (user_va_to_pa_mapped heap_perm _ fl' top (pagetable p) own' (va + o) page Hi2 Hw2 Hvo
      (dp_page _ _ _ _ Hd2) heap_perm_range eq_refl) as Hx.
    replace ((va + o) mod PGSIZE) with o in Hx by (unfold va, PGSIZE in *; zdiv). apply Hx.
    transitivity (entry 2 (pm_mem s) (pagetable p) (va + o)); [apply He2|].
    rewrite He by done. assert ((va + o) / PGSIZE = va / PGSIZE) as -> by (unfold va, PGSIZE in *; zdiv).
    by rewrite Z.eqb_refl.
  - change (load64 m' page = need). unfold m'. rewrite load64_store64_ne by lia. done.
  - change (load64 m' (page + need) = PGSIZE - need). unfold m'. by rewrite load64_store64_ne by lia.
  - change (load64 m' (page + need + 8) = 0). unfold m'. apply load64_store64_eq.
Qed.

(** A request of 4065 to 4072 bytes leaves eight bytes of the page, too few for
    the header of the free block that is put there: its [next] field is written to
    the first eight bytes of the physical page that follows, whoever owns it. *)
Theorem vm_malloc_overruns k hart i p page fl top own fuel n :
  heap_start k hart i p page fl top own ->
  4065 <= n <= 4072 -> in_dram (page + PGSIZE) 8 = true ->
  exists k', vm_malloc (S fuel) hart n k = Ret (heap_top (user_heap p) + BLOCK_HEAD) k' /\
    load64 (pm_mem (k_pmm k')) (page + PGSIZE) = 0.
Proof.
  intros Hs Hn Hdr.
  assert (align8 (n + BLOCK_HEAD) = 4088) as Ea.
  { unfold align8, BLOCK_HEAD. destruct (Z.eqb_spec ((n + 16) mod 8) 0); [zdiv|].
    rewrite u64_small by zdiv. zdiv. }
  destruct (vm_malloc_fresh k hart i p page fl top own fuel n Hs)
    as (s & fl' & own' & m & q & E & _); rewrite ?Ea; [unfold PGSIZE; lia|done| |].
  { by replace (page + 4088 + 8) with (page + PGSIZE) by (unfold PGSIZE; lia). }
  eexists. split; [exact E|]. rewrite Ea.
  replace (page + 4088 + 8) with (page + PGSIZE) by (unfold PGSIZE; lia).
  change (load64 (store64 m (page + PGSIZE) 0) (page + PGSIZE) = 0). apply load64_store64_eq.
Qed.

Lemma heap_kern_id k i p :
  procs k !! i = Some p -> heap_kern k i (k_pmm k) (pm_mem (k_pmm k)) p = k.
Proof.
  intros Hp. unfold heap_kern, set_pmm. destruct k as [kfs ps]; destruct kfs as [kp]; destruct kp.
  cbn in *. by rewrite list_insert_id.
Qed.

(** C15.  Freeing a block and asking for exactly its size again returns the same
    block: [vm_free] puts it at the head of the free list, [vm_malloc] takes it from
    there, and the list is the old one again. *)
Theorem vm_free_malloc k hart i p fl top own page base o n fuel :
  current k !! hart = Some (Some i) -> procs k !! i = Some p ->
  pmm_inv (k_pmm k) fl top -> pt_wf (k_pmm k) (pagetable p) own -> data_page (k_pmm k) fl own page ->
  0 < base -> base mod PGSIZE = 0 -> base + PGSIZE <= MAXVA ->
  (forall va, 0 <= va < MAXVA -> va / PGSIZE = base / PGSIZE ->
     entry 2 (pm_mem (k_pmm k)) (pagetable p) va = map_entry page heap_perm) ->
  0 <= o -> 0 <= n -> o + n + BLOCK_HEAD <= PGSIZE ->
  load64 (pm_mem (k_pmm k)) (page + o) = n + BLOCK_HEAD ->
  0 <= first_free_block p < 18446744073709551616 ->
  exists k1 k2 p2, vm_free hart (base + o + BLOCK_HEAD) k = Ret tt k1 /\
    vm_malloc (S fuel) hart n k1 = Ret (base + o + BLOCK_HEAD) k2 /\
    procs k2 !! i = Some p2 /\ first_free_block p2 = first_free_block p /\
    unchanged_outside (page + o + 8) (page + o + BLOCK_HEAD) (pm_mem (k_pmm k)) (pm_mem (k_pmm k2)).
Proof.
  intros Hcur Hp Hi Hw Hd Hb Hal Hmax He Ho Hn Hon Hcap Hff. unfold BLOCK_HEAD in *.
  set (s := k_pmm k) in *. assert (base + PGSIZE <= 274877906944) as Hmx by exact Hmax.
  assert (base <= base + o < base + PGSIZE) as Hin by (unfold PGSIZE in *; lia).
  set (m0 := pm_mem s) in *. assert (unchanged_outside page (page + PGSIZE) m0 m0) as U0 by apply unchanged_refl.
  set (m1 := store64 m0 (page + o + 8) (first_free_block p)).
  assert (unchanged_outside page (page + PGSIZE) m0 m1) as U1
    by (apply hk_unchanged; [done|lia|unfold PGSIZE in *; lia]).
  set (p1 := p <| first_free_block := base + o |>).
  exists (heap_kern k i s m1 p1), (heap_kern k i s m1 (p1 <| first_free_block := first_free_block p |>)).
  eexists. split_and!.
  - rewrite <-(heap_kern_id k i p Hp) at 1. fold s m0.
    unfold vm_free. step (get_current_eq (heap_kern k i s m0 p) hart i Hcur).
    step (hk_get k i p Hp s m0 p). unfold BLOCK_HEAD.
    replace (base + o + 16 - 16) with (base + o) by lia.
    rewrite (u64_small (base + o)) by (unfold PGSIZE in *; lia).
    step (hk_block k i p s fl top own page base Hi Hw Hd ltac:(lia) Hal Hmax He m0 p (base + o) U0 Hin).
    replace (page + (base + o - base)) with (page + o) by lia. unfold set_next.
    step (hk_store k i p s fl top own page Hi Hw Hd m0 p (page + o + 8) (first_free_block p)
      ltac:(lia) ltac:(unfold PGSIZE in *; lia)).
    apply (hk_mod k i p Hp).
  - unfold vm_malloc. step (get_current_eq (heap_kern k i s m1 p1) hart i Hcur).
    assert (try_alloc_free_block i (heap_kern k i s m1 p1) = Ret tt (heap_kern k i s m1 p1)) as E1.
    { unfold try_alloc_free_block. step (hk_get k i p Hp s m1 p1).
      change (first_free_block p1) with (base + o). by destruct (Z.eqb_spec (base + o) 0); [lia|]. }
    step E1. unfold alloc_from_free_block. step (hk_get k i p Hp s m1 p1).
    change (first_free_block p1) with (base + o).
    rewrite (first_fit_exact k i p Hp s fl top own page base Hi Hw Hd ltac:(lia) Hal Hmax He fuel (S fuel) n o m1 p1);
      try done; try (unfold BLOCK_HEAD, PGSIZE in *; lia).
    + unfold BLOCK_HEAD, m1. by rewrite load64_store64_eq, u64_small.
    + unfold m1, BLOCK_HEAD. by rewrite load64_store64_ne by lia.
  - cbn. apply list_lookup_insert_eq. by eapply lookup_lt_Some.
  - done.
  - change (unchanged_outside (page + o + 8) (page + o + 16) m0 m1). unfold m1.
    replace (page + o + 16) with (page + o + 8 + 8) by lia. apply unchanged_store64.
Qed.

(** Routines that leave the free list of process [i] alone. *)
Definition keeps_heap {A} (i : nat) (c : M kern A) : Prop :=
  forall k a k', c k = Ret a k' -> first_free_block <$> procs k' !! i = first_free_block <$> procs k !! i.

Lemma keeps_bind {A B} i (c : M kern A) (f : A -> M kern B) :
  keeps_heap i c -> (forall a, keeps_heap i (f a)) -> keeps_heap i (bind c f).
Proof.
  intros Hc Hf k b k' (a & k1 & E1 & E2)%bind_Ret_inv. by rewrite (Hf _ _ _ _ E2), (Hc _ _ _ E1).
Qed.

Lemma keeps_on_pmm {A} i (c : M pmm A) : keeps_heap i (on_pmm c).
Proof. intros k a k'. unfold on_pmm, zoom. destruct (c (k_pmm k)); intros; by simplify_eq. Qed.

Lemma keeps_get i j : keeps_heap i (get_proc j).
Proof.
  intros k a k'. unfold get_proc, bind, gets, id, deref, ret, fault.
  destruct (procs k !! j); intros; by simplify_eq.
Qed.

Lemma keeps_mod i f :
  (forall p, first_free_block (f p) = first_free_block p) -> keeps_heap i (mod_proc i f).
Proof.
  intros Hf k a k' (p & k1 & E1 & E2)%bind_Ret_inv.
  assert (k1 = k /\ procs k !! i = Some p) as [-> Hp].
  { revert E1. unfold get_proc, bind, gets, id, deref, ret, fault.
    destruct (procs k !! i); intros; by simplify_eq. }
  unfold set_proc, modify in E2. simplify_eq. cbn.
  rewrite list_lookup_insert_eq, Hp by (by eapply lookup_lt_Some). cbn. by rewrite Hf.
Qed.

Lemma keeps_ret {A} i (a : A) : keeps_heap i (ret a).
Proof. intros k b k' [= _ <-]. done. Qed.

Lemma keeps_deref {A} i (o : option A) : keeps_heap i (deref o).
Proof. destruct o; [apply keeps_ret|done]. Qed.

Lemma keeps_for i n j body : (forall x, keeps_heap i (body x)) -> keeps_heap i (for_range n j body).
Proof.
  intros Hb. revert j. induction n as [|n IH]; intros j; [apply keeps_ret|].
  apply keeps_bind; [apply Hb|]. intros _. apply IH.
Qed.

Lemma exec_clean_keeps i : keeps_heap i (exec_clean i).
Proof.
  unfold exec_clean, proc_clean_pagetable, map_fixed_segments.
  repeat first [ apply keeps_on_pmm | apply keeps_get | apply keeps_deref | by apply keeps_mod
               | apply keeps_for; intros ? | apply keeps_bind; [|intros ?] | case_decide ].
Qed.

(** [exec_clean] keeps [first_free_block] although it drops the heap it points
    into.  The next [vm_malloc] of the process then follows the stale address
    through the new page table, where it is not mapped, and traps. *)
Theorem vm_malloc_stale k hart i p fl top own fuel n :
  (forall k0 k1 p0, exec_clean i k0 = Ret tt k1 -> procs k0 !! i = Some p0 ->
     exists p1, procs k1 !! i = Some p1 /\ first_free_block p1 = first_free_block p0) /\
  (current k !! hart = Some (Some i) -> procs k !! i = Some p ->
   pmm_inv (k_pmm k) fl top -> pt_wf (k_pmm k) (pagetable p) own ->
   0 < first_free_block p < MAXVA ->
   has (entry 2 (pm_mem (k_pmm k)) (pagetable p) (first_free_block p)) PTE_V = false ->
   vm_malloc (S fuel) hart n k = Fault).
Proof.
  split.
  { intros k0 k1 p0 E Hp0. pose proof (exec_clean_keeps i k0 tt k1 E) as Hk. rewrite Hp0 in Hk.
    apply fmap_Some in Hk as (p1 & Hp1 & ?). by exists p1. }
  intros Hcur Hp Hi Hw Hff Hv. unfold vm_malloc. step (get_current_eq k hart i Hcur).
  assert (try_alloc_free_block i k = Ret tt k) as E1.
  { unfold try_alloc_free_block. step (get_proc_eq k i p Hp).
    by destruct (Z.eqb_spec (first_free_block p) 0); [lia|]. }
  step E1. unfold alloc_from_free_block. step (get_proc_eq k i p Hp). cbn [first_fit].
  destruct (Z.eqb_spec (first_free_block p) 0); [lia|]. step (get_proc_eq k i p Hp).
  assert (exists r, 0 <= r < PGSIZE /\ block_at (pagetable p) (first_free_block p) k = Ret r k)
    as (r & Hr & Eb).
  { exists (first_free_block p mod PGSIZE). split; [by apply Z.mod_pos_bound|].
    unfold block_at, on_pmm, zoom, user_va_to_pa, bind.
    rewrite (lookup_pa_translate (k_pmm k) fl top (pagetable p) own) by done. unfold translate.
    destruct (Z.leb_spec MAXVA (first_free_block p)); [lia|]. rewrite Hv. cbn [andb]. unfold ret. f_equal.
    - change (Z.shiftl 1 PGSHIFT - 1) with (Z.ones 12). rewrite Z.land_ones by lia.
      change (2 ^ 12) with 4096. unfold PGSIZE. apply u64_small. zdiv.
    - destruct k as [kfs]; destruct kfs. done. }
  step Eb. apply bind_fault_eq. unfold get_capacity, on_pmm, zoom, ld64.
  assert (in_dram r 8 = false) as ->; [|done].
  unfold in_dram, DRAM_BASE, PGSIZE in *. destruct (Z.leb_spec 2147483648 r); [lia|done].
Qed.
End malloc.

(** * Building an address space *)

(** Writing into a page in use keeps the allocator's invariant. *)
Lemma page_write_inv s fl top page m' :
  pmm_inv s fl top -> is_page s page -> page ∉ fl ->
  unchanged_outside page (page + PGSIZE) (pm_mem s) m' -> pmm_inv (s <| pm_mem := m' |>) fl top.
Proof.
  intros Hi Hp Hu Hm. apply pmm_inv_mem; [|done]. intros q Hq. eapply unchanged_load64; [done|].
  destruct (pages_disjoint q page); [by apply (inv_pages _ _ _ Hi)|apply Hp|congruence|unfold PGSIZE in *; lia..].
Qed.

Section space.
Context (k : kern) (i : nat) (p0 : process) (Hp0 : procs k !! i = Some p0).

(** The kernel with allocator [s] and process [q] in slot [i]. *)
Definition at_proc (s : pmm) (q : process) : kern :=
  set_pmm s (k <| procs := <[i := q]> (procs k) |>).

Lemma ap_get s q : get_proc i (at_proc s q) = Ret q (at_proc s q).
Proof. apply get_proc_eq. cbn. apply list_lookup_insert_eq. by eapply lookup_lt_Some. Qed.

Lemma ap_mod s q f : mod_proc i f (at_proc s q) = Ret tt (at_proc s (f q)).
Proof.
  rewrite (mod_proc_eq _ i q); [|cbn; apply list_lookup_insert_eq; by eapply lookup_lt_Some].
  unfold at_proc, set_pmm. cbn. by rewrite list_insert_insert_eq.
Qed.

Lemma ap_pmm {A} (c : M pmm A) s q a s' : c s = Ret a s' -> on_pmm c (at_proc s q) = Ret a (at_proc s' q).
Proof. intros E. exact (zoom_ret_eq k_pmm set_pmm c (at_proc s q) a s' E). Qed.

Lemma at_proc_id : at_proc (k_pmm k) p0 = k.
Proof.
  unfold at_proc, set_pmm. destruct k as [kfs ps]; destruct kfs. cbn in *. by rewrite list_insert_id.
Qed.
End space.

(** Mapping one page with [user_vm_map]. *)
Lemma map_one_page s fl top root own va pa perm :
  pmm_inv s fl top -> pt_wf s root own -> 0 <= va -> va mod PGSIZE = 0 -> va + PGSIZE <= MAXVA ->
  0 <= perm < 1024 -> 0 <= pa < 9223372036854775808 ->
  (forall va', va <= va' < va + PGSIZE -> has (entry 2 (pm_mem s) root va') PTE_V = false) ->
  (2 <= length fl)%nat -> ref_total (ref_list s) + 2 <= REF_LIST_SIZE ->
  exists s' fl' own' used,
    user_vm_map root va PGSIZE pa perm s = Ret tt s' /\ fl = used ++ fl' /\ (length used <= 2)%nat /\
    pmm_inv s' fl' top /\ pt_wf s' root own' /\ grows own used s s' own' /\
    ref_total (ref_list s') <= ref_total (ref_list s) + 2 /\
    (forall va', 0 <= va' < MAXVA -> entry 2 (pm_mem s') root va' =
       if va' / PGSIZE =? va / PGSIZE then map_entry pa perm else entry 2 (pm_mem s) root va').
Proof.
  intros Hi Hw Hva Hal Hmax Hperm Hpa Hfree Hfl Hroom.
  assert (ROUNDDOWN va PGSIZE = va) as Ef by by apply ROUNDDOWN_page.
  assert (ROUNDDOWN (va + PGSIZE - 1) PGSIZE = va) as El by (unfold ROUNDDOWN, PGSIZE in *; zdiv).
  assert (crossings va va = 0) as Ec by (unfold crossings; lia).
  pose proof (missing_le 2 (pm_mem s) root va).
  destruct (map_pages_run s fl top root own va PGSIZE pa perm)
    as (s' & fl' & own' & used & E & Efl & Hi' & Hw' & Hg & Hroom' & Hu & He);
    rewrite ?Ef, ?El, ?Ec in *; try done; try lia.
  exists s', fl', own', used. split_and!; try done.
  - unfold user_vm_map, bind. by rewrite E.
  - lia.
  - lia.
  - intros va' Hva'. rewrite He by done. unfold remap, ROUNDDOWN, PGSIZE in *.
    destruct (Z.eqb_spec (va' / 4096) (va / 4096)), (Z.leb_spec va va'), (Z.ltb_spec va' (va + 4096));
      cbn [andb]; try done; try zdiv. f_equal. zdiv.
Qed.

(** The mappings every process starts with. *)
Definition fixed_entry {SYM : Symbols} (user_stack tf va : Z) : Z :=
  if va / PGSIZE =? (USER_STACK_TOP - PGSIZE) / PGSIZE
  then map_entry user_stack (prot_to_type (Z.lor PROT_WRITE PROT_READ) true)
  else if va / PGSIZE =? tf / PGSIZE
  then map_entry tf (prot_to_type (Z.lor PROT_WRITE PROT_READ) false)
  else if va / PGSIZE =? trap_sec_start / PGSIZE
  then map_entry trap_sec_start (prot_to_type (Z.lor PROT_READ PROT_EXEC) false)
  else 0.

Definition heap_region : mapped_region :=
  {| mr_va := USER_FREE_ADDRESS_START; mr_npages := 0; mr_seg_type := HEAP_SEGMENT |}.

(** The bookkeeping [map_fixed_segments] leaves in the process. *)
Definition fixed_regions {SYM : Symbols} (q : process) : process :=
  (set_region 3 heap_region
    ((set_region 2 {| mr_va := trap_sec_start; mr_npages := 1; mr_seg_type := SYSTEM_SEGMENT |}
      (set_region 1 {| mr_va := trapframe q; mr_npages := 1; mr_seg_type := CONTEXT_SEGMENT |}
        (set_region 0 {| mr_va := USER_STACK_TOP - PGSIZE; mr_npages := 1; mr_seg_type := STACK_SEGMENT |} q)))
      <| user_heap := (user_heap q) <| heap_top := USER_FREE_ADDRESS_START |>
           <| heap_bottom := USER_FREE_ADDRESS_START |> <| free_pages_count := 0 |> |>))
  <| total_mapped_region := 4 |>.

Section building.
Context {SYM : Symbols}.

Lemma map_fixed_run k i p0 s q fl top own us :
  procs k !! i = Some p0 -> pmm_inv s fl top -> pt_wf s (pagetable q) own ->
  (forall va, entry 2 (pm_mem s) (pagetable q) va = 0) ->
  is_page s (trapframe q) -> is_page s us ->
  trap_sec_start mod PGSIZE = 0 -> DRAM_BASE <= trap_sec_start ->
  trap_sec_start + PGSIZE <= free_mem_start_addr s ->
  (6 <= length fl)%nat -> ref_total (ref_list s) + 6 <= REF_LIST_SIZE ->
  exists s' fl' own' used,
    map_fixed_segments i us (at_proc k i s q) = Ret tt (at_proc k i s' (fixed_regions q)) /\
    fl = used ++ fl' /\ (length used <= 6)%nat /\
    pmm_inv s' fl' top /\ pt_wf s' (pagetable q) own' /\ grows own used s s' own' /\
    ref_total (ref_list s') <= ref_total (ref_list s) + 6 /\
    forall va, 0 <= va < MAXVA -> entry 2 (pm_mem s') (pagetable q) va = fixed_entry us (trapframe q) va.
Proof.
  intros Hp0 Hi Hw Hz Htf Hus Hta Htl Hth Hfl Hroom.
  destruct (is_page_dram s (trapframe q)) as [Ht1 Ht2]; [apply Hi|apply Hi|done|].
  destruct (is_page_dram s us) as [Hu1 Hu2]; [apply Hi|apply Hi|done|].
  pose proof (inv_hi _ _ _ Hi) as Hhi. destruct Htf as [Htm Htr].
  assert (trap_sec_start < PHYS_TOP) as Htop by (unfold PGSIZE in *; lia).
  unfold PHYS_TOP, DRAM_BASE in *.
  assert (forall x, DRAM_BASE <= x < PHYS_TOP -> x + PGSIZE <= MAXVA) as Hm
    by (unfold PHYS_TOP, DRAM_BASE, PGSIZE; change MAXVA with 274877906944; lia).
  unfold PHYS_TOP, DRAM_BASE in Hm.
  destruct (map_one_page s fl top (pagetable q) own (USER_STACK_TOP - PGSIZE) us
    (prot_to_type (Z.lor PROT_WRITE PROT_READ) true))
    as (s1 & fl1 & own1 & u1 & E1 & Ef1 & Hl1 & Hi1 & Hw1 & Hg1 & Hr1 & He1);
    [done|done|done|done|done|done|unfold PGSIZE in *; lia|intros; by rewrite Hz|lia|lia|].
  assert (length fl = length u1 + length fl1)%nat as Hlen1 by (rewrite Ef1; apply length_app).
  destruct (map_one_page s1 fl1 top (pagetable q) own1 (trapframe q) (trapframe q)
    (prot_to_type (Z.lor PROT_WRITE PROT_READ) false))
    as (s2 & fl2 & own2 & u2 & E2 & Ef2 & Hl2 & Hi2 & Hw2 & Hg2 & Hr2 & He2);
    [done|done|lia|done|apply Hm; unfold PGSIZE in *; lia|done|unfold PGSIZE in *; lia| |lia|lia|].
  { intros va' Hva'. rewrite He1, Hz by (specialize (Hm (trapframe q)); lia).
    destruct (Z.eqb_spec (va' / PGSIZE) ((USER_STACK_TOP - PGSIZE) / PGSIZE)); [|done].
    unfold USER_STACK_TOP, PGSIZE in *. zdiv. }
  assert (length fl1 = length u2 + length fl2)%nat as Hlen2 by (rewrite Ef2; apply length_app).
  destruct (map_one_page s2 fl2 top (pagetable q) own2 trap_sec_start trap_sec_start
    (prot_to_type (Z.lor PROT_READ PROT_EXEC) false))
    as (s3 & fl3 & own3 & u3 & E3 & Ef3 & Hl3 & Hi3 & Hw3 & Hg3 & Hr3 & He3);
    [done|done|lia|done|apply Hm; unfold PGSIZE in *; lia|done|unfold PGSIZE in *; lia| |lia|lia|].
  { intros va' Hva'. assert (trap_sec_start + PGSIZE <= MAXVA) as Hm' by (apply Hm; unfold PGSIZE in *; lia).
    rewrite He2, He1, Hz by lia.
    destruct (Z.eqb_spec (va' / PGSIZE) (trapframe q / PGSIZE)); [unfold PGSIZE in *; zdiv|].
    destruct (Z.eqb_spec (va' / PGSIZE) ((USER_STACK_TOP - PGSIZE) / PGSIZE)); [|done].
    unfold USER_STACK_TOP, PGSIZE in *. zdiv. }
  exists s3, fl3, own3, (u1 ++ u2 ++ u3). split_and!; try done.
  - unfold map_fixed_segments. step (ap_get k i p0 Hp0 s q). step (ap_pmm k i _ s q _ _ E1).
    step (ap_mod k i p0 Hp0 s1 q (set_region (seg_index STACK_SEGMENT)
      {| mr_va := USER_STACK_TOP - PGSIZE; mr_npages := 1; mr_seg_type := STACK_SEGMENT |})).
    match goal with |- bind _ _ (at_proc k i s1 ?q1) = _ => step (ap_pmm k i _ s1 q1 _ _ E2);
      step (ap_mod k i p0 Hp0 s2 q1 (set_region (seg_index CONTEXT_SEGMENT)
        {| mr_va := trapframe q; mr_npages := 1; mr_seg_type := CONTEXT_SEGMENT |})) end.
    match goal with |- bind _ _ (at_proc k i s2 ?q1) = _ => step (ap_pmm k i _ s2 q1 _ _ E3) end.
    repeat match goal with |- bind (mod_proc i ?f) _ (at_proc k i s3 ?q1) = _ => step (ap_mod k i p0 Hp0 s3 q1 f) end.
    match goal with |- mod_proc i ?f (at_proc k i s3 ?q1) = _ => rewrite (ap_mod k i p0 Hp0 s3 q1 f) end. done.
  - by rewrite Ef1, Ef2, Ef3, !app_assoc.
  - rewrite !length_app. lia.
  - eapply grows_trans; [done|]. by eapply grows_trans.
  - lia.
  - intros va Hva. rewrite He3, He2, He1, Hz by done. unfold fixed_entry.
    destruct (Z.eqb_spec (va / PGSIZE) (trap_sec_start / PGSIZE)) as [Ea|Ea],
      (Z.eqb_spec (va / PGSIZE) (trapframe q / PGSIZE)) as [Eb|Eb],
      (Z.eqb_spec (va / PGSIZE) ((USER_STACK_TOP - PGSIZE) / PGSIZE)) as [Es|Es]; try done;
      exfalso; unfold USER_STACK_TOP, PGSIZE in *; zdiv.
Qed.

Lemma alloc_bounds s p s' :
  alloc_page s = Ret p s' ->
  free_mem_start_addr s' = free_mem_start_addr s /\ free_mem_end_addr s' = free_mem_end_addr s.
Proof.
  unfold alloc_page, bind, gets, ld64, modify, ret, ref_insert.
  destruct (g_free_mem_list s =? 0), (in_dram (g_free_mem_list s) 8); cbn; try done;
    destruct (ref_insert_list _ _); intros; by simplify_eq.
Qed.

Lemma find_free_spec ps i :
  find_free ps = Some i -> exists p, ps !! i = Some p /\ status p = FREE /\
    forall j q, (j < i)%nat -> ps !! j = Some q -> status q <> FREE.
Proof.
  revert i. induction ps as [|p ps IH]; intros i; cbn [find_free]; [done|]. case_decide as Hf.
  - intros [= <-]. exists p. split_and!; [done|done|]. intros j q Hj. lia.
  - destruct (find_free ps) as [j|]; [|done]. intros [= <-].
    destruct (IH j eq_refl) as (q & Hq & Hqf & Hall). exists q. split_and!; [done|done|].
    intros [|x] y Hx Hy; cbn in Hy; [by simplify_eq|]. apply (Hall x); [lia|done].
Qed.

(** The trapframe and the page directory of a new process. *)
Lemma alloc_dir_run s tf pt fl top :
  pmm_inv s (tf :: pt :: fl) top -> ref_total (ref_list s) + 2 <= REF_LIST_SIZE ->
  exists s1 s2 s3 s4,
    alloc_page s = Ret tf s1 /\ memset_mem tf 0 TF_SIZE s1 = Ret tt s2 /\
    alloc_page s2 = Ret pt s3 /\ memset_page pt 0 s3 = Ret tt s4 /\
    pmm_inv s4 fl top /\ pt_wf s4 pt {[pt := TRoot]} /\ (forall va, entry 2 (pm_mem s4) pt va = 0) /\
    free_mem_start_addr s4 = free_mem_start_addr s /\ free_mem_end_addr s4 = free_mem_end_addr s /\
    ref_total (ref_list s4) = ref_total (ref_list s) + 2.
Proof.
  intros Hi Hroom. pose proof (inv_nodup _ _ _ Hi) as [Htf _]%NoDup_cons.
  assert (forall q, q ∈ tf :: pt :: fl -> is_page s q) as Hpg by apply Hi.
  destruct (alloc_page_inv s tf _ top Hi) as (s1 & E1 & Hi1 & Hm1 & Lo1 & Up1 & Len1 & Hc1); [lia|].
  assert (forall q, is_page s1 q <-> is_page s q) as P1 by (intros q; unfold is_page; by rewrite Lo1, Up1).
  assert (is_page s1 tf) as Hp1 by (apply P1, Hpg; set_solver).
  pose proof (page_write_inv s1 _ top tf (memset (pm_mem s1) tf 0 TF_SIZE) Hi1 Hp1 Htf) as Hi2.
  assert (memset_mem tf 0 TF_SIZE s1 = Ret tt (s1 <| pm_mem := memset (pm_mem s1) tf 0 TF_SIZE |>)) as E2.
  { unfold memset_mem. rewrite (in_dram_page s1 tf tf TF_SIZE); [done|apply Hi1|apply Hi1|done|lia|].
    unfold TF_SIZE, PGSIZE. lia. }
  set (s2 := s1 <| pm_mem := _ |>) in *.
  specialize (Hi2 ltac:(eapply unchanged_mono; [..|by apply memset_unchanged]; unfold TF_SIZE, PGSIZE; lia)).
  assert (ref_total (ref_list s2) = ref_total (ref_list s) + 1) as R2.
  { change (ref_list s2) with (ref_list s1). unfold ref_total. lia. }
  destruct (alloc_page_inv s2 pt _ top Hi2) as (s3 & E3 & Hi3 & Hm3 & Lo3 & Up3 & Len3 & Hc3); [lia|].
  destruct (empty_table s3 _ top pt Hi3) as (s4 & E4 & Hi4 & Hw4 & He4 & Hr4).
  { unfold is_page. rewrite Lo3, Up3. apply P1, Hpg. set_solver. }
  { rewrite Hc3, Z.eqb_refl. lia. }
  assert (s4 = s3 <| pm_mem := memset (pm_mem s3) pt 0 PGSIZE |>) as Es4.
  { revert E4. unfold memset_page. case_if; intros E; by simplify_eq. }
  exists s1, s2, s3, s4. split_and!; try done.
  - rewrite Es4. cbn. by rewrite Lo3.
  - rewrite Es4. cbn. by rewrite Up3.
  - rewrite Hr4. unfold ref_total in *. lia.
Qed.

(** The two stacks, the stack pointer and the region table. *)
Lemma alloc_stacks_run s tf pt ks us mi fl top :
  pmm_inv s (ks :: us :: mi :: fl) top -> pt_wf s pt {[pt := TRoot]} ->
  (forall va, entry 2 (pm_mem s) pt va = 0) ->
  is_page s tf -> tf <> pt -> tf ∉ ks :: us :: mi :: fl ->
  ref_total (ref_list s) + 3 <= REF_LIST_SIZE ->
  exists s5 s6 s7 s8 s9,
    alloc_page s = Ret ks s5 /\ alloc_page s5 = Ret us s6 /\
    st64 (tf + TF_sp) USER_STACK_TOP s6 = Ret tt s7 /\
    alloc_page s7 = Ret mi s8 /\ memset_page mi 0 s8 = Ret tt s9 /\
    pmm_inv s9 fl top /\ pt_wf s9 pt {[pt := TRoot]} /\ (forall va, entry 2 (pm_mem s9) pt va = 0) /\
    is_page s9 us /\ free_mem_start_addr s9 = free_mem_start_addr s /\
    data_page s9 fl {[pt := TRoot]} tf /\ load64 (pm_mem s9) (tf + TF_sp) = USER_STACK_TOP /\
    ref_total (ref_list s9) = ref_total (ref_list s) + 3.
Proof.
  intros Hi Hw Hz Htf Hne Hnf Hroom.
  assert (forall q, q ∈ ks :: us :: mi :: fl -> is_page s q) as Hpg by apply Hi.
  assert (is_page s us) as Hus by (apply Hpg; clear; set_solver).
  assert (tf ∉ mi :: fl) as Hnm by (clear -Hnf; set_solver).
  assert (tf ∉ fl) as Hnfl by (clear -Hnf; set_solver).
  assert (tf <> mi) as Htm by (clear -Hnf; set_solver).
  destruct (alloc_data s ks _ top pt _ Hi Hw) as (s5 & E5 & Hi5 & Hw5 & Hm5 & _ & _ & R5 & _); [lia|].
  destruct (alloc_data s5 us _ top pt _ Hi5 Hw5) as (s6 & E6 & Hi6 & Hw6 & Hm6 & _ & Hp6 & R6 & _); [lia|].
  pose proof (alloc_bounds _ _ _ E5) as [Lo5 Up5]. pose proof (alloc_bounds _ _ _ E6) as [Lo6 Up6].
  assert (forall q, is_page s6 q <-> is_page s q) as P6 by (intros q; unfold is_page; by rewrite Lo6, Up6, Lo5, Up5).
  assert (data_page s6 (mi :: fl) {[pt := TRoot]} tf) as Hd6.
  { split; [by apply P6|by apply lookup_singleton_ne|done]. }
  destruct (data_write s6 _ top pt _ tf (store64 (pm_mem s6) (tf + TF_sp) USER_STACK_TOP) Hi6 Hw6 Hd6)
    as (Hi7 & Hw7 & Hd7 & He7).
  { eapply unchanged_mono; [..|apply unchanged_store64]; unfold TF_sp, PGSIZE; lia. }
  assert (st64 (tf + TF_sp) USER_STACK_TOP s6 =
    Ret tt (s6 <| pm_mem := store64 (pm_mem s6) (tf + TF_sp) USER_STACK_TOP |>)) as E7.
  { unfold st64. by rewrite (data_page_dram s6 _ top pt _ tf _ Hi6 Hw6 Hd6) by (unfold TF_sp, PGSIZE; lia). }
  set (s7 := s6 <| pm_mem := _ |>) in *.
  destruct (alloc_data s7 mi _ top pt _ Hi7 Hw7) as (s8 & E8 & Hi8 & Hw8 & Hm8 & Ho8 & Hp8 & R8 & _);
    [change (ref_list s7) with (ref_list s6); lia|].
  pose proof (alloc_bounds _ _ _ E8) as [Lo8 Up8].
  assert (forall q, is_page s8 q <-> is_page s q) as P8 by (intros q; rewrite <-P6; unfold is_page; by rewrite Lo8, Up8).
  assert (data_page s8 fl {[pt := TRoot]} mi) as Hd8.
  { split; [done|done|]. by pose proof (inv_nodup _ _ _ Hi7) as [? _]%NoDup_cons. }
  destruct (data_write s8 _ top pt _ mi (memset (pm_mem s8) mi 0 PGSIZE) Hi8 Hw8 Hd8)
    as (Hi9 & Hw9 & Hd9 & He9); [by apply memset_unchanged|].
  exists s5, s6, s7, s8, (s8 <| pm_mem := memset (pm_mem s8) mi 0 PGSIZE |>). split_and!; try done.
  - unfold memset_page. rewrite (in_dram_page s8 mi mi PGSIZE); [done|apply Hi8|apply Hi8|done|lia|lia].
  - intros va. change (entry 2 (memset (pm_mem s8) mi 0 PGSIZE) pt va = 0). rewrite He9, Hm8.
    change (pm_mem s7) with (store64 (pm_mem s6) (tf + TF_sp) USER_STACK_TOP). by rewrite He7, Hm6, Hm5.
  - by apply P8.
  - change (free_mem_start_addr s8 = free_mem_start_addr s). by rewrite Lo8, <-Lo5, <-Lo6.
  - split; [by apply P8|by apply lookup_singleton_ne|done].
  - change (load64 (memset (pm_mem s8) mi 0 PGSIZE) (tf + TF_sp) = USER_STACK_TOP).
    rewrite (unchanged_load64 mi (mi + PGSIZE) (pm_mem s8)); [|by apply memset_unchanged|].
    + rewrite Hm8. apply load64_store64_eq.
    + destruct (pages_disjoint tf mi); [apply Htf|apply Hd8|done|unfold TF_sp, PGSIZE in *; lia..].
  - change (ref_total (ref_list s8) = ref_total (ref_list s) + 3).
    change (ref_list s7) with (ref_list s6) in R8. lia.
Qed.
(** The process [alloc_process] builds in the slot of [q]. *)
Definition new_process (q : process) (tf pt ks pf : Z) : process :=
  (fixed_regions (q <| trapframe := tf |> <| pagetable := pt |> <| kstack := u64 (ks + PGSIZE) |>
     <| mapped_info := replicate MAPPED_REGIONS blank_region |>)) <| pfiles := pf |>.

Lemma init_files_run k i s q pf s' stale :
  alloc_page s = Ret pf s' -> pf <> 0 ->
  exists st, on_fs (init_proc_file_management stale) (at_proc k i s q) =
      Ret pf (at_proc (k <| k_fs := (k_fs k) <| pfiles_store := st |> |>) i s' q) /\
    st = <[pf := {| cwd := vfs_root_dentry (k_fs k); nfiles := 0;
                    opened_files := (fun f => f <| f_status := FD_NONE |>) <$> stale |}]> (pfiles_store (k_fs k)).
Proof.
  intros E Hpf. eexists. split; [|reflexivity].
  unfold on_fs, init_proc_file_management, fs_alloc, zoom, bind. cbn [fs_pages k_fs at_proc set_pmm].
  change (pg_alloc (fs_pages (k_fs (at_proc k i s q)))) with (alloc_page s). rewrite E.
  destruct (Z.eqb_spec pf 0); [done|]. reflexivity.
Qed.

(** Growing the tables leaves the words of a data page alone. *)
Lemma grows_data s fl root own used fl' s' own' page a :
  data_page s fl own page -> fl = used ++ fl' -> grows own used s s' own' -> pt_wf s' root own' ->
  page <= a -> a + 8 <= page + PGSIZE -> load64 (pm_mem s') a = load64 (pm_mem s) a.
Proof.
  intros Hd -> Hg Hw Hl Hh. apply load64_ext. intros x Hx. apply (grow_frame _ _ _ _ _ Hg).
  intros q n Hq. destruct (wf_page _ _ _ Hw q n Hq) as [Hp _].
  assert (q <> page) as Hne.
  { intros ->. rewrite (grow_new _ _ _ _ _ Hg) in Hq; [done|apply Hd|].
    destruct Hd as [_ _ Hn]. clear -Hn. set_solver. }
  destruct (pages_disjoint q page); [apply Hp|apply Hd|done|lia..].
Qed.

(** C16.  [alloc_process] takes the first FREE slot, and it succeeds whenever twelve pages
    are free and the table of owners has room for twelve more, however many other
    pages are free.  The new page table maps exactly three pages: the fresh user
    stack below USER_STACK_TOP, the trapframe at its own address and the trap
    section at its own address; every other user address is unmapped.  The saved
    stack pointer is USER_STACK_TOP, the kernel stack starts at the end of its
    page, the heap is empty, the file table is fresh and rooted at the root
    directory.  Other processes are untouched and the page allocator stays
    consistent. *)
Theorem alloc_process_spec k i p0 stale tf pt ks us mi fl top :
  find_free (procs k) = Some i -> procs k !! i = Some p0 ->
  pmm_inv (k_pmm k) (tf :: pt :: ks :: us :: mi :: fl) top ->
  trap_sec_start mod PGSIZE = 0 -> DRAM_BASE <= trap_sec_start ->
  trap_sec_start + PGSIZE <= free_mem_start_addr (k_pmm k) ->
  (7 <= length fl)%nat -> ref_total (ref_list (k_pmm k)) + 12 <= REF_LIST_SIZE ->
  (forall j q, (j < i)%nat -> procs k !! j = Some q -> status q <> FREE) /\
  exists k' fl' own pf,
    alloc_process stale k = Ret i k' /\
    procs k' = <[i := new_process p0 tf pt ks pf]> (procs k) /\
    pmm_inv (k_pmm k') fl' top /\ pt_wf (k_pmm k') pt own /\
    (forall va, 0 <= va < MAXVA -> entry 2 (pm_mem (k_pmm k')) pt va = fixed_entry us tf va) /\
    load64 (pm_mem (k_pmm k')) (tf + TF_sp) = USER_STACK_TOP /\
    pfiles_store (k_fs k') !! pf = Some {| cwd := vfs_root_dentry (k_fs k); nfiles := 0;
      opened_files := (fun f => f <| f_status := FD_NONE |>) <$> stale |}.
Proof.
  intros Hff Hp0 Hi Hta Htl Hth Hfl Hroom.
  destruct (find_free_spec _ _ Hff) as (p0' & Hp0' & _ & Hfirst). split; [done|].
  destruct (alloc_dir_run (k_pmm k) tf pt _ top Hi)
    as (s1 & s2 & s3 & s4 & E1 & E2 & E3 & E4 & Hi4 & Hw4 & Hz4 & Lo4 & Up4 & R4); [lia|].
  assert (is_page s4 tf) as Htf.
  { unfold is_page. rewrite Lo4, Up4. apply (inv_pages _ _ _ Hi). left. }
  pose proof (inv_nodup _ _ _ Hi) as [Hnt _]%NoDup_cons. apply not_elem_of_cons in Hnt as [Hne Hnt].
  destruct (alloc_stacks_run s4 tf pt ks us mi fl top Hi4 Hw4 Hz4 Htf Hne Hnt)
    as (s5 & s6 & s7 & s8 & s9 & E5 & E6 & E7 & E8 & E9 & Hi9 & Hw9 & Hz9 & Hus & Lo9 & Hd9 & Hsp & R9); [lia|].
  set (q5 := p0 <| trapframe := tf |> <| pagetable := pt |> <| kstack := u64 (ks + PGSIZE) |>
     <| mapped_info := replicate MAPPED_REGIONS blank_region |>).
  destruct (map_fixed_run k i p0 s9 q5 fl top {[pt := TRoot]} us)
    as (s10 & fl10 & own & used & E10 & Ef & Hu & Hi10 & Hw10 & Hg & R10 & He);
    [done|done|done|done|apply Hd9|done|done|done|by rewrite Lo9, Lo4|lia|lia|].
  assert (length fl = length used + length fl10)%nat as Hlen by (rewrite Ef; apply length_app).
  destruct fl10 as [|pf fl11]; [cbn in Hlen; lia|].
  destruct (alloc_data s10 pf fl11 top pt own Hi10 Hw10) as (s11 & E11 & Hi11 & Hw11 & Hm11 & _ & Hp11 & _);
    [lia|].
  assert (pf <> 0) as Hpf.
  { destruct (is_page_dram s11 pf); [apply Hi11|apply Hi11|done|]. unfold DRAM_BASE in *. lia. }
  destruct (init_files_run k i s10 (fixed_regions q5) pf s11 stale E11 Hpf) as (st & E12 & Hst).
  set (k2 := k <| k_fs := (k_fs k) <| pfiles_store := st |> |>) in *.
  exists (at_proc k2 i s11 (new_process p0 tf pt ks pf)), fl11, own, pf. split_and!.
  - unfold alloc_process. step (eq_refl : gets id k = Ret k k). rewrite Hff.
    rewrite <-(at_proc_id k i p0 Hp0) at 1.
    step (ap_pmm k i _ _ p0 _ _ E1). step (ap_mod k i p0 Hp0 s1 p0 (fun p => p <| trapframe := tf |>)).
    step (ap_pmm k i _ _ (p0 <| trapframe := tf |>) _ _ E2). step (ap_pmm k i _ _ (p0 <| trapframe := tf |>) _ _ E3).
    match goal with |- bind (mod_proc i ?f) _ (at_proc k i ?s ?q) = _ => step (ap_mod k i p0 Hp0 s q f) end.
    match goal with |- bind _ _ (at_proc k i ?s ?q) = _ => step (ap_pmm k i _ _ q _ _ E4); step (ap_pmm k i _ _ q _ _ E5) end.
    match goal with |- bind (mod_proc i ?f) _ (at_proc k i ?s ?q) = _ => step (ap_mod k i p0 Hp0 s q f) end.
    match goal with |- bind _ _ (at_proc k i ?s ?q) = _ => step (ap_pmm k i _ _ q _ _ E6); step (ap_pmm k i _ _ q _ _ E7);
      step (ap_pmm k i _ _ q _ _ E8); step (ap_pmm k i _ _ q _ _ E9) end.
    match goal with |- bind (mod_proc i ?f) _ (at_proc k i ?s ?q) = _ => step (ap_mod k i p0 Hp0 s q f) end.
    step E10. step E12. step (ap_mod k2 i p0 Hp0 s11 (fixed_regions q5) (fun p => p <| pfiles := pf |>)). reflexivity.
  - reflexivity.
  - exact Hi11.
  - exact Hw11.
  - intros va Hva. change (entry 2 (pm_mem s11) pt va = fixed_entry us tf va). rewrite Hm11. by apply He.
  - change (load64 (pm_mem s11) (tf + TF_sp) = USER_STACK_TOP). rewrite Hm11.
    rewrite <-Hsp. eapply (grows_data s9 fl pt); [done|done|done|done|unfold TF_sp, PGSIZE; lia..].
  - change (st !! pf = Some {| cwd := vfs_root_dentry (k_fs k); nfiles := 0;
      opened_files := (fun f => f <| f_status := FD_NONE |>) <$> stale |}).
    rewrite Hst. apply lookup_insert_eq.
Qed.
End building.

(** ** Witnesses *)

#[local] Existing Instance small_symbols.

(** Process 1 is ready, and process 2 is a dead child of the running process 0. *)
Definition dead_child : process := (blank_process 2 ZOMBIE) <| parent := Some 0%nat |>.
Definition child_kern : kern :=
  small_kern <| procs := [blank_process 0 RUNNING; blank_process 1 READY; dead_child] |>.
Definition reaped_kern : kern := child_kern <| procs := <[2%nat := dead_child <| status := FREE |>]> (procs child_kern) |>.

(** Process 1 is ready; process 2 runs and is a child of process 0, which waits. *)
Definition exit_kern : kern :=
  small_kern <| procs := [blank_process 0 BLOCKED; blank_process 1 READY;
    (blank_process 2 RUNNING) <| parent := Some 0%nat |>] |>.

(** The same, with process 0 blocked on semaphore 0 and process 3 behind it. *)
Definition steal_kern : kern :=
  exit_kern <| procs := [(blank_process 0 BLOCKED) <| queue_next := Some 3%nat |>; blank_process 1 READY;
      (blank_process 2 RUNNING) <| parent := Some 0%nat |>; blank_process 3 BLOCKED] |>
    <| waiting_queue := Some 0%nat :: replicate 99 None |>.
Definition steal_waiters : list (list nat) := [0%nat; 3%nat] :: replicate 99 [].

Lemma child_kern_wf : sched_wf child_kern [1%nat] no_waiters.
Proof.
  destruct small_kern_wf as [H1 H2 H3 H4 H5 H6 H7 H8]. split; [|exact H2|..|exact H7|exact H8].
  - cbn. split; [reflexivity|]. eexists. split; reflexivity.
  - intros j l h Hj Hh. apply lookup_replicate in Hj as [-> _]. by apply lookup_replicate in Hh as [-> _].
  - exact H4.
  - intros i p ->%list_elem_of_singleton Hp. cbn in Hp. by simplify_eq.
  - intros i p Hi. rewrite no_waiters_concat in Hi. set_solver.
Qed.

Lemma reaped_kern_wf : sched_wf reaped_kern [1%nat] no_waiters.
Proof.
  destruct small_kern_wf as [H1 H2 H3 H4 H5 H6 H7 H8]. split; [|exact H2|..|exact H7|exact H8].
  - cbn. split; [reflexivity|]. eexists. split; reflexivity.
  - intros j l h Hj Hh. apply lookup_replicate in Hj as [-> _]. by apply lookup_replicate in Hh as [-> _].
  - exact H4.
  - intros i p ->%list_elem_of_singleton Hp. cbn in Hp. by simplify_eq.
  - intros i p Hi. rewrite no_waiters_concat in Hi. set_solver.
Qed.

Lemma exit_kern_wf : sched_wf exit_kern [1%nat] no_waiters.
Proof.
  destruct small_kern_wf as [H1 H2 H3 H4 H5 H6 H7 H8]. split; [|exact H2|..|exact H7|exact H8].
  - cbn. split; [reflexivity|]. eexists. split; reflexivity.
  - intros j l h Hj Hh. apply lookup_replicate in Hj as [-> _]. by apply lookup_replicate in Hh as [-> _].
  - exact H4.
  - intros i p ->%list_elem_of_singleton Hp. cbn in Hp. by simplify_eq.
  - intros i p Hi. rewrite no_waiters_concat in Hi. set_solver.
Qed.

Lemma steal_waiters_concat : concat steal_waiters = [0%nat; 3%nat].
Proof. reflexivity. Qed.

Lemma steal_kern_wf : sched_wf steal_kern [1%nat] steal_waiters.
Proof.
  split; try reflexivity.
  - cbn. split; [reflexivity|]. eexists. split; reflexivity.
  - intros [|j] l h Hj Hh.
    + cbn in Hj, Hh. simplify_eq. cbn. split; [reflexivity|]. eexists. split; [reflexivity|].
      split; [reflexivity|]. eexists. split; reflexivity.
    + change (replicate 99 [] !! j = Some l) in Hj. change (replicate 99 None !! j = Some h) in Hh.
      apply lookup_replicate in Hj as [-> _]. by apply lookup_replicate in Hh as [-> _].
  - rewrite steal_waiters_concat. apply (bool_decide_unpack _). reflexivity.
  - intros i p ->%list_elem_of_singleton Hp. cbn in Hp. by simplify_eq.
  - intros i p Hi Hp. rewrite steal_waiters_concat in Hi.
    apply elem_of_cons in Hi as [-> | ->%list_elem_of_singleton]; cbn in Hp; by simplify_eq.
Qed.

Lemma child_kern_first i p : procs child_kern !! i = Some p -> status p = ZOMBIE -> i = 2%nat.
Proof. destruct i as [|[|[|i]]]; cbn; intros Hp Hz; by simplify_eq. Qed.

Lemma child_kern_2 : procs child_kern !! 2%nat = Some dead_child.
Proof. reflexivity. Qed.

Lemma reaped_kern_mine : exists p, p ∈ procs reaped_kern /\ parent p = Some 0%nat.
Proof. eexists. split; [right; right; left|reflexivity]. Qed.

Lemma reaped_kern_free p : p ∈ procs reaped_kern -> parent p = Some 0%nat -> status p = FREE.
Proof. intros (i & Hi)%list_elem_of_lookup_1. destruct i as [|[|[|i]]]; cbn in Hi; by simplify_eq. Qed.

Lemma reaped_kern_1 : procs reaped_kern !! 1%nat = Some (blank_process 1 READY).
Proof. reflexivity. Qed.

Lemma runner_unqueued : 0%nat ∉ [1%nat] ++ concat no_waiters.
Proof. rewrite no_waiters_concat. set_solver. Qed.

Lemma do_wait_any_witness :
  do_wait 1 0 (-1) child_kern = Ret 2 reaped_kern /\
  exists k', do_wait 1 0 (-1) reaped_kern = Switch k' /\ current k' !! 0%nat = Some (Some 1%nat) /\
    procs k' !! 0%nat = Some (blank_process 0 BLOCKED).
Proof.
  split.
  - destruct (do_wait_any child_kern [1%nat] no_waiters 0 0 (blank_process 0 RUNNING) 0 child_kern_wf eq_refl eq_refl)
      as [H|[H|[H|H]]].
    + exfalso. destruct H as [H _]. exact (H _ (list_elem_of_lookup_2 _ _ _ child_kern_2) eq_refl).
    + destruct H as (i & p & Hp & _ & Hz & _ & E). pose proof (child_kern_first i p Hp Hz) as ->.
      rewrite child_kern_2 in Hp. injection Hp as <-. exact E.
    + exfalso. destruct H as (_ & H & _). exact (H _ (list_elem_of_lookup_2 _ _ _ child_kern_2) eq_refl eq_refl).
    + exfalso. destruct H as (_ & H & _). discriminate (H _ (list_elem_of_lookup_2 _ _ _ child_kern_2) eq_refl).
  - destruct (do_wait_any reaped_kern [1%nat] no_waiters 0 0 (blank_process 0 RUNNING) 0 reaped_kern_wf eq_refl eq_refl)
      as [H|[H|[H|H]]].
    + exfalso. destruct H as [H _]. destruct reaped_kern_mine as (p & Hp & Hc). exact (H p Hp Hc).
    + exfalso. destruct H as (i & p & Hp & Hm & Hz & _).
      rewrite (reaped_kern_free p (list_elem_of_lookup_2 _ _ _ Hp) Hm) in Hz. discriminate Hz.
    + exfalso. destruct H as ((p & Hp & Hm & Hn) & _). exact (Hn (reaped_kern_free p Hp Hm)).
    + destruct H as (_ & _ & H).
      destruct (H 1%nat [] _ eq_refl runner_unqueued reaped_kern_1 ltac:(cbn; lia) eq_refl) as (k' & E & _ & Hc & Hb).
      exists k'. split; [exact E|]. split; [exact Hc|exact Hb].
Defined.

Lemma free_process_wakes_parent_witness :
  exists k', free_process 2 exit_kern = Ret 0 k' /\ sched_wf k' [1%nat; 0%nat] no_waiters.
Proof.
  destruct (free_process_wakes_parent exit_kern [1%nat] no_waiters 2
    ((blank_process 2 RUNNING) <| parent := Some 0%nat |>) 0 (blank_process 0 BLOCKED) exit_kern_wf)
    as (k' & E & Hw & _); try reflexivity; try (rewrite no_waiters_concat; set_solver); [clear; done|].
  exists k'. split; [exact E|exact Hw].
Defined.

Lemma wakeup_steals_waiter_witness :
  exists k', free_process 2 steal_kern = Ret 0 k' /\ queue (procs k') (ready_queue_head k') [1%nat; 0%nat] /\
    queue (procs k') (Some 0%nat) [0%nat] /\ forall rl wl, ~ sched_wf k' rl wl.
Proof.
  destruct (wakeup_steals_waiter steal_kern [1%nat] steal_waiters 0 [] 0 [3%nat]
    ((blank_process 0 BLOCKED) <| queue_next := Some 3%nat |>) 2
    ((blank_process 2 RUNNING) <| parent := Some 0%nat |>) steal_kern_wf)
    as (k' & E & (q & Hq & _) & Hr & _ & _ & H); try reflexivity; [rewrite steal_waiters_concat; set_solver|].
  exists k'. split; [exact E|]. split; [exact Hr|]. split; [|exact H].
  vm_compute in E. injection E as <-. split; [reflexivity|]. eexists. split; reflexivity.
Defined.

(** Process 0 runs on hart 0 with an empty heap and a page table that maps nothing. *)
Definition heap_process : process :=
  (blank_process 0 RUNNING) <| user_heap := {| heap_top := USER_FREE_ADDRESS_START;
    heap_bottom := USER_FREE_ADDRESS_START; free_pages_address := []; free_pages_count := 0 |} |>.
Definition start_kern (p : process) (s : pmm) : kern :=
  set_pmm s (small_kern <| procs := [p; blank_process 1 READY; blank_process 2 FREE] |>).
Definition small_page : Z := KERN_BASE + 12 * PGSIZE.
Definition small_rest : list Z := tail (tail small_free).

Lemma small_tail : tail small_free = small_page :: small_rest.
Proof. reflexivity. Qed.

Lemma small_heap_start :
  heap_start (start_kern heap_process small_alloc) 0 0 heap_process small_page small_rest small_top small_own.
Proof.
  destruct small_alloc_ok as (Hi & Hw & He & Ht & _). rewrite small_tail in Hi. split.
  - reflexivity.
  - reflexivity.
  - reflexivity.
  - exact Hi.
  - exact Hw.
  - clear. split_and!; done.
  - intros va _. change (has (entry 2 (pm_mem small_alloc) small_top va) PTE_V = false). rewrite He. reflexivity.
  - clear. cbn. lia.
  - change (ref_total (ref_list small_alloc) + 3 <= REF_LIST_SIZE).
    rewrite Ht. clear. done.
Qed.

Lemma vm_malloc_first_witness :
  exists k', vm_malloc 1 0 100 (start_kern heap_process small_alloc) = Ret (USER_FREE_ADDRESS_START + 16) k' /\
    load64 (pm_mem (k_pmm k')) small_page = 120.
Proof.
  destruct (vm_malloc_first _ 0 0 heap_process small_page small_rest small_top small_own 0 100 small_heap_start)
    as (k' & p' & fl' & own' & E & _ & _ & _ & _ & _ & _ & _ & Hc & _); [clear; done|clear; done|].
  exists k'. split; [exact E|exact Hc].
Defined.

Lemma vm_malloc_overruns_witness :
  exists k', vm_malloc 1 0 4068 (start_kern heap_process small_alloc) = Ret (USER_FREE_ADDRESS_START + 16) k' /\
    load64 (pm_mem (k_pmm k')) (small_page + PGSIZE) = 0.
Proof.
  apply (vm_malloc_overruns _ 0 0 heap_process small_page small_rest small_top small_own 0 4068 small_heap_start);
    clear; done.
Defined.

(** The same with a block of 64 bytes at the start of the mapped page. *)
Definition block_pmm : pmm := small_mapped <| pm_mem := store64 (pm_mem small_mapped) small_data 80 |>.

Lemma block_pmm_ok :
  exists fl own, pmm_inv block_pmm fl small_top /\ pt_wf block_pmm small_top own /\
    data_page block_pmm fl own small_data /\
    (forall va, 0 <= va < MAXVA -> va / PGSIZE = 4096 / PGSIZE ->
       entry 2 (pm_mem block_pmm) small_top va = map_entry small_data heap_perm) /\
    load64 (pm_mem block_pmm) small_data = 80.
Proof.
  destruct small_mapped_ok as (fl & own & Hi & Hw & Hfl & Ht & He & Ho & Hp & Hc).
  assert (small_data ∉ fl) as Hnf.
  { intros Hx. apply (inv_free _ _ _ Hi), ref_count_absent in Hx. rewrite Hx in Hc. discriminate Hc. }
  assert (data_page small_mapped fl own small_data) as Hd by by split.
  destruct (data_write small_mapped fl small_top small_top own small_data
    (store64 (pm_mem small_mapped) small_data 80) Hi Hw Hd) as (Hi2 & Hw2 & Hd2 & He2).
  { eapply unchanged_mono; [..|apply unchanged_store64]; unfold PGSIZE; lia. }
  exists fl, own. split; [exact Hi2|]. split; [exact Hw2|]. split; [exact Hd2|]. split.
  - intros va Hva Hpg. etransitivity; [apply He2|]. rewrite He by exact Hva. clear -Hva Hpg.
    unfold remap, PGSIZE in *. change (4096 / 4096) with 1 in Hpg.
    destruct (Z.leb_spec 4096 va), (Z.ltb_spec va 8192); cbn [andb]; try (exfalso; zdiv).
    unfold ROUNDDOWN. f_equal. zdiv.
  - apply load64_store64_eq.
Qed.

Lemma vm_free_malloc_witness :
  exists k1 k2, vm_free 0 4112 (start_kern heap_process block_pmm) = Ret tt k1 /\
    vm_malloc 1 0 64 k1 = Ret 4112 k2.
Proof.
  destruct block_pmm_ok as (fl & own & Hi & Hw & Hd & He & Hc).
  destruct (vm_free_malloc (start_kern heap_process block_pmm) 0 0 heap_process fl small_top own small_data
    4096 0 64 0 eq_refl eq_refl Hi Hw Hd) as (k1 & k2 & p2 & E1 & E2 & _);
    [clear; done|clear; done|clear; done|exact He|clear; done|clear; done|clear; done| |clear; done|].
  - rewrite Z.add_0_r. exact Hc.
  - exists k1, k2. split; [exact E1|exact E2].
Defined.

(** Enough memory to run the allocation, a [vm_malloc] and [exec_clean]. *)
Definition exec_kern : kern :=
  set_pmm (after alloc_page (after (pmm_init (KERN_BASE + 4000)) mid_boot))
    (small_kern <| procs := [zero_process] |>).
Definition after_exec : outcome kern unit :=
  (alloc_process [] ;;; vm_malloc 1 0 100 ;;; exec_clean 0) exec_kern.
Definition is_fault {S A} (o : outcome S A) : bool := match o with Fault => true | _ => false end.

Lemma vm_malloc_stale_witness :
  vm_malloc 1 0 8 (start_kern (heap_process <| first_free_block := 4194424 |>) small_alloc) = Fault /\
  match after_exec with Ret _ k => is_fault (vm_malloc 1 0 8 k) | _ => false end = true.
Proof.
  split; [|vm_compute; reflexivity].
  destruct small_alloc_ok as (Hi & Hw & He & _).
  destruct (vm_malloc_stale (start_kern (heap_process <| first_free_block := 4194424 |>) small_alloc) 0 0
    (heap_process <| first_free_block := 4194424 |>) (tail small_free) small_top small_own 0 8) as [_ H].
  apply H; [reflexivity|reflexivity|exact Hi|exact Hw|clear; done|].
  change (has (entry 2 (pm_mem small_alloc) small_top 4194424) PTE_V = false). rewrite He. reflexivity.
Defined.

Lemma small_running_bounds : free_mem_start_addr small_running = KERN_BASE + PGSIZE /\
  ref_total (ref_list small_running) = 1.
Proof. split; vm_compute; reflexivity. Qed.

Lemma alloc_process_spec_witness :
  exists k', alloc_process [] small_kern = Ret 2%nat k' /\
    load64 (pm_mem (k_pmm k')) (KERN_BASE + 13 * PGSIZE + TF_sp) = USER_STACK_TOP.
Proof.
  destruct small_running_bounds as [Hlo Ht].
  destruct (alloc_process_spec small_kern 2 (blank_process 2 FREE) []
    (KERN_BASE + 13 * PGSIZE) (KERN_BASE + 12 * PGSIZE) (KERN_BASE + 11 * PGSIZE) (KERN_BASE + 10 * PGSIZE)
    (KERN_BASE + 9 * PGSIZE) (pages_down (KERN_BASE + PGSIZE) 8 []) small_top eq_refl eq_refl small_running_ok)
    as (_ & k' & fl' & own & pf & E & _ & _ & _ & _ & Hsp & _);
    [clear; done|clear; done| |clear; cbn; lia| |].
  - change (KERN_BASE + PGSIZE <= free_mem_start_addr small_running). rewrite Hlo. clear. done.
  - change (ref_total (ref_list small_running) + 12 <= REF_LIST_SIZE). rewrite Ht. clear. done.
  - exists k'. split; [exact E|exact Hsp].
Defined.
