(* ===== verification/Elf.v ===== *)
(** kernel/elf.c: loading a program.  The headers are decoded from the bytes the file
    system delivers; segments become pages of the process, the sections become the table
    of function symbols and the line table. *)

From S2P Require Import Prelude Mem CString Symbol Leb128 DebugLine PageAlloc Pmm Vmm HashTable SpikeFile FsData Ramdev Hostfs Vfs Kernel Sched Process.

(** * kernel/elf.h *)

(** The [n] bytes at [o] of a structure, as a little-endian integer. *)
Definition field (b : list Z) (o n : nat) : Z := foldr (fun c v => c + 256 * v) 0 (take n (drop o b)).

(** [elf_header], 64 bytes. *)
Definition EHDR : Z := 64.
Record elf_header := {
  eh_magic : Z; eh_entry : Z; eh_phoff : Z; eh_shoff : Z;
  eh_phnum : Z; eh_shentsize : Z; eh_shnum : Z; eh_shstrndx : Z;
}.
Definition decode_ehdr (b : list Z) : elf_header := {|
  eh_magic := field b 0 4; eh_entry := field b 24 8; eh_phoff := field b 32 8; eh_shoff := field b 40 8;
  eh_phnum := field b 56 2; eh_shentsize := field b 58 2; eh_shnum := field b 60 2; eh_shstrndx := field b 62 2 |}.

(** [elf_prog_header], 56 bytes. *)
Definition PHDR : Z := 56.
Record elf_prog_header := {
  ph_type : Z; ph_flags : Z; ph_off : Z; ph_vaddr : Z; ph_filesz : Z; ph_memsz : Z;
}.
Definition decode_phdr (b : list Z) : elf_prog_header := {|
  ph_type := field b 0 4; ph_flags := field b 4 4; ph_off := field b 8 8; ph_vaddr := field b 16 8;
  ph_filesz := field b 32 8; ph_memsz := field b 40 8 |}.

(** [elf_sect_header], 64 bytes. *)
Definition SHDR : Z := 64.
Record elf_sect_header := { sh_name : Z; sh_type : Z; sh_offset : Z; sh_size : Z }.
Definition decode_shdr (b : list Z) : elf_sect_header := {|
  sh_name := field b 0 4; sh_type := field b 4 4; sh_offset := field b 24 8; sh_size := field b 32 8 |}.

(** [elf_symbol], 24 bytes. *)
Definition SYM : Z := 24.
Definition decode_sym (b : list Z) : elf_symbol := {|
  st_name := field b 0 4; st_info := field b 4 1; st_other := field b 5 1; st_shndx := field b 6 2;
  st_value := field b 8 8; Symbol.st_size := field b 16 8 |}.

Definition ELF_MAGIC : Z := 1179403647.
Definition ELF_PROG_LOAD : Z := 1.
Definition SEGMENT_READABLE : Z := 4.
Definition SEGMENT_EXECUTABLE : Z := 1.
Definition SEGMENT_WRITABLE : Z := 2.
Definition SHT_SYMTAB : Z := 2.
Definition SHT_STRTAB : Z := 3.
Definition STT_FUNC : Z := 2.
Definition SEEK_SET : Z := 0.
Definition DEBUG_LINE_SIZE : Z := 16384.

Inductive elf_status := EL_OK | EL_EIO | EL_ENOMEM | EL_NOTELF | EL_ERR.
#[export] Instance elf_status_eq_dec : EqDecision elf_status.
Proof. solve_decision. Defined.

(** [elf_ctx] with the [elf_info] it points to. *)
Record elf_ctx := { info_f : Z; info_p : nat; ehdr : elf_header }.

(** The texts ".strtab" and ".debug_line". *)
Definition STRTAB_NAME : cname := [46; 115; 116; 114; 116; 97; 98].
Definition DEBUG_LINE_NAME : cname := [46; 100; 101; 98; 117; 103; 95; 108; 105; 110; 101].

(** A buffer after [b] was stored at its start. *)
Definition fill (old b : list Z) : list Z := b ++ drop (length b) old.

Section elf.
Context {SYMS : Symbols} {ST : Stale} {HO : Host}.

(** A local variable of [n] bytes before anything is stored in it. *)
Definition stack_buf (n : Z) : list Z := stale_stack <$> seqZ 0 n.

(** * Reading *)

(** The number of bytes read, as [uint64], and the bytes. *)
Definition elf_fpread (f nb offset : Z) : M kern (Z * list Z) :=
  x <- on_fs (get_file f) ;;
  r <- on_fs (vfs_lseek x (i64 offset) SEEK_SET) ;;
  on_fs (put_file f (snd r)) ;;;
  r <- on_fs (vfs_read (snd r) nb) ;;
  let '(n, b, x) := r in
  on_fs (put_file f x) ;;;
  ret (u64 n, b).

(** The header is left as it was when the read is short. *)
Definition elf_init (f : Z) (p : nat) : M kern (elf_status * elf_ctx) :=
  r <- elf_fpread f EHDR 0 ;;
  let ctx := {| info_f := f; info_p := p; ehdr := decode_ehdr (fill (stack_buf EHDR) (snd r)) |} in
  if negb (fst r =? EHDR) then ret (EL_EIO, ctx)
  else if negb (eh_magic (ehdr ctx) =? ELF_MAGIC) then ret (EL_NOTELF, ctx)
  else ret (EL_OK, ctx).

(** * Segments *)

Definition seg_perm : Z := prot_to_type (Z.lor (Z.lor PROT_WRITE PROT_READ) PROT_EXEC) true.

Definition elf_alloc_mb (ctx : elf_ctx) (elf_va size : Z) : M kern Z :=
  kassert (size <? PGSIZE) "size < PGSIZE" ;;;
  pa <- on_pmm alloc_page ;;
  if pa =? 0 then panic "uvmalloc mem alloc falied"
  else
    on_pmm (memset_page pa 0) ;;;
    p <- get_proc (info_p ctx) ;;
    on_pmm (user_vm_map (pagetable p) elf_va PGSIZE pa seg_perm) ;;;
    ret pa.

(** The first entry of [mapped_info] without an address. *)
Fixpoint free_region (l : list mapped_region) : option nat :=
  match l with
  | [] => None
  | r :: l' => if mr_va r =? 0 then Some 0%nat else S <$> free_region l'
  end.

Definition seg_type_of (flags : Z) : option segment_type :=
  if flags =? Z.lor SEGMENT_READABLE SEGMENT_EXECUTABLE then Some CODE_SEGMENT
  else if flags =? Z.lor SEGMENT_READABLE SEGMENT_WRITABLE then Some DATA_SEGMENT
  else None.

(** When every entry is taken the index is one past the array. *)
Definition record_segment (p : nat) (ph : elf_prog_header) : M kern unit :=
  x <- get_proc p ;;
  j <- deref (free_region (mapped_info x)) ;;
  match seg_type_of (ph_flags ph) with
  | None => panic "unknown program segment encountered"
  | Some t =>
      set_proc p (x <| mapped_info := <[j := {| mr_va := ph_vaddr ph; mr_npages := 1; mr_seg_type := t |}]> (mapped_info x) |>
                    <| total_mapped_region := i32 (total_mapped_region x + 1) |>)
  end.

(** One round of the loop of [elf_load]; [None] goes on with the next header.  [buf] is
    the variable [ph_addr]. *)
Definition load_segment (ctx : elf_ctx) (buf : list Z) (off : Z) : M kern (option elf_status * list Z) :=
  r <- elf_fpread (info_f ctx) PHDR (u64 off) ;;
  let buf := fill buf (snd r) in
  if negb (fst r =? PHDR) then ret (Some EL_EIO, buf)
  else
    let ph := decode_phdr buf in
    if negb (ph_type ph =? ELF_PROG_LOAD) then ret (None, buf)
    else if ph_memsz ph <? ph_filesz ph then ret (Some EL_ERR, buf)
    else if u64 (ph_vaddr ph + ph_memsz ph) <? ph_vaddr ph then ret (Some EL_ERR, buf)
    else
      dest <- elf_alloc_mb ctx (ph_vaddr ph) (ph_memsz ph) ;;
      r <- elf_fpread (info_f ctx) (ph_memsz ph) (ph_off ph) ;;
      on_pmm (st_bytes dest (snd r)) ;;;
      if negb (fst r =? ph_memsz ph) then ret (Some EL_EIO, buf)
      else record_segment (info_p ctx) ph ;;; ret (None, buf).

(** [n] headers are left; [off] is an [int]. *)
Fixpoint load_segments (n : nat) (ctx : elf_ctx) (buf : list Z) (off : Z) : M kern elf_status :=
  match n with
  | O => ret EL_OK
  | S n' =>
      r <- load_segment ctx buf off ;;
      match fst r with
      | Some e => ret e
      | None => load_segments n' ctx (snd r) (i32 (off + PHDR))
      end
  end.

Definition elf_load (ctx : elf_ctx) : M kern elf_status :=
  load_segments (Z.to_nat (eh_phnum (ehdr ctx))) ctx (stack_buf PHDR) (i32 (eh_phoff (ehdr ctx))).

(** * Sections *)

Variable fuel : nat.

(** Read a section header; an entry larger than the variable overruns it. *)
Definition read_shdr (ctx : elf_ctx) (buf : list Z) (offset : Z) : M kern (list Z) :=
  if SHDR <? eh_shentsize (ehdr ctx) then fault
  else r <- elf_fpread (info_f ctx) (eh_shentsize (ehdr ctx)) offset ;; ret (fill buf (snd r)).

(** [strcmp(str_table + name, text) == 0]; a name without an end runs off the table. *)
Definition name_is (str_table : list Z) (name : Z) (text : cname) : M kern bool :=
  s <- deref (cstr_bytes (drop (Z.to_nat name) str_table)) ;; ret (bool_decide (s = text)).

(** [elf_fpread] into the array [debug_line] and [make_addr_line] on it.  What lies behind
    the array is not modelled: a section or tables that do not fit are a fault. *)
Definition load_debug_line (ctx : elf_ctx) (sh : elf_sect_header) : M kern unit :=
  r <- elf_fpread (info_f ctx) (sh_size sh) (sh_offset sh) ;;
  (if DEBUG_LINE_SIZE <? Z.of_nat (length (snd r)) then fault else ret tt) ;;;
  on_pmm (st_bytes debug_line (snd r)) ;;;
  k <- gets id ;;
  t <- deref (make_addr_line fuel (pm_mem (k_pmm k)) debug_line (sh_size sh)) ;;
  (if debug_line + DEBUG_LINE_SIZE <? line_tab (snd t) + 24 * line_cnt (snd t) then fault else ret tt) ;;;
  on_pmm (modify (fun s => s <| pm_mem := fst t |>)) ;;;
  mod_proc (info_p ctx) (fun p => p <| line_table := snd t |>).

(** The loop over the sections: the headers of the symbol and of the string table. *)
Fixpoint scan_sections (n : nat) (i : Z) (ctx : elf_ctx) (str_table buf : list Z) (sym str : elf_sect_header)
    : M kern (elf_sect_header * elf_sect_header) :=
  match n with
  | O => ret (sym, str)
  | S n' =>
      buf <- read_shdr ctx buf (u64 (eh_shoff (ehdr ctx) + i * eh_shentsize (ehdr ctx))) ;;
      let sh := decode_shdr buf in
      if sh_type sh =? SHT_SYMTAB then scan_sections n' (i + 1) ctx str_table buf sh str
      else
        s <- (if sh_type sh =? SHT_STRTAB then name_is str_table (sh_name sh) STRTAB_NAME else ret false) ;;
        if s : bool then scan_sections n' (i + 1) ctx str_table buf sym sh
        else
          d <- (if sh_type sh =? 1 then name_is str_table (sh_name sh) DEBUG_LINE_NAME else ret false) ;;
          (if d : bool then load_debug_line ctx sh else ret tt) ;;;
          scan_sections n' (i + 1) ctx str_table buf sym str
  end.

(** The loop over the symbols: functions with a name are entered; the result is their
    number.  A name of 32 bytes or more, or a symbol past the table, overruns an array. *)
Fixpoint scan_symbols (n : nat) (i : Z) (ctx : elf_ctx) (sym str : elf_sect_header) (count : Z) : M kern Z :=
  match n with
  | O => ret count
  | S n' =>
      r <- elf_fpread (info_f ctx) SYM (u64 (sh_offset sym + i * SYM)) ;;
      let s := decode_sym (fill (stack_buf SYM) (snd r)) in
      if negb (st_name s =? 0) && (Z.land (st_info s) 15 =? STT_FUNC) then
        r <- elf_fpread (info_f ctx) 32 (u64 (sh_offset str + st_name s)) ;;
        name <- deref (cstr_bytes (fill (stack_buf 32) (snd r))) ;;
        k <- gets id ;;
        l <- deref (set_index (symtab k) count {| e_sym := s; e_name := name |}) ;;
        modify (fun k => k <| symtab := l |>) ;;;
        scan_symbols n' (i + 1) ctx sym str (count + 1)
      else scan_symbols n' (i + 1) ctx sym str count
  end.

Definition no_section : elf_sect_header := {| sh_name := 0; sh_type := 0; sh_offset := 0; sh_size := 0 |}.

Definition elf_load_info (ctx : elf_ctx) : M kern unit :=
  let e := ehdr ctx in
  buf <- read_shdr ctx (stack_buf SHDR) (u64 (eh_shoff e + eh_shstrndx e * eh_shentsize e)) ;;
  let shstr := decode_shdr buf in
  r <- elf_fpread (info_f ctx) (sh_size shstr) (sh_offset shstr) ;;
  let str_table := fill (stack_buf (sh_size shstr)) (snd r) in
  r <- scan_sections (Z.to_nat (eh_shnum e)) 0 ctx str_table (stack_buf SHDR) no_section no_section ;;
  let '(sym, str) := r in
  count <- scan_symbols (Z.to_nat (sh_size sym / SYM)) 0 ctx sym str 0 ;;
  modify (fun k => k <| sym_count := count |>) ;;;
  k <- gets id ;;
  l <- deref (quickSort (S (length (symtab k))) (symtab k) 0 (count - 1)) ;;
  modify (fun k => k <| symtab := l |>).

(** * The loader *)

(** [IS_ERR_VALUE] *)
Definition IS_ERR_VALUE (x : Z) : bool := 18446744073709547520 <=? u64 x.

(** [vfs_open] returns NULL, which is no error value, when there is no such file. *)
Definition load_bincode_from_host_elf (hart p : nat) (filename : cname) : M kern unit :=
  x <- get_proc p ;;
  k <- gets id ;;
  pf <- deref (pfiles_store (k_fs k) !! pfiles x) ;;
  f <- on_fs (vfs_open filename O_RDONLY (cwd pf)) ;;
  if IS_ERR_VALUE f then panic "Fail on openning the input application program."
  else
    r <- elf_init f p ;;
    let '(st, ctx) := r in
    if negb (bool_decide (st = EL_OK)) then panic "fail to init elfloader."
    else
      st <- elf_load ctx ;;
      if negb (bool_decide (st = EL_OK)) then panic "Fail on loading elf."
      else
        elf_load_info ctx ;;;
        x <- get_proc p ;;
        on_pmm (st64 (trapframe x + TF_epc) (eh_entry (ehdr ctx))) ;;;
        on_pmm (st64 (trapframe x + TF_tp) (Z.of_nat hart)) ;;;
        y <- on_fs (get_file f) ;;
        r <- on_fs (vfs_close y) ;;
        on_fs (put_file f (snd r)).
End elf.
