(* ===== verification/ElfLoad.v ===== *)
(** The loader of kernel/elf.c on a file of the host: what it reads, and what [elf_load]
    makes of the segments of a program. *)

From S2P Require Import Prelude Mem CString Symbol Leb128 PageAlloc Pmm Vmm HashTable SpikeFile FsData Ramdev Hostfs Vfs Kernel Sched Process Elf.

(** * Reading a file of the host *)

Section reading.
Context {SYMS : Symbols} {ST : Stale} {HO : Host}.

(** A file open on the host as descriptor [fd], with the content [img]. *)
Context (fd : Z) (img : list Z).

(** At most [n] bytes of the file from [off] on. *)
Definition image (off n : Z) : list Z := take (Z.to_nat n) (drop (Z.to_nat off) img).

(** The position in the file after the calls of the log. *)
Definition pos_step (pos : Z) (c : host_call) : Z :=
  match c with
  | host_lseek d ptr dir => if d =? fd then (if dir =? 0 then ptr else pos + ptr) else pos
  | host_read d n => if d =? fd then pos + Z.of_nat (length (image pos n)) else pos
  | _ => pos
  end.
Definition file_pos (log : list host_call) : Z := fold_left pos_step log 0.

(** Nothing writes the file or closes it. *)
Definition undisturbed (log : list host_call) : Prop :=
  Forall (fun c => match c with host_write d _ _ | host_close d => d <> fd | _ => True end) log.

(** lseek and read of the host, as POSIX describes them. *)
Record serves : Prop := {
  serves_set log ptr : undisturbed log -> 0 <= ptr < 2 ^ 63 -> host_reply log (host_lseek fd ptr 0) = (ptr, []);
  serves_cur log : undisturbed log -> host_reply log (host_lseek fd 0 1) = (file_pos log, []);
  serves_read log n : undisturbed log -> 0 <= n ->
    host_reply log (host_read fd n) =
      (Z.of_nat (length (image (file_pos log) n)), image (file_pos log) n);
}.

(** The kernel has the file open at [f]. *)
Definition reads (s : fs pmm) (f : Z) : Prop :=
  exists x d v h e, files s !! f = Some x /\ f_readable x <> 0 /\
    dentries s !! f_dentry x = Some d /\ vinodes s !! dentry_inode d = Some v /\
    i_type v = FILE_I /\ i_ops v = hostfs_i_ops /\ i_fs_info v = Z.of_nat h + 1 /\
    spike_files (fs_host s) !! h = Some e /\ kfd e = fd /\ undisturbed (host_log (fs_host s)).

(** The state after reading: the open file and the host have moved. *)
Definition io_state (f : Z) (x : file) (h : host) (s : fs pmm) : fs pmm :=
  s <| files := <[f := x]> (files s) |> <| fs_host := h |>.

Context (SV : serves).

Lemma undisturbed_snoc log c :
  undisturbed log -> match c with host_write _ _ _ | host_close _ => False | _ => True end -> undisturbed (log ++ [c]).
Proof. intros H Hc. apply Forall_app. split; [done|]. apply Forall_singleton. by destruct c. Qed.

Lemma file_pos_snoc log c : file_pos (log ++ [c]) = pos_step (file_pos log) c.
Proof. unfold file_pos. by rewrite fold_left_app. Qed.

(** A call of the host is entered in its log. *)
Definition log_call (c : host_call) (s : fs pmm) : fs pmm :=
  s <| fs_host := (fs_host s) <| host_log := host_log (fs_host s) ++ [c] |> |>.

Lemma on_host_lseek s h e ptr dir :
  spike_files (fs_host s) !! h = Some e ->
  let c := host_lseek (kfd e) ptr dir in
  on_host (spike_file_lseek (Z.of_nat h + 1) ptr dir) s = Ret (fst (host_reply (host_log (fs_host s)) c)) (log_call c s).
Proof. intros He c. unfold on_host, zoom, spike_file_lseek, bind. by rewrite (get_spike_eq _ _ _ He). Qed.

Lemma on_host_read s h e n :
  spike_files (fs_host s) !! h = Some e ->
  let c := host_read (kfd e) n in
  on_host (spike_file_read (Z.of_nat h + 1) n) s = Ret (host_reply (host_log (fs_host s)) c) (log_call c s).
Proof. intros He c. unfold on_host, zoom, spike_file_read, bind. by rewrite (get_spike_eq _ _ _ He). Qed.

(** The objects behind an open file of the host. *)
Record opened (s : fs pmm) (x : file) (h : nat) : Prop := {
  op_readable : f_readable x <> 0;
  op_objects : exists d v, dentries s !! f_dentry x = Some d /\ vinodes s !! dentry_inode d = Some v /\
    i_type v = FILE_I /\ i_ops v = hostfs_i_ops /\ i_fs_info v = Z.of_nat h + 1;
  op_spike : exists e, spike_files (fs_host s) !! h = Some e /\ kfd e = fd;
  op_log : undisturbed (host_log (fs_host s));
}.

Lemma opened_call s x h c : opened s x h ->
  match c with host_write _ _ _ | host_close _ => False | _ => True end -> opened (log_call c s) x h.
Proof. intros [H1 H2 H3 H4] Hc. split; [done|done|done|]. by apply undisturbed_snoc. Qed.

Lemma opened_ext s s' x h :
  dentries s' = dentries s -> vinodes s' = vinodes s -> fs_host s' = fs_host s -> opened s x h -> opened s' x h.
Proof. intros E1 E2 E3 [H1 H2 H3 H4]. split; rewrite ?E1, ?E2, ?E3; done. Qed.

Lemma opened_offset s x h o : opened s x h -> opened s (x <| f_offset := o |>) h.
Proof. by intros [H1 H2 H3 H4]. Qed.

Lemma vfs_lseek_run s x h off :
  opened s x h -> 0 <= off < 2 ^ 63 ->
  exists n, vfs_lseek x off SEEK_SET s = Ret (n, x <| f_offset := i32 off |>) (log_call (host_lseek fd off 0) s).
Proof.
  intros [_ (d & v & Hd & Hv & Ht & Ho & Hi) (e & He & Hk) Hu] Hoff. unfold vfs_lseek, file_inode, viop_lseek, ops_of, hostfs_lseek.
  rewrite (bind_ret_eq (bind _ _) _ s (dentry_inode d) s) by (by step (get_dentry_eq s _ d Hd)).
  step (get_vinode_eq s _ v Hv). rewrite Ht. change (FILE_I =? FILE_I) with true. cbn [negb].
  rewrite (bind_ret_eq (bind (bind _ _) _) _ s (if 0 <=? i32 off then 0 else -1, i32 off) (log_call (host_lseek fd off 0) s)).
  { cbn [snd]. eexists. done. }
  rewrite (bind_ret_eq (bind _ _) _ s hostfs_i_ops s) by (step (get_vinode_eq s _ v Hv); by rewrite Ho).
  step (get_vinode_eq s _ v Hv). rewrite Hi, (u64_small off) by lia.
  step (on_host_lseek s h e off SEEK_SET He). rewrite Hk, (serves_set SV) by done. done.
Qed.

Lemma vfs_read_run s x h n :
  opened s x h -> 0 <= n < 2147483648 ->
  let b := image (file_pos (host_log (fs_host s))) n in
  exists o, vfs_read x n s = Ret (Z.of_nat (length b), b, x <| f_offset := o |>)
    (log_call (host_lseek fd 0 1) (log_call (host_read fd n) s)).
Proof.
  intros [Hr (d & v & Hd & Hv & Ht & Ho & Hi) (e & He & Hk) Hu] Hn b. unfold vfs_read, file_inode, viop_read, ops_of, hostfs_read.
  apply Z.eqb_neq in Hr. rewrite Hr.
  rewrite (bind_ret_eq (bind _ _) _ s (dentry_inode d) s) by (by step (get_dentry_eq s _ d Hd)).
  step (get_vinode_eq s _ v Hv). rewrite Ht. change (FILE_I =? FILE_I) with true. cbn [negb].
  assert (length b <= Z.to_nat n)%nat as Hb by (unfold b, image; rewrite length_take; lia).
  set (s1 := log_call (host_read fd n) s). set (s2 := log_call (host_lseek fd 0 1) s1).
  assert (i64 n = n) as En by (unfold i64; zdiv).
  rewrite (bind_ret_eq (bind (bind _ _) _) _ s (b, Z.of_nat (length b), i32 (file_pos (host_log (fs_host s1)))) s2).
  { eexists. done. }
  rewrite (bind_ret_eq (bind _ _) _ s hostfs_i_ops s) by (step (get_vinode_eq s _ v Hv); by rewrite Ho).
  step (get_vinode_eq s _ v Hv). rewrite Hi, En.
  step (on_host_read s h e n He). rewrite Hk, (serves_read SV) by (done || lia). fold b s1.
  step (on_host_lseek s1 h e 0 1 He). rewrite Hk, (serves_cur SV) by (by apply undisturbed_snoc). fold s2. cbn [fst snd].
  unfold ret. do 3 f_equal. apply i32_small. lia.
Qed.

Lemma opened_reads s f x h : files s !! f = Some x -> opened s x h -> reads s f.
Proof. intros Hx [H1 (d & v & H2 & H3 & H4 & H5 & H6) (e & H7 & H8) H9]. by exists x, d, v, h, e. Qed.

Lemma on_fs_eq {B} (c : M (fs pmm) B) k s b s' :
  k_fs k = s -> c s = Ret b s' -> on_fs c k = Ret b (k <| k_fs := s' |>).
Proof. intros <- E. unfold on_fs, zoom. by rewrite E. Qed.

Lemma on_fs_same {B} (c : M (fs pmm) B) k b : c (k_fs k) = Ret b (k_fs k) -> on_fs c k = Ret b k.
Proof. intros E. unfold on_fs, zoom. rewrite E. by destruct k. Qed.

Lemma elf_fpread_run k f n off :
  reads (k_fs k) f -> 0 <= n < 2147483648 -> 0 <= off < 2 ^ 63 ->
  exists x h, elf_fpread f n off k =
      Ret (Z.of_nat (length (image off n)), image off n) (k <| k_fs := io_state f x h (k_fs k) |>) /\
    reads (io_state f x h (k_fs k)) f.
Proof.
  intros (x & d & v & h & e & Hx & Hr & Hd & Hv & Ht & Ho & Hi & He & Hk & Hu) Hn Hoff.
  assert (opened (k_fs k) x h) as Hop by (split; eauto 10). set (s := k_fs k) in *.
  destruct (vfs_lseek_run s x h off Hop Hoff) as (m & E1). set (x1 := x <| f_offset := i32 off |>) in E1.
  set (s1 := log_call (host_lseek fd off 0) s) in E1. set (s2 := s1 <| files := <[f := x1]> (files s1) |>).
  assert (opened s2 x1 h) as Hop2 by (apply (opened_ext s1); try done; by apply (opened_offset s1), opened_call).
  destruct (vfs_read_run s2 x1 h n Hop2 Hn) as (o & E2). set (x2 := x1 <| f_offset := o |>) in E2.
  set (s3 := log_call _ (log_call _ s2)) in E2.
  assert (file_pos (host_log (fs_host s2)) = off) as P.
  { change (host_log (fs_host s2)) with (host_log (fs_host s) ++ [host_lseek fd off 0]).
    rewrite file_pos_snoc. cbn. by rewrite Z.eqb_refl. }
  rewrite P in E2.
  assert (s3 <| files := <[f := x2]> (files s3) |> = io_state f x2 (fs_host s3) s) as E4
    by (unfold io_state, upd, eta_fs; cbn; by rewrite insert_insert_eq).
  exists x2, (fs_host s3). split.
  - unfold elf_fpread. step (on_fs_same (get_file f) k x (get_file_eq s f x Hx)).
    replace (i64 off) with off by (unfold i64; zdiv).
    step (on_fs_eq (vfs_lseek x off SEEK_SET) k s _ s1 eq_refl E1). cbn [snd].
    step (on_fs_eq (put_file f x1) (k <| k_fs := s1 |>) s1 tt s2 eq_refl eq_refl).
    step (on_fs_eq (vfs_read x1 n) (k <| k_fs := s1 |> <| k_fs := s2 |>) s2 _ s3 eq_refl E2).
    step (on_fs_eq (put_file f x2) (k <| k_fs := s1 |> <| k_fs := s2 |> <| k_fs := s3 |>) s3 tt _ eq_refl eq_refl).
    rewrite E4, u64_small; [done|]. unfold image. rewrite length_take. lia.
  - apply (opened_reads _ f x2 h); [cbn; by rewrite lookup_insert_eq|]. rewrite <- E4.
    apply (opened_ext s3); try done. apply (opened_offset s3 x1 h). by repeat apply opened_call.
Qed.

(** * One segment *)

(** Byte [i] of the file. *)
Definition img_byte (i : Z) : Z := u8 (default 0 (at_index img i)).

Record seg_ok (ph : elf_prog_header) : Prop := {
  so_type : ph_type ph = ELF_PROG_LOAD;
  so_size : ph_filesz ph <= ph_memsz ph < PGSIZE /\ 0 <= ph_memsz ph;
  so_addr : 0 < ph_vaddr ph /\ ph_vaddr ph mod PGSIZE = 0 /\ ph_vaddr ph + PGSIZE <= MAXVA;
  so_file : 0 <= ph_off ph < 2 ^ 63 /\ ph_off ph + ph_memsz ph <= Z.of_nat (length img);
  so_flags : is_Some (seg_type_of (ph_flags ph));
}.

(** The segment is in the address space: one page, mapped at its address, that holds the
    [memsz] bytes of the file and zeros behind them. *)
Definition seg_loaded (s : pmm) (fl : list Z) (root : Z) (own : gmap Z node) (ph : elf_prog_header) : Prop :=
  exists page, data_page s fl own page /\
    (forall va, 0 <= va < MAXVA -> va / PGSIZE = ph_vaddr ph / PGSIZE ->
       entry 2 (pm_mem s) root va = map_entry page seg_perm) /\
    forall o, 0 <= o < PGSIZE ->
      load8 (pm_mem s) (page + o) = if o <? ph_memsz ph then img_byte (ph_off ph + o) else 0.

(** The tables and the allocator of a process that is being loaded, with [n] pages free
    and room for their owners in [ref_list]. *)
Definition space (n : nat) (s : pmm) (fl : list Z) (top root : Z) (own : gmap Z node) : Prop :=
  pmm_inv s fl top /\ pt_wf s root own /\ (n <= length fl)%nat /\
  ref_total (ref_list s) + Z.of_nat n <= REF_LIST_SIZE.

Lemma seg_perm_range : 0 <= seg_perm < 1024.
Proof. by vm_compute. Qed.

Lemma image_lookup off n i : 0 <= off -> 0 <= i < n -> off + n <= Z.of_nat (length img) ->
  image off n !! Z.to_nat i = at_index img (off + i).
Proof.
  intros. unfold image. rewrite lookup_take_lt by lia. rewrite lookup_drop, at_index_nat by lia. f_equal. lia.
Qed.

Lemma length_image off n : 0 <= off -> 0 <= n -> off + n <= Z.of_nat (length img) -> length (image off n) = Z.to_nat n.
Proof. intros. unfold image. rewrite length_take, length_drop. lia. Qed.

Lemma reads_pages s f a : reads s f -> reads (s <| fs_pages := a |>) f.
Proof. intros H. exact H. Qed.

(** The bytes of the segment in its page. *)
Lemma segment_bytes m page ph :
  seg_ok ph -> (forall o, 0 <= o < PGSIZE -> load8 m (page + o) = 0) ->
  forall o, 0 <= o < PGSIZE ->
    load8 (store_bytes m page (image (ph_off ph) (ph_memsz ph))) (page + o) =
      if o <? ph_memsz ph then img_byte (ph_off ph + o) else 0.
Proof.
  intros [_ [Hsz Hsz0] _ [Ho Hf] _] Hz o Hoo. pose proof (length_image (ph_off ph) (ph_memsz ph)) as Hl.
  destruct (Z.ltb_spec o (ph_memsz ph)).
  - destruct (at_index_is_Some img (ph_off ph + o)) as [c Hc]; [lia|].
    pose proof (image_lookup (ph_off ph) (ph_memsz ph) o) as Hi. rewrite Hc in Hi.
    rewrite <- (Z2Nat.id o) at 1 by lia. rewrite (load8_store_bytes _ _ _ _ c) by (apply Hi; lia).
    unfold img_byte. by rewrite Hc.
  - rewrite store_bytes_unchanged by (rewrite Hl by lia; lia). by apply Hz.
Qed.

Lemma elf_alloc_mb_run n k ctx x page fl top own va size :
  procs k !! info_p ctx = Some x -> space (3 + n) (k_pmm k) (page :: fl) top (pagetable x) own ->
  0 <= size < PGSIZE -> 0 <= va -> va mod PGSIZE = 0 -> va + PGSIZE <= MAXVA ->
  (forall va', va <= va' < va + PGSIZE -> has (entry 2 (pm_mem (k_pmm k)) (pagetable x) va') PTE_V = false) ->
  exists s fl' own', elf_alloc_mb ctx va size k = Ret page (set_pmm s k) /\
    space n s fl' top (pagetable x) own' /\ data_page s fl' own' page /\
    (forall o, 0 <= o < PGSIZE -> load8 (pm_mem s) (page + o) = 0) /\
    (forall va', 0 <= va' < MAXVA -> entry 2 (pm_mem s) (pagetable x) va' =
       if va' / PGSIZE =? va / PGSIZE then map_entry page seg_perm else entry 2 (pm_mem (k_pmm k)) (pagetable x) va') /\
    (forall q, data_page (k_pmm k) (page :: fl) own q -> data_page s fl' own' q /\
       forall o, 0 <= o < PGSIZE -> load8 (pm_mem s) (q + o) = load8 (pm_mem (k_pmm k)) (q + o)).
Proof.
  intros Hx (Hi & Hw & Hfl & Hroom) Hsz Hva Hal Hmax Hfree. cbn [length] in Hfl.
  destruct (map_new_page seg_perm (k_pmm k) page fl top (pagetable x) own va seg_perm_range Hi Hw Hva Hal Hmax Hfree
    ltac:(lia) ltac:(lia))
    as (s1 & s2 & s3 & fl' & own' & E1 & E2 & E3 & Hi3 & Hw3 & Hd3 & _ & He & Hz & Hq & Hl & Hr).
  exists s3, fl', own'. split; [|unfold space; split_and!; done || lia].
  unfold elf_alloc_mb. replace (size <? PGSIZE) with true by lia.
  step (eq_refl : kassert true "size < PGSIZE" k = Ret tt k).
  step (zoom_ret_eq k_pmm set_pmm alloc_page k page s1 E1).
  assert (page <> 0) as Hne%Z.eqb_neq.
  { destruct (is_page_dram (k_pmm k) page) as [Hd _]; [apply Hi|apply Hi|apply (inv_pages _ _ _ Hi); set_solver|].
    unfold DRAM_BASE in Hd. lia. }
  rewrite Hne. step (zoom_ret_eq k_pmm set_pmm (memset_page page 0) (set_pmm s1 k) tt s2 E2).
  step (get_proc_eq (set_pmm s2 (set_pmm s1 k)) (info_p ctx) x Hx).
  step (zoom_ret_eq k_pmm set_pmm (user_vm_map (pagetable x) va PGSIZE page seg_perm) (set_pmm s2 (set_pmm s1 k)) tt s3 E3).
  done.
Qed.

(** The process after a segment: one more region. *)
Definition with_region (j : nat) (ph : elf_prog_header) (x : process) : process :=
  x <| mapped_info := <[j := {| mr_va := ph_vaddr ph; mr_npages := 1;
         mr_seg_type := default CODE_SEGMENT (seg_type_of (ph_flags ph)) |}]> (mapped_info x) |>
    <| total_mapped_region := i32 (total_mapped_region x + 1) |>.

(** [k'] is [k] with another file system, which has the file open, and another process. *)
Definition loading (k k' : kern) (f : Z) (i : nat) (x' : process) : Prop :=
  k' = k <| k_fs := k_fs k' |> <| procs := <[i := x']> (procs k) |> /\ reads (k_fs k') f.

Lemma record_segment_run k i x ph j :
  procs k !! i = Some x -> free_region (mapped_info x) = Some j -> is_Some (seg_type_of (ph_flags ph)) ->
  record_segment i ph k = Ret tt (k <| procs := <[i := with_region j ph x]> (procs k) |>).
Proof.
  intros Hx Hj [t Ht]. unfold record_segment. step (get_proc_eq k i x Hx). rewrite Hj.
  step (eq_refl : deref (Some j) k = Ret j k). rewrite Ht. unfold with_region. by rewrite Ht.
Qed.

Lemma load_segment_run n k ctx buf off x page fl top own ph j :
  let f := info_f ctx in let i := info_p ctx in
  reads (k_fs k) f -> procs k !! i = Some x -> space (3 + n) (k_pmm k) (page :: fl) top (pagetable x) own ->
  length buf = 56%nat -> 0 <= off -> off + PHDR <= Z.of_nat (length img) -> off < 2147483648 ->
  decode_phdr (image off PHDR) = ph -> seg_ok ph -> free_region (mapped_info x) = Some j ->
  (forall va', ph_vaddr ph <= va' < ph_vaddr ph + PGSIZE ->
     has (entry 2 (pm_mem (k_pmm k)) (pagetable x) va') PTE_V = false) ->
  exists k' fl' own', load_segment ctx buf off k = Ret (None, image off PHDR) k' /\
    loading k k' f i (with_region j ph x) /\ space n (k_pmm k') fl' top (pagetable x) own' /\
    seg_loaded (k_pmm k') fl' (pagetable x) own' ph /\
    (forall va', 0 <= va' < MAXVA -> va' / PGSIZE <> ph_vaddr ph / PGSIZE ->
       entry 2 (pm_mem (k_pmm k')) (pagetable x) va' = entry 2 (pm_mem (k_pmm k)) (pagetable x) va') /\
    (forall q, data_page (k_pmm k) (page :: fl) own q -> data_page (k_pmm k') fl' own' q /\
       forall o, 0 <= o < PGSIZE -> load8 (pm_mem (k_pmm k')) (q + o) = load8 (pm_mem (k_pmm k)) (q + o)).
Proof.
  intros f i Hf Hx Hsp Hbuf Hoff Hend Hoff' Hph Hok Hj Hfree. pose proof Hok as [Ht [Hsz Hsz0] [Hva [Hal Hmax]] [Ho Hfile] Hflags].
  destruct (elf_fpread_run k f PHDR off Hf ltac:(unfold PHDR; lia) ltac:(lia)) as (x1 & h1 & E1 & Hf1).
  rewrite (length_image off PHDR) in E1 by (unfold PHDR in *; lia). set (k1 := k <| k_fs := _ |>) in *.
  assert (fill buf (image off PHDR) = image off PHDR) as Ebuf.
  { unfold fill. rewrite drop_ge, app_nil_r; [done|]. rewrite length_image; unfold PHDR in *; lia. }
  destruct (elf_alloc_mb_run n k1 ctx x page fl top own (ph_vaddr ph) (ph_memsz ph) Hx Hsp)
    as (s & fl' & own' & E2 & Hsp' & Hd & Hz & He & Hq); [lia|lia|done|done|done|].
  set (k2 := set_pmm s k1) in *.
  destruct (elf_fpread_run k2 f (ph_memsz ph) (ph_off ph)) as (x3 & h3 & E3 & Hf3);
    [exact (reads_pages _ f s Hf1)|unfold PGSIZE in *; lia|lia|]. set (k3 := k2 <| k_fs := _ |>) in *.
  set (b := image (ph_off ph) (ph_memsz ph)) in *.
  assert (length b = Z.to_nat (ph_memsz ph)) as Hb by (apply length_image; lia). rewrite Hb, Z2Nat.id in E3 by lia.
  set (m' := store_bytes (pm_mem s) page b). set (s4 := s <| pm_mem := m' |>).
  destruct Hsp' as (Hi' & Hw' & Hr').
  assert (unchanged_outside page (page + PGSIZE) (pm_mem s) m') as Hm'
    by (eapply unchanged_mono; [..|apply store_bytes_unchanged]; lia).
  assert (on_pmm (st_bytes page b) k3 = Ret tt (set_pmm s4 k3)) as E4.
  { apply (zoom_ret_eq k_pmm set_pmm). unfold st_bytes. change (k_pmm k3) with s.
    rewrite (in_dram_page s page page); [done|apply Hi'|apply Hi'|apply Hd|lia|lia]. }
  destruct (data_write s fl' top (pagetable x) own' page m' Hi' Hw' Hd Hm') as (Hi4 & Hw4 & Hd4 & He4). fold s4 in Hi4, Hw4, Hd4.
  set (k4 := set_pmm s4 k3) in *.
  assert (procs k4 !! i = Some x) as Hx4 by exact Hx.
  pose proof (record_segment_run k4 i x ph j Hx4 Hj Hflags) as E5. set (k5 := k4 <| procs := _ |>) in *.
  exists k5, fl', own'. split.
  { unfold load_segment. fold f. rewrite (u64_small off) by lia. step E1. cbn [fst snd]. rewrite Ebuf, Hph.
    change (Z.of_nat (Z.to_nat PHDR) =? PHDR) with true. cbn [negb]. rewrite Ht. change (ELF_PROG_LOAD =? ELF_PROG_LOAD) with true.
    cbn [negb]. replace (ph_memsz ph <? ph_filesz ph) with false by lia.
    rewrite u64_small by (change MAXVA with 274877906944 in *; unfold PGSIZE in *; lia).
    replace (ph_vaddr ph + ph_memsz ph <? ph_vaddr ph) with false by lia.
    step E2. fold f. step E3. cbn [fst snd]. step E4. rewrite Z.eqb_refl. cbn [negb]. fold i. step E5. done. }
  split; [split; [done|exact Hf3]|]. split; [split; [exact Hi4|split; [exact Hw4|exact Hr']]|]. split_and!.
  - exists page. split_and!; [exact Hd4| |].
    + intros va Hv Ev. change (pm_mem (k_pmm k5)) with m'. rewrite He4, He by done. by rewrite (proj2 (Z.eqb_eq _ _) Ev).
    + intros o Hoo. change (pm_mem (k_pmm k5)) with m'. by apply segment_bytes.
  - intros va Hv Ev. change (pm_mem (k_pmm k5)) with m'. rewrite He4, He by done. by rewrite (proj2 (Z.eqb_neq _ _) Ev).
  - intros q Hdq. destruct (Hq q Hdq) as [Hdq' Hqb]. split; [destruct Hdq'; by split|]. intros o Hoo.
    change (pm_mem (k_pmm k5)) with m'. rewrite Hm'; [by apply Hqb|].
    destruct (pages_disjoint q page) as [?|?]; [apply Hdq'|apply Hd| |unfold PGSIZE in *; lia..].
    intros ->. apply (dp_used _ _ _ _ Hdq). set_solver.
Qed.

Lemma load_segment_skip k ctx buf off :
  reads (k_fs k) (info_f ctx) -> length buf = 56%nat -> 0 <= off -> off + PHDR <= Z.of_nat (length img) ->
  off < 2147483648 -> ph_type (decode_phdr (image off PHDR)) <> ELF_PROG_LOAD ->
  exists x h, let k' := k <| k_fs := io_state (info_f ctx) x h (k_fs k) |> in
    load_segment ctx buf off k = Ret (None, image off PHDR) k' /\ reads (k_fs k') (info_f ctx).
Proof.
  intros Hf Hbuf Hoff Hend Hoff' Ht. unfold PHDR in *.
  destruct (elf_fpread_run k (info_f ctx) 56 off Hf) as (x & h & E & Hf1); [lia|lia|]. exists x, h. split; [|done].
  rewrite length_image in E by lia. unfold load_segment. rewrite u64_small by lia. unfold PHDR. step E. cbn [fst snd].
  assert (fill buf (image off 56) = image off 56) as ->.
  { unfold fill. rewrite drop_ge, app_nil_r; [done|]. rewrite length_image; lia. }
  change (Z.of_nat (Z.to_nat 56) =? 56) with true. cbn [negb]. apply Z.eqb_neq in Ht. by rewrite Ht.
Qed.

(** * All segments *)

(** The program headers from [off] on. *)
Fixpoint phdrs (n : nat) (off : Z) : list elf_prog_header :=
  match n with O => [] | S n' => decode_phdr (image off PHDR) :: phdrs n' (off + PHDR) end.

Definition is_load (ph : elf_prog_header) : Prop := ph_type ph = ELF_PROG_LOAD.
#[local] Instance is_load_dec ph : Decision (is_load ph) := decide (ph_type ph = ELF_PROG_LOAD).

(** The page number of a segment. *)
Definition seg_page (ph : elf_prog_header) : Z := ph_vaddr ph / PGSIZE.

Definition region_of (ph : elf_prog_header) : mapped_region :=
  {| mr_va := ph_vaddr ph; mr_npages := 1; mr_seg_type := default CODE_SEGMENT (seg_type_of (ph_flags ph)) |}.

Lemma free_region_first regs m :
  Forall (fun r => mr_va r <> 0) regs -> free_region (regs ++ replicate (S m) blank_region) = Some (length regs).
Proof.
  induction 1 as [|r regs Hr _ IH]; [done|]. cbn [app free_region length]. apply Z.eqb_neq in Hr. rewrite Hr.
  cbn [replicate] in IH. cbn [replicate]. by rewrite IH.
Qed.

Lemma seg_loaded_keep s s' fl fl' root own own' ph :
  (forall q, data_page s fl own q -> data_page s' fl' own' q /\
     forall o, 0 <= o < PGSIZE -> load8 (pm_mem s') (q + o) = load8 (pm_mem s) (q + o)) ->
  (forall va, 0 <= va < MAXVA -> va / PGSIZE = seg_page ph -> entry 2 (pm_mem s') root va = entry 2 (pm_mem s) root va) ->
  seg_loaded s fl root own ph -> seg_loaded s' fl' root own' ph.
Proof.
  intros Hq He (page & Hd & Hen & Hb). destruct (Hq page Hd) as [Hd' Hb'].
  exists page. split_and!; [done| |].
  - intros va Hv Ev. rewrite He by done. by apply Hen.
  - intros o Ho. rewrite Hb' by done. by apply Hb.
Qed.

(** What a process looks like after its segments were loaded. *)
Record loaded (k k' : kern) (f : Z) (i : nat) (x x' : process) (top : Z) (fl' : list Z) (own' : gmap Z node)
    (segs : list elf_prog_header) : Prop := {
  ld_state : loading k k' f i x';
  ld_root : pagetable x' = pagetable x;
  ld_rest : x' = x <| mapped_info := mapped_info x' |> <| total_mapped_region := total_mapped_region x' |>;
  ld_space : space 0 (k_pmm k') fl' top (pagetable x) own';
  ld_entry va : 0 <= va < MAXVA -> Forall (fun ph => seg_page ph <> va / PGSIZE) segs ->
    entry 2 (pm_mem (k_pmm k')) (pagetable x) va = entry 2 (pm_mem (k_pmm k)) (pagetable x) va;
}.

Lemma loading_trans k k1 k2 f i x1 x2 : loading k k1 f i x1 -> loading k1 k2 f i x2 -> loading k k2 f i x2.
Proof.
  intros [E1 _] [E2 Hf]. split; [|done]. rewrite E2. rewrite E1. cbn. unfold upd, eta_kern. cbn. by rewrite list_insert_insert_eq.
Qed.

Lemma seg_page_range ph va : seg_ok ph -> va / PGSIZE = seg_page ph -> 0 <= va < MAXVA.
Proof.
  intros [_ _ (H1 & H2 & H3) _ _] E. unfold seg_page in E. change MAXVA with 274877906944 in *. unfold PGSIZE in *. zdiv.
Qed.

Lemma add_region regs m ph :
  <[length regs := region_of ph]> (regs ++ replicate (S m) blank_region) = (regs ++ [region_of ph]) ++ replicate m blank_region.
Proof. rewrite insert_app_r_alt, Nat.sub_diag by lia. cbn. by rewrite <- app_assoc. Qed.

(** Loading [ph] maps no page of other segments and keeps what was loaded before. *)
Lemma unmapped_step (e e' : Z -> Z) ph segs :
  (forall va, 0 <= va < MAXVA -> va / PGSIZE <> seg_page ph -> e' va = e va) ->
  Forall seg_ok segs -> seg_page ph ∉ (seg_page <$> segs) ->
  Forall (fun ph => forall va, va / PGSIZE = seg_page ph -> has (e va) PTE_V = false) segs ->
  Forall (fun ph => forall va, va / PGSIZE = seg_page ph -> has (e' va) PTE_V = false) segs.
Proof.
  intros He Hok Hni H. rewrite !Forall_forall in *. intros ph' Hin va Hva.
  rewrite He; [by apply (H ph')|by apply (seg_page_range ph'); [apply Hok|]|].
  rewrite Hva. intros Eq. apply Hni. rewrite <- Eq. by apply list_elem_of_fmap_2.
Qed.

Lemma kept_step s s' fl fl' root own own' ph old :
  (forall q, data_page s fl own q -> data_page s' fl' own' q /\
     forall o, 0 <= o < PGSIZE -> load8 (pm_mem s') (q + o) = load8 (pm_mem s) (q + o)) ->
  (forall va, 0 <= va < MAXVA -> va / PGSIZE <> seg_page ph -> entry 2 (pm_mem s') root va = entry 2 (pm_mem s) root va) ->
  seg_page ph ∉ (seg_page <$> old) -> Forall (seg_loaded s fl root own) old -> Forall (seg_loaded s' fl' root own') old.
Proof.
  intros Hq He Hni H. rewrite !Forall_forall in *. intros ph' Hin.
  apply (seg_loaded_keep s s' fl fl' root own own'); [done| |by apply H].
  intros va Hv Ev. apply He; [done|]. rewrite Ev. intros Eq. apply Hni. rewrite <- Eq. by apply list_elem_of_fmap_2.
Qed.

Lemma load_segments_run n : forall k ctx buf off x fl top own old regs m,
  let f := info_f ctx in let i := info_p ctx in
  let segs := filter is_load (phdrs n off) in
  reads (k_fs k) f -> procs k !! i = Some x -> space (3 * length segs) (k_pmm k) fl top (pagetable x) own ->
  length buf = 56%nat -> 0 <= off -> off + PHDR * Z.of_nat n <= Z.of_nat (length img) -> Z.of_nat (length img) < 2147483648 ->
  Forall seg_ok segs -> NoDup (seg_page <$> old ++ segs) ->
  mapped_info x = regs ++ replicate (length segs + m) blank_region -> Forall (fun r => mr_va r <> 0) regs ->
  Forall (fun ph => forall va, va / PGSIZE = seg_page ph ->
    has (entry 2 (pm_mem (k_pmm k)) (pagetable x) va) PTE_V = false) segs ->
  Forall (seg_loaded (k_pmm k) fl (pagetable x) own) old ->
  exists k' x' fl' own', load_segments n ctx buf off k = Ret EL_OK k' /\
    loaded k k' f i x x' top fl' own' segs /\
    Forall (seg_loaded (k_pmm k') fl' (pagetable x) own') (old ++ segs) /\
    mapped_info x' = regs ++ (region_of <$> segs) ++ replicate m blank_region.
Proof.
  induction n as [|n IH]; intros k ctx buf off x fl top own old regs m f i segs Hf Hx Hsp Hbuf Hoff Hend Himg Hok Hnd Hmi Hregs Hfree Hold.
  - exists k, x, fl, own. cbn in *. subst segs. rewrite app_nil_r. split_and!; [done| |done|done].
    split; [split; [|done]|done| |done|done]; [|by destruct x]. rewrite list_insert_id by done. by destruct k.
  - cbn [load_segments]. cbn [phdrs] in segs. set (ph := decode_phdr (image off PHDR)) in *.
    assert (i32 (off + PHDR) = off + PHDR) as Ei by (apply i32_small; unfold PHDR in *; lia).
    assert (length (image off PHDR) = 56%nat) as Lb by (rewrite length_image; unfold PHDR in *; lia).
    destruct (decide (is_load ph)) as [Hl|Hl].
    + assert (segs = ph :: filter is_load (phdrs n (off + PHDR))) as Es by (apply (filter_cons_True is_load); done).
      clearbody segs. subst segs. set (segs := filter is_load (phdrs n (off + PHDR))) in *. cbn [length] in Hsp, Hmi.
      destruct fl as [|page fl]; [destruct Hsp as (_ & _ & Hfl & _); cbn in Hfl; lia|].
      replace (3 * S (length segs))%nat with (3 + 3 * length segs)%nat in Hsp by lia.
      apply Forall_cons in Hok as [Hok1 Hok]. apply Forall_cons in Hfree as [Hfree1 Hfree].
      assert (free_region (mapped_info x) = Some (length regs)) as Hj by (rewrite Hmi; by apply free_region_first).
      destruct (load_segment_run _ k ctx buf off x page fl top own ph (length regs) Hf Hx Hsp Hbuf) as
        (k1 & fl1 & own1 & E1 & Hld & Hsp1 & Hseg & Hent & Hpg); [done|unfold PHDR in *; lia..|done|done|done| |].
      { intros va Hva. apply Hfree1. destruct Hok1 as [_ _ (_ & Hal & _) _ _]. unfold seg_page, PGSIZE in *. zdiv. }
      step E1. cbn [fst snd]. rewrite Ei. set (x1 := with_region (length regs) ph x) in *. fold f i in Hld.
      assert (seg_page ph ∉ (seg_page <$> segs) /\ seg_page ph ∉ (seg_page <$> old)) as [Hni1 Hni2].
      { rewrite fmap_app in Hnd. apply NoDup_app in Hnd as (_ & Hd & Hnd). cbn in Hnd. apply NoDup_cons in Hnd as [Hnd _].
        split; [done|]. intros Hin. apply (Hd _ Hin). cbn. left. }
      destruct (IH k1 ctx (image off PHDR) (off + PHDR) x1 fl1 top own1 (old ++ [ph]) (regs ++ [region_of ph]) m)
        as (k' & x' & fl' & own' & E & [Hs Hr Hrest Hsp' Hent'] & Hall & Hmi').
      all: try fold segs; try done.
      * apply Hld.
      * destruct Hld as [-> _]. cbn. apply list_lookup_insert_eq. by eapply lookup_lt_Some.
      * unfold PHDR in *; lia.
      * unfold PHDR in *; lia.
      * by rewrite <- app_assoc.
      * change (mapped_info x1) with (<[length regs := region_of ph]> (mapped_info x)). rewrite Hmi. apply add_region.
      * apply Forall_app. split; [done|]. apply Forall_singleton. change (ph_vaddr ph <> 0). pose proof (so_addr _ Hok1). lia.
      * by apply (unmapped_step (entry 2 (pm_mem (k_pmm k)) (pagetable x)) _ ph).
      * apply Forall_app. split; [|by apply Forall_singleton].
        by apply (kept_step (k_pmm k) (k_pmm k1) (page :: fl) fl1 (pagetable x) own own1 ph).
      * exists k', x', fl', own'. split; [exact E|]. split_and!.
        -- split; [by eapply loading_trans|done| |done|].
           ++ rewrite Hrest. by destruct x.
           ++ intros va Hv Hn. apply Forall_cons in Hn as [Hn1 Hn]. change (pagetable x1) with (pagetable x) in Hent'.
              rewrite Hent', Hent by done. done.
        -- by rewrite <- app_assoc in Hall.
        -- rewrite Hmi', <- app_assoc. done.
    + assert (segs = filter is_load (phdrs n (off + PHDR))) as Es by (apply (filter_cons_False is_load); done).
      clearbody segs. subst segs. set (segs := filter is_load (phdrs n (off + PHDR))) in *.
      destruct (load_segment_skip k ctx buf off Hf Hbuf) as (y & h & E1 & Hf1); [done|unfold PHDR in *; lia..|done|].
      set (k1 := k <| k_fs := _ |>) in *. step E1. cbn [fst snd]. rewrite Ei.
      destruct (IH k1 ctx (image off PHDR) (off + PHDR) x fl top own old regs m)
        as (k' & x' & fl' & own' & E & Hld & Hall & Hmi'); try done; [unfold PHDR in *; lia..|].
      exists k', x', fl', own'. split; [exact E|]. split_and!; [|done|done].
      destruct Hld as [[Hs1 Hs2] Hr Hrest Hsp' Hent']. split; [split; [|done]|done..]. rewrite Hs1. done.
Qed.

(** C31.  [elf_load] on a file the host serves, whose loadable segments start at page
    boundaries, are shorter than a page each ([memsz < PGSIZE]) and lie in distinct pages
    that are not mapped, succeeds when three pages per segment are free and the table of
    owners has room for as many.  Each segment is recorded in the next region of the process; its page then
    translates to memory that holds the bytes of the file from the segment's offset on,
    [memsz] of them, and zeros behind; all other pages of the address space keep their
    entries, and the allocator and the tables stay well formed.  The bytes from [filesz]
    to [memsz], the .bss of a program, thus come from the file as well. *)
Theorem elf_load_spec (k : kern) (ctx : elf_ctx) (x : process) (fl : list Z) (top : Z) (own : gmap Z node)
    (regs : list mapped_region) (m : nat) :
  let segs := filter is_load (phdrs (Z.to_nat (eh_phnum (ehdr ctx))) (eh_phoff (ehdr ctx))) in
  reads (k_fs k) (info_f ctx) -> procs k !! info_p ctx = Some x ->
  space (3 * length segs) (k_pmm k) fl top (pagetable x) own ->
  0 <= eh_phnum (ehdr ctx) -> 0 <= eh_phoff (ehdr ctx) ->
  eh_phoff (ehdr ctx) + PHDR * eh_phnum (ehdr ctx) <= Z.of_nat (length img) < 2147483648 ->
  Forall seg_ok segs -> NoDup (seg_page <$> segs) ->
  mapped_info x = regs ++ replicate (length segs + m) blank_region -> Forall (fun r => mr_va r <> 0) regs ->
  Forall (fun ph => forall va, va / PGSIZE = seg_page ph ->
    has (entry 2 (pm_mem (k_pmm k)) (pagetable x) va) PTE_V = false) segs ->
  exists k' x' fl' own', elf_load ctx k = Ret EL_OK k' /\
    k' = k <| k_fs := k_fs k' |> <| procs := <[info_p ctx := x']> (procs k) |> /\
    pagetable x' = pagetable x /\ pmm_inv (k_pmm k') fl' top /\ pt_wf (k_pmm k') (pagetable x) own' /\
    mapped_info x' = regs ++ (region_of <$> segs) ++ replicate m blank_region /\
    (forall ph o, ph ∈ segs -> 0 <= o < PGSIZE -> exists pa,
       user_va_to_pa (pagetable x) (ph_vaddr ph + o) (k_pmm k') = Ret pa (k_pmm k') /\
       load8 (pm_mem (k_pmm k')) pa = if o <? ph_memsz ph then img_byte (ph_off ph + o) else 0) /\
    (forall va, 0 <= va < MAXVA -> Forall (fun ph => seg_page ph <> va / PGSIZE) segs ->
       entry 2 (pm_mem (k_pmm k')) (pagetable x) va = entry 2 (pm_mem (k_pmm k)) (pagetable x) va).
Proof.
  intros segs Hf Hx Hsp Hn Ho [Hend Himg] Hok Hnd Hmi Hregs Hfree.
  destruct (load_segments_run (Z.to_nat (eh_phnum (ehdr ctx))) k ctx (stack_buf PHDR) (eh_phoff (ehdr ctx)) x fl top own [] regs m)
    as (k' & x' & fl' & own' & E & [[Hs _] Hr _ (Hi & Hw & _) Hent] & Hall & Hmi'); try done; [unfold PHDR in *; lia|].
  exists k', x', fl', own'. split; [|split_and!; try done].
  - unfold elf_load. rewrite i32_small by (unfold PHDR in *; lia). exact E.
  - intros ph o Hin Hoo. cbn [app] in Hall. pose proof (proj1 (Forall_forall _ _) Hok ph Hin) as Hp.
    destruct (proj1 (Forall_forall _ _) Hall ph Hin) as (page & Hd & He & Hb). exists (page + o).
    split; [|by apply Hb]. destruct (so_addr _ Hp) as (Hv & Hal & Hmax).
    rewrite (user_va_to_pa_mapped seg_perm _ fl' top _ own' _ page Hi Hw); [|lia|apply Hd|exact seg_perm_range|done|].
    + do 2 f_equal. unfold PGSIZE in *. zdiv.
    + apply He; [lia|]. unfold PGSIZE in *. zdiv.
Qed.

(** [elf_init] decodes the header at the start of the file; a file shorter than the header
    is [EL_EIO], one with another magic number [EL_NOTELF].  Only the state of the host
    connection changes. *)
Theorem elf_init_spec (k : kern) (f : Z) (p : nat) :
  reads (k_fs k) f -> Z.of_nat (length img) < 2147483648 ->
  exists k' ctx, elf_init f p k =
      Ret (if Z.of_nat (length img) <? EHDR then EL_EIO
           else if field img 0 4 =? ELF_MAGIC then EL_OK else EL_NOTELF, ctx) k' /\
    k' = k <| k_fs := k_fs k' |> /\ k_pmm k' = k_pmm k /\ reads (k_fs k') f /\
    info_f ctx = f /\ info_p ctx = p /\
    (EHDR <= Z.of_nat (length img) -> ehdr ctx = decode_ehdr (take 64 img)).
Proof.
  intros Hf Himg. unfold EHDR. destruct (elf_fpread_run k f 64 0 Hf) as (x & h & E & Hf1); [lia|lia|].
  set (k1 := k <| k_fs := _ |>) in *. unfold elf_init, EHDR. rewrite (bind_ret_eq _ _ _ _ _ E). cbn [fst snd].
  assert (image 0 64 = take 64 img) as -> by done. rewrite length_take.
  set (ctx := {| info_f := f; info_p := p; ehdr := _ |}).
  assert (64 <= Z.of_nat (length img) -> ehdr ctx = decode_ehdr (take 64 img)) as He.
  { intros Hl. unfold ctx, fill. cbn [ehdr]. rewrite drop_ge, app_nil_r; [done|].
    unfold stack_buf. rewrite length_fmap, length_seqZ, length_take. lia. }
  exists k1, ctx. destruct (Z.ltb_spec (Z.of_nat (length img)) 64).
  - rewrite (proj2 (Z.eqb_neq _ _)) by lia. by split_and!.
  - rewrite (proj2 (Z.eqb_eq _ _)) by lia. cbn [negb]. rewrite He by lia. split; [|by split_and!].
    assert (eh_magic (decode_ehdr (take 64 img)) = field img 0 4) as ->.
    { unfold decode_ehdr, field. cbn [eh_magic]. rewrite !drop_0, take_take. done. }
    by destruct (field img 0 4 =? ELF_MAGIC).
Qed.
End reading.

(** * Witness *)

(** A host with one file, open as descriptor 5. *)
Definition image_host (img : list Z) : Host := {|
  host_reply log c :=
    match c with
    | host_lseek _ ptr 0 => (ptr, [])
    | host_lseek _ _ _ => (file_pos 5 img log, [])
    | host_read _ n => let b := image img (file_pos 5 img log) n in (Z.of_nat (length b), b)
    | _ => (0, [])
    end;
  fresh_stack _ := 0 |}.

Lemma image_host_serves img : serves (HO := image_host img) 5 img.
Proof. by split. Qed.

(** A header, a program header that is not loaded and one segment of three bytes of code. *)
Definition small_phdr (type flags off vaddr size : Z) : list Z :=
  le_bytes 4 type ++ le_bytes 4 flags ++ le_bytes 8 off ++ le_bytes 8 vaddr ++ le_bytes 8 vaddr
  ++ le_bytes 8 size ++ le_bytes 8 size ++ le_bytes 8 4096.

Definition small_elf : list Z :=
  le_bytes 4 ELF_MAGIC ++ replicate 60 0 ++ small_phdr 6 4 64 0 112 ++ small_phdr 1 5 176 65536 3 ++ [19; 5; 16].

Definition small_stale : Stale := {|
  stale_vinode _ := {| inum := 0; i_ref := 0; i_size := 0; i_type := 0; i_nlinks := 0; i_blocks := 0; i_addrs := [];
    i_fs_info := 0; i_sb := 0; i_ops := hostfs_i_ops |};
  stale_dentry_sb _ := 0; stale_bytes _ := [];
  stale_super_block _ := {| s_magic := 0; s_size := 0; s_nblocks := 0; s_ninodes := 0; s_root := 0; s_dev := 0; s_fs_info := 0 |};
  stale_stack _ := 0; stale_args := [] |}.

Definition elf_fs : fs pmm := (small_fs <| fs_pages := small_alloc |>)
  <| files := {[1 := {| f_status := FD_OPENED; f_readable := 1; f_writable := 0; f_offset := 0; f_dentry := 2 |}]} |>
  <| dentries := {[2 := {| d_name := [97]; d_ref := 1; dentry_inode := 3; d_parent := 0; d_sb := 0 |}]} |>
  <| vinodes := {[3 := {| inum := 0; i_ref := 1; i_size := 179; i_type := FILE_I; i_nlinks := 1; i_blocks := 0; i_addrs := [];
       i_fs_info := 1; i_sb := 0; i_ops := hostfs_i_ops |}]} |>
  <| fs_host := {| spike_files := [{| kfd := 5; refcnt := 3 |}]; spike_fds := []; host_log := [] |} |>.

Definition elf_proc : process := (blank_process 0 RUNNING) <| mapped_info := replicate 256 blank_region |>.

Definition elf_kern : kern := small_kern <| k_fs := elf_fs |> <| procs := [elf_proc] |>.

Definition small_ctx : elf_ctx := {| info_f := 1; info_p := 0;
  ehdr := {| eh_magic := ELF_MAGIC; eh_entry := 65536; eh_phoff := 64; eh_shoff := 0; eh_phnum := 2;
             eh_shentsize := 64; eh_shnum := 0; eh_shstrndx := 0 |} |}.

Lemma elf_kern_reads : reads 5 (k_fs elf_kern) 1.
Proof.
  unfold reads. eexists _, _, _, 0%nat, _. split; [reflexivity|]. split; [discriminate|].
  do 7 (split; [reflexivity|]). by apply Forall_nil_2.
Qed.

Lemma elf_kern_space : space 3 (k_pmm elf_kern) (tail small_free) small_top small_top small_own.
Proof.
  destruct small_alloc_ok as (Hi & Hw & _ & Ht & _). split; [exact Hi|]. split; [exact Hw|].
  change (k_pmm elf_kern) with small_alloc. rewrite Ht. split; [clear; cbn; lia|by vm_compute].
Qed.

Definition small_seg : elf_prog_header :=
  {| ph_type := 1; ph_flags := 5; ph_off := 176; ph_vaddr := 65536; ph_filesz := 3; ph_memsz := 3 |}.

Lemma small_segs : filter is_load (phdrs small_elf 2 64) = [small_seg].
Proof. vm_compute. reflexivity. Qed.

Lemma small_seg_ok : Forall (seg_ok small_elf) (filter is_load (phdrs small_elf 2 64)).
Proof.
  rewrite small_segs. apply Forall_singleton. unfold small_seg. split; cbn [ph_type ph_flags ph_off ph_vaddr ph_filesz ph_memsz];
    [reflexivity|split; [split|]; by vm_compute|by vm_compute|split; by vm_compute|by eexists].
Qed.

Lemma elf_load_spec_witness :
  exists k' pa, elf_load (ST := small_stale) (HO := image_host small_elf) small_ctx elf_kern = Ret EL_OK k' /\
    user_va_to_pa small_top 65538 (k_pmm k') = Ret pa (k_pmm k') /\ load8 (pm_mem (k_pmm k')) pa = 16.
Proof.
  destruct (elf_load_spec (ST := small_stale) (HO := image_host small_elf) 5 small_elf (image_host_serves small_elf)
    elf_kern small_ctx elf_proc (tail small_free) small_top small_own [] 255)
    as (k' & x' & fl' & own' & E & _ & _ & _ & _ & _ & Hb & _).
  - exact elf_kern_reads.
  - reflexivity.
  - change (filter _ _) with (filter is_load (phdrs small_elf 2 64)). rewrite small_segs. exact elf_kern_space.
  - by vm_compute.
  - by vm_compute.
  - by vm_compute.
  - exact small_seg_ok.
  - change (filter _ _) with (filter is_load (phdrs small_elf 2 64)). rewrite small_segs. apply NoDup_singleton.
  - change (filter _ _) with (filter is_load (phdrs small_elf 2 64)). rewrite small_segs. reflexivity.
  - apply Forall_nil_2.
  - apply Forall_forall. intros ph _ va _. change (pm_mem (k_pmm elf_kern)) with (pm_mem small_alloc).
    change (pagetable elf_proc) with small_top. destruct small_alloc_ok as (_ & _ & He & _). rewrite He. reflexivity.
  - change (filter _ _) with (filter is_load (phdrs small_elf 2 64)) in Hb. rewrite small_segs in Hb.
    assert (0 <= 2 < PGSIZE) as H2 by (unfold PGSIZE; lia).
    destruct (Hb small_seg 2 (proj2 (list_elem_of_singleton _ _) eq_refl) H2) as (pa & E1 & E2). exists k', pa.
    split; [exact E|]. split; [exact E1|]. rewrite E2. vm_compute. reflexivity.
Defined.

Lemma elf_init_spec_witness :
  exists k' ctx, elf_init (ST := small_stale) (HO := image_host small_elf) 1 0 elf_kern = Ret (EL_OK, ctx) k' /\
    k_pmm k' = k_pmm elf_kern.
Proof.
  destruct (elf_init_spec (ST := small_stale) (HO := image_host small_elf) 5 small_elf (image_host_serves small_elf)
    elf_kern 1 0 elf_kern_reads ltac:(by vm_compute)) as (k' & ctx & E & _ & Hp & _). exists k', ctx. split; [|exact Hp].
  rewrite E. by vm_compute.
Defined.
