(* ===== verification/ErrorLine.v ===== *)
(** kernel/process.c, [print_error_line]: the source line of an instruction, from the line
    table [make_addr_line] built. *)

From Stdlib Require Import Sorting.Sorted.
From S2P Require Import Prelude Mem CString Leb128 DebugLine PageAlloc Pmm HashTable SpikeFile FsData Hostfs Kernel Sched Process.

(** What is printed: the directory, the file, the line and the text of the line. *)
Record error_report := { er_dir : cname; er_file : cname; er_line : Z; er_text : list Z }.

(** The characters up to the end of the line. *)
Fixpoint rest_of_line (buf : list Z) : list Z :=
  match buf with [] => [] | c :: l => if c =? 10 then [] else c :: rest_of_line l end.

(** The loop over the text of the file: [cnt] counts the ends of lines. *)
Fixpoint source_text (buf : list Z) (cnt line : Z) : list Z :=
  match buf with
  | [] => []
  | c :: l =>
      if (c =? 10) && (cnt + 1 =? line - 1) then rest_of_line l
      else source_text l (if c =? 10 then cnt + 1 else cnt) line
  end.

(** The first of the [n] rows from [i] on whose address is above [mepc]. *)
Fixpoint first_above (n : nat) (m : mem) (line i mepc : Z) : option Z :=
  match n with
  | O => None
  | S n' => if mepc <? load64 m (line + 24 * i) then Some i else first_above n' m line (i + 1) mepc
  end.

Section error_line.
Context {HO : Host}.

(** A string of the section; the array [filename] has 256 bytes. *)
Definition line_string (a : Z) : M kern cname := on_pmm (ld_string 256 a).

Definition print_error_line (hart : nat) (mepc : Z) : M kern (option error_report) :=
  i <- get_current hart ;;
  p <- get_proc i ;;
  k <- gets id ;;
  let t := line_table p in
  match first_above (Z.to_nat (line_cnt t)) (pm_mem (k_pmm k)) (line_tab t) 0 mepc with
  | None => ret None
  | Some j =>
      let row := line_tab t + 24 * (j - 1) in
      file <- on_pmm (ld64 (row + 16)) ;;
      line <- on_pmm (ld64 (row + 8)) ;;
      let entry := u64 (file_tab t + 16 * file) in
      d <- on_pmm (ld64 entry) ;;
      dir <- on_pmm (ld64 (u64 (dir_tab t + 8 * d))) ;;
      dir <- line_string dir ;;
      name <- on_pmm (ld64 (entry + 8)) ;;
      name <- line_string name ;;
      (if 256 <=? Z.of_nat (length dir + 1 + length name) then fault else ret tt) ;;;
      fp <- on_fs (on_host (spike_file_open (dir ++ [47] ++ name) O_RDONLY 0)) ;;
      st <- on_fs (on_host (spike_file_stat fp)) ;;
      r <- on_fs (on_host (spike_file_read fp (stat_size st))) ;;
      on_fs (on_host (spike_file_close fp)) ;;;
      let buf := snd r ++ (fresh_stack <$> seqZ (Z.of_nat (length (snd r))) (stat_size st - Z.of_nat (length (snd r)))) in
      ret (Some {| er_dir := dir; er_file := name; er_line := i32 line; er_text := source_text buf 0 (i32 line) |})
  end.
End error_line.

(** * Properties *)

(** ** The text of a line *)

(** The lines of a text. *)
Fixpoint lines (buf : list Z) : list (list Z) :=
  match buf with
  | [] => [[]]
  | c :: l =>
      if c =? 10 then [] :: lines l
      else match lines l with [] => [[c]] | x :: ls => (c :: x) :: ls end
  end.

Lemma head_lines buf : exists ls, lines buf = rest_of_line buf :: ls.
Proof.
  induction buf as [|c l [ls IH]]; [by exists []|]. cbn. destruct (c =? 10); [by eexists|]. rewrite IH. by eexists.
Qed.

Lemma source_text_lines buf : forall cnt line, cnt < line - 1 ->
  source_text buf cnt line = default [] (lines buf !! Z.to_nat (line - 1 - cnt)).
Proof.
  induction buf as [|c l IH]; intros cnt line Hc; cbn [source_text lines].
  - destruct (Z.to_nat (line - 1 - cnt)) as [|n] eqn:E; [lia|]. done.
  - destruct (Z.eqb_spec c 10) as [->|Hn]; cbn [andb].
    + replace (Z.to_nat (line - 1 - cnt)) with (S (Z.to_nat (line - 1 - (cnt + 1)))) by lia. cbn [lookup list_lookup].
      destruct (Z.eqb_spec (cnt + 1) (line - 1)) as [E|].
      * rewrite E, Z.sub_diag. destruct (head_lines l) as [ls ->]. done.
      * by apply IH; lia.
    + rewrite IH by done. destruct (head_lines l) as [ls ->].
      destruct (Z.to_nat (line - 1 - cnt)) as [|n] eqn:E; [lia|]. done.
Qed.

Lemma source_text_first buf : forall cnt line, line - 1 <= cnt -> source_text buf cnt line = [].
Proof.
  induction buf as [|c l IH]; intros cnt line Hc; cbn [source_text]; [done|].
  replace (cnt + 1 =? line - 1) with false by lia. rewrite andb_false_r. apply IH. case_if; lia.
Qed.

(** ** The row of an address *)

(** The last row at or below the address, for rows in the order of their addresses. *)
Definition row_of (rows : list addr_line) (mepc : Z) : option addr_line :=
  last (filter (fun r => al_addr r <= mepc) rows).

Lemma first_above_run n : forall m line i mepc,
  0 <= i ->
  match first_above n m line i mepc with
  | Some j => i <= j < i + Z.of_nat n /\ mepc < load64 m (line + 24 * j) /\
      forall l, i <= l < j -> load64 m (line + 24 * l) <= mepc
  | None => forall l, i <= l < i + Z.of_nat n -> load64 m (line + 24 * l) <= mepc
  end.
Proof.
  induction n as [|n IH]; intros m line i mepc Hi; cbn [first_above]; [intros; lia|].
  destruct (Z.ltb_spec mepc (load64 m (line + 24 * i))); [split_and!; [lia|lia|done|intros; lia]|].
  specialize (IH m line (i + 1) mepc ltac:(lia)). destruct (first_above n m line (i + 1) mepc) as [j|].
  - destruct IH as (H1 & H2 & H3). split_and!; [lia|lia|done|]. intros l Hl.
    destruct (decide (l = i)) as [->|]; [done|]. apply H3. lia.
  - intros l Hl. destruct (decide (l = i)) as [->|]; [done|]. apply IH. lia.
Qed.

Definition ascending : list addr_line -> Prop := StronglySorted (fun a b => al_addr a < al_addr b).

(** The table from the first row above [mepc] on, and the row before it. *)
Lemma row_of_split rows mepc r :
  ascending rows -> row_of rows mepc = Some r -> (exists r', r' ∈ rows /\ mepc < al_addr r') ->
  exists i r', rows !! i = Some r /\ rows !! S i = Some r' /\ mepc < al_addr r' /\
    forall j x, rows !! j = Some x -> (j <= i)%nat -> al_addr x <= mepc.
Proof.
  intros Hs. induction Hs as [|x l Hs IH Hx]; intros Hr (r' & Hin & Hab); [by apply not_elem_of_nil in Hin|].
  unfold row_of in *. rewrite filter_cons in Hr. destruct (decide (al_addr x <= mepc)) as [Hle|Hgt].
  - apply elem_of_cons in Hin as [->|Hin]; [lia|]. rewrite last_cons in Hr.
    destruct (last (filter (fun r => al_addr r <= mepc) l)) as [y|] eqn:El.
    + simplify_eq. destruct IH as (i & r2 & H1 & H2 & H3 & H4); [done|by exists r'|].
      exists (S i), r2. split_and!; [done|done|done|]. intros [|j] z Hz Hj; cbn in Hz; [by simplify_eq|]. apply (H4 j z Hz). lia.
    + simplify_eq. apply last_None in El. destruct l as [|y l]; [by apply not_elem_of_nil in Hin|].
      exists 0%nat, y. split_and!; [done|done| |].
      * destruct (decide (al_addr y <= mepc)) as [Hy|]; [|lia]. rewrite filter_cons_True in El by done. done.
      * intros [|j] z Hz Hj; [|lia]. cbn in Hz. by simplify_eq.
  - exfalso. assert (filter (fun r => al_addr r <= mepc) l = []) as E; [|by rewrite E in Hr].
    apply elem_of_nil_inv. intros y. rewrite list_elem_of_filter. intros [Hy Hiy].
    pose proof (proj1 (Forall_forall _ _) Hx y Hiy). cbn in *. lia.
Qed.

Lemma first_above_rows m line rows i r r' mepc :
  rows_at m line rows -> rows !! i = Some r -> rows !! S i = Some r' -> mepc < al_addr r' ->
  (forall j x, rows !! j = Some x -> (j <= i)%nat -> al_addr x <= mepc) ->
  first_above (length rows) m line 0 mepc = Some (Z.of_nat i + 1).
Proof.
  intros Hrows Hi Hi' Hab Hle. pose proof (lookup_lt_Some _ _ _ Hi').
  assert (forall j x, rows !! j = Some x -> load64 m (line + 24 * Z.of_nat j) = al_addr x) as Ha.
  { intros j x Hj. by rewrite <- (Hrows j x Hj). }
  pose proof (first_above_run (length rows) m line 0 mepc ltac:(lia)) as Hrun.
  pose proof (Ha _ _ Hi') as Ei'. replace (Z.of_nat (S i)) with (Z.of_nat i + 1) in Ei' by lia.
  destruct (first_above (length rows) m line 0 mepc) as [j|].
  - destruct Hrun as (H1 & H2 & H3). f_equal. destruct (Z.lt_trichotomy j (Z.of_nat i + 1)) as [Hlt|[?|Hgt]]; [|done|].
    + destruct (lookup_lt_is_Some_2 rows (Z.to_nat j)) as [x Hx]; [lia|]. specialize (Hle _ _ Hx ltac:(lia)).
      rewrite <- (Ha _ _ Hx), Z2Nat.id in Hle by lia. lia.
    + specialize (H3 (Z.of_nat i + 1) ltac:(lia)). lia.
  - specialize (Hrun (Z.of_nat i + 1) ltac:(lia)). lia.
Qed.

Lemma ld_string_run n : forall s a l,
  cstr (pm_mem s) a l -> (length l < n)%nat -> DRAM_BASE <= a -> a + Z.of_nat (length l) < PHYS_TOP ->
  ld_string n a s = Ret l s.
Proof.
  induction n as [|n IH]; intros s a l Hl Hn Hlo Hhi; [lia|]. cbn [ld_string].
  assert (ld_bytes a 1 s = Ret [load8 (pm_mem s) a] s) as E.
  { unfold ld_bytes, in_dram. replace (DRAM_BASE <=? a) with true by lia. replace (a + 1 <=? PHYS_TOP) with true by lia.
    change (true && true && (0 <=? 1)) with true. cbn match.
    change ((fun i => load8 (pm_mem s) (a + Z.of_nat i)) <$> seq 0 (Z.to_nat 1)) with [load8 (pm_mem s) (a + 0)].
    by rewrite Z.add_0_r. }
  step E. destruct l as [|c l]; cbn [cstr] in Hl; [by rewrite Hl|]. destruct Hl as (-> & Hc%Z.eqb_neq & Hl). rewrite Hc.
  cbn [length] in *. rewrite (bind_ret_eq _ _ _ _ _ (IH s (a + 1) l Hl ltac:(lia) ltac:(lia) ltac:(lia))). done.
Qed.

Section location.
Context {HO : Host}.

Lemma in_dram8 a : DRAM_BASE <= a -> a + 8 <= PHYS_TOP -> in_dram a 8 = true.
Proof. intros. unfold in_dram. by rewrite (proj2 (Z.leb_le _ _)), (proj2 (Z.leb_le _ _)). Qed.

Lemma on_pmm_string k a l :
  cstr (pm_mem (k_pmm k)) a l -> (length l < 256)%nat -> DRAM_BASE <= a -> a + Z.of_nat (length l) < PHYS_TOP ->
  line_string a k = Ret l k.
Proof.
  intros. unfold line_string, on_pmm, zoom. rewrite (ld_string_run 256 (k_pmm k) a l) by done.
  destruct k as [kfs]; by destruct kfs.
Qed.

(** The tables of a process, in memory from [lo] on and below [hi]. *)
Record tables (m : mem) (lo hi : Z) (t : line_info) (dirs : list (list Z)) (files : list (Z * list Z))
    (rows : list addr_line) : Prop := {
  tb_rows : rows_at m (line_tab t) rows;
  tb_count : line_cnt t = Z.of_nat (length rows);
  tb_files : files_at lo hi m (file_tab t) files;
  tb_dirs : dirs_at lo hi m (dir_tab t) dirs;
  tb_low : DRAM_BASE <= lo /\ DRAM_BASE <= dir_tab t /\ DRAM_BASE <= file_tab t /\ DRAM_BASE <= line_tab t;
  tb_high : hi <= PHYS_TOP /\ dir_tab t + 8 * Z.of_nat (length dirs) <= PHYS_TOP /\
    file_tab t + 16 * Z.of_nat (length files) <= PHYS_TOP /\ line_tab t + 24 * Z.of_nat (length rows) <= PHYS_TOP;
}.

(** C30.  On the tables [make_addr_line] leaves, with addresses that ascend and a row
    above [mepc], [print_error_line] reports what the tables say: the file, directory and
    line of the last row at or below [mepc], and the line of the source file with that
    number.  For line 1 it reports an empty text, since the text is printed only after a
    newline has been seen.  The source file is opened, read and closed, and nothing else
    changes. *)
Theorem print_error_line_spec (k : kern) (hart i : nat) (p : process) (mepc lo hi : Z) (dirs : list (list Z))
    (files : list (Z * list Z)) (rows : list addr_line) (r : addr_line) (d : Z) (dir name content : list Z)
    (fp c : Z) (st : stat) (h1 h2 h3 h4 : host) :
  current k !! hart = Some (Some i) -> procs k !! i = Some p ->
  tables (pm_mem (k_pmm k)) lo hi (line_table p) dirs files rows -> ascending rows ->
  row_of rows mepc = Some r -> (exists r', r' ∈ rows /\ mepc < al_addr r') ->
  at_index files (al_file r) = Some (d, name) -> at_index dirs d = Some dir ->
  Z.of_nat (length dir + 1 + length name) < 256 ->
  spike_file_open (dir ++ [47] ++ name) O_RDONLY 0 (fs_host (k_fs k)) = Ret fp h1 ->
  spike_file_stat fp h1 = Ret st h2 -> spike_file_read fp (stat_size st) h2 = Ret (c, content) h3 ->
  Z.of_nat (length content) = stat_size st -> (exists e, spike_file_close fp h3 = Ret e h4) ->
  print_error_line hart mepc k =
    Ret (Some {| er_dir := dir; er_file := name; er_line := i32 (al_line r);
           er_text := if 2 <=? i32 (al_line r) then default [] (lines content !! Z.to_nat (i32 (al_line r) - 1)) else [] |})
      (k <| k_fs := (k_fs k) <| fs_host := h4 |> |>).
Proof.
  intros Hcur Hp [Trows Tcnt Tfiles Tdirs (Hl1 & Hl2 & Hl3 & Hl4) (Hh1 & Hh2 & Hh3 & Hh4)] Hasc Hrow Hab Hfile Hdir Hlen
    Eo Es Er Hc (e & Ec).
  destruct (row_of_split rows mepc r Hasc Hrow Hab) as (j & r' & Hj & Hj' & Hjab & Hle).
  pose proof (first_above_rows _ _ _ _ _ _ _ Trows Hj Hj' Hjab Hle) as Hfirst.
  pose proof (Trows _ _ Hj) as Erow. apply lookup_lt_Some in Hj as Hjl.
  pose proof (at_index_Some _ _ _ Hfile) as Hfr. rewrite at_index_nat in Hfile by lia.
  pose proof (at_index_Some _ _ _ Hdir) as Hdr. rewrite at_index_nat in Hdir by lia.
  destruct (Tfiles _ _ Hfile) as [Ed (na & Ena & Hna1 & Hna2 & Hna3)]. cbn [fst snd] in *.
  destruct (Tdirs _ _ Hdir) as (da & Eda & Hda1 & Hda2 & Hda3). rewrite Z2Nat.id in * by lia.
  assert (load64 (pm_mem (k_pmm k)) (line_tab (line_table p) + 24 * Z.of_nat j + 16) = al_file r /\
    load64 (pm_mem (k_pmm k)) (line_tab (line_table p) + 24 * Z.of_nat j + 8) = al_line r) as [Ef El] by (by rewrite <- Erow).
  unfold print_error_line. step (get_current_eq k hart i Hcur). step (get_proc_eq k i p Hp). step (eq_refl : gets id k = Ret k k).
  rewrite Tcnt, Nat2Z.id, Hfirst, Z.add_simpl_r.
  step (on_pmm_ld64 k _ (in_dram8 (line_tab (line_table p) + 24 * Z.of_nat j + 16) ltac:(lia) ltac:(lia))). rewrite Ef.
  step (on_pmm_ld64 k _ (in_dram8 (line_tab (line_table p) + 24 * Z.of_nat j + 8) ltac:(lia) ltac:(lia))). rewrite El.
  rewrite (u64_small (file_tab _ + _)) by (unfold PHYS_TOP, DRAM_BASE in *; lia).
  step (on_pmm_ld64 k _ (in_dram8 (file_tab (line_table p) + 16 * al_file r) ltac:(lia) ltac:(lia))). rewrite Ed.
  rewrite (u64_small (dir_tab _ + _)) by (unfold PHYS_TOP, DRAM_BASE in *; lia).
  step (on_pmm_ld64 k _ (in_dram8 (dir_tab (line_table p) + 8 * d) ltac:(lia) ltac:(lia))). rewrite Eda.
  step (on_pmm_string k da dir Hda3 ltac:(lia) ltac:(lia) ltac:(lia)).
  step (on_pmm_ld64 k _ (in_dram8 (file_tab (line_table p) + 16 * al_file r + 8) ltac:(lia) ltac:(lia))). rewrite Ena.
  step (on_pmm_string k na name Hna3 ltac:(lia) ltac:(lia) ltac:(lia)).
  assert ((256 <=? Z.of_nat (length dir + 1 + length name)) = false) as -> by (apply Z.leb_gt; lia).
  step (eq_refl : ret tt k = Ret tt k).
  assert (forall {B} (q : M host B) h h' b, q h = Ret b h' ->
    on_fs (on_host q) (k <| k_fs := (k_fs k) <| fs_host := h |> |>) = Ret b (k <| k_fs := (k_fs k) <| fs_host := h' |> |>)) as Hon.
  { intros B q h h' b E. unfold on_fs, on_host, zoom. cbn. by rewrite E. }
  assert (k = k <| k_fs := (k_fs k) <| fs_host := fs_host (k_fs k) |> |>) as Ek by (destruct k as [kfs]; by destruct kfs).
  rewrite Ek at 1. step (Hon _ _ _ _ _ Eo). step (Hon _ _ _ _ _ Es). step (Hon _ _ _ _ _ Er). step (Hon _ _ _ _ _ Ec).
  cbn [snd]. rewrite Hc, Z.sub_diag. cbn [seqZ fmap list_fmap seq Z.to_nat]. rewrite app_nil_r. unfold ret. do 3 f_equal.
  destruct (Z.leb_spec 2 (i32 (al_line r))); [rewrite source_text_lines, Z.sub_0_r by lia; done|apply source_text_first; lia].
Qed.
End location.

(** ** Witness *)

(** Two rows of "d/a", lines 2 and 3 at 65536 and 65540, and a file of three lines. *)
Definition er_text_bytes : list Z := [120; 10; 121; 10; 122; 10].

Definition er_host : Host := {|
  host_reply _ c :=
    match c with
    | host_fstat _ => (0, replicate 48 0 ++ le_bytes 8 6 ++ replicate 16 0)
    | host_read _ _ => (6, er_text_bytes)
    | _ => (5, [])
    end;
  fresh_stack _ := 0 |}.

Definition er_lines : line_info := {|
  debugline := KERN_BASE; dir_tab := KERN_BASE + 8; file_tab := KERN_BASE + 16; line_tab := KERN_BASE + 32; line_cnt := 2 |}.

Definition er_rows : list addr_line :=
  [{| al_addr := 65536; al_line := 2; al_file := 0 |}; {| al_addr := 65540; al_line := 3; al_file := 0 |}].

Definition er_mem : mem :=
  store_addr_line (store_addr_line (store64 (store64 (store64 (store_bytes ∅ KERN_BASE [100; 0; 97; 0])
    (KERN_BASE + 8) KERN_BASE) (KERN_BASE + 16) 0) (KERN_BASE + 24) (KERN_BASE + 2))
    (KERN_BASE + 32) {| al_addr := 65536; al_line := 2; al_file := 0 |})
    (KERN_BASE + 56) {| al_addr := 65540; al_line := 3; al_file := 0 |}.

Definition er_kern : kern :=
  (set_pmm (small_running <| pm_mem := er_mem |>) small_kern) <| procs := [(blank_process 0 RUNNING) <| line_table := er_lines |>] |>.

Lemma er_tables : tables er_mem KERN_BASE (KERN_BASE + 4) er_lines [[100]] [(0, [97])] er_rows.
Proof.
  split.
  - intros [|[|i]] r Hi; [injection Hi as <-; vm_compute; reflexivity..|discriminate Hi].
  - done.
  - intros [|i] f Hi; [injection Hi as <-|discriminate Hi]. split; [vm_compute; reflexivity|]. exists (KERN_BASE + 2).
    vm_compute. intuition congruence.
  - intros [|i] f Hi; [injection Hi as <-|discriminate Hi]. exists KERN_BASE. vm_compute. intuition congruence.
  - vm_compute. intuition congruence.
  - vm_compute. intuition congruence.
Qed.

Definition er_open : outcome host Z := spike_file_open (HO := er_host) [100; 47; 97] 0 0 blank_host.
Definition out_state {A} (o : outcome host A) : host := match o with Ret _ h | Switch h => h | _ => blank_host end.
Definition er_h1 : host := out_state er_open.
Definition er_h2 : host := out_state (spike_file_stat (HO := er_host) 1 er_h1).
Definition er_h3 : host := out_state (spike_file_read (HO := er_host) 1 6 er_h2).
Definition er_h4 : host := out_state (spike_file_close (HO := er_host) 1 er_h3).

Lemma print_error_line_spec_witness :
  print_error_line (HO := er_host) 0 65537 er_kern =
    Ret (Some {| er_dir := [100]; er_file := [97]; er_line := 2; er_text := [121] |})
      (er_kern <| k_fs := (k_fs er_kern) <| fs_host := er_h4 |> |>).
Proof.
  refine (print_error_line_spec (HO := er_host) er_kern 0 0 _ 65537 KERN_BASE (KERN_BASE + 4) [[100]] [(0, [97])] er_rows
    {| al_addr := 65536; al_line := 2; al_file := 0 |} 0 [100] [97] er_text_bytes 1 6
    {| stat_ino := 0; stat_mode := 0; stat_nlink := 0; stat_size := 6; stat_blocks := 0 |} er_h1 er_h2 er_h3 er_h4
    eq_refl eq_refl er_tables _ _ _ _ _ _ _ _ _ _ _).
  - repeat constructor.
  - by vm_compute.
  - exists {| al_addr := 65540; al_line := 3; al_file := 0 |}. split; [right; left|by vm_compute].
  - reflexivity.
  - reflexivity.
  - by vm_compute.
  - vm_compute. reflexivity.
  - vm_compute. reflexivity.
  - vm_compute. reflexivity.
  - reflexivity.
  - exists (-1). vm_compute. reflexivity.
Defined.
