(* ===== verification/ProcFile.v ===== *)
(** kernel/proc_file.c: the open files of a process and the entry points of the file
    system calls. *)

From S2P Require Import Prelude Mem CString PageAlloc Pmm Vmm HashTable SpikeFile FsData Ramdev Rfs Hostfs Vfs Kernel Sched Process Elf.

(** A path, as far as the arrays of [MAX_PATH_LEN] bytes of kernel/vfs.c reach: the
    routines there overrun them with a path that has no end before. *)
Definition ld_path (a : Z) : M kern cname := on_pmm (ld_string (Z.to_nat MAX_PATH_LEN) a).

Section proc_file.
Context {SYM : Symbols} {ST : Stale} {HO : Host}.

(** * Start-up *)

Definition HOSTDEV : cname := [72; 79; 83; 84; 68; 69; 86].
Definition RAMDISK0 : cname := [82; 65; 77; 68; 73; 83; 75; 48].

(** [junk] is what the stack holds in the block addresses [rfs_format_dev] does not set. *)
Definition fs_init (junk : list Z) : M (fs pmm) unit :=
  vfs_init ;;;
  r <- register_hostfs ;;
  (if r <? 0 then panic "fs_init: cannot register hostfs." else ret tt) ;;;
  init_host_device HOSTDEV ;;;
  vfs_mount HOSTDEV MOUNT_AS_ROOT ;;;
  r <- register_rfs ;;
  (if r <? 0 then panic "fs_init: cannot register rfs." else ret tt) ;;;
  ramdisk0 <- init_rfs_device RAMDISK0 ;;
  rfs_format_dev junk ramdisk0 ;;;
  vfs_mount RAMDISK0 MOUNT_DEFAULT ;;;
  ret tt.

Definition reclaim_proc_file_management (pf : Z) : M (fs pmm) unit :=
  modify (fun s => s <| pfiles_store := delete pf (pfiles_store s) |>) ;;; fs_free pf.

(** * Open files *)

(** [current[hart]->pfiles] *)
Definition cur_pfiles (hart : nat) : M kern (Z * proc_file_management) :=
  i <- get_current hart ;;
  p <- get_proc i ;;
  k <- gets id ;;
  pf <- deref (pfiles_store (k_fs k) !! pfiles p) ;;
  ret (pfiles p, pf).

Definition put_pfiles (p : Z) (pf : proc_file_management) : M (fs pmm) unit :=
  modify (fun s => s <| pfiles_store := <[p := pf]> (pfiles_store s) |>).

Definition cur_cwd (hart : nat) : M kern Z := r <- cur_pfiles hart ;; ret (cwd (snd r)).

(** The search of [get_opened_file] ends at the last entry when [fd] names none. *)
Definition fd_index (fd : Z) : nat :=
  if (0 <=? fd) && (fd <? MAX_FILES) then Z.to_nat fd else Z.to_nat (MAX_FILES - 1).

(** The entry with its index; [pfile == NULL] never holds. *)
Definition get_opened_file (hart : nat) (fd : Z) : M kern (nat * file) :=
  r <- cur_pfiles hart ;;
  f <- deref (opened_files (snd r) !! fd_index fd) ;;
  ret (fd_index fd, f).

(** Store to an entry of the table of the current process. *)
Definition set_opened_file (hart : nat) (i : nat) (f : file) : M kern unit :=
  r <- cur_pfiles hart ;;
  on_fs (put_pfiles (fst r) ((snd r) <| opened_files := <[i := f]> (opened_files (snd r)) |>)).

(** The first entry that is not in use. *)
Fixpoint find_fd (l : list file) : option nat :=
  match l with
  | [] => None
  | f :: l' => if f_status f =? FD_NONE then Some 0%nat else S <$> find_fd l'
  end.

(** Copy the file to entry [i] and count it. *)
Definition install_file (hart : nat) (i : nat) (opened_file : Z) : M kern unit :=
  r <- cur_pfiles hart ;;
  f <- on_fs (get_file opened_file) ;;
  on_fs (put_pfiles (fst r) ((snd r) <| opened_files := <[i := f]> (opened_files (snd r)) |>
    <| nfiles := i32 (nfiles (snd r) + 1) |>)).

(** Without a free entry the loop ends with [fd] past the table and [pfile] at its last
    entry. *)
Definition do_open (hart : nat) (pathname : cname) (flags : Z) : M kern Z :=
  dir <- cur_cwd hart ;;
  opened_file <- on_fs (vfs_open pathname flags dir) ;;
  if opened_file =? 0 then ret (-1)
  else
    r <- cur_pfiles hart ;;
    if MAX_FILES <=? nfiles (snd r) then panic "do_open: no file entry for current process!"
    else
      match find_fd (opened_files (snd r)) with
      | Some i => install_file hart i opened_file ;;; ret (Z.of_nat i)
      | None => install_file hart (Z.to_nat (MAX_FILES - 1)) opened_file ;;; ret MAX_FILES
      end.

(** [buffer] is on the stack: what [vfs_read] does not store is what the stack held. *)
Definition do_read (hart : nat) (fd buf count : Z) : M kern Z :=
  e <- get_opened_file hart fd ;;
  let '(i, pfile) := e in
  if f_readable pfile =? 0 then panic "do_read: no readable file!"
  else
    r <- on_fs (vfs_read pfile count) ;;
    let '(len, bytes, pfile') := r in
    set_opened_file hart i pfile' ;;;
    let buffer := take (Z.to_nat count) (bytes ++ ((fun j => stale_stack (Z.of_nat j)) <$>
                    seq (length bytes) (Z.to_nat count - length bytes))) ++ [0] in
    text <- deref (cstr_bytes buffer) ;;
    on_pmm (st_bytes buf (text ++ [0])) ;;;
    ret (i32 len).

Definition do_write (hart : nat) (fd buf count : Z) : M kern Z :=
  e <- get_opened_file hart fd ;;
  let '(i, pfile) := e in
  if f_writable pfile =? 0 then panic "do_write: cannot write file!"
  else
    bytes <- on_pmm (ld_bytes buf count) ;;
    r <- on_fs (vfs_write pfile bytes count) ;;
    set_opened_file hart i (snd r) ;;;
    ret (i32 (fst r)).

Definition do_lseek (hart : nat) (fd offset whence : Z) : M kern Z :=
  e <- get_opened_file hart fd ;;
  r <- on_fs (vfs_lseek (snd e) offset whence) ;;
  set_opened_file hart (fst e) (snd r) ;;;
  ret (i32 (fst r)).

(** [struct istat] of util/types.h: five integers. *)
Definition st_istat (a : Z) (s : istat) : M kern unit :=
  on_pmm (st_bytes a (ints [st_inum s; st_size s; st_type s; st_nlinks s; st_blocks s])).

Definition do_stat (hart : nat) (fd a : Z) : M kern Z :=
  e <- get_opened_file hart fd ;;
  r <- on_fs (vfs_stat (snd e)) ;;
  st_istat a (snd r) ;;; ret (fst r).

Definition do_disk_stat (hart : nat) (fd a : Z) : M kern Z :=
  e <- get_opened_file hart fd ;;
  r <- on_fs (vfs_disk_stat (snd e)) ;;
  st_istat a (snd r) ;;; ret (fst r).

(** [nfiles] is left as it is. *)
Definition do_close (hart : nat) (fd : Z) : M kern Z :=
  e <- get_opened_file hart fd ;;
  r <- on_fs (vfs_close (snd e)) ;;
  set_opened_file hart (fst e) (snd r) ;;;
  ret (fst r).

(** * Directories *)

Definition do_opendir (hart : nat) (pathname : cname) : M kern Z :=
  dir <- cur_cwd hart ;;
  opened_file <- on_fs (vfs_opendir pathname dir) ;;
  if opened_file =? 0 then ret (-1)
  else
    r <- cur_pfiles hart ;;
    match find_fd (opened_files (snd r)) with
    | Some i => install_file hart i opened_file ;;; ret (Z.of_nat i)
    | None => panic "do_opendir: no file entry for current process!"
    end.

(** [struct dir]: a name of 32 bytes and an integer. *)
Definition st_dir (a : Z) (d : dir) : M kern unit :=
  on_pmm (st_bytes a (dir_name d ++ [0])) ;;; on_pmm (st_bytes (a + 32) (le32 (dir_inum d))).

Definition do_readdir (hart : nat) (fd a : Z) : M kern Z :=
  e <- get_opened_file hart fd ;;
  r <- on_fs (vfs_readdir (snd e)) ;;
  let '(n, d, f) := r in
  set_opened_file hart (fst e) f ;;;
  (match d with Some d => st_dir a d | None => ret tt end) ;;;
  ret n.

Definition do_mkdir (hart : nat) (pathname : cname) : M kern Z :=
  dir <- cur_cwd hart ;; on_fs (vfs_mkdir pathname dir).

Definition do_closedir (hart : nat) (fd : Z) : M kern Z :=
  e <- get_opened_file hart fd ;;
  r <- on_fs (vfs_closedir (snd e)) ;;
  set_opened_file hart (fst e) (snd r) ;;;
  ret (fst r).

Definition do_link (hart : nat) (oldpath newpath : cname) : M kern Z :=
  dir <- cur_cwd hart ;; on_fs (vfs_link oldpath newpath dir).

Definition do_unlink (hart : nat) (path : cname) : M kern Z :=
  dir <- cur_cwd hart ;; on_fs (vfs_unlink path dir).

(** * The working directory *)

(** The loop of [do_read_cwd]: [path] itself is not updated, so that the name of the
    last dentry reached, the root, ends up before the name of the directory. *)
Fixpoint cwd_text (fuel : nat) (path path_copy : cname) (par : Z) : M (fs pmm) cname :=
  match fuel with
  | O => fault
  | S f =>
      if par =? 0 then ret path_copy
      else
        d <- get_dentry par ;;
        let path_copy := d_name d ++ path in
        if MAX_PATH_LEN <=? Z.of_nat (length path_copy) then fault
        else cwd_text f path path_copy (d_parent d)
  end.

Definition do_read_cwd (hart : nat) (path : Z) : M kern Z :=
  dir <- cur_cwd hart ;;
  d <- on_fs (get_dentry dir) ;;
  k <- gets id ;;
  text <- on_fs (cwd_text (S (size (dentries (k_fs k)))) (d_name d) (d_name d) (d_parent d)) ;;
  on_pmm (st_bytes path (text ++ [0])) ;;;
  ret 0.

Definition do_change_cwd (hart : nat) (path : cname) : M kern Z :=
  dir <- cur_cwd hart ;;
  r <- on_fs (lookup_final_dentry path dir) ;;
  let '(file_dentry, _, _) := r in
  if file_dentry =? 0 then ret (-1)
  else
    d <- on_fs (get_dentry file_dentry) ;;
    v <- on_fs (get_vinode (dentry_inode d)) ;;
    if negb (i_type v =? DIR_I) then ret (-1)
    else
      r <- cur_pfiles hart ;;
      on_fs (put_pfiles (fst r) ((snd r) <| cwd := file_dentry |>)) ;;;
      ret 0.

(** * Programs *)

(** The bound on the line number program of an ELF file. *)
Variable fuel : nat.

(** [arg] is a physical address; [args] has 128 bytes. *)
Definition do_exec (hart : nat) (path : cname) (arg : Z) : M kern Z :=
  dir <- cur_cwd hart ;;
  fp <- on_fs (vfs_open path O_RDONLY dir) ;;
  if fp =? 0 then ret (-1)
  else
    f <- on_fs (get_file fp) ;;
    r <- on_fs (vfs_close f) ;;
    on_fs (put_file fp (snd r)) ;;;
    args <- on_pmm (ld_string 128 arg) ;;
    (if 128 <=? Z.of_nat (length args) then fault else ret tt) ;;;
    i <- get_current hart ;;
    p <- get_proc i ;;
    epc <- on_pmm (ld64 (trapframe p + TF_epc)) ;;
    exec_clean i ;;;
    p <- get_proc i ;;
    let tf := trapframe p in
    sp <- on_pmm (ld64 (tf + TF_sp)) ;;
    let argv_va := u64 (sp - Z.of_nat (length args) - 1) in
    let argv_va := argv_va - argv_va mod 8 in
    argv_pa <- on_pmm (user_va_to_pa (pagetable p) argv_va) ;;
    on_pmm (st_bytes argv_pa (args ++ [0])) ;;;
    let argvs_va := u64 (argv_va - 8) in
    argvs_pa <- on_pmm (user_va_to_pa (pagetable p) argvs_va) ;;
    on_pmm (st64 argvs_pa argv_va) ;;;
    on_pmm (st64 (tf + TF_a0) 1) ;;;
    on_pmm (st64 (tf + TF_a1) argvs_va) ;;;
    on_pmm (st64 (tf + TF_sp) (argvs_va - argvs_va mod 16)) ;;;
    load_bincode_from_host_elf fuel hart i path ;;;
    p <- get_proc i ;;
    a1 <- on_pmm (ld64 (trapframe p + TF_a1)) ;;
    (if a1 =? 18446744073709551615 then on_pmm (st64 (trapframe p + TF_epc) epc) else ret tt) ;;;
    ret (-1).

(** The loop waits for another hart to set [child_running]. *)
Definition do_wait_call (hart : nat) : M kern Z :=
  k <- gets id ;;
  if child_running k =? 0 then hang else schedule hart ;;; ret 0.

(** [stale] is what the page of the open files of the new process held. *)
Definition do_test (hart : nat) (stale : list file) (path : cname) : M kern Z :=
  p <- alloc_process stale ;;
  load_bincode_from_host_elf fuel hart p path ;;;
  x <- get_proc p ;;
  on_pmm (st64 (trapframe x + TF_tp) 1) ;;;
  cur <- get_current hart ;;
  mod_proc p (fun x => x <| parent := Some cur |> <| is_child := 1 |>) ;;;
  insert_to_ready_queue p ;;;
  modify (fun k => k <| child_running := 1 |>) ;;;
  mod_proc cur (fun x => x <| status := READY |>) ;;;
  insert_to_ready_queue cur ;;;
  schedule hart ;;;
  ret 0.
End proc_file.
