(* ===== verification/Snprintf.v ===== *)
(** util/snprintf.c: [vsnprintf] on byte-addressed memory, and the text it prints as
    a function of the format and the arguments. *)

From S2P Require Import Prelude Mem CString.

(** * vsnprintf *)

(** The position [pos] of the source, and the memory. *)
Section vsnprintf.
Variables (out n : Z).

(** [if (++pos < n) out[pos - 1] = c] *)
Definition put_char (st : mem * Z) (c : Z) : mem * Z :=
  let '(m, pos) := st in
  let pos := u64 (pos + 1) in
  (if pos <? n then store8 m (out + (pos - 1)) c else m, pos).

Definition hex_digit (d : Z) : Z := if d <? 10 then 48 + d else 97 + d - 10.

(** The loop of [%x], from digit [k - 1] down to 0. *)
Fixpoint put_hex (num : Z) (k : nat) (st : mem * Z) : mem * Z :=
  match k with
  | O => st
  | S i => put_hex num i (put_char st (hex_digit (Z.land (Z.shiftr num (4 * Z.of_nat i)) 15)))
  end.

(** [for (long nn = num; nn /= 10; digits++)]: a 64-bit number has at most 19 digits. *)
Fixpoint count_digits (fuel : nat) (nn digits : Z) : Z :=
  match fuel with
  | O => digits
  | S f => let nn := Z.quot nn 10 in if nn =? 0 then digits else count_digits f nn (digits + 1)
  end.

(** [for (int i = digits - 1; i >= 0; i--)] *)
Fixpoint put_digits (m : mem) (pos num : Z) (k : nat) : mem :=
  match k with
  | O => m
  | S i =>
      put_digits
        (if u64 (pos + Z.of_nat i + 1) <? n then store8 m (out + (pos + Z.of_nat i)) (48 + Z.rem num 10) else m)
        pos (Z.quot num 10) i
  end.

Definition put_dec (num : Z) (st : mem * Z) : mem * Z :=
  let '(num, st) := if num <? 0 then (i64 (- num), put_char st 45) else (num, st) in
  let '(m, pos) := st in
  let digits := count_digits 20 num 1 in
  (put_digits m pos num (Z.to_nat digits), u64 (pos + digits)).

(** [while ( *s2 )] *)
Fixpoint put_str (fuel : nat) (s2 : Z) (st : mem * Z) : option (mem * Z) :=
  match fuel with
  | O => None
  | S f =>
      let c := load8 (fst st) s2 in
      if c =? 0 then Some st else put_str f (s2 + 1) (put_char st c)
  end.

(** [va_arg] reads the next 64-bit slot as the given type; [None] when there is none. *)
Definition num_arg (longarg : bool) (a : Z) : Z := if longarg then i64 a else i32 a.

(** The case of [%x], reached from [%p] with [longarg] set. *)
Definition print_hex (longarg : bool) (vl : list Z) (st : mem * Z) : option (mem * Z * list Z) :=
  match vl with
  | [] => None
  | a :: vl => Some (put_hex (num_arg longarg a) (if longarg then 16 else 8)%nat st, vl)
  end.

(** The loop over the format at [s], with the state of [format], [longarg] and [vl]. *)
Fixpoint format_loop (fuel : nat) (s : Z) (format longarg : bool) (vl : list Z) (st : mem * Z) : option (mem * Z) :=
  match fuel with
  | O => None
  | S f =>
      let c := load8 (fst st) s in
      if c =? 0 then Some st
      else if format then
        if c =? 108 then format_loop f (s + 1) true true vl st
        else if c =? 112 then
          match print_hex true vl (put_char (put_char st 48) 120) with
          | None => None
          | Some (st, vl) => format_loop f (s + 1) false false vl st
          end
        else if c =? 120 then
          match print_hex longarg vl st with
          | None => None
          | Some (st, vl) => format_loop f (s + 1) false false vl st
          end
        else if c =? 100 then
          match vl with
          | [] => None
          | a :: vl => format_loop f (s + 1) false false vl (put_dec (num_arg longarg a) st)
          end
        else if c =? 115 then
          match vl with
          | [] => None
          | a :: vl =>
              match put_str f a st with
              | None => None
              | Some st => format_loop f (s + 1) false false vl st
              end
          end
        else if c =? 99 then
          let pos := u64 (snd st + 1) in
          if pos <? n then
            match vl with
            | [] => None
            | a :: vl => format_loop f (s + 1) false false vl (store8 (fst st) (out + (pos - 1)) (u8 (i32 a)), pos)
            end
          else format_loop f (s + 1) false false vl (fst st, pos)
        else format_loop f (s + 1) format longarg vl st
      else if c =? 37 then format_loop f (s + 1) true longarg vl st
      else format_loop f (s + 1) format longarg vl (put_char st c)
  end.

Definition vsnprintf (fuel : nat) (m : mem) (s : Z) (vl : list Z) : option (mem * Z) :=
  match format_loop fuel s false false vl (m, 0) with
  | None => None
  | Some (m, pos) =>
      Some (if pos <? n then store8 m (out + pos) 0 else if n =? 0 then m else store8 m (out + (n - 1)) 0, i32 pos)
  end.
End vsnprintf.

(** * The text of a format *)

(** An argument: a number, or a pointer to a string. *)
Inductive arg := Num (z : Z) | Str (p : Z) (l : list Z).

Definition raw (a : arg) : Z := match a with Num z => z | Str p _ => p end.

Fixpoint hex_text (num : Z) (k : nat) : list Z :=
  match k with
  | O => []
  | S i => hex_digit (num / 16 ^ Z.of_nat i mod 16) :: hex_text num i
  end.

(** The decimal digits of a natural number, most significant first. *)
Fixpoint dec_digits (fuel : nat) (z : Z) : list Z :=
  match fuel with
  | O => []
  | S f => (if z / 10 =? 0 then [] else dec_digits f (z / 10)) ++ [48 + z mod 10]
  end.

Definition dec_text (z : Z) : list Z := if z <? 0 then 45 :: dec_digits 20 (- z) else dec_digits 20 z.

(** The text of the format, printed into a buffer of [n] bytes from position [pos] on;
    [None] when a conversion has no argument of its kind.  [%c] takes its argument only
    when the character fits: one that does not is counted (as a NUL here, which no byte of
    the buffer shows), and its argument is left to the conversion behind it. *)
Fixpoint render (n pos : Z) (fmt : list Z) (format longarg : bool) (args : list arg) : option (list Z) :=
  match fmt with
  | [] => Some []
  | c :: fmt =>
      if format then
        if c =? 108 then render n pos fmt true true args
        else if (c =? 99) && (n <=? pos + 1) then app [0] <$> render n (pos + 1) fmt false false args
        else if (c =? 112) || (c =? 120) || (c =? 100) || (c =? 99) then
          match args with
          | Num a :: args =>
              let u := if c =? 112 then 48 :: 120 :: hex_text (i64 a) 16
                   else if c =? 120 then hex_text (num_arg longarg a) (if longarg then 16 else 8)%nat
                   else if c =? 100 then dec_text (num_arg longarg a)
                   else [u8 a] in
              app u <$> render n (pos + Z.of_nat (length u)) fmt false false args
          | _ => None
          end
        else if c =? 115 then
          match args with
          | Str _ l :: args => app l <$> render n (pos + Z.of_nat (length l)) fmt false false args
          | _ => None
          end
        else render n pos fmt format longarg args
      else if c =? 37 then render n pos fmt true longarg args
      else cons c <$> render n (pos + 1) fmt format longarg args
  end.

(** The buffer of [vprintk], and what of a text it hands over: a longer text is cut to 255
    characters and sent with the NUL behind them. *)
Definition OUT_SIZE : Z := 256.
Definition sent (txt : list Z) : list Z :=
  if Z.of_nat (length txt) <? OUT_SIZE then u8 <$> txt else (u8 <$> take 255 txt) ++ [0].

(** * The routines print their text *)

Section printed.
Variables (out n : Z) (m0 : mem).

(** The text [t] has been printed: what fits of it is in the buffer, and nothing
    else has changed. *)
Definition printed (t : list Z) (st : mem * Z) : Prop :=
  snd st = Z.of_nat (length t) /\ unchanged_outside out (out + n) m0 (fst st) /\
  forall i c, t !! i = Some c -> Z.of_nat i + 1 < n -> load8 (fst st) (out + Z.of_nat i) = u8 c.

Definition fits (t : list Z) : Prop := Z.of_nat (length t) < 2147483648.

Lemma fits_app t u : fits (t ++ u) -> fits t.
Proof. unfold fits. rewrite length_app. lia. Qed.

Lemma put_char_printed t st c : fits (t ++ [c]) -> printed t st -> printed (t ++ [c]) (put_char out n st c).
Proof.
  unfold fits. rewrite length_app. cbn [length]. intros Hf (Hp & Hu & Hb). destruct st as [m pos]. cbn [fst snd] in *.
  subst pos. unfold put_char. rewrite u64_small by lia. unfold printed. cbn [fst snd]. rewrite length_app. cbn [length].
  split; [lia|]. destruct (Z.ltb_spec (Z.of_nat (length t) + 1) n) as [Hlt|Hge].
  - replace (out + (Z.of_nat (length t) + 1 - 1)) with (out + Z.of_nat (length t)) by lia. split.
    + apply (unchanged_trans _ _ _ m); [done|]. eapply unchanged_mono; [| |apply unchanged_store8]; lia.
    + intros i d Hd Hi. rewrite load8_store8. destruct (Z.eqb_spec (out + Z.of_nat i) (out + Z.of_nat (length t))).
      * rewrite lookup_app_r in Hd by lia. by replace (i - length t)%nat with 0%nat in Hd by lia; injection Hd as ->.
      * apply Hb; [|done]. pose proof (lookup_lt_Some _ _ _ Hd) as Hl. rewrite length_app in Hl. cbn in Hl.
        by rewrite lookup_app_l in Hd by lia.
  - split; [done|]. intros i d Hd Hi. apply Hb; [|done]. by rewrite lookup_app_l in Hd by lia.
Qed.

Lemma hex_value num i : 0 <= i -> Z.land (Z.shiftr num (4 * i)) 15 = num / 16 ^ i mod 16.
Proof.
  intros. rewrite Z.shiftr_div_pow2 by lia. change 15 with (Z.ones 4). rewrite Z.land_ones by lia.
  by rewrite Z.pow_mul_r by lia.
Qed.

Lemma put_hex_printed num k : forall t st,
  fits (t ++ hex_text num k) -> printed t st -> printed (t ++ hex_text num k) (put_hex out n num k st).
Proof.
  induction k as [|i IH]; intros t st Hf Hp; cbn [put_hex hex_text].
  - by rewrite app_nil_r.
  - cbn [hex_text] in Hf. rewrite cons_middle, app_assoc in *. rewrite hex_value by lia.
    apply IH; [done|]. apply put_char_printed; [by eapply fits_app|done].
Qed.

(** ** Decimal numbers *)

(** The [k] last digits of [z]. *)
Fixpoint low_digits (z : Z) (k : nat) : list Z :=
  match k with
  | O => []
  | S i => low_digits (z / 10) i ++ [48 + z mod 10]
  end.

Lemma length_low_digits k : forall z, length (low_digits z k) = k.
Proof. induction k as [|k IH]; intros z; cbn [low_digits]; [done|]. rewrite length_app, IH. cbn. lia. Qed.

Lemma dec_digits_low f : forall z, 0 <= z < 10 ^ Z.of_nat f -> dec_digits f z = low_digits z (length (dec_digits f z)).
Proof.
  induction f as [|f IH]; intros z Hz; [done|]. cbn [dec_digits]. rewrite length_app. cbn [length].
  rewrite Nat.add_1_r. cbn [low_digits]. f_equal. destruct (Z.eqb_spec (z / 10) 0); [done|].
  apply IH. split; [apply Z.div_pos; lia|]. apply Z.div_lt_upper_bound; [lia|].
  rewrite Nat2Z.inj_succ, Z.pow_succ_r in Hz by lia. lia.
Qed.

Lemma count_digits_length f : forall z d, 0 <= z < 10 ^ Z.of_nat f -> f <> O ->
  count_digits f z d = d - 1 + Z.of_nat (length (dec_digits f z)).
Proof.
  induction f as [|f IH]; intros z d Hz Hf; [done|]. cbn [count_digits dec_digits].
  rewrite Z.quot_div_nonneg by lia. rewrite length_app. cbn [length].
  destruct (Z.eqb_spec (z / 10) 0); [cbn; lia|].
  assert (0 <= z / 10 < 10 ^ Z.of_nat f) as Hr.
  { split; [apply Z.div_pos; lia|]. apply Z.div_lt_upper_bound; [lia|].
    rewrite Nat2Z.inj_succ, Z.pow_succ_r in Hz by lia. lia. }
  rewrite IH; [lia|done|]. intros ->. cbn in Hr. lia.
Qed.

Lemma put_digits_spec pos k : forall m z,
  0 <= z -> 0 <= pos -> pos + Z.of_nat k < 18446744073709551616 ->
  unchanged_outside (out + pos) (Z.min (out + n) (out + pos + Z.of_nat k)) m (put_digits out n m pos z k) /\
  forall i c, low_digits z k !! i = Some c -> pos + Z.of_nat i + 1 < n ->
    load8 (put_digits out n m pos z k) (out + pos + Z.of_nat i) = u8 c.
Proof.
  induction k as [|k IH]; intros m z Hz Hp Hk; cbn [put_digits low_digits]; [split; [apply unchanged_refl|done]|].
  rewrite Z.quot_div_nonneg, Z.rem_mod_nonneg, u64_small by lia.
  set (m1 := if _ <? n then _ else m).
  destruct (IH m1 (z / 10)) as [Hu Hb]; [apply Z.div_pos; lia|lia|lia|]. split.
  - intros a Ha. rewrite Hu by lia. unfold m1. case_if; [|done]. apply load8_store8_ne. lia.
  - intros i c Hc Hi. destruct (decide (i < k)%nat).
    + apply Hb; [|lia]. by rewrite lookup_app_l in Hc by (rewrite length_low_digits; lia).
    + pose proof (lookup_lt_Some _ _ _ Hc) as Hl. rewrite length_app, length_low_digits in Hl. cbn in Hl.
      assert (i = k) as -> by lia. rewrite lookup_app_r in Hc by (rewrite length_low_digits; lia).
      rewrite length_low_digits, Nat.sub_diag in Hc. injection Hc as <-. rewrite Hu by lia. unfold m1.
      destruct (Z.ltb_spec (pos + Z.of_nat k + 1) n); [|lia].
      replace (out + pos + Z.of_nat k) with (out + (pos + Z.of_nat k)) by lia. apply load8_store8_eq.
Qed.

Lemma put_digits_printed t m z :
  let d := dec_digits 20 z in
  0 <= z < 9223372036854775808 -> fits (t ++ d) -> printed t (m, Z.of_nat (length t)) ->
  printed (t ++ d) (put_digits out n m (Z.of_nat (length t)) z (length d), u64 (Z.of_nat (length t) + Z.of_nat (length d))).
Proof.
  intros d Hz Hf (_ & Hu & Hb). unfold fits in Hf. rewrite length_app in Hf. cbn [fst] in Hu, Hb.
  destruct (put_digits_spec (Z.of_nat (length t)) (length d) m z) as [Hu' Hb']; [lia..|].
  unfold d in Hb' at 1. rewrite <-dec_digits_low in Hb' by (cbn; lia). fold d in Hb'.
  unfold printed. cbn [fst snd]. rewrite u64_small by lia. split; [rewrite length_app; lia|]. split.
  - apply (unchanged_trans _ _ _ m); [done|]. eapply unchanged_mono; [| |exact Hu']; lia.
  - intros i c Hc Hi. destruct (decide (i < length t)%nat).
    + rewrite lookup_app_l in Hc by done. rewrite Hu' by lia. by apply Hb.
    + rewrite lookup_app_r in Hc by lia. replace (out + Z.of_nat i) with (out + Z.of_nat (length t) + Z.of_nat (i - length t)) by lia.
      apply Hb'; [done|lia].
Qed.

Lemma put_dec_printed t st z :
  -9223372036854775808 < z < 9223372036854775808 -> fits (t ++ dec_text z) -> printed t st ->
  printed (t ++ dec_text z) (put_dec out n z st).
Proof.
  intros Hz Hf Hp. unfold put_dec, dec_text in *. destruct (Z.ltb_spec z 0).
  - assert (i64 (- z) = - z) as -> by (unfold i64; rewrite Z.mod_small; lia).
    rewrite cons_middle, app_assoc in *. pose proof (put_char_printed t st 45 (fits_app _ _ Hf) Hp) as Hp1.
    destruct (put_char out n st 45) as [m pos]. pose proof Hp1 as (Hpos & _). cbn [snd] in Hpos. subst pos.
    rewrite count_digits_length by (cbn; lia).
    replace (1 - 1 + Z.of_nat (length (dec_digits 20 (- z)))) with (Z.of_nat (length (dec_digits 20 (- z)))) by lia.
    rewrite Nat2Z.id. apply put_digits_printed; [lia|done|done].
  - destruct st as [m pos]. pose proof Hp as (Hpos & _). cbn [snd] in Hpos. subst pos.
    rewrite count_digits_length by (cbn; lia).
    replace (1 - 1 + Z.of_nat (length (dec_digits 20 z))) with (Z.of_nat (length (dec_digits 20 z))) by lia.
    rewrite Nat2Z.id. apply put_digits_printed; [lia|done|done].
Qed.

(** ** Strings *)

Definition apart (p : Z) (l : list Z) : Prop := p + Z.of_nat (length l) < out \/ out + n <= p.

Lemma apart_tail p c l : apart p (c :: l) -> apart (p + 1) l.
Proof. unfold apart. cbn [length]. lia. Qed.

(** What lies apart from the buffer still reads as at the start. *)
Lemma printed_load t st p l : printed t st -> apart p l -> load8 (fst st) p = load8 m0 p.
Proof. intros (_ & Hu & _) Ha. apply Hu. unfold apart in Ha. lia. Qed.

Lemma put_str_printed l : forall fuel t st p,
  cstr m0 p l -> apart p l -> (length l < fuel)%nat -> fits (t ++ l) -> printed t st ->
  exists st', put_str out n fuel p st = Some st' /\ printed (t ++ l) st'.
Proof.
  induction l as [|c l IH]; intros fuel t st p Hc Ha Hfu Hf Hp; (destruct fuel as [|f]; [cbn in Hfu; lia|]);
    cbn [put_str cstr length] in *; rewrite (printed_load t st p _ Hp Ha).
  - rewrite Hc. exists st. by rewrite app_nil_r.
  - destruct Hc as (-> & Hc0 & Hc). destruct (Z.eqb_spec c 0); [done|]. rewrite cons_middle, app_assoc in *.
    apply IH; [done|by eapply apart_tail|lia|done|]. apply put_char_printed; [by eapply fits_app|done].
Qed.
End printed.

Lemma u8_i32 a : u8 (i32 a) = u8 a.
Proof.
  unfold u8, i32. rewrite (Z.mod_eq (a + 2147483648)) by lia. set (q := (a + 2147483648) / 4294967296).
  replace (a + 2147483648 - 4294967296 * q - 2147483648) with (a + (- 16777216 * q) * 256) by lia.
  apply Z_mod_plus_full.
Qed.

Lemma i64_range z : -9223372036854775808 <= i64 z < 9223372036854775808.
Proof. unfold i64. pose proof (Z.mod_pos_bound (z + 9223372036854775808) 18446744073709551616). lia. Qed.

Lemma app_Some (u w txt : list Z) : app u <$> Some w = Some txt -> u ++ w = txt.
Proof. by intros [= ->]. Qed.

(** ** The loop over the format *)

Section loop.
Variables (out n : Z) (m0 : mem).

(** A number is not the smallest [long], which has no negation; a string ends, away from
    the buffer. *)
Definition arg_ok (a : arg) : Prop :=
  match a with
  | Num z => i64 z <> -9223372036854775808
  | Str p l => cstr m0 p l /\ apart out n p l
  end.

Definition arg_len (a : arg) : nat := match a with Num _ => O | Str _ l => length l end.

Lemma num_arg_range lg z : i64 z <> -9223372036854775808 -> -9223372036854775808 < num_arg lg z < 9223372036854775808.
Proof.
  intros. destruct lg; cbn [num_arg]; [pose proof (i64_range z)|pose proof (i32_range z)]; lia.
Qed.

Lemma format_loop_printed fmt : forall fuel s format longarg args t txt st,
  cstr m0 s fmt -> apart out n s fmt -> Forall arg_ok args ->
  (forall a, a ∈ args -> length fmt + arg_len a < fuel)%nat -> (length fmt < fuel)%nat ->
  render n (Z.of_nat (length t)) fmt format longarg args = Some txt -> fits (t ++ txt) -> printed out n m0 t st ->
  exists st', format_loop out n fuel s format longarg (raw <$> args) st = Some st' /\ printed out n m0 (t ++ txt) st'.
Proof.
  induction fmt as [|c fmt IH]; intros fuel s fo lg args t txt st Hs Ha Hargs Hlen Hfu Hr Hf Hp;
    (destruct fuel as [|f]; [cbn in Hfu; lia|]); cbn [format_loop render cstr length] in *;
    rewrite (printed_load out n m0 t st s _ Hp Ha).
  { injection Hr as <-. rewrite Hs. exists st. by rewrite app_nil_r. }
  destruct Hs as (-> & Hc0 & Hs). destruct (Z.eqb_spec c 0); [done|]. apply apart_tail in Ha.
  assert (length fmt < f)%nat as Hfu' by lia.
  assert (forall a, a ∈ args -> length fmt + arg_len a < f)%nat as Hlen' by (intros a Hin; specialize (Hlen a Hin); lia).
  (* one conversion printed [u], the rest of the format prints [w] *)
  assert (forall args' u w st1, (forall a, a ∈ args' -> a ∈ args) ->
    render n (Z.of_nat (length t) + Z.of_nat (length u)) fmt false false args' = Some w -> txt = u ++ w ->
    (printed out n m0 (t ++ u) st1) -> exists st',
    format_loop out n f (s + 1) false false (raw <$> args') st1 = Some st' /\ printed out n m0 (t ++ txt) st') as Hnext.
  { intros args' u w st1 Hsub Ew -> Hst1. rewrite app_assoc in *. rewrite Forall_forall in Hargs.
    apply (IH f (s + 1) false false args' (t ++ u)); [done|done| | |done| |done|done].
    - apply Forall_forall. auto.
    - auto.
    - by rewrite length_app, Nat2Z.inj_add. }
  destruct fo.
  2:{ destruct (Z.eqb_spec c 37); [by apply IH|].
      destruct (render n _ fmt false lg args) as [w|] eqn:Ew; [|done]. injection Hr as <-.
      rewrite cons_middle, app_assoc in *. apply (IH f (s + 1) false lg args (t ++ [c])); try done.
      - by rewrite length_app, Nat2Z.inj_add.
      - apply put_char_printed; [by eapply fits_app|done]. }
  destruct (Z.eqb_spec c 108); [by apply IH|].
  destruct (Z.eqb_spec c 112) as [->|]; cbn [orb andb Z.eqb Pos.eqb] in Hr.
  { destruct args as [|[a|] args]; [done| |done]. cbn [Z.eqb Pos.eqb] in Hr.
    destruct (render n _ fmt false false args) as [w|] eqn:Ew; [|done]. apply app_Some in Hr as Htxt. cbn [fmap list_fmap raw print_hex].
    apply (Hnext args (48 :: 120 :: hex_text (i64 a) 16) w); [by right|done|done|].
    change (t ++ 48 :: 120 :: hex_text (i64 a) 16) with (t ++ [48] ++ [120] ++ hex_text (i64 a) 16).
    rewrite <-Htxt in Hf.
    change ((48 :: 120 :: hex_text (i64 a) 16) ++ w) with ([48] ++ [120] ++ hex_text (i64 a) 16 ++ w) in Hf.
    rewrite !app_assoc in Hf.
    rewrite !app_assoc. apply fits_app in Hf. apply put_hex_printed; [done|]. apply fits_app in Hf.
    apply put_char_printed; [done|]. apply put_char_printed; [by eapply fits_app|done]. }
  destruct (Z.eqb_spec c 120) as [->|]; cbn [orb andb Z.eqb Pos.eqb] in Hr.
  { destruct args as [|[a|] args]; [done| |done]. cbn [Z.eqb Pos.eqb] in Hr.
    destruct (render n _ fmt false false args) as [w|] eqn:Ew; [|done]. apply app_Some in Hr as Htxt. cbn [fmap list_fmap raw print_hex].
    apply (Hnext args (hex_text (num_arg lg a) (if lg then 16 else 8)%nat) w); [by right|done|done|].
    rewrite <-Htxt, app_assoc in Hf. apply put_hex_printed; [by eapply fits_app|done]. }
  destruct (Z.eqb_spec c 100) as [->|]; cbn [orb andb Z.eqb Pos.eqb] in Hr.
  { destruct args as [|[a|] args]; [done| |done]. cbn [Z.eqb Pos.eqb] in Hr.
    destruct (render n _ fmt false false args) as [w|] eqn:Ew; [|done]. apply app_Some in Hr as Htxt. cbn [fmap list_fmap raw].
    apply (Hnext args (dec_text (num_arg lg a)) w); [by right|done|done|].
    rewrite <-Htxt, app_assoc in Hf. pose proof (Forall_inv Hargs) as Ha1.
    apply put_dec_printed; [by apply num_arg_range|by eapply fits_app|done]. }
  destruct (Z.eqb_spec c 115) as [->|].
  { cbn [orb Z.eqb Pos.eqb] in Hr. destruct args as [|[|p l] args]; [done|done|].
    destruct (render n _ fmt false false args) as [w|] eqn:Ew; [|done]. apply app_Some in Hr as Htxt. cbn [fmap list_fmap raw].
    pose proof (Forall_inv Hargs) as [Hl1 Hl2]. rewrite <-Htxt, app_assoc in Hf.
    destruct (put_str_printed out n m0 l f t st p) as (st1 & E1 & P1); [done|done| |by eapply fits_app|done|].
    { specialize (Hlen' (Str p l)). cbn [arg_len] in Hlen'. assert (length fmt + length l < f)%nat by (apply Hlen'; by left). lia. }
    rewrite E1. apply (Hnext args l w); [by right|done|done|done]. }
  destruct (Z.eqb_spec c 99) as [->|]; cbn [orb andb] in Hr; [|by apply IH].
  destruct st as [m pos]. pose proof Hp as (Epos & _). cbn [fst snd] in Epos |- *. subst pos.
  rewrite u64_small by (unfold fits in Hf; rewrite length_app in Hf; lia).
  destruct (Z.leb_spec n (Z.of_nat (length t) + 1)).
  - destruct (render n _ fmt false false args) as [w|] eqn:Ew; [|done]. apply app_Some in Hr as Htxt.
    destruct (Z.ltb_spec (Z.of_nat (length t) + 1) n); [lia|].
    apply (Hnext args [0] w); [done|done|done|]. rewrite <-Htxt, app_assoc in Hf. apply fits_app in Hf.
    pose proof (put_char_printed out n m0 t _ 0 Hf Hp) as Hpc. unfold put_char in Hpc.
    unfold fits in Hf. rewrite length_app in Hf. cbn [length] in Hf. rewrite u64_small in Hpc by lia.
    by destruct (Z.ltb_spec (Z.of_nat (length t) + 1) n); [lia|].
  - destruct args as [|[a|] args]; [done| |done]. cbn [Z.eqb Pos.eqb] in Hr.
    destruct (render n _ fmt false false args) as [w|] eqn:Ew; [|done]. apply app_Some in Hr as Htxt. cbn [fmap list_fmap raw].
    destruct (Z.ltb_spec (Z.of_nat (length t) + 1) n); [|lia].
    apply (Hnext args [u8 a] w); [by right|done|done|]. rewrite u8_i32. rewrite <-Htxt, app_assoc in Hf. apply fits_app in Hf.
    pose proof (put_char_printed out n m0 t _ (u8 a) Hf Hp) as Hpc. unfold put_char in Hpc.
    unfold fits in Hf. rewrite length_app in Hf. cbn [length] in Hf. rewrite u64_small in Hpc by lia.
    by destruct (Z.ltb_spec (Z.of_nat (length t) + 1) n); [|lia].
Qed.
End loop.

Lemma vsnprintf_run out n fuel m s fmt args txt :
  0 <= n -> cstr m s fmt -> apart out n s fmt -> Forall (arg_ok out n m) args ->
  (forall a, a ∈ args -> length fmt + arg_len a < fuel)%nat -> (length fmt < fuel)%nat ->
  render n 0 fmt false false args = Some txt -> Z.of_nat (length txt) < 2147483648 ->
  exists m', vsnprintf out n fuel m s (raw <$> args) = Some (m', Z.of_nat (length txt)) /\
    unchanged_outside out (out + n) m m' /\
    (forall i c, txt !! i = Some c -> Z.of_nat i + 1 < n -> load8 m' (out + Z.of_nat i) = u8 c) /\
    (0 < n -> load8 m' (out + Z.min (Z.of_nat (length txt)) (n - 1)) = 0).
Proof.
  intros Hn Hs Ha Hargs Hlen Hfu Hr Hlt.
  destruct (format_loop_printed out n m fmt fuel s false false args [] txt (m, 0)) as ([m1 pos] & E & Hp & Hu & Hb);
    [done..|by split_and!|]. cbn [fst snd] in *. rewrite app_nil_l in *. subst pos.
  unfold vsnprintf. rewrite E, i32_small by lia. eexists. split; [done|].
  destruct (Z.ltb_spec (Z.of_nat (length txt)) n).
  - split_and!.
    + apply (unchanged_trans _ _ _ m1); [done|]. eapply unchanged_mono; [| |apply unchanged_store8]; lia.
    + intros i c Hc Hi. pose proof (lookup_lt_Some _ _ _ Hc). rewrite load8_store8_ne by lia. by apply Hb.
    + intros _. rewrite Z.min_l by lia. apply load8_store8_eq.
  - destruct (Z.eqb_spec n 0) as [->|]; [split_and!; [done|done|lia]|]. split_and!.
    + apply (unchanged_trans _ _ _ m1); [done|]. eapply unchanged_mono; [| |apply unchanged_store8]; lia.
    + intros i c Hc Hi. rewrite load8_store8_ne by lia. by apply Hb.
    + intros _. rewrite Z.min_r by lia. apply load8_store8_eq.
Qed.

(** * Claims *)

(** C24.  [vsnprintf] prints the text the format and the arguments describe.  It returns
    the length of the whole text; the buffer receives as much of it as fits before the
    last byte, followed by a NUL; and no byte outside the [n] bytes of the buffer
    changes, whatever the length of the text, [n] = 0 included.  The text is the usual one
    up to a [%c] that does not fit: it counts one character but leaves its argument to the
    next conversion, so from there on the conversions print, and count, shifted arguments
    ([render]). *)
Theorem vsnprintf_spec out n fuel m s fmt args txt :
  0 <= n -> cstr m s fmt -> apart out n s fmt -> Forall (arg_ok out n m) args ->
  (forall a, a ∈ args -> length fmt + arg_len a < fuel)%nat -> (length fmt < fuel)%nat ->
  render n 0 fmt false false args = Some txt -> Z.of_nat (length txt) < 2147483648 ->
  exists m', vsnprintf out n fuel m s (raw <$> args) = Some (m', Z.of_nat (length txt)) /\
    unchanged_outside out (out + n) m m' /\
    (forall i c, txt !! i = Some c -> Z.of_nat i + 1 < n -> load8 m' (out + Z.of_nat i) = u8 c) /\
    (0 < n -> load8 m' (out + Z.min (Z.of_nat (length txt)) (n - 1)) = 0).
Proof. apply vsnprintf_run. Qed.

(** ** Witness *)

(** Memory that holds the format [n=%d %s] at 100 and the string [abc] at 200. *)
Definition demo_mem : mem :=
  list_to_map (imap (fun i c => (100 + Z.of_nat i, c)) [110; 61; 37; 100; 32; 37; 115; 0]) ∪
  list_to_map (imap (fun i c => (200 + Z.of_nat i, c)) [97; 98; 99; 0]).

(** The format [%c%d]: in a buffer of one byte, the number printed is the character. *)
Definition shift_mem : mem := list_to_map (imap (fun i c => (100 + Z.of_nat i, c)) [37; 99; 37; 100; 0]).

Lemma vsnprintf_spec_witness : (exists m', vsnprintf 300 8 20 demo_mem 100 [18446744073709551574; 200] = Some (m', 9) /\
  load8 m' 303 = 52 /\ load8 m' 306 = 97 /\ load8 m' 307 = 0) /\
  exists m', vsnprintf 300 1 20 shift_mem 100 [97; 12345] = Some (m', 3).
Proof.
  split.
  - destruct (vsnprintf_spec 300 8 20 demo_mem 100 [110; 61; 37; 100; 32; 37; 115]
      [Num 18446744073709551574; Str 200 [97; 98; 99]] [110; 61; 45; 52; 50; 32; 97; 98; 99])
      as (m' & E & _ & Hb & H0);
      [lia|vm_compute; split_and!; (reflexivity || discriminate)|left; cbn; lia
      |apply Forall_cons_2; [vm_compute; discriminate|apply Forall_cons_2; [split; [vm_compute; split_and!; (reflexivity || discriminate)|left; cbn; lia]|apply Forall_nil_2]]
      |intros a Hin; repeat (apply elem_of_cons in Hin as [->|Hin]; [cbn; lia|]); by apply not_elem_of_nil in Hin
      |cbn; lia|reflexivity|cbn; lia|].
    exists m'. split; [exact E|]. split; [apply (Hb 3%nat 52); [reflexivity|lia]|]. split; [apply (Hb 6%nat 97); [reflexivity|lia]|].
    apply H0. lia.
  - destruct (vsnprintf_spec 300 1 20 shift_mem 100 [37; 99; 37; 100] [Num 97; Num 12345] [0; 57; 55])
      as (m' & E & _);
      [lia|vm_compute; split_and!; (reflexivity || discriminate)|left; cbn; lia
      |repeat (apply Forall_cons_2; [vm_compute; discriminate|]); apply Forall_nil_2
      |intros a Hin; repeat (apply elem_of_cons in Hin as [->|Hin]; [cbn; lia|]); by apply not_elem_of_nil in Hin
      |cbn; lia|reflexivity|cbn; lia|].
    exists m'. exact E.
Defined.
