(* ===== verification/Syscall.v ===== *)
(** kernel/syscall.c: the system calls and their dispatcher; addresses of the caller are
    translated to physical memory.  What a call prints for its caller goes to the host; the
    messages of the kernel itself are left out. *)

From S2P Require Import Prelude Mem CString PageAlloc Pmm Vmm HashTable SpikeFile FsData Ramdev Rfs Hostfs Vfs Symbol Kernel Sched Process ProcFile Snprintf.

Definition TF_s0 : Z := 56.

Section syscall.
Context {SYM : Symbols} {ST : Stale} {HO : Host}.

(** What pages and the stack held before, and the bound on the loops that a user process
    or the file of a program controls. *)
Variables (stale : list file) (junk : list Z) (fuel : nat).

(** The process that runs on the hart. *)
Definition cur_proc (hart : nat) : M kern process := i <- get_current hart ;; get_proc i.

(** [user_va_to_pa(current[hart_id]->pagetable, va)] *)
Definition user_pa (hart : nat) (va : Z) : M kern Z := p <- cur_proc hart ;; on_pmm (user_va_to_pa (pagetable p) va).

(** A path at a user address. *)
Definition user_path (hart : nat) (va : Z) : M kern cname := pa <- user_pa hart va ;; ld_path pa.

(** * Console *)

(** The string at [a]; a read outside the memory faults. *)
Fixpoint read_text (n : nat) (a : Z) : M pmm (list Z) :=
  match n with
  | O => hang
  | S n' =>
      b <- ld_bytes a 1 ;;
      match b with
      | [c] => if c =? 0 then ret [] else l <- read_text n' (a + 1) ;; ret (c :: l)
      | _ => fault
      end
  end.

(** The text [vsnprintf] makes in the buffer of [vprintk] of the format [fmt] and the words
    [vl], from position [pos] on: [Snprintf.render], where the string of a [%s] is read from
    memory. *)
Fixpoint print_text (pos : Z) (fmt : list Z) (format longarg : bool) (vl : list Z) : M kern (list Z) :=
  match fmt with
  | [] => ret []
  | c :: fmt =>
      if format then
        if c =? 108 then print_text pos fmt true true vl
        else if (c =? 99) && (OUT_SIZE <=? pos + 1) then
          l <- print_text (pos + 1) fmt false false vl ;; ret ([0] ++ l)
        else if (c =? 112) || (c =? 120) || (c =? 100) || (c =? 99) || (c =? 115) then
          a <- deref (vl !! 0%nat) ;;
          u <- (if c =? 112 then ret (48 :: 120 :: hex_text (i64 a) 16)
                else if c =? 120 then ret (hex_text (num_arg longarg a) (if longarg then 16 else 8)%nat)
                else if c =? 100 then ret (dec_text (num_arg longarg a))
                else if c =? 99 then ret [u8 a]
                else on_pmm (read_text fuel a)) ;;
          l <- print_text (pos + Z.of_nat (length u)) fmt false false (tail vl) ;;
          ret (u ++ l)
        else print_text pos fmt format longarg vl
      else if c =? 37 then print_text pos fmt true longarg vl
      else l <- print_text (pos + 1) fmt format longarg vl ;; ret (c :: l)
  end.

(** [spike_file_write(stderr, out, ...)] of [vprintk]. *)
Definition put_text (txt : list Z) : M kern unit :=
  let b := sent txt in
  on_fs (on_host (spike_file_write spike_stderr b (Z.of_nat (length b)))) ;;; ret tt.

(** [sprint(pa)]: the text of the caller is the format, and its conversions take what the
    argument registers happen to hold. *)
Definition sys_user_print (hart : nat) (buf : Z) : M kern Z :=
  pa <- user_pa hart buf ;;
  fmt <- on_pmm (read_text fuel pa) ;;
  txt <- print_text 0 fmt false false stale_args ;;
  put_text txt ;;;
  ret 0.

(** [sprint("%lx\n", pa)] *)
Definition sys_user_printpa (hart : nat) (va : Z) : M kern Z :=
  pa <- user_pa hart va ;;
  put_text (hex_text (i64 pa) 16 ++ [10]) ;;;
  ret 0.

Definition sys_user_gets (hart : nat) (buf n : Z) : M kern Z :=
  k <- gets id ;;
  cur <- deref (current k !! hart) ;;
  kassert (bool_decide (is_Some cur)) "current[hart_id]" ;;;
  pa <- user_pa hart buf ;;
  r <- on_fs (on_host (spike_file_read spike_stdin n)) ;;
  on_pmm (st_bytes pa (snd r)) ;;;
  ret (fst r).

(** * Processes *)

Definition sys_user_exit (hart : nat) (code : Z) : M kern Z :=
  i <- get_current hart ;;
  free_process i ;;;
  p <- get_proc i ;;
  k <- gets id ;;
  (if is_child p =? 0 then (if child_running k =? 0 then ret tt else hang)
   else
     modify (fun k => k <| child_running := 0 |>) ;;;
     do_wait_call hart ;;; ret tt) ;;;
  schedule hart ;;;
  ret 0.

Definition sys_user_fork (hart : nat) : M kern Z := i <- get_current hart ;; do_fork hart i stale junk.

Definition sys_user_yield (hart : nat) : M kern Z :=
  i <- get_current hart ;;
  mod_proc i (fun p => p <| status := READY |>) ;;;
  insert_to_ready_queue i ;;;
  schedule hart ;;;
  ret 0.

Definition sys_user_exec (hart : nat) (path arg : Z) : M kern Z :=
  pfn <- user_path hart path ;;
  parg <- user_pa hart arg ;;
  do_exec fuel hart pfn parg.

Definition sys_user_wait (hart : nat) (wpid : Z) : M kern Z := do_wait fuel hart wpid.

Definition sys_user_test (hart : nat) (path1 : Z) : M kern Z :=
  pfn <- user_path hart path1 ;; do_test fuel hart stale pfn.

(** * The heap *)

(** A page that was given back is used again before the heap grows. *)
Definition sys_user_allocate_page (hart : nat) : M kern Z :=
  pa <- on_pmm alloc_page ;;
  i <- get_current hart ;;
  p <- get_proc i ;;
  let h := user_heap p in
  va <- (if 0 <? free_pages_count h then
           va <- deref (at_index (free_pages_address h) (free_pages_count h - 1)) ;;
           mod_proc i (fun p => p <| user_heap := h <| free_pages_count := free_pages_count h - 1 |> |>) ;;;
           kassert (va <? heap_top h) "va < current[hart_id]->user_heap.heap_top" ;;;
           ret va
         else
           mod_proc i (fun p => p <| user_heap := h <| heap_top := u64 (heap_top h + PGSIZE) |> |>
             <| mapped_info := alter (fun r => r <| mr_npages := u32 (mr_npages r + 1) |>)
                  (seg_index HEAP_SEGMENT) (mapped_info p) |>) ;;;
           ret (heap_top h)) ;;
  on_pmm (user_vm_map (pagetable p) va PGSIZE pa (prot_to_type (Z.lor PROT_WRITE PROT_READ) true)) ;;;
  ret va.

(** The array has [MAX_HEAP_PAGES] entries. *)
Definition sys_user_free_page (hart : nat) (va : Z) : M kern Z :=
  i <- get_current hart ;;
  p <- get_proc i ;;
  on_pmm (user_vm_unmap (pagetable p) va PGSIZE 1) ;;;
  let h := user_heap p in
  addrs <- deref (set_index (free_pages_address h) (free_pages_count h) va) ;;
  mod_proc i (fun p => p <| user_heap := h <| free_pages_address := addrs |>
    <| free_pages_count := free_pages_count h + 1 |> |>) ;;;
  ret 0.

Definition sys_user_malloc (hart : nat) (n : Z) : M kern Z := vm_malloc fuel hart n.
Definition sys_user_free (hart : nat) (va : Z) : M kern Z := vm_free hart va ;;; ret 0.

(** * Files *)

Definition sys_user_open (hart : nat) (pathva flags : Z) : M kern Z :=
  path <- user_path hart pathva ;; do_open hart path flags.

(** The loop of [sys_user_read] and [sys_user_write]: one transfer [io fd pa len] per
    page of the buffer.  [i] is an [int]; in the comparison it is converted to
    [uint64], as is the result of the transfer. *)
Fixpoint io_loop (n : nat) (io : Z -> Z -> Z -> M kern Z) (hart : nat) (fd bufva count i : Z) : M kern Z :=
  match n with
  | O => hang
  | S n' =>
      if u64 i <? count then
        let addr := u64 (bufva + i) in
        p <- cur_proc hart ;;
        pa <- on_pmm (lookup_pa (pagetable p) addr) ;;
        let off := addr - ROUNDDOWN addr PGSIZE in
        let len := if u64 (count - i) <? PGSIZE - off then u64 (count - i) else PGSIZE - off in
        r <- io fd (u64 (pa + off)) len ;;
        let i := i32 (i + r) in
        if u64 r <? len then ret i else io_loop n' io hart fd bufva count i
      else ret count
  end.

Definition sys_user_read (hart : nat) (fd bufva count : Z) : M kern Z :=
  io_loop fuel (do_read hart) hart fd bufva count 0.
Definition sys_user_write (hart : nat) (fd bufva count : Z) : M kern Z :=
  io_loop fuel (do_write hart) hart fd bufva count 0.

Definition sys_user_lseek (hart : nat) (fd offset whence : Z) : M kern Z := do_lseek hart fd offset whence.

Definition sys_user_stat (hart : nat) (fd a : Z) : M kern Z := pa <- user_pa hart a ;; do_stat hart fd pa.
Definition sys_user_disk_stat (hart : nat) (fd a : Z) : M kern Z := pa <- user_pa hart a ;; do_disk_stat hart fd pa.
Definition sys_user_close (hart : nat) (fd : Z) : M kern Z := do_close hart fd.

Definition sys_user_opendir (hart : nat) (pathva : Z) : M kern Z :=
  path <- user_path hart pathva ;; do_opendir hart path.
Definition sys_user_readdir (hart : nat) (fd vdir : Z) : M kern Z := pa <- user_pa hart vdir ;; do_readdir hart fd pa.
Definition sys_user_mkdir (hart : nat) (pathva : Z) : M kern Z :=
  path <- user_path hart pathva ;; do_mkdir hart path.
Definition sys_user_closedir (hart : nat) (fd : Z) : M kern Z := do_closedir hart fd.

Definition sys_user_link (hart : nat) (vfn1 vfn2 : Z) : M kern Z :=
  pfn1 <- user_path hart vfn1 ;; pfn2 <- user_path hart vfn2 ;; do_link hart pfn1 pfn2.
Definition sys_user_unlink (hart : nat) (vfn : Z) : M kern Z := pfn <- user_path hart vfn ;; do_unlink hart pfn.

Definition sys_user_ccwd (hart : nat) (pathva : Z) : M kern Z :=
  path <- user_path hart pathva ;; do_change_cwd hart path.
Definition sys_user_rcwd (hart : nat) (pathva : Z) : M kern Z := pa <- user_pa hart pathva ;; do_read_cwd hart pa.

(** * Semaphores *)

Definition sys_user_sem_init (val : Z) : M kern Z := sem_init val.
Definition sys_user_sem_acquire (hart : nat) (sem : Z) : M kern Z := __acquire hart (Z.to_nat sem) ;;; ret 0.
Definition sys_user_sem_release (sem : Z) : M kern Z := __release (Z.to_nat sem) ;;; ret 0.

(** * Backtrace *)

(** [func_name_printer] prints the name it finds, [sprint("%s\n", sym_names[mid])]. *)
Definition print_name (ra : Z) : M kern unit :=
  k <- gets id ;;
  nm <- deref (func_name_printer (S (length (symtab k))) (symtab k) (sym_count k) ra) ;;
  match nm with
  | Some name => put_text (name ++ [10])
  | None => ret tt
  end.

(** The names of the functions of the frames above [fp], at most [n] of them. *)
Fixpoint backtrace (n : nat) (hart : nat) (fp : Z) : M kern unit :=
  match n with
  | O => ret tt
  | S n' =>
      pa <- user_pa hart (u64 (fp - 8)) ;;
      ra <- on_pmm (ld64 pa) ;;
      print_name ra ;;;
      fp <- on_pmm (ld64 (pa - 8)) ;;
      if fp =? 0 then ret tt else backtrace n' hart fp
  end.

Definition sys_user_backtrace (hart : nat) (depth : Z) : M kern Z :=
  p <- cur_proc hart ;;
  fp <- on_pmm (ld64 (trapframe p + TF_s0)) ;;
  pa <- user_pa hart (u64 (fp - 8)) ;;
  fp <- on_pmm (ld64 pa) ;;
  backtrace (Z.to_nat depth) hart fp ;;;
  ret 0.

(** * The dispatcher *)

Definition SYS_user_base : Z := 64.

Definition do_syscall (hart : nat) (a0 a1 a2 a3 a4 a5 a6 a7 : Z) : M kern Z :=
  let n := a0 - SYS_user_base in
  if n =? 0 then sys_user_print hart a1
  else if n =? 1 then sys_user_exit hart a1
  else if n =? 2 then sys_user_allocate_page hart
  else if n =? 3 then sys_user_free_page hart a1
  else if n =? 4 then sys_user_fork hart
  else if n =? 5 then sys_user_yield hart
  else if n =? 17 then sys_user_open hart a1 (i32 a2)
  else if n =? 18 then sys_user_read hart (i32 a1) a2 a3
  else if n =? 19 then sys_user_write hart (i32 a1) a2 a3
  else if n =? 20 then sys_user_lseek hart (i32 a1) (i32 a2) (i32 a3)
  else if n =? 21 then sys_user_stat hart (i32 a1) a2
  else if n =? 22 then sys_user_disk_stat hart (i32 a1) a2
  else if n =? 23 then sys_user_close hart (i32 a1)
  else if n =? 24 then sys_user_opendir hart a1
  else if n =? 25 then sys_user_readdir hart (i32 a1) a2
  else if n =? 26 then sys_user_mkdir hart a1
  else if n =? 27 then sys_user_closedir hart (i32 a1)
  else if n =? 28 then sys_user_link hart a1 a2
  else if n =? 29 then sys_user_unlink hart a1
  else if n =? 30 then sys_user_exec hart a1 a2
  else if n =? 31 then sys_user_wait hart (i32 a1)
  else if n =? 32 then sys_user_gets hart a1 a2
  else if n =? 33 then sys_user_sem_init (i32 a1)
  else if n =? 34 then sys_user_sem_acquire hart a1
  else if n =? 35 then sys_user_sem_release a1
  else if n =? 36 then sys_user_malloc hart a1
  else if n =? 37 then sys_user_free hart a1
  else if n =? 38 then sys_user_printpa hart a1
  else if n =? 39 then sys_user_backtrace hart a1
  else if n =? 40 then sys_user_rcwd hart a1
  else if n =? 41 then sys_user_ccwd hart a1
  else if n =? 42 then sys_user_test hart a1
  else panic "Unknown syscall".

(** ** The text of [sys_user_print] is that of [vsnprintf] *)

(** What [Snprintf.render] makes of the arguments, and so [vsnprintf] by
    [Snprintf.vsnprintf_run], is what is sent. *)
Lemma print_text_render k fmt : forall pos format longarg args txt,
  (forall p l, Str p l ∈ args -> read_text fuel p (k_pmm k) = Ret l (k_pmm k)) ->
  render OUT_SIZE pos fmt format longarg args = Some txt ->
  print_text pos fmt format longarg (raw <$> args) k = Ret txt k.
Proof.
  induction fmt as [|c fmt IH]; intros pos fo lg args txt Hs Hr; cbn [print_text render] in *; [by injection Hr as <-|].
  destruct fo.
  2:{ destruct (c =? 37); [by apply IH|]. destruct (render _ _ fmt false lg args) as [w|] eqn:Ew; [|done].
      injection Hr as <-. by step (IH _ _ _ _ _ Hs Ew). }
  destruct (c =? 108); [by apply IH|]. destruct ((c =? 99) && _).
  { destruct (render _ _ fmt false false args) as [w|] eqn:Ew; [|done]. injection Hr as <-. by step (IH _ _ _ _ _ Hs Ew). }
  destruct ((c =? 112) || (c =? 120) || (c =? 100) || (c =? 99)) eqn:Ek; cbn [orb].
  - destruct args as [|[a|] args]; [done| |done]. cbn [fmap list_fmap raw lookup list_lookup tail].
    step (eq_refl : deref (Some a) k = Ret a k).
    match type of Hr with app ?u <$> _ = _ => set (txt1 := u) in *;
      assert ((if c =? 112 then ret (48 :: 120 :: hex_text (i64 a) 16)
        else if c =? 120 then ret (hex_text (num_arg lg a) (if lg then 16 else 8)%nat)
        else if c =? 100 then ret (dec_text (num_arg lg a))
        else if c =? 99 then ret [u8 a] else on_pmm (read_text fuel a)) k = Ret txt1 k) as Eu end.
    { unfold txt1. destruct (c =? 112), (c =? 120), (c =? 100), (c =? 99); done. }
    step Eu. destruct (render _ _ fmt false false args) as [w|] eqn:Ew; [|done]. apply app_Some in Hr as <-.
    by step (IH _ _ _ args w ltac:(intros p l Hin; apply Hs; by right) Ew).
  - destruct (Z.eqb_spec c 115) as [->|]; [|by apply IH].
    destruct args as [|[|p l] args]; [done|done|]. cbn [fmap list_fmap raw lookup list_lookup tail].
    step (eq_refl : deref (Some p) k = Ret p k). cbn [Z.eqb Pos.eqb].
    assert (on_pmm (read_text fuel p) k = Ret l k) as Eu.
    { unfold on_pmm, zoom. rewrite (Hs p l) by left. destruct k as [kfs]; by destruct kfs. }
    step Eu. destruct (render _ _ fmt false false args) as [w|] eqn:Ew; [|done]. apply app_Some in Hr as <-.
    by step (IH _ _ _ args w ltac:(intros q x Hin; apply Hs; by right) Ew).
Qed.
End syscall.
