(* ===== verification/Strap.v ===== *)
(** kernel/strap.c: the traps from user mode: system calls, the timer with
    round-robin scheduling, and page faults. *)

From S2P Require Import Prelude Mem CString PageAlloc Pmm Vmm HashTable SpikeFile FsData Hostfs Kernel Sched Syscall.

Definition CAUSE_USER_ECALL : Z := 8.
Definition CAUSE_LOAD_PAGE_FAULT : Z := 13.
Definition CAUSE_STORE_PAGE_FAULT : Z := 15.
Definition CAUSE_MTIMER_S_TRAP : Z := 9223372036854775809.
Definition SIP_SSIP : Z := Z.shiftl 1 1.

(** * Page faults *)

Definition PROT_RW : Z := Z.lor PROT_WRITE PROT_READ.

(** The entry both branches store. *)
Definition fault_entry (pa : Z) : Z := Z.lor (Z.lor (PA2PTE pa) PTE_V) (prot_to_type PROT_RW true).

(** A fault between the stack pointer and the top of the stack. *)
Definition grow_stack (pagetable stval : Z) : M pmm unit :=
  pa <- alloc_page ;;
  if pa =? 0 then panic "alloc_page failed."
  else
    pte <- page_walk pagetable stval true ;;
    st64 pte (fault_entry pa).

(** Any other fault on a store: a page shared by copy-on-write. *)
Definition cow_fault (pagetable stval : Z) : M pmm unit :=
  pte <- page_walk pagetable stval false ;;
  e <- ld64 pte ;;
  if RSW e =? 1 then
    free_page (PTE2PA e) ;;;
    pa <- alloc_page ;;
    if pa =? 0 then panic "alloc_page failed."
    else st64 pte (fault_entry pa)
  else panic "this address is not available!".

Definition handle_user_page_fault (hart : nat) (mcause stval : Z) : M kern unit :=
  if mcause =? CAUSE_STORE_PAGE_FAULT then
    i <- get_current hart ;;
    p <- get_proc i ;;
    sp <- on_pmm (ld64 (trapframe p + TF_sp)) ;;
    if (sp <? stval) && (stval <? USER_STACK_TOP)
    then on_pmm (grow_stack (pagetable p) stval)
    else on_pmm (cow_fault (pagetable p) stval)
  else ret tt.

(** * The timer *)

Definition handle_mtimer_trap (hart : nat) : M kern unit :=
  k <- gets id ;;
  t <- deref (g_ticks k !! hart) ;;
  modify (fun k => k <| g_ticks := <[hart := u64 (t + 1)]> (g_ticks k) |>) ;;;
  mod_csrs hart (fun c => c <| sip := Z.ldiff (sip c) SIP_SSIP |>).

Section strap.
Context {SYM : Symbols}.

Definition rrsched (hart : nat) : M kern unit :=
  i <- get_current hart ;;
  p <- get_proc i ;;
  mod_proc i (fun p => p <| tick_count := i32 (tick_count p + 1) |>) ;;;
  if TIME_SLICE_LEN <=? i32 (tick_count p + 1) then
    mod_proc i (fun p => p <| tick_count := 0 |> <| status := READY |>) ;;;
    insert_to_ready_queue i ;;;
    schedule hart
  else ret tt.

(** * System calls and the dispatch *)

(** [do_syscall] is the dispatcher of kernel/syscall.c: the hart and [a0] to [a7]. *)
Variable do_syscall : nat -> Z -> Z -> Z -> Z -> Z -> Z -> Z -> Z -> M kern Z.

(** Register [a<n>] in the trapframe at [tf]. *)
Definition ld_arg (tf : Z) (n : Z) : M kern Z := on_pmm (ld64 (tf + TF_a0 + 8 * n)).

Definition handle_syscall (hart : nat) (tf : Z) : M kern unit :=
  epc <- on_pmm (ld64 (tf + TF_epc)) ;;
  on_pmm (st64 (tf + TF_epc) (u64 (epc + 4))) ;;;
  a0 <- ld_arg tf 0 ;; a1 <- ld_arg tf 1 ;; a2 <- ld_arg tf 2 ;; a3 <- ld_arg tf 3 ;;
  a4 <- ld_arg tf 4 ;; a5 <- ld_arg tf 5 ;; a6 <- ld_arg tf 6 ;; a7 <- ld_arg tf 7 ;;
  r <- do_syscall hart a0 a1 a2 a3 a4 a5 a6 a7 ;;
  on_pmm (st64 (tf + TF_a0) r).

(** [scause] and [stval] are what the hardware left in the registers of that name. *)
Definition smode_trap_handler (hart : nat) (scause stval : Z) : M kern unit :=
  k <- gets id ;;
  c <- deref (k_csrs k !! hart) ;;
  if has (sstatus c) SSTATUS_SPP then panic "usertrap: not from user mode"
  else
    match current k !! hart with
    | None => fault
    | Some None => panic "current[hart_id]"
    | Some (Some i) =>
        p <- get_proc i ;;
        on_pmm (st64 (trapframe p + TF_epc) (sepc c)) ;;;
        (if scause =? CAUSE_USER_ECALL then handle_syscall hart (trapframe p)
         else if scause =? CAUSE_MTIMER_S_TRAP then handle_mtimer_trap hart ;;; rrsched hart
         else if (scause =? CAUSE_STORE_PAGE_FAULT) || (scause =? CAUSE_LOAD_PAGE_FAULT)
         then handle_user_page_fault hart scause stval
         else panic "unexpected exception happened.") ;;;
        k <- gets id ;;
        cur <- deref (current k !! hart) ;;
        switch_to hart cur
    end.
End strap.

(** The kernel as it is put together: traps with the dispatcher of kernel/syscall.c. *)
Definition user_trap {SYM : Symbols} {ST : Stale} {HO : Host}
    (stale : list file) (junk : list Z) (fuel : nat) (hart : nat) (scause stval : Z) : M kern unit :=
  smode_trap_handler (do_syscall stale junk fuel) hart scause stval.

(** * Properties *)

Lemma fault_entry_map pa : fault_entry pa = map_entry pa (prot_to_type PROT_RW true).
Proof. unfold fault_entry, map_entry. rewrite <-!Z.lor_assoc. f_equal. Qed.

Lemma PROT_RW_range : 0 <= prot_to_type PROT_RW true < 1024.
Proof. done. Qed.

(** A page that is no table lies off the tables. *)
Lemma page_off_tables s root own p o :
  pt_wf s root own -> own !! p = None -> p mod PGSIZE = 0 -> 0 <= o < PGSIZE -> off_tables own (p + o).
Proof.
  intros Hw Hp Ha Ho q n Hq. pose proof (tree_aligned _ _ _ (wf_tree _ _ _ Hw) q n Hq) as Hal.
  destruct (pages_disjoint p q); [done|done|congruence|unfold PGSIZE in *; lia..].
Qed.

Lemma RSW_0 : RSW 0 = 0.
Proof. done. Qed.

(** C25.  A store to a page shared by copy-on-write drops the faulting process's share
    of the frame and maps the head of the free list in its place, writable; no other
    page of the address space moves and the allocator's invariant is kept.  Nothing is
    copied: the new frame keeps what it held (when the old frame was not shared any
    more it is the new frame, with its first eight bytes used by the free list), so the
    process goes on with bytes that are not those of the page it wrote to. *)
Theorem cow_fault_spec s fl top root own va p fl2 :
  let e := entry 2 (pm_mem s) root va in
  let pa := PTE2PA e in
  pmm_inv s fl top -> pt_wf s root own -> 0 <= va < MAXVA -> RSW e = 1 ->
  is_page s pa -> pa <> top -> own !! pa = None -> 0 < ref_count (ref_list s) pa ->
  ref_total (ref_list s) < REF_LIST_SIZE ->
  (if ref_count (ref_list s) pa =? 1 then pa :: fl else fl) = p :: fl2 ->
  exists s', cow_fault root va s = Ret tt s' /\ pmm_inv s' fl2 top /\ pt_wf s' root own /\
    (forall va', 0 <= va' < MAXVA -> entry 2 (pm_mem s') root va' =
      if va' / PGSIZE =? va / PGSIZE then fault_entry p else entry 2 (pm_mem s) root va') /\
    has (fault_entry p) PTE_W = true /\ PTE2PA (fault_entry p) = p /\
    (forall o, 8 <= o < PGSIZE -> load8 (pm_mem s') (p + o) = load8 (pm_mem s) (p + o)) /\
    (p <> pa -> ref_count (ref_list s') pa = ref_count (ref_list s) pa - 1).
Proof.
  intros e pa Hi Hw Hva Hrsw Hp Ht Ho Hc Hroom Hfl.
  destruct (walk 2 (pm_mem s) root va) as [a|] eqn:Ha.
  2:{ exfalso. unfold e in Hrsw. by rewrite entry_walk, Ha in Hrsw. }
  destruct (walk_nonzero s fl top root own va a Hi Hw Ha) as [Hnz Hd].
  assert (load64 (pm_mem s) a = e) as Ee by (unfold e; by rewrite entry_walk, Ha).
  destruct (unmap_free s fl top root own pa)
    as (s1 & fl' & E1 & Hi1 & Hw1 & -> & Hwalk & Hent & Hcnt & Hm1 & Hr1); [done..|].
  rewrite Hfl in Hi1.
  destruct (alloc_data s1 p fl2 top root own Hi1 Hw1) as (s2 & E2 & Hi2 & Hw2 & Hm2 & Hop & Hpp & _ & Hc2 & _); [lia|].
  destruct (walk_leaf (pm_mem s) root own 2 root va a) as (leaf & Hleaf & Ea); [apply Hw|lia|apply Hw|done|].
  subst a. destruct (leaf_store_wf s2 fl2 top root own leaf va (fault_entry p) Hi2 Hw2 Hleaf) as (Hi3 & Hw3 & Hg3).
  set (s3 := s2 <| pm_mem := _ |>) in Hi3, Hw3, Hg3.
  destruct (is_page_dram s2 p (inv_lo _ _ _ Hi2) (inv_hi _ _ _ Hi2) Hpp) as [Hp1 Hp2].
  assert (0 <= p < 18446744073709551616) as Hpr by (unfold PHYS_TOP, DRAM_BASE, PGSIZE in *; lia).
  exists s3. split_and!; try done.
  - unfold cow_fault, bind. rewrite (page_walk_read s fl top root own); [|done..|lia|by left].
    rewrite Ha. change (default 0 (Some (leaf + 8 * PX 0 va))) with (leaf + 8 * PX 0 va).
    unfold ld64 at 1. rewrite Hd, Ee, Hrsw. cbn [Z.eqb Pos.eqb]. fold pa. rewrite E1, E2.
    destruct (Z.eqb_spec p 0); [unfold DRAM_BASE in *; lia|]. unfold st64. by rewrite Hd.
  - intros va' Hva'. rewrite <-(Hent va'), <-Hm2.
    assert (u64 (fault_entry p) = fault_entry p) as Hu
      by (rewrite fault_entry_map; apply (map_entry_u64 p _ Hpr PROT_RW_range)).
    rewrite <-Hu at 1. apply (leaf_store_entry (pm_mem s2) root own leaf va (fault_entry p)
      (wf_tree _ _ _ Hw2) Hleaf va' Hva Hva').
    by rewrite Hm2, Hwalk.
  - rewrite fault_entry_map, map_entry_has by done. done.
  - rewrite fault_entry_map, map_entry_pa by done. apply ROUNDDOWN_page, Hpp.
  - intros o Hpo. rewrite (grow_frame _ _ _ _ _ Hg3), Hm2.
    + apply Hm1. destruct (decide (p = pa)) as [->|]; [lia|].
      destruct (pages_disjoint p pa); [apply Hpp|apply Hp|done|unfold PGSIZE in *; lia..].
    + apply (page_off_tables s2 root); [done|done|apply Hpp|lia].
  - intros Hne. change (ref_list s3) with (ref_list s2). rewrite Hc2. destruct (Z.eqb_spec pa p); [congruence|].
    rewrite Hcnt, Z.eqb_refl. done.
Qed.

(** * Round robin *)

Section round_robin.
Context {SYM : Symbols}.
Variable do_syscall : nat -> Z -> Z -> Z -> Z -> Z -> Z -> Z -> Z -> M kern Z.

(** [n] timer interrupts in a row on a hart; [None] when one does not end in user mode. *)
Fixpoint timer_traps (n : nat) (hart : nat) (k : kern) : option kern :=
  match n with
  | O => Some k
  | S n =>
      match smode_trap_handler do_syscall hart CAUSE_MTIMER_S_TRAP 0 k with
      | Switch k' => timer_traps n hart k'
      | _ => None
      end
  end.

(** Process [i] runs on the hart in user mode and has used [t] ticks of its slice; the
    processes [rl] wait in the ready queue, at the start of theirs. *)
Record rr_state (k : kern) (hart i : nat) (t : Z) (rl : list nat) (wl : list (list nat)) : Prop := {
  rr_wf : sched_wf k rl wl;
  rr_current : current k !! hart = Some (Some i);
  rr_out : i ∉ rl ++ concat wl;
  rr_proc : exists p, procs k !! i = Some p /\ tick_count p = t;
  rr_fresh j q : j ∈ rl -> procs k !! j = Some q -> tick_count q = 0;
  rr_tf j q : procs k !! j = Some q -> in_dram (trapframe q) TF_SIZE = true;
  rr_csrs : exists c, k_csrs k !! hart = Some c /\ has (sstatus c) SSTATUS_SPP = false;
  rr_ticks : (hart < length (g_ticks k))%nat;
}.

(** The part of the handler before [rrsched] touches neither processes nor queues. *)
Lemma timer_entry k hart i t rl wl :
  rr_state k hart i t rl wl ->
  exists k1, smode_trap_handler do_syscall hart CAUSE_MTIMER_S_TRAP 0 k =
    bind (rrsched hart) (fun _ => k <- gets id ;; cur <- deref (current k !! hart) ;; switch_to hart cur) k1 /\
    rr_state k1 hart i t rl wl /\ procs k1 = procs k.
Proof.
  intros [Hwf Hc Ho (p & Hp & Ht) Hfr Htf (c & Hcs & Hspp) Hg].
  destruct (lookup_lt_is_Some_2 _ _ Hg) as [g Hgl].
  assert (in_dram (trapframe p + TF_epc) 8 = true) as Hd.
  { pose proof (Htf i p Hp) as H. unfold in_dram, TF_SIZE, TF_epc in *. bools. apply andb_true_intro. split; apply Z.leb_le; lia. }
  set (ka := set_pmm ((k_pmm k) <| pm_mem := store64 (pm_mem (k_pmm k)) (trapframe p + TF_epc) (sepc c) |>) k).
  set (kb := ka <| g_ticks := <[hart := u64 (g + 1)]> (g_ticks ka) |>).
  set (k1 := kb <| k_csrs := <[hart := c <| sip := Z.ldiff (sip c) SIP_SSIP |>]> (k_csrs kb) |>).
  exists k1. split_and!.
  - unfold smode_trap_handler. step (eq_refl : gets id k = Ret k k). rewrite Hcs.
    step (eq_refl : deref (Some c) k = Ret c k). rewrite Hspp, Hc. step (get_proc_eq k i p Hp).
    step (on_pmm_st64 k _ (sepc c) Hd). fold ka.
    change (CAUSE_MTIMER_S_TRAP =? CAUSE_USER_ECALL) with false. rewrite Z.eqb_refl. cbn iota.
    assert (handle_mtimer_trap hart ka = Ret tt k1) as E.
    { unfold handle_mtimer_trap. step (eq_refl : gets id ka = Ret ka ka).
      change (g_ticks ka) with (g_ticks k). rewrite Hgl. step (eq_refl : deref (Some g) ka = Ret g ka).
      step (eq_refl : modify (fun k => k <| g_ticks := <[hart := u64 (g + 1)]> (g_ticks k) |>) ka = Ret tt kb).
      exact (mod_csrs_eq kb hart c (fun c => c <| sip := Z.ldiff (sip c) SIP_SSIP |>) Hcs). }
    unfold bind at 1 2. by rewrite E.
  - split; try done.
    + destruct Hwf; by split.
    + by exists p.
    + exists (c <| sip := Z.ldiff (sip c) SIP_SSIP |>). split; [|done]. cbn. apply list_lookup_insert_eq. by eapply lookup_lt_Some.
    + cbn. by rewrite length_insert.
  - done.
Qed.

Lemma rrsched_run k hart i t rl wl :
  rr_state k hart i t rl wl -> 0 <= t < TIME_SLICE_LEN ->
  exists p, procs k !! i = Some p /\ tick_count p = t /\ rrsched hart k =
    (if TIME_SLICE_LEN <=? t + 1 then
      bind (insert_to_ready_queue i) (fun _ => schedule hart)
        (k <| procs := <[i := p <| tick_count := 0 |> <| status := READY |>]> (procs k) |>)
     else Ret tt (k <| procs := <[i := p <| tick_count := t + 1 |>]> (procs k) |>)).
Proof.
  intros [_ Hc _ (p & Hp & Ht) _ _ _ _] Htr. exists p. split; [done|]. split; [done|]. unfold rrsched.
  assert (get_current hart k = Ret i k) as Eg by (unfold get_current, bind, gets, id; by rewrite Hc).
  step Eg. step (get_proc_eq k i p Hp).
  step (mod_proc_eq k i p (fun p => p <| tick_count := i32 (tick_count p + 1) |>) Hp).
  rewrite Ht, i32_small by (unfold TIME_SLICE_LEN in *; lia).
  set (k1 := k <| procs := <[i := p <| tick_count := t + 1 |>]> (procs k) |>).
  destruct (TIME_SLICE_LEN <=? t + 1); [|done].
  assert (procs k1 !! i = Some (p <| tick_count := t + 1 |>)) as Hp1
    by (cbn; apply list_lookup_insert_eq; by eapply lookup_lt_Some).
  step (mod_proc_eq k1 i _ (fun p => p <| tick_count := 0 |> <| status := READY |>) Hp1).
  unfold k1. cbn. by rewrite list_insert_insert_eq.
Qed.

(** Before the slice is used up the interrupted process goes on. *)
Lemma timer_trap_same k hart i t rl wl :
  rr_state k hart i t rl wl -> 0 <= t -> t + 1 < TIME_SLICE_LEN ->
  exists k', smode_trap_handler do_syscall hart CAUSE_MTIMER_S_TRAP 0 k = Switch k' /\
    rr_state k' hart i (t + 1) rl wl.
Proof.
  intros Hs Ht0 Ht. destruct (timer_entry k hart i t rl wl Hs) as (k1 & -> & Hs1 & _).
  destruct (rrsched_run k1 hart i t rl wl Hs1) as (p & Hp & Htk & E); [lia|].
  destruct (Z.leb_spec TIME_SLICE_LEN (t + 1)); [lia|].
  destruct Hs1 as [Hwf Hc Ho _ Hfr Htf (c & Hcs & _) Hg]. step E.
  pose proof (sched_wf_set k1 rl wl i (p <| tick_count := t + 1 |>) Ho Hwf) as Hwf2.
  set (k2 := k1 <| procs := _ |>) in *.
  assert (procs k2 !! i = Some (p <| tick_count := t + 1 |>)) as Hp2
    by (cbn; apply list_lookup_insert_eq; by eapply lookup_lt_Some).
  step (eq_refl : gets id k2 = Ret k2 k2). change (current k2) with (current k1). rewrite Hc.
  step (eq_refl : deref (Some (Some i)) k2 = Ret (Some i) k2).
  destruct (switch_to_run k2 hart i _ Hp2) as (k' & Es & Hsw); [by eapply lookup_lt_Some|by eapply (Htf i p)|].
  exists k'. split; [done|]. pose proof (switched_wf _ _ _ _ _ _ _ Hsw Hwf2) as Hwf'.
  destruct Hsw as [Hcur (c' & Hc' & _ & _ & Hspp & _) (m' & Hk & _)].
  assert (procs k' = procs k2) as Hps by (by rewrite Hk).
  assert (g_ticks k' = g_ticks k1) as Hgt by (by rewrite Hk).
  split; [done|..|by exists c'|by rewrite Hgt]; rewrite ?Hps.
  - rewrite Hcur. apply list_lookup_insert_eq. by eapply lookup_lt_Some.
  - done.
  - by eexists.
  - intros j q Hj. cbn. rewrite list_lookup_insert_ne by set_solver. by apply Hfr.
  - intros j q. cbn. destruct (decide (j = i)) as [->|].
    + rewrite list_lookup_insert_eq by (by eapply lookup_lt_Some). intros [= <-]. exact (Htf i p Hp).
    + rewrite list_lookup_insert_ne by done. by apply Htf.
Qed.

Lemma relinked_lookup i st ps ps' j q :
  relinked i st ps ps' -> ps' !! j = Some q ->
  exists q0, ps !! j = Some q0 /\ tick_count q = tick_count q0 /\ trapframe q = trapframe q0.
Proof.
  intros [Hlen Hr] Hq. assert (j < length ps)%nat as Hj by (rewrite <-Hlen; by eapply lookup_lt_Some).
  apply lookup_lt_is_Some in Hj as [q0 Hq0]. destruct (Hr j q0 Hq0) as [n Hn].
  exists q0. split; [done|]. rewrite Hq in Hn. by simplify_eq.
Qed.

(** At the end of the slice the hart goes to the head of the ready queue and the
    interrupted process to its end. *)
Lemma timer_trap_next k hart i rl wl j rl' :
  rr_state k hart i (TIME_SLICE_LEN - 1) rl wl -> rl ++ [i] = j :: rl' ->
  exists k', smode_trap_handler do_syscall hart CAUSE_MTIMER_S_TRAP 0 k = Switch k' /\
    rr_state k' hart j 0 rl' wl.
Proof.
  intros Hs Hrot. destruct (timer_entry k hart i _ rl wl Hs) as (k1 & -> & Hs1 & _).
  destruct (rrsched_run k1 hart i _ rl wl Hs1) as (p & Hp & Htk & E); [done|].
  change (TIME_SLICE_LEN <=? TIME_SLICE_LEN - 1 + 1) with true in E. cbn iota in E.
  destruct Hs1 as [Hwf Hc Ho _ Hfr Htf (c & Hcs & _) Hg].
  pose proof (sched_wf_set k1 rl wl i (p <| tick_count := 0 |> <| status := READY |>) Ho Hwf) as Hwf2.
  set (k2 := k1 <| procs := _ |>) in *.
  assert (procs k2 !! i = Some (p <| tick_count := 0 |> <| status := READY |>)) as Hp2
    by (cbn; apply list_lookup_insert_eq; by eapply lookup_lt_Some).
  destruct (insert_ready_inv k2 rl wl i _ Hwf2 Ho Hp2) as (ps' & Ei & Hrel & Hwf3).
  set (k3 := k2 <| procs := ps' |> <| ready_queue_head := _ |>) in *. rewrite Hrot in Hwf3.
  assert (forall x q, procs k3 !! x = Some q -> in_dram (trapframe q) TF_SIZE = true /\
    (x ∈ rl ++ [i] -> tick_count q = 0)) as Hps3.
  { intros x q Hq. destruct (relinked_lookup _ _ _ _ _ _ Hrel Hq) as (q0 & Hq0 & -> & ->). cbn in Hq0.
    destruct (decide (x = i)) as [->|Hne].
    - rewrite list_lookup_insert_eq in Hq0 by (by eapply lookup_lt_Some). injection Hq0 as <-.
      split; [exact (Htf i p Hp)|done].
    - rewrite list_lookup_insert_ne in Hq0 by done. split; [by apply (Htf x)|].
      intros [Hx|Hx%list_elem_of_singleton]%elem_of_app; [by apply (Hfr x)|done]. }
  pose proof (sw_ready _ _ _ Hwf3) as Hq3. pose proof (sw_nodup _ _ _ Hwf3) as Hnd.
  destruct Hq3 as (Hhd & q & Hq & _).
  destruct (Hps3 j q Hq) as [Hdq Htq]. rewrite Hrot in Htq.
  destruct (schedule_run k3 rl' wl j q hart) as (k' & Es & Hsw & Hwf'); [done|done|by eapply lookup_lt_Some|done|].
  exists k'. split.
  { unfold bind at 1. rewrite E. unfold bind at 1. rewrite Ei. by rewrite Es. }
  destruct Hsw as [Hcur (c' & Hc' & _ & _ & Hspp & _) (m' & Hk & _)].
  assert (procs k' = <[j := q <| status := RUNNING |>]> (procs k3)) as Hps by (by rewrite Hk).
  assert (g_ticks k' = g_ticks k1) as Hgt by (by rewrite Hk).
  split; [done|..|by exists c'|by rewrite Hgt]; rewrite ?Hps.
  - rewrite Hcur. cbn. apply list_lookup_insert_eq. rewrite length_insert. by eapply lookup_lt_Some.
  - by apply NoDup_cons in Hnd as [? _].
  - eexists. split; [apply list_lookup_insert_eq; by eapply lookup_lt_Some|]. apply Htq. by left.
  - intros x y Hx. apply NoDup_cons in Hnd as [Hnj _].
    rewrite list_lookup_insert_ne by (intros ->; apply Hnj, elem_of_app; by left).
    intros Hy. apply (Hps3 x y Hy). rewrite Hrot. by right.
  - intros x y. destruct (decide (x = j)) as [->|].
    + rewrite list_lookup_insert_eq by (by eapply lookup_lt_Some). by intros [= <-].
    + rewrite list_lookup_insert_ne by done. intros Hy. apply (Hps3 x y Hy).
Qed.

Lemma timer_traps_app n1 n2 hart k k1 :
  timer_traps n1 hart k = Some k1 -> timer_traps (n1 + n2) hart k = timer_traps n2 hart k1.
Proof.
  revert k. induction n1 as [|n1 IH]; intros k; cbn [timer_traps Nat.add]; [by intros [= ->]|].
  destruct (smode_trap_handler _ _ _ _ k); try done. apply IH.
Qed.

(** One time slice rotates the queue. *)
Lemma slice_run k hart i rl wl j rl' :
  rr_state k hart i 0 rl wl -> rl ++ [i] = j :: rl' ->
  exists k', timer_traps (Z.to_nat TIME_SLICE_LEN) hart k = Some k' /\ rr_state k' hart j 0 rl' wl.
Proof.
  intros Hs Hrot. destruct (timer_trap_same k hart i 0 rl wl Hs) as (k1 & E1 & Hs1); [done|done|].
  destruct (timer_trap_next k1 hart i rl wl j rl' Hs1 Hrot) as (k2 & E2 & Hs2).
  exists k2. split; [|done]. change (Z.to_nat TIME_SLICE_LEN) with 2%nat. cbn [timer_traps]. by rewrite E1, E2.
Qed.

(** C26.  No ready process waits for ever: as long as the hart takes only timer
    interrupts, the process at position [m] of the ready queue (the running process
    itself at its end) runs after [m + 1] time slices, whatever the handlers of the
    system calls do. *)
Theorem round_robin_fair k hart i rl wl m j :
  rr_state k hart i 0 rl wl -> (rl ++ [i]) !! m = Some j ->
  exists k', timer_traps (S m * Z.to_nat TIME_SLICE_LEN) hart k = Some k' /\
    current k' !! hart = Some (Some j).
Proof.
  revert k i rl. induction m as [|m IH]; intros k i rl Hs Hj.
  - destruct (rl ++ [i]) as [|j0 rl'] eqn:Hrot; [done|]. cbn in Hj. injection Hj as ->.
    destruct (slice_run k hart i rl wl j rl' Hs Hrot) as (k' & E & Hs').
    exists k'. split; [exact E|apply Hs'].
  - destruct (rl ++ [i]) as [|j0 rl'] eqn:Hrot; [done|]. cbn in Hj.
    destruct (slice_run k hart i rl wl j0 rl' Hs Hrot) as (k1 & E & Hs').
    destruct (IH k1 j0 rl' Hs') as (k' & E' & Hc); [by apply lookup_app_l_Some|].
    exists k'. split; [|done]. change (S (S m) * _)%nat with (Z.to_nat TIME_SLICE_LEN + S m * Z.to_nat TIME_SLICE_LEN)%nat.
    by rewrite (timer_traps_app _ _ _ _ _ E).
Qed.
End round_robin.

(** * Witnesses *)

#[local] Opaque small_alloc.

(** The page of [small_map_ok] mapped read-only and copy-on-write, with one more owner. *)
Lemma small_shared :
  exists s fl own p fl2, pmm_inv s fl small_top /\ pt_wf s small_top own /\ fl = p :: fl2 /\
    entry 2 (pm_mem s) small_top 4096 = map_entry small_data (Z.lor (prot_to_type PROT_READ true) PTE_RSW) /\
    own !! small_data = None /\ is_page s small_data /\ ref_count (ref_list s) small_data = 2 /\
    ref_total (ref_list s) < REF_LIST_SIZE.
Proof.
  destruct (small_map_ok (Z.lor (prot_to_type PROT_READ true) PTE_RSW)) as
    (s & fl & own & _ & Hi & Hw & Hfl & Ht & He & Ho & Hp & Hc); [done|].
  destruct (ref_insert_share_inv s small_data fl small_top Hi) as (s1 & _ & Hi1 & Hm & Elo & Ehi & Hl & Hc1);
    [rewrite Hc; done|].
  destruct (pt_wf_transport s s1 small_top own Hw Elo Ehi) as (Hw1 & _ & He1).
  { intros q n Hq. rewrite Hc1. destruct (Z.eqb_spec q small_data) as [->|]; lia. }
  { intros. by rewrite Hm. }
  destruct fl as [|p fl2]; [cbn in Hfl; lia|].
  exists s1, (p :: fl2), own, p, fl2. split_and!; try done.
  - rewrite He1, He by done. reflexivity.
  - unfold is_page. by rewrite Elo, Ehi.
  - rewrite Hc1, Z.eqb_refl, Hc. done.
  - unfold ref_total in *. rewrite Hl. change REF_LIST_SIZE with 16384. cbn in Hfl. lia.
Qed.

Lemma cow_fault_spec_witness :
  exists s s' p, cow_fault small_top 4096 s = Ret tt s' /\ entry 2 (pm_mem s') small_top 4096 = fault_entry p /\
    ref_count (ref_list s') small_data = 1 /\ load8 (pm_mem s') (p + 100) = load8 (pm_mem s) (p + 100).
Proof.
  destruct small_shared as (s & fl & own & p & fl2 & Hi & Hw & -> & He & Ho & Hp & Hc & Ht).
  assert (PTE2PA (map_entry small_data (Z.lor (prot_to_type PROT_READ true) PTE_RSW)) = small_data) as Ep by reflexivity.
  assert (p <> small_data) as Hne.
  { intros ->. rewrite ref_count_absent in Hc; [discriminate Hc|]. apply (inv_free _ _ _ Hi). left. }
  destruct (cow_fault_spec s (p :: fl2) small_top small_top own 4096 p fl2) as
    (s' & E & _ & _ & He' & _ & _ & Hb & Hr); rewrite ?He, ?Ep;
    [exact Hi|exact Hw|clear; done|reflexivity|exact Hp|clear; done|exact Ho|rewrite Hc; reflexivity|exact Ht
    |rewrite Hc; reflexivity|].
  exists s, s', p. split; [exact E|]. split; [rewrite He' by (clear; done); reflexivity|].
  rewrite He, Ep in Hr. split; [rewrite Hr by exact Hne; rewrite Hc; reflexivity|].
  apply Hb. clear; done.
Defined.

(** Two processes: [small_kern] has process 0 running and process 1 ready. *)
Lemma small_rr : rr_state (small_kern <| k_csrs :=
  replicate NCPU {| stvec := 0; sstatus := 0; sepc := 0; satp := 0; sip := 0 |} |>) 0 0 0 [1%nat] no_waiters.
Proof.
  split; try reflexivity.
  - destruct small_kern_wf. by split.
  - rewrite no_waiters_concat. set_solver.
  - by eexists.
  - intros j q ->%list_elem_of_singleton [= <-]. done.
  - intros j q Hq. destruct j as [|[|[|j]]]; cbn in Hq; simplify_eq; done.
  - by eexists.
  - cbn. lia.
Qed.

(** Process 1 runs after one slice, process 0 again after two. *)
Lemma round_robin_fair_witness :
  let k := small_kern <| k_csrs := replicate NCPU {| stvec := 0; sstatus := 0; sepc := 0; satp := 0; sip := 0 |} |> in
  let sys (_ : nat) (_ _ _ _ _ _ _ _ : Z) : M kern Z := fault in
  exists k' k'', timer_traps (SYM := small_symbols) sys 2 0 k = Some k' /\ current k' !! 0%nat = Some (Some 1%nat) /\
    timer_traps (SYM := small_symbols) sys 4 0 k = Some k'' /\ current k'' !! 0%nat = Some (Some 0%nat).
Proof.
  intros k sys.
  destruct (round_robin_fair (SYM := small_symbols) sys k 0 0 [1%nat] no_waiters 0 1 small_rr eq_refl) as (k' & E & Hc).
  destruct (round_robin_fair (SYM := small_symbols) sys k 0 0 [1%nat] no_waiters 1 0 small_rr eq_refl) as (k'' & E' & Hc').
  exists k', k''. split; [exact E|]. split; [exact Hc|]. split; [exact E'|exact Hc'].
Defined.
