(* ===== verification/Fork.v ===== *)
(** The heap of a forked process (do_fork of kernel/process.c): which pages the child shares,
    with which rights, and what becomes of the parent's. *)

From S2P Require Import Prelude Mem CString PageAlloc Pmm Vmm HashTable FsData Kernel Sched Process Strap.

(** * Two address spaces over one memory *)

(** The tables of the child and those of the parent are pages of their own. *)
Record spaces (s : pmm) (fl : list Z) (top cpt : Z) (cown : gmap Z node) (ppt : Z) (pown : gmap Z node) : Prop := {
  sp_inv : pmm_inv s fl top;
  sp_child : pt_wf s cpt cown;
  sp_parent : pt_wf s ppt pown;
  sp_apart q n : pown !! q = Some n -> cown !! q = None }.

(** A frame that can be shared once more. *)
Definition sharable (s : pmm) (pa : Z) : Prop :=
  0 <= pa < 18446744073709551616 /\ 0 < ref_count (ref_list s) pa < 18446744073709551615.

Lemma used_count s fl top q : pmm_inv s fl top -> 0 < ref_count (ref_list s) q -> q ∉ fl.
Proof. intros Hi Hc Hin. rewrite ref_count_absent in Hc; [lia|]. by apply (inv_free _ _ _ Hi). Qed.

(** Sharing one page changes one entry of the child and nothing of the parent. *)
Lemma share_step s fl top cpt cown ppt pown va pa :
  spaces s fl top cpt cown ppt pown -> 0 <= va < MAXVA -> sharable s pa ->
  (2 <= length fl)%nat -> ref_total (ref_list s) + 2 <= REF_LIST_SIZE ->
  exists s' fl' cown',
    cow_vm_map cpt va pa s = Ret tt s' /\ spaces s' fl' top cpt cown' ppt pown /\
    (length fl <= length fl' + 2)%nat /\ ref_total (ref_list s') <= ref_total (ref_list s) + 2 /\
    (forall va', 0 <= va' < MAXVA -> entry 2 (pm_mem s') cpt va' =
      if va' / PGSIZE =? va / PGSIZE then cow_entry pa else entry 2 (pm_mem s) cpt va') /\
    (forall va', entry 2 (pm_mem s') ppt va' = entry 2 (pm_mem s) ppt va') /\
    (forall q, 0 < ref_count (ref_list s) q ->
      ref_count (ref_list s') q = ref_count (ref_list s) q + (if q =? pa then 1 else 0)).
Proof.
  intros [Hi Hc Hp Ha] Hva [Hpa Hcnt] Hfl Hroom.
  destruct (cow_vm_map_run s fl top cpt cown va pa)
    as (s' & s2 & fl' & cown' & used & E & Efl & Hlen & Hi' & Hc' & He & Hg & Em & Elo & Ehi & Er & Hn); [done..|].
  assert (forall q, 0 < ref_count (ref_list s) q -> q ∉ used) as Hused.
  { intros q Hq Hin. apply (used_count s fl top q Hi Hq). set_solver. }
  assert (forall q n, pown !! q = Some n -> cown' !! q = None) as Ha'.
  { intros q n Hq. apply (grow_new _ _ _ _ _ Hg); [by eapply Ha|]. apply Hused. apply (wf_page _ _ _ Hp) in Hq as [_ Hq]. exact Hq. }
  assert (forall q, 0 < ref_count (ref_list s) q ->
    ref_count (ref_list s') q = ref_count (ref_list s) q + (if q =? pa then 1 else 0)) as Hn'.
  { intros q Hq. rewrite Hn, (grow_count _ _ _ _ _ Hg) by auto. done. }
  destruct (pt_wf_transport s s' ppt pown) as (Hp' & _ & Hpe); [done|by rewrite Elo, (grow_lo _ _ _ _ _ Hg)|by rewrite Ehi, (grow_hi _ _ _ _ _ Hg)| | |].
  { intros q n Hq. apply (wf_page _ _ _ Hp) in Hq as [_ Hq]. rewrite Hn' by done. case_if; lia. }
  { intros q n x Hq Hx. rewrite Em. apply load64_ext. intros a Ha2. apply (grow_frame _ _ _ _ _ Hg).
    replace a with (q + (a - q)) by lia. eapply page_off_tables; [exact Hc'|by eapply Ha'| |unfold PGSIZE; lia].
    by apply (tree_aligned _ _ _ (wf_tree _ _ _ Hp) q n). }
  exists s', fl', cown'. split_and!; try done.
  - rewrite Efl, length_app. lia.
  - unfold ref_total. rewrite Er, (grow_total _ _ _ _ _ Hg). lia.
Qed.

(** * The loop over the heap *)

(** The page of [va] is given to the child: it lies in the range and its block is not
    marked. *)
Definition shared (filter : list Z) (bottom lo hi va : Z) : bool :=
  (lo <=? va) && (va <? hi) && (default 1 (filter !! Z.to_nat ((va - bottom) / PGSIZE)) =? 0).

Lemma shared_true filter bottom lo hi va :
  shared filter bottom lo hi va = true <-> lo <= va < hi /\ default 1 (filter !! Z.to_nat ((va - bottom) / PGSIZE)) = 0.
Proof. unfold shared. rewrite !andb_true_iff, Z.leb_le, Z.ltb_lt, Z.eqb_eq. tauto. Qed.

Lemma shared_step filter bottom lo hi va :
  lo mod PGSIZE = 0 -> hi mod PGSIZE = 0 -> bottom mod PGSIZE = 0 -> lo < hi ->
  shared filter bottom lo hi va =
  if va / PGSIZE =? lo / PGSIZE then default 1 (filter !! Z.to_nat ((lo - bottom) / PGSIZE)) =? 0
  else shared filter bottom (lo + PGSIZE) hi va.
Proof.
  unfold shared, PGSIZE. intros Hlo Hhi Hb Hlt. destruct (Z.eqb_spec (va / 4096) (lo / 4096)) as [E|E].
  - assert (lo <= va < lo + 4096) by zdiv. assert (lo + 4096 <= hi) by zdiv.
    replace ((va - bottom) / 4096) with ((lo - bottom) / 4096) by zdiv.
    by destruct (Z.leb_spec lo va), (Z.ltb_spec va hi); try lia.
  - assert (va < lo \/ lo + 4096 <= va) by zdiv.
    destruct (Z.leb_spec lo va), (Z.leb_spec (lo + 4096) va); try lia; done.
Qed.

Lemma set_pmm_id k : set_pmm (k_pmm k) k = k.
Proof. destruct k as [kfs]; by destruct kfs. Qed.

(** Every page that is shared is a page of the parent, each a frame of its own. *)
Record heap_ok (s : pmm) (ppt : Z) (filter : list Z) (bottom lo hi : Z) : Prop := {
  ho_frame va : shared filter bottom lo hi va = true -> sharable s (translate (pm_mem s) ppt va);
  ho_inj va va' : shared filter bottom lo hi va = true -> shared filter bottom lo hi va' = true ->
    translate (pm_mem s) ppt va = translate (pm_mem s) ppt va' -> va / PGSIZE = va' / PGSIZE }.

Lemma translate_same m m' ppt :
  (forall va, entry 2 m' ppt va = entry 2 m ppt va) -> forall va, translate m' ppt va = translate m ppt va.
Proof. intros H va. unfold translate. by rewrite H. Qed.

Lemma entry_page level m pt va va' : va / PGSIZE = va' / PGSIZE -> entry level m pt va = entry level m pt va'.
Proof.
  intros E. revert pt. induction level as [|l IH]; intros pt; cbn [entry]; rewrite (PX_page va va') by (done || lia); [done|].
  by rewrite IH.
Qed.

Lemma translate_page m ppt va va' :
  va / PGSIZE = va' / PGSIZE -> translate m ppt va = translate m ppt va'.
Proof.
  intros E. unfold translate. rewrite (entry_page 2 m ppt va va' E).
  assert ((MAXVA <=? va) = (MAXVA <=? va')) as ->; [|done].
  change MAXVA with 274877906944. unfold PGSIZE in E. destruct (Z.leb_spec 274877906944 va), (Z.leb_spec 274877906944 va'); try done; zdiv.
Qed.

(** What the loop from [lo] to [hi] leaves behind. *)
Record heap_shared (s s' : pmm) (cpt ppt : Z) (filter : list Z) (bottom lo hi : Z) : Prop := {
  hs_child va : 0 <= va < MAXVA -> entry 2 (pm_mem s') cpt va =
    if shared filter bottom lo hi va then cow_entry (translate (pm_mem s) ppt va) else entry 2 (pm_mem s) cpt va;
  hs_parent va : entry 2 (pm_mem s') ppt va = entry 2 (pm_mem s) ppt va;
  hs_count va : shared filter bottom lo hi va = true ->
    ref_count (ref_list s') (translate (pm_mem s) ppt va) = ref_count (ref_list s) (translate (pm_mem s) ppt va) + 1;
  hs_others q : 0 < ref_count (ref_list s) q ->
    (forall va, shared filter bottom lo hi va = true -> translate (pm_mem s) ppt va <> q) ->
    ref_count (ref_list s') q = ref_count (ref_list s) q }.

Lemma shared_empty filter bottom lo hi va : hi <= lo -> shared filter bottom lo hi va = false.
Proof. intros. unfold shared. by destruct (Z.leb_spec lo va), (Z.ltb_spec va hi); try lia. Qed.

Lemma heap_shared_empty s cpt ppt filter bottom lo hi : hi <= lo -> heap_shared s s cpt ppt filter bottom lo hi.
Proof. intros H. split; try done; intros va; by rewrite shared_empty. Qed.

Section step.
Context (filter : list Z) (bottom lo hi : Z).
Hypothesis (Hlo : lo mod PGSIZE = 0) (Hhi : hi mod PGSIZE = 0) (Hb : bottom mod PGSIZE = 0) (Hlt : lo < hi).

Lemma heap_shared_skip s s' cpt ppt :
  (default 1 (filter !! Z.to_nat ((lo - bottom) / PGSIZE)) =? 0) = false ->
  heap_shared s s' cpt ppt filter bottom (lo + PGSIZE) hi -> heap_shared s s' cpt ppt filter bottom lo hi.
Proof.
  intros Hf [H1 H2 H3 H4].
  assert (forall va, shared filter bottom lo hi va = shared filter bottom (lo + PGSIZE) hi va) as E.
  { intros va. rewrite shared_step by done. destruct (Z.eqb_spec (va / PGSIZE) (lo / PGSIZE)) as [Ev|]; [|done].
    rewrite Hf. unfold shared. destruct (Z.leb_spec (lo + PGSIZE) va); [|done]. unfold PGSIZE in *. zdiv. }
  split; [intros va Hva; rewrite E; by apply H1|done|intros va; rewrite E; by apply H3|].
  intros q Hq Hn. apply H4; [done|]. intros va. rewrite <-E. apply Hn.
Qed.

Lemma shared_here va :
  (default 1 (filter !! Z.to_nat ((lo - bottom) / PGSIZE)) =? 0) = true ->
  shared filter bottom lo hi va = (va / PGSIZE =? lo / PGSIZE) || shared filter bottom (lo + PGSIZE) hi va.
Proof. intros Hf. rewrite shared_step by done. rewrite Hf. by destruct (_ =? _). Qed.

(** The first page and the others. *)
Lemma heap_shared_cons s s1 s2 cpt ppt :
  let pa := translate (pm_mem s) ppt lo in
  (default 1 (filter !! Z.to_nat ((lo - bottom) / PGSIZE)) =? 0) = true -> heap_ok s ppt filter bottom lo hi ->
  (forall va, 0 <= va < MAXVA -> entry 2 (pm_mem s1) cpt va =
      if va / PGSIZE =? lo / PGSIZE then cow_entry pa else entry 2 (pm_mem s) cpt va) ->
  (forall va, entry 2 (pm_mem s1) ppt va = entry 2 (pm_mem s) ppt va) ->
  (forall q, 0 < ref_count (ref_list s) q -> ref_count (ref_list s1) q = ref_count (ref_list s) q + (if q =? pa then 1 else 0)) ->
  heap_shared s1 s2 cpt ppt filter bottom (lo + PGSIZE) hi -> heap_shared s s2 cpt ppt filter bottom lo hi.
Proof.
  intros pa Hf [Hfr Hinj] He Hp Hc [H1 H2 H3 H4]. pose proof (translate_same _ _ ppt Hp) as Ht.
  assert (shared filter bottom lo hi lo = true) as Hhere by (rewrite shared_here, Z.eqb_refl; done).
  destruct (Hfr lo Hhere) as [_ Hpa]. fold pa in Hpa.
  assert (forall va, shared filter bottom (lo + PGSIZE) hi va = true -> translate (pm_mem s) ppt va <> pa) as Hne.
  { intros va Hva E. apply Hinj in E; [|by rewrite shared_here, Hva, orb_true_r|done].
    unfold shared in Hva. bools. unfold PGSIZE in *. zdiv. }
  split.
  - intros va Hva. rewrite H1 by done. rewrite shared_here, Ht by done.
    destruct (Z.eqb_spec (va / PGSIZE) (lo / PGSIZE)) as [Ev|Ev]; cbn [orb].
    + unfold shared. destruct (Z.leb_spec (lo + PGSIZE) va); [unfold PGSIZE in *; zdiv|]. cbn [andb].
      rewrite He, Ev, Z.eqb_refl by done. unfold pa. f_equal. by apply translate_page.
    + rewrite He by done. apply Z.eqb_neq in Ev. by rewrite Ev.
  - intros va. by rewrite H2.
  - intros va Hva. rewrite shared_here in Hva by done.
    destruct (Z.eqb_spec (va / PGSIZE) (lo / PGSIZE)) as [Ev|Ev]; cbn [orb] in Hva.
    + rewrite (translate_page _ ppt va lo Ev). fold pa. rewrite H4; rewrite ?Hc, ?Z.eqb_refl; [done|lia..|].
      intros va' Hva'. rewrite Ht. by apply Hne.
    + assert (shared filter bottom lo hi va = true) as Hsh by (by rewrite shared_here, Hva, orb_true_r).
      destruct (Hfr va Hsh) as [_ Hva2]. specialize (Hne va Hva). apply Z.eqb_neq in Hne.
      specialize (H3 va Hva). rewrite Ht, Hc, Hne in H3 by lia. lia.
  - intros q Hq Hn. assert (q <> pa) as Hqp by (intros ->; by apply (Hn lo)). apply Z.eqb_neq in Hqp.
    rewrite H4; rewrite ?Hc, ?Hqp; [lia|done|lia|done|]. intros va Hva. rewrite Ht. apply Hn.
    by rewrite shared_here, Hva, orb_true_r.
Qed.

(** What is asked of the heap holds for the pages behind the first. *)
Lemma heap_ok_skip s ppt : heap_ok s ppt filter bottom lo hi -> heap_ok s ppt filter bottom (lo + PGSIZE) hi.
Proof.
  intros [H1 H2]. assert (forall va, shared filter bottom (lo + PGSIZE) hi va = true -> shared filter bottom lo hi va = true) as Hs.
  { intros va. rewrite !shared_true. unfold PGSIZE. intros [? ?]. split; [lia|done]. }
  split; [auto|intros; apply H2; auto].
Qed.

Lemma heap_ok_share s s1 ppt :
  let pa := translate (pm_mem s) ppt lo in
  (default 1 (filter !! Z.to_nat ((lo - bottom) / PGSIZE)) =? 0) = true -> heap_ok s ppt filter bottom lo hi ->
  (forall va, entry 2 (pm_mem s1) ppt va = entry 2 (pm_mem s) ppt va) ->
  (forall q, 0 < ref_count (ref_list s) q -> ref_count (ref_list s1) q = ref_count (ref_list s) q + (if q =? pa then 1 else 0)) ->
  heap_ok s1 ppt filter bottom (lo + PGSIZE) hi.
Proof.
  intros pa Hf Hok Hp Hc. pose proof (translate_same _ _ ppt Hp) as Ht. pose proof (heap_ok_skip s ppt Hok) as [H1 H2].
  split; [|intros va va'; rewrite !Ht; by apply H2].
  intros va Hva. rewrite Ht. destruct (H1 va Hva) as [Hr Hn]. split; [done|]. rewrite Hc by lia.
  destruct (Z.eqb_spec (translate (pm_mem s) ppt va) pa) as [E|]; [|lia]. exfalso.
  apply (ho_inj _ _ _ _ _ _ Hok) in E; [| |rewrite shared_here, Z.eqb_refl; done].
  - unfold shared in Hva. bools. unfold PGSIZE in *. zdiv.
  - by rewrite shared_here, Hva, orb_true_r.
Qed.
End step.

Lemma fork_heap_run n : forall k fl top cpt cown ppt pown filter bottom lo hi,
  spaces (k_pmm k) fl top cpt cown ppt pown -> heap_ok (k_pmm k) ppt filter bottom lo hi ->
  lo mod PGSIZE = 0 -> hi mod PGSIZE = 0 -> bottom mod PGSIZE = 0 -> 0 <= bottom <= lo -> hi <= MAXVA ->
  hi - lo < Z.of_nat n * PGSIZE -> (hi - bottom) / PGSIZE <= Z.of_nat (length filter) ->
  2 * ((hi - lo) / PGSIZE) <= Z.of_nat (length fl) -> ref_total (ref_list (k_pmm k)) + 2 * ((hi - lo) / PGSIZE) <= REF_LIST_SIZE ->
  exists s' fl' cown', fork_heap n lo hi bottom filter ppt cpt k = Ret tt (set_pmm s' k) /\
    spaces s' fl' top cpt cown' ppt pown /\ heap_shared (k_pmm k) s' cpt ppt filter bottom lo hi.
Proof.
  induction n as [|n IH]; intros k fl top cpt cown ppt pown filter bottom lo hi Hsp Hho Hlo Hhi Hb Hbl Hmax Hn Hlen Hfl Hroom;
    cbn [fork_heap]; [|destruct (Z.ltb_spec lo hi) as [Hlt|Hge]].
  - exists (k_pmm k), fl, cown. split; [by rewrite set_pmm_id|]. split; [done|]. apply heap_shared_empty. unfold PGSIZE in *. lia.
  - change MAXVA with 274877906944 in Hmax. set (i := Z.to_nat ((lo - bottom) / PGSIZE)).
    rewrite (u64_small (lo - bottom)) by lia. fold i.
    assert (i < length filter)%nat as Hi by (unfold i, PGSIZE in *; zdiv).
    destruct (lookup_lt_is_Some_2 filter i Hi) as [f Ef]. rewrite Ef. cbn [deref].
    rewrite (bind_ret_eq (ret f) _ _ f k) by done. rewrite (u64_small (lo + PGSIZE)) by (unfold PGSIZE; lia).
    assert ((hi - (lo + PGSIZE)) / PGSIZE = (hi - lo) / PGSIZE - 1) as Ed by (unfold PGSIZE in *; zdiv).
    assert (0 <= (hi - (lo + PGSIZE)) / PGSIZE) as Hd by (unfold PGSIZE in *; zdiv).
    assert (1 <= (hi - lo) / PGSIZE) as Hd1 by lia.
    assert (default 1 (filter !! i) = f) as Edef by (by rewrite Ef).
    destruct (Z.eqb_spec f 0) as [Hf|Hf].
    + assert ((default 1 (filter !! i) =? 0) = true) as Hf0 by (rewrite Edef, Hf; done).
      destruct (share_step (k_pmm k) fl top cpt cown ppt pown lo (translate (pm_mem (k_pmm k)) ppt lo))
        as (s1 & fl1 & cown1 & E1 & Hsp1 & Hf1 & Hr1 & He1 & Hp1 & Hc1);
        [done|change MAXVA with 274877906944; lia| |lia|lia|].
      { apply (ho_frame _ _ _ _ _ _ Hho). rewrite shared_here by done. by rewrite Z.eqb_refl. }
      destruct (IH (set_pmm s1 k) fl1 top cpt cown1 ppt pown filter bottom (lo + PGSIZE) hi) as (s' & fl' & cown' & E' & Hsp' & Hs');
        [done|by eapply heap_ok_share|unfold PGSIZE in *; zdiv|done|done|unfold PGSIZE; lia|done|unfold PGSIZE in *; lia|done|lia| |].
      { change (k_pmm (set_pmm s1 k)) with s1. lia. }
      exists s', fl', cown'. split_and!; [|done|by eapply heap_shared_cons].
      rewrite (bind_ret_eq _ _ k tt (set_pmm s1 k)); [exact E'|].
      step (zoom_ret_eq k_pmm set_pmm (lookup_pa ppt lo) k _ _ (lookup_pa_translate (k_pmm k) fl top ppt pown lo (sp_inv _ _ _ _ _ _ _ Hsp) (sp_parent _ _ _ _ _ _ _ Hsp))).
      rewrite set_pmm_id. by apply (zoom_ret_eq k_pmm set_pmm).
    + assert ((default 1 (filter !! i) =? 0) = false) as Hf0 by (rewrite Edef; by apply Z.eqb_neq).
      destruct (IH k fl top cpt cown ppt pown filter bottom (lo + PGSIZE) hi) as (s' & fl' & cown' & E' & Hsp' & Hs');
        [done|by apply heap_ok_skip|unfold PGSIZE in *; zdiv|done|done|unfold PGSIZE; lia|done|unfold PGSIZE in *; lia|done|lia|lia|].
      exists s', fl', cown'. split_and!; [|done|by apply heap_shared_skip].
      by rewrite (bind_ret_eq (ret tt) _ _ tt k).
  - exists (k_pmm k), fl, cown. split; [by rewrite set_pmm_id|]. split; [done|]. by apply heap_shared_empty.
Qed.

(** ** The heap region *)

(** The manager of the heap is copied with the number of its pages. *)
Definition inherit_heap (p c : process) (ph : mapped_region) : process :=
  c <| mapped_info := alter (fun r => r <| mr_npages := mr_npages ph |>) (seg_index HEAP_SEGMENT) (mapped_info c) |>
    <| user_heap := user_heap p |>.

Lemma cow_translate s s' cpt ppt filter bottom lo hi va :
  heap_ok s ppt filter bottom lo hi -> heap_shared s s' cpt ppt filter bottom lo hi -> 0 <= va < MAXVA ->
  shared filter bottom lo hi va = true ->
  has (entry 2 (pm_mem s') cpt va) PTE_W = false /\ RSW (entry 2 (pm_mem s') cpt va) = 1 /\
  translate (pm_mem s') cpt va = translate (pm_mem s') ppt va.
Proof.
  intros Hok Hs Hva Hsh. destruct (ho_frame _ _ _ _ _ _ Hok va Hsh) as [Hr Hc].
  destruct (cow_entry_flags _ Hr) as (HV & HR & HW & HS).
  assert (entry 2 (pm_mem s') cpt va = cow_entry (translate (pm_mem s) ppt va)) as E by (rewrite (hs_child _ _ _ _ _ _ _ _ Hs) by done; by rewrite Hsh).
  rewrite E. split_and!; [done..|]. rewrite (translate_same (pm_mem s) (pm_mem s') ppt (hs_parent _ _ _ _ _ _ _ _ Hs)).
  unfold translate at 1. destruct (Z.leb_spec MAXVA va); [lia|]. rewrite E, HV, HR. cbn [andb orb].
  unfold cow_entry. rewrite map_entry_pa by done. apply ROUNDDOWN_page.
  unfold translate. repeat case_match; try done. unfold PTE2PA, u64. rewrite Z.shiftl_mul_pow2 by lia. unfold PGSIZE.
  change 18446744073709551616 with (2 ^ 52 * 2 ^ 12). change 4096 with (2 ^ 12). rewrite Z.mul_mod_distr_r by lia. apply Z_mod_mult.
Qed.

(** * Claims *)

(** C6.  When a process forks, the loop over its heap gives the child each page of the
    heap that is not marked as free: the child reads the parent's frame, without the right
    to write and with the copy-on-write mark, and the frame has one more owner.  A marked
    page is left out, and nothing else of the child's address space changes.  The tables of
    the parent do not change at all: a page it could write it still can, in the frame the
    child reads. *)
Theorem fork_region_heap hart par ch k p c junk i r ph filter fl top cown pown :
  let h := user_heap p in
  procs k !! par = Some p -> procs k !! ch = Some c -> current k !! hart = Some (Some par) ->
  mapped_info p !! i = Some r -> mr_seg_type r = HEAP_SEGMENT -> mapped_info p !! seg_index HEAP_SEGMENT = Some ph ->
  filter_mark (free_pages_address h) (Z.to_nat (free_pages_count h)) (heap_bottom h) (filter_init junk) = Some filter ->
  spaces (k_pmm k) fl top (pagetable c) cown (pagetable p) pown ->
  heap_ok (k_pmm k) (pagetable p) filter (heap_bottom h) (heap_bottom h) (heap_top h) ->
  0 <= heap_bottom h -> heap_bottom h mod PGSIZE = 0 -> heap_top h mod PGSIZE = 0 -> heap_top h <= MAXVA ->
  (heap_top h - heap_bottom h) / PGSIZE <= Z.of_nat (length filter) ->
  2 * ((heap_top h - heap_bottom h) / PGSIZE) <= Z.of_nat (length fl) ->
  ref_total (ref_list (k_pmm k)) + 2 * ((heap_top h - heap_bottom h) / PGSIZE) <= REF_LIST_SIZE ->
  exists s' fl' cown',
    fork_region hart par ch junk i k = Ret tt ((set_pmm s' k) <| procs := <[ch := inherit_heap p c ph]> (procs k) |>) /\
    spaces s' fl' top (pagetable c) cown' (pagetable p) pown /\
    heap_shared (k_pmm k) s' (pagetable c) (pagetable p) filter (heap_bottom h) (heap_bottom h) (heap_top h) /\
    forall va, shared filter (heap_bottom h) (heap_bottom h) (heap_top h) va = true ->
      has (entry 2 (pm_mem s') (pagetable c) va) PTE_W = false /\ RSW (entry 2 (pm_mem s') (pagetable c) va) = 1 /\
      translate (pm_mem s') (pagetable c) va = translate (pm_mem s') (pagetable p) va /\
      has (entry 2 (pm_mem s') (pagetable p) va) PTE_W = has (entry 2 (pm_mem (k_pmm k)) (pagetable p) va) PTE_W.
Proof.
  intros h Hp Hc Hcur Hr Hseg Hph Hf Hsp Hok Hb Hba Hta Htop Hlen Hfl Hroom.
  destruct (fork_heap_run (Z.to_nat ((heap_top h - heap_bottom h) / PGSIZE + 1)) k fl top (pagetable c) cown (pagetable p) pown
    filter (heap_bottom h) (heap_bottom h) (heap_top h)) as (s' & fl' & cown' & E & Hsp' & Hs'); [done..|lia|done| |done|done|done|].
  { unfold PGSIZE in *. zdiv. }
  exists s', fl', cown'. split_and!; [|done|done|].
  - unfold fork_region. step (get_proc_eq k par p Hp). step (get_proc_eq k ch c Hc). unfold region at 1. rewrite Hr. cbn [deref].
    rewrite (bind_ret_eq (ret r) _ _ r k) by done. rewrite Hseg. fold h. cbn zeta. rewrite Hf. cbn [deref].
    rewrite (bind_ret_eq (ret filter) _ _ filter k) by done. step (get_current_eq k hart par Hcur). step (get_proc_eq k par p Hp).
    fold h. step E. unfold region. rewrite Hph. cbn [deref].
    rewrite (bind_ret_eq (ret ph) _ _ ph (set_pmm s' k)) by done.
    rewrite (mod_proc_eq (set_pmm s' k) ch c) by done. done.
  - intros va Hsh. pose proof Hsh as [Hva _]%shared_true.
    destruct (cow_translate (k_pmm k) s' (pagetable c) (pagetable p) filter (heap_bottom h) (heap_bottom h) (heap_top h) va) as (H1 & H2 & H3);
      [done|done|lia|done|].
    split_and!; [done..|]. by rewrite (hs_parent _ _ _ _ _ _ _ _ Hs').
Qed.

(** ** Witness *)

(** The page of [small_mapped] at 4096 is the heap of process 0; process 1 has an empty
    directory. *)
Definition small_two : outcome pmm Z := (p <- alloc_page ;; memset_page p 0 ;;; ret p) small_mapped.
Definition small_root : Z := match small_two with Ret p _ => p | _ => 0 end.
Definition small_pages : pmm := match small_two with Ret _ s => s | _ => small_mapped end.

#[local] Opaque small_mapped small_data.

Lemma small_two_ok :
  exists fl own, spaces small_pages fl small_top small_root {[small_root := TRoot]} small_top own /\
    (7 <= length fl)%nat /\ ref_total (ref_list small_pages) <= 14 /\
    (forall va, 0 <= va < MAXVA -> entry 2 (pm_mem small_pages) small_top va = remap (fun _ => 0) 4096 8192 small_data small_perm va) /\
    ref_count (ref_list small_pages) small_data = 1.
Proof.
  destruct small_mapped_ok as (fl & own & Hi & Hw & Hfl & Ht & He & Ho & Hp & Hc).
  destruct fl as [|p fl]; [cbn in Hfl; lia|].
  destruct (alloc_data small_mapped p fl small_top small_top own Hi Hw) as (s1 & E1 & Hi1 & Hw1 & Hm1 & Hpo & Hpp & Ht1 & Hc1 & _);
    [change REF_LIST_SIZE with 16384; lia|].
  assert (0 < ref_count (ref_list s1) p) as Hc1p by (rewrite Hc1, Z.eqb_refl; lia).
  destruct (empty_table s1 fl small_top p Hi1 Hpp Hc1p) as (s2 & E2 & Hi2 & Hw2 & He2 & Hr2).
  assert (small_two = Ret p s2) as E by (unfold small_two, bind; by rewrite E1, E2).
  unfold small_root, small_pages. rewrite E.
  assert (s2 = s1 <| pm_mem := memset (pm_mem s1) p 0 PGSIZE |>) as Es2.
  { unfold memset_page in E2. destruct (in_dram p PGSIZE); congruence. }
  destruct (pt_wf_transport s1 s2 small_top own) as (Hwp & _ & Hep); [done|by rewrite Es2|by rewrite Es2|by rewrite Hr2| |].
  { intros q n x Hq Hx. rewrite Es2. apply (unchanged_load64 p (p + PGSIZE)); [apply memset_unchanged; unfold PGSIZE; lia|].
    pose proof (tree_aligned _ _ _ (wf_tree _ _ _ Hw1) q n Hq). destruct (pages_disjoint p q); [apply Hpp|done|congruence|unfold PGSIZE in *; lia..]. }
  exists fl, own. cbn [length] in Hfl, Ht. split_and!.
  - split; [done|done|done|]. intros q n Hq. apply lookup_singleton_None. congruence.
  - lia.
  - rewrite Hr2. lia.
  - intros va Hva. rewrite Hep, Hm1. by apply He.
  - rewrite Hr2, Hc1. destruct (Z.eqb_spec small_data p) as [Esd|]; [|done]. exfalso. rewrite Esd in Hc.
    apply (used_count small_mapped (p :: fl) small_top p Hi); [rewrite Hc; clear; done|apply elem_of_cons; by left].
Qed.

#[local] Opaque small_pages small_root.

Definition demo_heap : mapped_region := {| mr_va := 4096; mr_npages := 1; mr_seg_type := HEAP_SEGMENT |}.
Definition heap_parent : process := (blank_process 0 RUNNING) <| mapped_info := replicate 4 demo_heap |>
  <| user_heap := {| heap_top := 8192; heap_bottom := 4096; free_pages_address := []; free_pages_count := 0 |} |>.
Definition heap_child : process := (blank_process 1 READY) <| pagetable := small_root |>.
Definition fork_kern : kern := (set_pmm small_pages small_kern) <| procs := [heap_parent; heap_child] |>.

(** The parent keeps the right to write the frame the child reads. *)
Lemma fork_region_heap_witness :
  exists k' s', fork_region 0 0 1 (replicate 32 0) 1 fork_kern = Ret tt k' /\ k_pmm k' = s' /\
    translate (pm_mem s') small_root 4096 = translate (pm_mem s') small_top 4096 /\
    has (entry 2 (pm_mem s') small_root 4096) PTE_W = false /\ has (entry 2 (pm_mem s') small_top 4096) PTE_W = true /\
    ref_count (ref_list s') small_data = 2.
Proof.
  destruct small_two_ok as (fl & own & Hsp & Hfl & Ht & He & Hc).
  assert (forall va, shared (replicate 32 0) 4096 4096 8192 va = true -> va / PGSIZE = 1) as Hone.
  { intros va [Hva _]%shared_true. unfold PGSIZE. zdiv. }
  assert (forall va, shared (replicate 32 0) 4096 4096 8192 va = true -> translate (pm_mem small_pages) small_top va = small_data) as Htr.
  { intros va Hva. rewrite (translate_page _ _ va 4096) by (by rewrite Hone). unfold translate.
    rewrite He by (clear; done). reflexivity. }
  destruct (fork_region_heap 0 0 1 fork_kern heap_parent heap_child (replicate 32 0) 1 demo_heap demo_heap
    (replicate 32 0) fl small_top {[small_root := TRoot]} own) as (s' & fl' & cown' & E & _ & Hs & Hva).
  - reflexivity.
  - reflexivity.
  - reflexivity.
  - reflexivity.
  - reflexivity.
  - reflexivity.
  - reflexivity.
  - exact Hsp.
  - change (heap_ok small_pages small_top (replicate 32 0) 4096 4096 8192).
    split; [intros va Hva; split; rewrite (Htr va Hva)|intros va va' H1 H2 _; by rewrite !Hone].
    + pose proof small_data_range. clear -H. lia.
    + rewrite Hc. clear; done.
  - clear; done.
  - reflexivity.
  - reflexivity.
  - clear; done.
  - clear; cbn; done.
  - change (2 * 1 <= Z.of_nat (length fl)). lia.
  - change (ref_total (ref_list small_pages) + 2 * 1 <= REF_LIST_SIZE). change REF_LIST_SIZE with 16384. lia.
  - assert (shared (replicate 32 0) 4096 4096 8192 4096 = true) as H4 by reflexivity.
    destruct (Hva 4096 H4) as (HW & _ & Htc & HP).
    exists ((set_pmm s' fork_kern) <| procs := <[1%nat := inherit_heap heap_parent heap_child demo_heap]> (procs fork_kern) |>), s'.
    split_and!; [exact E|reflexivity|exact Htc|exact HW| |].
    + change (pagetable heap_parent) with small_top in HP. rewrite HP. change (k_pmm fork_kern) with small_pages.
      rewrite He by (clear; done). reflexivity.
    + pose proof (hs_count _ _ _ _ _ _ _ _ Hs 4096 H4) as Hcc. change (k_pmm fork_kern) with small_pages in Hcc.
      change (pagetable heap_parent) with small_top in Hcc. rewrite (Htr 4096 H4), Hc in Hcc. exact Hcc.
Defined.
