(* ===== verification/Boot.v ===== *)
(** kernel/machine/minit.c, kernel/machine/mtrap.c and kernel/kernel.c: the start of a hart
    in machine mode, the traps that stay there, and the start of the kernel. *)

From S2P Require Import Prelude Mem CString Symbol Leb128 DebugLine Fdt PageAlloc Pmm Vmm HashTable SpikeFile FsData Hostfs Kernel Sched Process Elf ElfLoad ErrorLine ProcFile Syscall Strap.

(** * The machine *)

(** Bits and causes of kernel/riscv.h. *)
Definition MSTATUS_MPP_MASK : Z := Z.shiftl 3 11.
Definition MSTATUS_MPP_S : Z := Z.shiftl 1 11.
Definition MSTATUS_MIE : Z := Z.shiftl 1 3.
Definition MSTATUS_MPIE : Z := Z.shiftl 1 7.
Definition IRQ_S_EXT : Z := 9.
Definition IRQ_S_TIMER : Z := 5.
Definition IRQ_S_SOFT : Z := 1.
Definition MIP_SEIP : Z := Z.shiftl 1 IRQ_S_EXT.
Definition MIP_SSIP : Z := Z.shiftl 1 IRQ_S_SOFT.
Definition MIP_STIP : Z := Z.shiftl 1 IRQ_S_TIMER.
Definition CAUSE_MISALIGNED_FETCH : Z := 0.
Definition CAUSE_FETCH_ACCESS : Z := 1.
Definition CAUSE_ILLEGAL_INSTRUCTION : Z := 2.
Definition CAUSE_BREAKPOINT : Z := 3.
Definition CAUSE_MISALIGNED_LOAD : Z := 4.
Definition CAUSE_LOAD_ACCESS : Z := 5.
Definition CAUSE_MISALIGNED_STORE : Z := 6.
Definition CAUSE_STORE_ACCESS : Z := 7.
Definition CAUSE_FETCH_PAGE_FAULT : Z := 12.
Definition CAUSE_MTIMER : Z := 9223372036854775815.
Definition SIE_SEIE : Z := Z.shiftl 1 9.
Definition SIE_STIE : Z := Z.shiftl 1 5.
Definition SIE_SSIE : Z := Z.shiftl 1 1.
Definition MIE_MTIE : Z := Z.shiftl 1 7.
Definition TIMER_INTERVAL : Z := 1000000.
Definition MAX_CMDLINE_ARGS : Z := 64.

Inductive priv_mode := U_mode | S_mode | M_mode.

(** The registers of a hart that only the machine-mode code uses, its privilege mode and
    its program counter. *)
Record hart_regs := {
  misa : Z; mstatus : Z; mie : Z; mideleg : Z; medeleg : Z; mtvec : Z; mscratch : Z;
  mepc : Z; mcause : Z; sie : Z; tp : Z; mode : priv_mode; pc : Z;
}.
#[export] Instance eta_hart_regs : Eta hart_regs := fun r =>
  Build_hart_regs (misa r) (mstatus r) (mie r) (mideleg r) (medeleg r) (mtvec r) (mscratch r)
    (mepc r) (mcause r) (sie r) (tp r) (mode r) (pc r).

(** The whole machine: the kernel, the harts, the timer ([CLINT_MTIME] and
    [CLINT_MTIMECMP(hartid)]), and the globals of the three files. *)
Record board := {
  b_kern : kern;
  b_harts : list hart_regs;
  mtime : Z;
  mtimecmp : list Z;
  m_latch : bool;
  started : bool;
  b_htif : bool;
  s_latch : bool;
  inited : bool;
  g_kernel_pagetable : Z;
}.
#[export] Instance eta_board : Eta board := fun b =>
  Build_board (b_kern b) (b_harts b) (mtime b) (mtimecmp b) (m_latch b) (started b) (b_htif b) (s_latch b)
    (inited b) (g_kernel_pagetable b).

(** What the linker and the hardware fix: the bits of the two delegation registers that
    exist, the addresses of code and of [g_itrframe], the end of the kernel and of its
    text, and where the variable [arg_bug_msg] of [load_user_program] lies. *)
Class Platform := {
  mideleg_bits : Z;
  medeleg_bits : Z;
  g_itrframe : Z;
  s_start_address : Z;
  mtrapvec : Z;
  mem_done_address : Z;
  kernel_end : Z;
  kernel_etext : Z;
  arg_bug_msg : Z;
}.

Definition on_kern {A} (c : M kern A) : M board A := zoom b_kern (fun k b => b <| b_kern := k |>) c.

Definition get_hart (hart : nat) : M board hart_regs := b <- gets id ;; deref (b_harts b !! hart).
Definition mod_hart (hart : nat) (f : hart_regs -> hart_regs) : M board unit :=
  r <- get_hart hart ;; modify (fun b => b <| b_harts := <[hart := f r]> (b_harts b) |>).

Definition lock_latch (get : board -> bool) (set : bool -> board -> board) : M board unit := fun b =>
  if get b then Hang else Ret tt (set true b).
Definition set_m_latch (v : bool) (b : board) : board := b <| m_latch := v |>.
Definition set_s_latch (v : bool) (b : board) : board := b <| s_latch := v |>.

(** * minit.c *)

Section minit.
Context {PL : Platform} {HO : Host}.

(** [supports_extension('S')] *)
Definition supports_S (r : hart_regs) : bool := has (misa r) (Z.shiftl 1 18).

Definition interrupts : Z := Z.lor (Z.lor MIP_SSIP MIP_STIP) MIP_SEIP.
Definition exceptions : Z :=
  foldr (fun c v => Z.lor (Z.shiftl 1 c) v) 0
    [CAUSE_MISALIGNED_FETCH; CAUSE_FETCH_PAGE_FAULT; CAUSE_BREAKPOINT; CAUSE_LOAD_PAGE_FAULT; CAUSE_STORE_PAGE_FAULT;
     CAUSE_USER_ECALL].

Definition delegate_traps (hart : nat) : M board unit :=
  r <- get_hart hart ;;
  if negb (supports_S r) then ret tt
  else
    mod_hart hart (fun r => r <| mideleg := Z.land interrupts mideleg_bits |>) ;;;
    mod_hart hart (fun r => r <| medeleg := Z.land exceptions medeleg_bits |>) ;;;
    r <- get_hart hart ;;
    kassert (mideleg r =? interrupts) "read_csr(mideleg) == interrupts" ;;;
    kassert (medeleg r =? exceptions) "read_csr(medeleg) == exceptions".

Definition timerinit (hart : nat) : M board unit :=
  b <- gets id ;;
  l <- deref (set_index (mtimecmp b) (Z.of_nat hart) (u64 (mtime b + TIMER_INTERVAL))) ;;
  modify (fun b => b <| mtimecmp := l |>) ;;;
  mod_hart hart (fun r => r <| mie := Z.lor (mie r) MIE_MTIE |>).

(** [fuel] bounds the scan; the [junk]s are what the variables of the scans hold at first. *)
Definition init_dtb (fuel : nat) (junk : mem_scan) (junk' : bool) (dtb : Z) : M board unit :=
  b <- gets id ;;
  h <- on_kern (on_pmm (zoom pm_mem (fun m s => s <| pm_mem := m |>)
         (query_htif fuel {| compat := junk'; htif := b_htif b |} dtb))) ;;
  modify (fun b => b <| b_htif := h |>) ;;;
  size <- on_kern (on_pmm (zoom pm_mem (fun m s => s <| pm_mem := m |>) (query_mem fuel mem_done_address junk dtb))) ;;
  on_kern (on_pmm (modify (fun s => s <| g_mem_size := size |>))).

(** [mret]: the hart goes on at [mepc] in the mode of [MPP]. *)
Definition mret (hart : nat) : M board unit :=
  mod_hart hart (fun r =>
    r <| pc := mepc r |>
      <| mode := if Z.land (Z.shiftr (mstatus r) 11) 3 =? 0 then U_mode
                 else if Z.land (Z.shiftr (mstatus r) 11) 3 =? 1 then S_mode else M_mode |>
      <| mstatus := Z.ldiff (Z.lor (Z.ldiff (mstatus r) MSTATUS_MIE)
                      (Z.lor (if has (mstatus r) MSTATUS_MPIE then MSTATUS_MIE else 0) MSTATUS_MPIE)) MSTATUS_MPP_MASK |>).

Definition m_start (fuel : nat) (junk : mem_scan) (junk' : bool) (hart : nat) (dtb : Z) : M board unit :=
  lock_latch m_latch set_m_latch ;;;
  b <- gets id ;;
  (if started b then
     modify (fun b => b <| started := false |>) ;;;
     on_kern (on_fs (on_host spike_file_init)) ;;;
     init_dtb fuel junk junk' dtb
   else ret tt) ;;;
  modify (set_m_latch false) ;;;
  mod_hart hart (fun r => r <| mscratch := g_itrframe + 248 * Z.of_nat hart |>) ;;;
  mod_hart hart (fun r => r <| mstatus := Z.lor (Z.ldiff (mstatus r) MSTATUS_MPP_MASK) MSTATUS_MPP_S |>) ;;;
  mod_hart hart (fun r => r <| mepc := s_start_address |>) ;;;
  mod_hart hart (fun r => r <| mtvec := mtrapvec |>) ;;;
  mod_hart hart (fun r => r <| mstatus := Z.lor (mstatus r) MSTATUS_MIE |>) ;;;
  delegate_traps hart ;;;
  mod_hart hart (fun r => r <| sie := Z.lor (Z.lor (Z.lor (sie r) SIE_SEIE) SIE_STIE) SIE_SSIE |>) ;;;
  timerinit hart ;;;
  mod_hart hart (fun r => r <| tp := Z.of_nat hart |>) ;;;
  mret hart.

(** * mtrap.c *)

Definition handle_instruction_access_fault : M board unit := panic "Instruction access fault!".
Definition handle_load_access_fault : M board unit := panic "Load access fault!".
Definition handle_store_access_fault : M board unit := panic "Store/AMO access fault!".
Definition handle_illegal_instruction : M board unit := panic "Illegal instruction!".
Definition handle_misaligned_load : M board unit := panic "Misaligned Load!".
Definition handle_misaligned_store : M board unit := panic "Misaligned AMO!".

(** [read_tp()] is the register of the interrupted program. *)
Definition handle_timer (hart : nat) : M board unit :=
  r <- get_hart hart ;;
  let cpuid := i32 (tp r) in
  b <- gets id ;;
  t <- deref (at_index (mtimecmp b) cpuid) ;;
  l <- deref (set_index (mtimecmp b) cpuid (u64 (t + TIMER_INTERVAL))) ;;
  modify (fun b => b <| mtimecmp := l |>) ;;;
  on_kern (mod_csrs hart (fun c => c <| sip := SIP_SSIP |>)).

Definition handle_mtrap (hart : nat) : M board unit :=
  r <- get_hart hart ;;
  let c := mcause r in
  if c =? CAUSE_MTIMER then handle_timer hart
  else if c =? CAUSE_FETCH_ACCESS then handle_instruction_access_fault
  else if c =? CAUSE_LOAD_ACCESS then handle_load_access_fault ;;; handle_store_access_fault
  else if c =? CAUSE_STORE_ACCESS then handle_store_access_fault
  else if c =? CAUSE_ILLEGAL_INSTRUCTION then
    on_kern (print_error_line (Z.to_nat (i32 (tp r))) (mepc r)) ;;;
    handle_illegal_instruction
  else if c =? CAUSE_MISALIGNED_LOAD then handle_misaligned_load
  else if c =? CAUSE_MISALIGNED_STORE then handle_misaligned_store
  else panic "unexpected exception happened in M-mode.".
End minit.

(** * kernel.c *)

Section start.
Context {PL : Platform} {SYM : Symbols} {ST : Stale} {HO : Host}.
Variable fuel : nat.

Definition enable_paging (hart : nat) : M board unit :=
  b <- gets id ;; on_kern (mod_csrs hart (fun c => c <| satp := MAKE_SATP (g_kernel_pagetable b) |>)).

(** The loop over the arguments: [buf[i] = buf[2 + i]] while [1 + i < pk_argc]; an index
    past the 64 words is outside the variable. *)
Fixpoint shift_args (n : nat) (i pk_argc : Z) : M kern unit :=
  match n with
  | O => ret tt
  | S n' =>
      if 1 + i <? pk_argc then
        (if MAX_CMDLINE_ARGS <=? 2 + i then fault else ret tt) ;;;
        p <- on_pmm (ld64 (arg_bug_msg + 8 * (2 + i))) ;;
        on_pmm (st64 (arg_bug_msg + 8 * i) p) ;;;
        shift_args n' (i + 1) pk_argc
      else ret tt
  end.

Definition parse_args : M kern Z :=
  r <- on_fs (on_host (frontend_syscall (host_getmainvars (8 * MAX_CMDLINE_ARGS)))) ;;
  on_pmm (st_bytes arg_bug_msg (snd r)) ;;;
  kassert (fst r =? 0) "r == 0" ;;;
  pk_argc <- on_pmm (ld64 arg_bug_msg) ;;
  shift_args (Z.to_nat MAX_CMDLINE_ARGS) 0 pk_argc ;;;
  ret (u64 (pk_argc - 1)).

Definition load_user_program (hart : nat) (stale : list file) : M kern nat :=
  p <- alloc_process stale ;;
  argc <- parse_args ;;
  if argc =? 0 then panic "You need to specify the application program!"
  else
    a <- on_pmm (ld64 arg_bug_msg) ;;
    name <- on_pmm (ld_string (Z.to_nat (8 * MAX_CMDLINE_ARGS)) a) ;;
    load_bincode_from_host_elf fuel hart p name ;;;
    mod_proc p (fun x => x <| first_free_block := 0 |>) ;;;
    ret p.

Definition s_start (hart : nat) (stale : list file) (junk : list Z) : M board Z :=
  on_kern (mod_csrs hart (fun c => c <| satp := 0 |>)) ;;;
  lock_latch s_latch set_s_latch ;;;
  b <- gets id ;;
  (if inited b then ret tt
   else
     modify (fun b => b <| inited := true |>) ;;;
     on_kern (on_pmm (pmm_init kernel_end)) ;;;
     t <- on_kern (on_pmm (kern_vm_init kernel_etext)) ;;
     modify (fun b => b <| g_kernel_pagetable := t |>) ;;;
     on_kern init_proc_pool ;;;
     on_kern (on_fs (fs_init junk))) ;;;
  modify (set_s_latch false) ;;;
  enable_paging hart ;;;
  (if (hart =? 0)%nat then
     p <- on_kern (load_user_program hart stale) ;;
     on_kern (insert_to_ready_queue p) ;;;
     on_kern (schedule hart)
   else on_kern (do_wait_call hart) ;;; ret tt) ;;;
  ret 0.
End start.

(** * Properties *)

(** ** Registers *)

Definition with_hart (b : board) (hart : nat) (r : hart_regs) : board := b <| b_harts := <[hart := r]> (b_harts b) |>.

Lemma with_hart_id b hart r : b_harts b !! hart = Some r -> with_hart b hart r = b.
Proof. intros E. unfold with_hart. destruct b; cbn in *. by rewrite list_insert_id. Qed.

Lemma get_hart_with b hart r : (hart < length (b_harts b))%nat -> get_hart hart (with_hart b hart r) = Ret r (with_hart b hart r).
Proof. intros H. unfold get_hart, bind, gets, id. cbn. by rewrite list_lookup_insert_eq. Qed.

Lemma mod_hart_with b hart r f : (hart < length (b_harts b))%nat ->
  mod_hart hart f (with_hart b hart r) = Ret tt (with_hart b hart (f r)).
Proof.
  intros H. unfold mod_hart. step (get_hart_with b hart r H). unfold modify, with_hart. cbn. by rewrite list_insert_insert_eq.
Qed.

(** [has] of a register with a bit set. *)
Lemma has_set v n : 0 <= n -> has (Z.lor v (Z.shiftl 1 n)) (Z.shiftl 1 n) = true.
Proof.
  intros Hn. rewrite has_lor. apply orb_true_iff. right. unfold has. rewrite Z.land_diag, Z.shiftl_mul_pow2 by done.
  apply negb_true_iff, Z.eqb_neq. pose proof (Z.pow_pos_nonneg 2 n). lia.
Qed.

(** After the two writes of [mstatus] in [m_start] the previous mode is S. *)
Lemma previous_mode v :
  Z.land (Z.shiftr (Z.lor (Z.lor (Z.ldiff v MSTATUS_MPP_MASK) MSTATUS_MPP_S) MSTATUS_MIE) 11) 3 = 1.
Proof.
  apply Z.bits_inj'. intros i Hi.
  rewrite Z.land_spec, Z.shiftr_spec, !Z.lor_spec, Z.ldiff_spec by done.
  unfold MSTATUS_MPP_MASK, MSTATUS_MPP_S, MSTATUS_MIE. rewrite !Z.shiftl_spec by lia.
  replace (i + 11 - 11) with i by lia.
  destruct (Z.eq_dec i 0) as [->|H0]; [cbn; by rewrite andb_false_r|].
  destruct (Z.eq_dec i 1) as [->|H1]; [cbn; by rewrite andb_false_r|].
  rewrite (Z.bits_above_log2 3 i), (Z.bits_above_log2 1 i) by (cbn; lia). by rewrite andb_false_r.
Qed.

(** ** Start of a hart *)

(** The three standard files. *)
Definition std_host : host :=
  blank_host <| spike_files := [{| kfd := 0; refcnt := 4 |}; {| kfd := 1; refcnt := 4 |}; {| kfd := 2; refcnt := 4 |}]
                  ++ replicate 125 {| kfd := -1; refcnt := 0 |} |>
             <| spike_fds := [1; 2; 3] ++ replicate 125 0 |>.

Section boot_rules.
Context {PL : Platform} {HO : Host}.

Lemma spike_file_init_eq : spike_file_init blank_host = Ret tt std_host.
Proof. by vm_compute. Qed.

Lemma delegate_traps_eq b hart r :
  (hart < length (b_harts b))%nat -> supports_S r = true ->
  Z.land interrupts mideleg_bits = interrupts -> Z.land exceptions medeleg_bits = exceptions ->
  delegate_traps hart (with_hart b hart r) =
    Ret tt (with_hart b hart (r <| mideleg := interrupts |> <| medeleg := exceptions |>)).
Proof.
  intros Hh Hs Hi He. unfold delegate_traps. step (get_hart_with b hart r Hh). rewrite Hs. cbn [negb].
  step (mod_hart_with b hart r (fun r => r <| mideleg := Z.land interrupts mideleg_bits |>) Hh). rewrite Hi.
  step (mod_hart_with b hart (r <| mideleg := interrupts |>) (fun r => r <| medeleg := Z.land exceptions medeleg_bits |>) Hh).
  rewrite He. step (get_hart_with b hart (r <| mideleg := interrupts |> <| medeleg := exceptions |>) Hh).
  cbn [mideleg medeleg]. by rewrite !Z.eqb_refl.
Qed.

(** The registers of a hart at the end of [m_start]. *)
Record hart_started (hart : nat) (r : hart_regs) : Prop := {
  hs_mode : mode r = S_mode;
  hs_pc : pc r = s_start_address;
  hs_mtvec : mtvec r = mtrapvec;
  hs_mscratch : mscratch r = g_itrframe + 248 * Z.of_nat hart;
  hs_tp : tp r = Z.of_nat hart;
  hs_mideleg : mideleg r = interrupts;
  hs_medeleg : medeleg r = exceptions;
  hs_mie : has (mie r) MIE_MTIE = true;
  hs_sie : has (sie r) SIE_SSIE = true;
}.

(** The part of [m_start] that every hart runs. *)
Lemma m_start_hart b hart r :
  (hart < length (b_harts b))%nat -> (hart < length (mtimecmp b))%nat -> supports_S r = true ->
  Z.land interrupts mideleg_bits = interrupts -> Z.land exceptions medeleg_bits = exceptions ->
  exists r', hart_started hart r' /\
  (mod_hart hart (fun r => r <| mscratch := g_itrframe + 248 * Z.of_nat hart |>) ;;;
   mod_hart hart (fun r => r <| mstatus := Z.lor (Z.ldiff (mstatus r) MSTATUS_MPP_MASK) MSTATUS_MPP_S |>) ;;;
   mod_hart hart (fun r => r <| mepc := s_start_address |>) ;;;
   mod_hart hart (fun r => r <| mtvec := mtrapvec |>) ;;;
   mod_hart hart (fun r => r <| mstatus := Z.lor (mstatus r) MSTATUS_MIE |>) ;;;
   delegate_traps hart ;;;
   mod_hart hart (fun r => r <| sie := Z.lor (Z.lor (Z.lor (sie r) SIE_SEIE) SIE_STIE) SIE_SSIE |>) ;;;
   timerinit hart ;;;
   mod_hart hart (fun r => r <| tp := Z.of_nat hart |>) ;;;
   mret hart) (with_hart b hart r) =
  Ret tt (with_hart (b <| mtimecmp := <[hart := u64 (mtime b + TIMER_INTERVAL)]> (mtimecmp b) |>) hart r').
Proof.
  intros Hh Ht Hs Hi He. eexists. split; cycle 1.
  - do 5 (rewrite (bind_ret_eq _ _ _ _ _ (mod_hart_with b hart _ _ Hh)); cbn beta).
    match goal with |- bind (delegate_traps hart) _ (with_hart b hart ?x) = _ => set (r0 := x) end.
    rewrite (bind_ret_eq _ _ _ _ _ (delegate_traps_eq b hart r0 Hh (Hs : supports_S r0 = true) Hi He)).
    rewrite (bind_ret_eq _ _ _ _ _ (mod_hart_with b hart _ _ Hh)).
    match goal with |- bind (timerinit hart) _ (with_hart b hart ?x) = _ => set (r1 := x) end.
    set (b1 := b <| mtimecmp := <[hart := u64 (mtime b + TIMER_INTERVAL)]> (mtimecmp b) |>).
    assert (timerinit hart (with_hart b hart r1) = Ret tt (with_hart b1 hart (r1 <| mie := Z.lor (mie r1) MIE_MTIE |>))) as E.
    { unfold timerinit. step (eq_refl : gets id (with_hart b hart r1) = Ret (with_hart b hart r1) (with_hart b hart r1)).
      change (mtimecmp (with_hart b hart r1)) with (mtimecmp b). change (mtime (with_hart b hart r1)) with (mtime b).
      rewrite set_index_eq, Nat2Z.id by lia.
      step (eq_refl : deref (Some (<[hart := u64 (mtime b + TIMER_INTERVAL)]> (mtimecmp b))) (with_hart b hart r1)
        = Ret (<[hart := u64 (mtime b + TIMER_INTERVAL)]> (mtimecmp b)) (with_hart b hart r1)).
      step (eq_refl : modify (fun b' => b' <| mtimecmp := <[hart := u64 (mtime b + TIMER_INTERVAL)]> (mtimecmp b) |>) (with_hart b hart r1)
        = Ret tt (with_hart b1 hart r1)).
      exact (mod_hart_with b1 hart r1 (fun r => r <| mie := Z.lor (mie r) MIE_MTIE |>) Hh). }
    step E. rewrite (bind_ret_eq _ _ _ _ _ (mod_hart_with b1 hart _ _ Hh)). exact (mod_hart_with b1 hart _ _ Hh).
  - split; cbn; try done.
    + by rewrite previous_mode.
    + by apply has_set.
    + by apply has_set.
Qed.

Lemma on_memory_eq {A} (q : M mem A) b a :
  q (pm_mem (k_pmm (b_kern b))) = Ret a (pm_mem (k_pmm (b_kern b))) ->
  on_kern (on_pmm (zoom pm_mem (fun m s => s <| pm_mem := m |>) q)) b = Ret a b.
Proof.
  intros E. unfold on_kern, on_pmm, zoom. rewrite E. destruct b as [k]; destruct k as [f]; destruct f as [s]; by destruct s.
Qed.

(** What the first hart finds in the device tree. *)
Lemma init_dtb_eq fuel junk junk' dtb b f :
  let m := pm_mem (k_pmm (b_kern b)) in
  let size := find_memory mem_done_address None (2, 1) f 0 in
  fdt_at m dtb f -> memory_ok None (2, 1) f -> (length (encode_nodes f) < fuel)%nat -> 0 < size ->
  init_dtb fuel junk junk' dtb b =
    Ret tt (b <| b_htif := b_htif b || any_node is_htif f |>
              <| b_kern := set_pmm ((k_pmm (b_kern b)) <| g_mem_size := size |>) (b_kern b) |>).
Proof.
  intros m size Ha Hm Hf Hs.
  destruct (device_tree_run fuel m dtb f mem_done_address junk {| compat := junk'; htif := b_htif b |} Ha Hm Hf) as [E1 E2].
  rewrite (proj2 (Z.ltb_lt _ _)) in E1 by done.
  unfold init_dtb. step (eq_refl : gets id b = Ret b b). step (on_memory_eq _ b _ E2).
  set (b1 := b <| b_htif := b_htif b || any_node is_htif f |>).
  step (eq_refl : modify (fun b' => b' <| b_htif := b_htif b || any_node is_htif f |>) b = Ret tt b1).
  by step (on_memory_eq _ b1 _ E1).
Qed.

(** C35.  Every hart leaves [m_start] in supervisor mode at [s_start], with its timer
    armed one interval from now, machine timer interrupts enabled and the traps delegated
    that the kernel handles, given that the hardware has those delegation bits.  The hart
    that comes first also opens the standard files and takes the size of the memory and
    the presence of HTIF from the device tree; the hart that comes later leaves the kernel
    as it is.  The latch is free again. *)
Theorem m_start_spec (fuel : nat) (junk : mem_scan) (junk' : bool) (hart : nat) (dtb : Z) (b : board) (r : hart_regs) (f : dt_nodes) :
  let k := b_kern b in
  let size := find_memory mem_done_address None (2, 1) f 0 in
  b_harts b !! hart = Some r -> (hart < length (mtimecmp b))%nat -> m_latch b = false -> supports_S r = true ->
  Z.land interrupts mideleg_bits = interrupts -> Z.land exceptions medeleg_bits = exceptions ->
  (started b = true -> fs_host (k_fs k) = blank_host /\ fdt_at (pm_mem (k_pmm k)) dtb f /\ memory_ok None (2, 1) f /\
     (length (encode_nodes f) < fuel)%nat /\ 0 < size) ->
  exists r', hart_started hart r' /\
    m_start fuel junk junk' hart dtb b = Ret tt (b <| b_harts := <[hart := r']> (b_harts b) |>
      <| mtimecmp := <[hart := u64 (mtime b + TIMER_INTERVAL)]> (mtimecmp b) |>
      <| started := false |>
      <| b_htif := if started b then b_htif b || any_node is_htif f else b_htif b |>
      <| b_kern := if started b
                   then set_pmm ((k_pmm k) <| g_mem_size := size |>) (k <| k_fs := (k_fs k) <| fs_host := std_host |> |>)
                   else k |>).
Proof.
  intros k size Hr Ht Hl Hs Hi He Hfirst.
  set (bl := b <| m_latch := true |>). assert (lock_latch m_latch set_m_latch b = Ret tt bl) as E0 by (unfold lock_latch; by rewrite Hl).
  set (b1 := b <| started := false |> <| b_htif := if started b then b_htif b || any_node is_htif f else b_htif b |>
    <| b_kern := if started b then set_pmm ((k_pmm k) <| g_mem_size := size |>) (k <| k_fs := (k_fs k) <| fs_host := std_host |> |>) else k |>).
  assert ((if started bl then modify (fun b => b <| started := false |>) ;;; on_kern (on_fs (on_host spike_file_init)) ;;;
       init_dtb fuel junk junk' dtb else ret tt) bl = Ret tt (set_m_latch true b1)) as E1.
  { change (started bl) with (started b). unfold b1. destruct (started b) eqn:Hst.
    - destruct (Hfirst eq_refl) as (Hh & Ha & Hm & Hf & Hsz).
      step (eq_refl : modify (fun b => b <| started := false |>) bl = Ret tt (bl <| started := false |>)).
      set (k1 := k <| k_fs := (k_fs k) <| fs_host := std_host |> |>). set (b2 := bl <| started := false |> <| b_kern := k1 |>).
      assert (on_kern (on_fs (on_host spike_file_init)) (bl <| started := false |>) = Ret tt b2) as E.
      { unfold on_kern, on_fs, on_host, zoom. change (fs_host (k_fs (b_kern (bl <| started := false |>)))) with (fs_host (k_fs k)).
        by rewrite Hh, spike_file_init_eq. }
      step E. by rewrite (init_dtb_eq fuel junk junk' dtb b2 f).
    - unfold ret, bl, set_m_latch. destruct b; cbn in *. by subst. }
  destruct (m_start_hart b1 hart r) as (r' & Hr' & E2); try done.
  { apply lookup_lt_Some in Hr. done. }
  exists r'. split; [done|]. unfold m_start. step E0. step (eq_refl : gets id bl = Ret bl bl). step E1.
  step (eq_refl : modify (set_m_latch false) (set_m_latch true b1) = Ret tt (set_m_latch false b1)).
  assert (set_m_latch false b1 = with_hart b1 hart r) as -> by (rewrite with_hart_id by done; unfold set_m_latch, b1; destruct b; cbn in *; by subst).
  rewrite E2. done.
Qed.
End boot_rules.

(** ** Traps *)

(** A routine that never leaves for user mode. *)
Definition stays {S A} (c : M S A) : Prop := forall s s', c s <> Switch s'.

Create HintDb stays.

Lemma stays_bind {S A B} (c : M S A) (k : A -> M S B) : stays c -> (forall a, stays (k a)) -> stays (bind c k).
Proof. intros Hc Hk s s'. unfold bind. destruct (c s) eqn:E; try done; [by apply Hk|by destruct (Hc s _ E)]. Qed.

Lemma stays_zoom {S T A} (get : S -> T) (put : T -> S -> S) (c : M T A) : stays c -> stays (zoom get put c).
Proof. intros Hc s s'. unfold zoom. destruct (c (get s)) eqn:E; try done. by destruct (Hc _ _ E). Qed.

Lemma stays_ret {S A} (a : A) : stays (S := S) (ret a).
Proof. done. Qed.
Lemma stays_gets {S A} (f : S -> A) : stays (gets f).
Proof. done. Qed.
Lemma stays_modify {S} (f : S -> S) : stays (modify f).
Proof. done. Qed.
Lemma stays_panic {S A} msg : stays (S := S) (A := A) (panic msg).
Proof. done. Qed.
Lemma stays_fault {S A} : stays (S := S) (A := A) fault.
Proof. done. Qed.
Lemma stays_deref {S A} (o : option A) : stays (S := S) (deref o).
Proof. by destruct o. Qed.
Lemma stays_ld64 a : stays (ld64 a).
Proof. intros s s'. unfold ld64. by case_match. Qed.
Lemma stays_ld_bytes a n : stays (ld_bytes a n).
Proof. intros s s'. unfold ld_bytes. by case_match. Qed.
Lemma stays_call {HO : Host} c : stays (frontend_syscall c).
Proof. done. Qed.

#[export] Hint Resolve stays_bind stays_zoom stays_ret stays_gets stays_modify stays_panic stays_fault stays_deref stays_ld64
  stays_ld_bytes stays_call : stays.
#[export] Hint Extern 1 (stays (match ?x with _ => _ end)) => destruct x : stays.
#[export] Hint Extern 1 (stays (let '(_, _) := ?x in _)) => destruct x : stays.
#[export] Hint Unfold on_kern on_pmm on_fs on_host get_proc get_current line_string get_spike set_spike take_fd kassert : stays.

Lemma stays_ld_string n : forall a, stays (ld_string n a).
Proof. induction n; intros a; cbn [ld_string]; eauto 12 with stays. Qed.
#[export] Hint Resolve stays_ld_string : stays.

Section routing.
Context {PL : Platform} {SYM : Symbols} {ST : Stale} {HO : Host}.

Lemma stays_decref f : stays (spike_file_decref f).
Proof. unfold spike_file_decref. eauto 12 with stays. Qed.
#[local] Hint Resolve stays_decref : stays.
Lemma stays_get_free : stays spike_file_get_free.
Proof. unfold spike_file_get_free. eauto 12 with stays. Qed.
#[local] Hint Resolve stays_get_free : stays.
Lemma stays_open fn flags m : stays (spike_file_open fn flags m).
Proof. unfold spike_file_open, spike_file_openat. eauto 12 with stays. Qed.
Lemma stays_stat f : stays (spike_file_stat f).
Proof. unfold spike_file_stat. eauto 12 with stays. Qed.
Lemma stays_read f n : stays (spike_file_read f n).
Proof. unfold spike_file_read. eauto 12 with stays. Qed.
Lemma stays_close f : stays (spike_file_close f).
Proof. unfold spike_file_close. eauto 12 with stays. Qed.
#[local] Hint Resolve stays_open stays_stat stays_read stays_close : stays.
Lemma stays_error_line hart a : stays (print_error_line hart a).
Proof. unfold print_error_line. eauto 40 with stays. Qed.

Variables (stale : list file) (junk : list Z) (fuel : nat).

(** The hardware sends a trap from user mode to supervisor mode when its bit is set in
    the delegation register for interrupts (bit 63 of the cause) or exceptions. *)
Definition delegated (r : hart_regs) (cause : Z) : bool :=
  if 9223372036854775808 <=? cause then Z.testbit (mideleg r) (cause - 9223372036854775808)
  else Z.testbit (medeleg r) cause.

(** The handler runs on the registers of its hart but calls itself [int hart_id = read_tp()]:
    [tp] is what the user program left in it, since neither the trap vector nor [switch_to]
    loads it.  The routines of the kernel take one index for both, so that the registers of
    the hart stand in the row of [hart_id] while they run. *)
Definition swap_rows {A} (i j : nat) (l : list A) : list A :=
  match l !! i, l !! j with Some x, Some y => <[i := y]> (<[j := x]> l) | _, _ => l end.
Definition swap_csrs (i j : nat) (k : kern) : kern := k <| k_csrs := swap_rows i j (k_csrs k) |>.

Definition as_hart {A} (hart : nat) (tp : Z) (c : nat -> M kern A) : M kern A :=
  let hart_id := i32 tp in
  if hart_id <? 0 then fault
  else zoom (swap_csrs hart (Z.to_nat hart_id)) (fun k _ => swap_csrs hart (Z.to_nat hart_id) k) (c (Z.to_nat hart_id)).

Definition take_trap (hart : nat) (cause stval : Z) : M board unit :=
  r <- get_hart hart ;;
  if delegated r cause then
    on_kern (mod_csrs hart (fun c => c <| sepc := pc r |>)) ;;;
    on_kern (as_hart hart (tp r) (fun hart_id => user_trap stale junk fuel hart_id cause stval))
  else
    mod_hart hart (fun r => r <| mcause := cause |> <| mepc := pc r |>) ;;;
    handle_mtrap hart.

Lemma swap_csrs_id i k : swap_csrs i i k = k.
Proof.
  unfold swap_csrs, swap_rows. destruct (k_csrs k !! i) as [x|] eqn:E; [|by destruct k].
  rewrite list_insert_insert_eq, list_insert_id by done. by destruct k.
Qed.

(** A hart that has its own number in [tp]. *)
Lemma as_hart_own {A} hart tp (c : nat -> M kern A) k : tp = Z.of_nat hart -> Z.of_nat hart < 2 ^ 31 -> as_hart hart tp c k = c hart k.
Proof.
  intros -> Hh. unfold as_hart. rewrite i32_small by lia. destruct (Z.ltb_spec (Z.of_nat hart) 0); [lia|].
  rewrite Nat2Z.id. unfold zoom. rewrite swap_csrs_id. destruct (c hart k); by rewrite ?swap_csrs_id.
Qed.

(** The traps the kernel goes on after. *)
Definition served : list Z := [CAUSE_USER_ECALL; CAUSE_LOAD_PAGE_FAULT; CAUSE_STORE_PAGE_FAULT; CAUSE_MTIMER_S_TRAP].

(** The bits of a number below 2^16. *)
Lemma testbit_list n l c :
  0 <= n < 65536 -> Forall (fun i => i < 16) l ->
  bool_decide (Forall (fun c => Z.testbit n c = bool_decide (c ∈ l)) (seqZ 0 16)) = true ->
  0 <= c -> Z.testbit n c = bool_decide (c ∈ l).
Proof.
  intros Hn Hl H%bool_decide_eq_true Hc. destruct (decide (c < 16)) as [H16|H16].
  - rewrite Forall_forall in H. apply H, elem_of_seqZ. lia.
  - rewrite <- (Z.mod_small n (2 ^ 16)), Z.mod_pow2_bits_high by lia. symmetry. apply bool_decide_eq_false_2.
    intros Hin. rewrite Forall_forall in Hl. specialize (Hl c Hin). lia.
Qed.

Lemma exceptions_spec c : 0 <= c -> Z.testbit exceptions c = bool_decide (c ∈ [0; 3; 8; 12; 13; 15]).
Proof. apply testbit_list; [done|repeat constructor|by vm_compute]. Qed.

Lemma interrupts_spec c : 0 <= c -> Z.testbit interrupts c = bool_decide (c ∈ [1; 5; 9]).
Proof. apply testbit_list; [done|repeat constructor|by vm_compute]. Qed.

(** An outcome that neither returns nor goes back to user mode. *)
Definition stops {S A} (o : outcome S A) : Prop := match o with Ret _ _ | Switch _ => False | _ => True end.

Lemma stops_bind {S A B} (c : M S A) (k : A -> M S B) s : stays c -> (forall a s', stops (k a s')) -> stops (bind c k s).
Proof. intros Hc Hk. unfold bind. destruct (c s) eqn:E; try done. by destruct (Hc s _ E). Qed.

Lemma stops_zoom {S T A} (get : S -> T) (put : T -> S -> S) (c : M T A) s : stops (c (get s)) -> stops (zoom get put c s).
Proof. unfold zoom. by destruct (c (get s)). Qed.

(** The supervisor handler panics on every other cause. *)
Lemma user_trap_stops hart cause stval k : cause ∉ served -> stops (user_trap stale junk fuel hart cause stval k).
Proof.
  intros H. unfold served in H. rewrite !not_elem_of_cons in H. destruct H as (H1 & H2 & H3 & H4 & _).
  unfold user_trap, Strap.smode_trap_handler. apply stops_bind; [auto with stays|]. intros k1 s1.
  apply stops_bind; [auto with stays|]. intros c s2. case_match; [done|]. case_match; [|done]. case_match; [|done].
  apply stops_bind; [eauto with stays|]. intros p s3.
  apply stops_bind.
  { apply stays_zoom. intros s s'. unfold st64. by case_match. }
  intros _ s4. rewrite !(proj2 (Z.eqb_neq _ _)) by done. done.
Qed.

(** So does the machine-mode handler on every cause but the timer. *)
Lemma handle_mtrap_stops hart b r : b_harts b !! hart = Some r -> mcause r <> CAUSE_MTIMER -> stops (handle_mtrap hart b).
Proof.
  intros Hr Hc. unfold handle_mtrap. rewrite <- (with_hart_id b hart r Hr) at 1.
  step (get_hart_with b hart r ltac:(by eapply lookup_lt_Some)). rewrite (proj2 (Z.eqb_neq _ _) Hc).
  repeat case_if; try done. apply stops_bind; [|done]. apply stays_zoom, stays_error_line.
Qed.

Lemma delegated_started r cause : mideleg r = interrupts -> medeleg r = exceptions -> 0 <= cause ->
  delegated r cause = bool_decide (cause ∈ [0; 3; 8; 12; 13; 15; 9223372036854775809; 9223372036854775813; 9223372036854775817]).
Proof.
  intros Hi He Hc. unfold delegated. rewrite Hi, He. destruct (Z.leb_spec 9223372036854775808 cause).
  - rewrite interrupts_spec by lia. apply bool_decide_ext. rewrite !elem_of_cons, !elem_of_nil. split; lia.
  - rewrite exceptions_spec by lia. apply bool_decide_ext. rewrite !elem_of_cons, elem_of_nil. split; lia.
Qed.

End routing.

(** ** Witnesses *)

(** Two harts out of reset, the tree of [small_fdt] in memory. *)
Definition small_platform : Platform := {|
  mideleg_bits := 546; medeleg_bits := 45567; g_itrframe := KERN_BASE + 8192; s_start_address := KERN_BASE + 4096;
  mtrapvec := KERN_BASE + 64; mem_done_address := KERN_BASE + 4096; kernel_end := KERN_BASE + 65536;
  kernel_etext := KERN_BASE + 32768; arg_bug_msg := KERN_BASE + 40960 |}.

Definition reset_regs : hart_regs := {|
  misa := 9223372036855042349; mstatus := 0; mie := 0; mideleg := 0; medeleg := 0; mtvec := 0; mscratch := 0; mepc := 0;
  mcause := 0; sie := 0; tp := 0; mode := M_mode; pc := 4096 |}.

Definition reset_kern : kern := set_pmm (small_running <| pm_mem := small_fdt |>) (small_kern <| k_fs := small_fs <| fs_host := blank_host |> |>).

Definition reset_board : board := {|
  b_kern := reset_kern; b_harts := [reset_regs; reset_regs]; mtime := 77; mtimecmp := [0; 0]; m_latch := false; started := true;
  b_htif := false; s_latch := false; inited := false; g_kernel_pagetable := 0 |}.

Lemma m_start_spec_witness :
  exists r' b', hart_started (PL := small_platform) 1 r' /\
    m_start (PL := small_platform) 400 {| ms_memory := false; reg_value := 0; reg_len := 0; ms_size := 0 |}
      false 1 4096 reset_board = Ret tt b' /\
    mtimecmp b' = [0; 1000077] /\ b_htif b' = true /\ g_mem_size (k_pmm (b_kern b')) = 134217728 /\ started b' = false.
Proof.
  destruct (m_start_spec (PL := small_platform) 400
    {| ms_memory := false; reg_value := 0; reg_len := 0; ms_size := 0 |} false 1 4096 reset_board reset_regs small_tree)
    as (r' & Hr' & E).
  - reflexivity.
  - cbn. lia.
  - reflexivity.
  - by vm_compute.
  - by vm_compute.
  - by vm_compute.
  - intros _. split; [reflexivity|]. split; [exact small_fdt_at|]. split; [exact small_tree_memory|].
    split; [apply Nat.ltb_lt; by vm_compute|by vm_compute].
  - exists r'. eexists. split; [exact Hr'|]. split; [exact E|]. split_and!; [reflexivity|by vm_compute|by vm_compute|reflexivity].
Defined.

(** Hart 1 under way: its timer fires, and an instruction page fault stops the machine. *)
Definition running_regs : hart_regs := reset_regs <| mideleg := interrupts |> <| medeleg := exceptions |> <| tp := 1 |>
  <| mode := U_mode |> <| pc := 65536 |>.

Definition running_board : board := reset_board <| b_harts := [running_regs; running_regs] |> <| mtimecmp := [500; 600] |>.

Definition boot_symbols : Symbols := {| smode_trap_vector := 0; Sched.smode_trap_handler := 0; trap_sec_start := 0; debug_line := 0 |}.

