(* ===== verification/Typed.v ===== *)
(** The kernel as a whole: what every trap from user mode keeps.  The tables have their
    sizes, every pointer to a process points into the process table, a process keeps its
    number, and no lock is held when control leaves the kernel. *)

From S2P Require Import Prelude Mem CString Symbol Leb128 DebugLine Fdt PageAlloc Pmm Vmm HashTable SpikeFile FsData Rfs Hostfs Vfs Kernel Sched Process Elf ElfLoad ErrorLine ProcFile Syscall Strap Boot.

(** * The invariant *)

(** A pointer to a process: NULL or an index of the table. *)
Definition proc_ptr (o : option nat) : Prop := forall i, o = Some i -> (i < NPROC)%nat.

Record proc_typed (i : nat) (p : process) : Prop := {
  pt_pid : pid p = Z.of_nat i;
  pt_parent : proc_ptr (parent p);
  pt_next : proc_ptr (queue_next p);
  pt_regions : length (mapped_info p) = 0%nat \/ length (mapped_info p) = MAPPED_REGIONS;
  pt_heap : length (free_pages_address (user_heap p)) = MAX_HEAP_PAGES;
  pt_free : 0 <= free_pages_count (user_heap p) <= Z.of_nat MAX_HEAP_PAGES;
}.

Record typed (k : kern) : Prop := {
  ty_count : length (procs k) = NPROC;
  ty_procs i p : procs k !! i = Some p -> proc_typed i p;
  ty_current : length (current k) = NCPU;
  ty_running i o : current k !! i = Some o -> proc_ptr o;
  ty_head : proc_ptr (ready_queue_head k);
  ty_waiting : length (waiting_queue k) = SEM_MAX;
  ty_waiters i o : waiting_queue k !! i = Some o -> proc_ptr o;
  ty_sems : length (sems k) = SEM_MAX;
  ty_values i v : sems k !! i = Some v -> i32 v = v;
  ty_count_sems : 0 <= sem_cnt k <= Z.of_nat SEM_MAX;
  ty_csrs : length (k_csrs k) = NCPU;
  ty_ticks : length (g_ticks k) = NCPU;
  ty_child : child_running k = 0 \/ child_running k = 1;
}.

(** The locks that are held: of the ready queue, of the queues of the semaphores, of the
    counter of semaphores, and of each semaphore. *)
Record locks := { l_ready : bool; l_queue : bool; l_cnt : bool; l_sem : list bool }.
#[export] Instance eta_locks : Eta locks := fun l => Build_locks (l_ready l) (l_queue l) (l_cnt l) (l_sem l).
Definition held (k : kern) : locks :=
  {| l_ready := ready_queue_lock k; l_queue := queue_lock k; l_cnt := cnt_lock k; l_sem := sem_lock k |}.
Definition all_free : locks := {| l_ready := false; l_queue := false; l_cnt := false; l_sem := replicate SEM_MAX false |}.

Definition at_locks (l : locks) (k : kern) : Prop := typed k /\ held k = l.
Definition kern_inv (k : kern) : Prop := at_locks all_free k.

(** * A logic for it *)

(** From a state with the locks [l] the routine returns, if it does, in one with the
    locks [l'] and a value with [Q]; if it leaves for user mode, all locks are free. *)
Definition safe {A} (l : locks) (c : M kern A) (l' : locks) (Q : A -> Prop) : Prop := forall k, at_locks l k ->
  match c k with Ret a k' => at_locks l' k' /\ Q a | Switch k' => kern_inv k' | _ => True end.

Abbreviation ok c Q := (safe all_free c all_free Q).

Create HintDb ok discriminated.
#[export] Hint Constants Opaque : ok.

Lemma safe_bind {A B} l l1 l2 (Q : A -> Prop) (R : B -> Prop) (c : M kern A) f :
  safe l c l1 Q -> (forall a, Q a -> safe l1 (f a) l2 R) -> safe l (bind c f) l2 R.
Proof.
  intros Hc Hf k Hk. specialize (Hc k Hk). unfold bind. destruct (c k); try done.
  destruct Hc as [Hk' Ha]. exact (Hf a Ha _ Hk').
Qed.

Lemma safe_weaken {A} l l' (Q R : A -> Prop) (c : M kern A) :
  safe l c l' Q -> (forall a, Q a -> R a) -> safe l c l' R.
Proof. intros Hc H k Hk. specialize (Hc k Hk). destruct (c k); try done. destruct Hc. auto. Qed.

Lemma safe_locks {A} l l1 l2 (Q : A -> Prop) (c : M kern A) : safe l c l1 Q -> l1 = l2 -> safe l c l2 Q.
Proof. by intros H <-. Qed.

Lemma safe_ret {A} l (a : A) : safe l (ret a) l (fun x => x = a).
Proof. intros k Hk. done. Qed.
Lemma safe_panic {A} l l' msg (Q : A -> Prop) : safe l (panic msg) l' Q.
Proof. done. Qed.
Lemma safe_hang {A} l l' (Q : A -> Prop) : safe l hang l' Q.
Proof. done. Qed.
Lemma safe_fault {A} l l' (Q : A -> Prop) : safe l fault l' Q.
Proof. done. Qed.
Lemma safe_shutdown {A} l l' code (Q : A -> Prop) : safe l (shutdown code) l' Q.
Proof. done. Qed.
Lemma safe_get l : safe l (gets id) l (at_locks l).
Proof. done. Qed.
Lemma safe_gets {A} l (f : kern -> A) : safe l (gets f) l (fun _ => True).
Proof. intros k Hk. done. Qed.
Lemma safe_deref {A} l (o : option A) : safe l (deref o) l (fun a => o = Some a).
Proof. intros k Hk. destruct o; done. Qed.
Lemma safe_assert l b msg : safe l (kassert b msg) l (fun _ => b = true).
Proof. intros k Hk. destruct b; done. Qed.

(** A change of the state. *)
Lemma safe_modify l l' f : (forall k, at_locks l k -> at_locks l' (f k)) -> safe l (modify f) l' (fun _ => True).
Proof. intros H k Hk. split; [by apply H|done]. Qed.

(** The memory, the pages and the files are not part of the invariant. *)
Lemma typed_fs k f : typed k -> typed (k <| k_fs := f |>).
Proof. by intros []. Qed.

Lemma safe_on_fs {A} (c : M (fs pmm) A) : ok (on_fs c) (fun _ => True).
Proof.
  intros k [Hk Hl]. unfold on_fs, zoom. destruct (c (k_fs k)); try done; [split; [|done]|]; (split; [by apply typed_fs|done]).
Qed.
Lemma safe_on_pmm {A} (c : M pmm A) : ok (on_pmm c) (fun _ => True).
Proof.
  intros k [Hk Hl]. unfold on_pmm, zoom. destruct (c (k_pmm k)); try done; [split; [|done]|]; (split; [by apply typed_fs|done]).
Qed.

(** ** Processes *)

Lemma safe_get_proc l i : safe l (get_proc i) l (fun p => proc_typed i p /\ (i < NPROC)%nat).
Proof.
  intros k [Hk Hl]. unfold get_proc, bind, gets, id, deref. destruct (procs k !! i) as [p|] eqn:E; [|done].
  split; [done|]. split; [by apply (ty_procs _ Hk)|]. rewrite <- (ty_count _ Hk). by eapply lookup_lt_Some.
Qed.

Lemma typed_set_proc k i p : typed k -> proc_typed i p -> typed (k <| procs := <[i := p]> (procs k) |>).
Proof.
  intros [H1 H2 H3 H4 H5 H6 H7 H8 H9 H10 H11 H12 H13] Hp. split; try done; cbn.
  - by rewrite length_insert.
  - intros j q Hj. apply list_lookup_insert_Some in Hj as [(<- & <- & _)|[_ Hj]]; [done|by apply H2].
Qed.

Lemma safe_set_proc l i p : proc_typed i p -> safe l (set_proc i p) l (fun _ => True).
Proof. intros Hp. apply safe_modify. intros k [Hk Hl]. split; [by apply typed_set_proc|done]. Qed.

Lemma safe_mod_proc l i f : (forall p, proc_typed i p -> proc_typed i (f p)) -> safe l (mod_proc i f) l (fun _ => (i < NPROC)%nat).
Proof.
  intros H. eapply safe_bind; [apply safe_get_proc|]. intros p [Hp Hi].
  eapply safe_weaken; [apply safe_set_proc; auto|done].
Qed.

Lemma safe_get_current l hart : safe l (get_current hart) l (fun i => (i < NPROC)%nat).
Proof.
  intros k Hk. unfold get_current, bind, gets, id, deref. destruct (current k !! hart) as [[i|]|] eqn:E; cbn; try done.
  split; [done|]. by apply (ty_running _ (proj1 Hk) _ _ E).
Qed.

Lemma safe_csrs l hart f : safe l (mod_csrs hart f) l (fun _ => True).
Proof.
  intros k [[] Hl]. unfold mod_csrs, bind, gets, id, deref. destruct (k_csrs k !! hart); [|done].
  split; [|done]. split; [|done]. split; try done. cbn. by rewrite length_insert.
Qed.

(** ** Locks *)

Lemma safe_lock_ready l : safe l lock_ready (l <| l_ready := true |>) (fun _ => l_ready l = false).
Proof.
  intros k [Hk Hl]. unfold lock_ready, spinlock_lock. destruct (ready_queue_lock k) eqn:E; [done|].
  split; [split; [by destruct Hk|by subst l]|by subst l].
Qed.
Lemma safe_unlock_ready l : safe l unlock_ready (l <| l_ready := false |>) (fun _ => True).
Proof. apply safe_modify. intros k [[] Hl]. split; [done|by subst l]. Qed.
Lemma safe_lock_queue l : safe l lock_queue (l <| l_queue := true |>) (fun _ => l_queue l = false).
Proof.
  intros k [Hk Hl]. unfold lock_queue, spinlock_lock. destruct (queue_lock k) eqn:E; [done|].
  split; [split; [by destruct Hk|by subst l]|by subst l].
Qed.
Lemma safe_unlock_queue l : safe l unlock_queue (l <| l_queue := false |>) (fun _ => True).
Proof. apply safe_modify. intros k [[] Hl]. split; [done|by subst l]. Qed.
Lemma safe_lock_cnt l : safe l lock_cnt (l <| l_cnt := true |>) (fun _ => l_cnt l = false).
Proof.
  intros k [Hk Hl]. unfold lock_cnt, spinlock_lock. destruct (cnt_lock k) eqn:E; [done|].
  split; [split; [by destruct Hk|by subst l]|by subst l].
Qed.
Lemma safe_unlock_cnt l : safe l unlock_cnt (l <| l_cnt := false |>) (fun _ => True).
Proof. apply safe_modify. intros k [[] Hl]. split; [done|by subst l]. Qed.
Lemma safe_lock_sem l sem :
  safe l (lock_sem sem) (l <| l_sem := <[sem := true]> (l_sem l) |>) (fun _ => l_sem l !! sem = Some false).
Proof.
  intros k [Hk Hl]. unfold lock_sem. destruct (sem_lock k !! sem) as [[]|] eqn:E; try done.
  split; [split; [by destruct Hk|by subst l]|by subst l].
Qed.
Lemma safe_unlock_sem l sem : safe l (unlock_sem sem) (l <| l_sem := <[sem := false]> (l_sem l) |>) (fun _ => True).
Proof.
  intros k [Hk Hl]. unfold unlock_sem. destruct (sem_lock k !! sem) as [b|] eqn:E; [|done].
  split; [split; [by destruct Hk|by subst l]|done].
Qed.

(** ** Automation *)

(** A process stays typed when a field is changed. *)
Ltac typed_fields :=
  repeat match goal with H : proc_typed _ _ |- _ => destruct H as [? ? ? ? ? ?] end; split;
  first [ assumption
        | let E := fresh "E" in intros ? E; first [discriminate E | injection E as <-; assumption]
        | unfold set_region; cbn; rewrite ?length_insert, ?length_alter, ?length_replicate;
          first [solve [auto] | unfold MAX_HEAP_PAGES in *; lia] ].
Ltac typed_upd := let Hx := fresh "Hx" in intros ? Hx; typed_fields.

#[export] Hint Resolve safe_ret safe_panic safe_hang safe_fault safe_shutdown safe_get safe_deref safe_assert
  safe_on_fs safe_on_pmm safe_get_proc safe_get_current safe_csrs safe_lock_ready safe_unlock_ready safe_lock_queue
  safe_unlock_queue safe_lock_cnt safe_unlock_cnt safe_lock_sem safe_unlock_sem : ok.
#[export] Hint Resolve safe_gets | 5 : ok.

(** A change of the state that keeps the sizes of the arrays. *)
Ltac typed_mod :=
  apply safe_modify; intros ? [[] ?]; split; [split; try assumption; cbn; rewrite ?length_insert; auto|eassumption].
#[export] Hint Extern 1 (safe _ (modify _) _ _) => typed_mod : ok.
#[export] Hint Extern 1 (safe _ (mod_proc _ _) _ _) => apply safe_mod_proc; typed_upd : ok.

Ltac keep_leaf := solve [eauto 2 with ok nocore].

(** One step: the first routine of a sequence by its lemma, or on its own without a result;
    a branch; or the last routine. *)
Ltac keep1 :=
  lazymatch goal with
  | |- safe ?l (bind _ _) _ _ =>
      first [ eapply safe_bind; [keep_leaf|]; intros ? ?; cbn beta in *; destruct_and?
            | eapply (safe_bind _ l _ (fun _ => True)); [|intros ? _] ]
  | |- safe _ (match ?x with _ => _ end) _ _ => destruct x eqn:?
  | |- _ => first [keep_leaf | eapply safe_weaken; [keep_leaf|intros; first [exact I | assumption | tauto | congruence | subst; assumption]]]
  end.
Ltac keep := repeat (cbn beta zeta; keep1).

Section kernel.
Context {SYM : Symbols} {ST : Stale} {HO : Host}.

(** * The scheduler *)

Lemma ok_return_to_user {A} l (Q : A -> Prop) : safe all_free return_to_user l Q.
Proof. by intros k Hk. Qed.
#[local] Hint Resolve ok_return_to_user : ok.

Lemma ok_switch_to hart proc : proc_ptr proc -> ok (switch_to hart proc) (fun _ => True).
Proof.
  intros Hp. unfold switch_to. destruct proc as [i|]; [|keep].
  eapply (safe_bind _ all_free _ (fun _ => True)).
  { apply safe_modify. intros k [[] Hl]. split; [|done]. split; try done; cbn; [by rewrite length_insert|].
    intros j o Hj. apply list_lookup_insert_Some in Hj as [(<- & <- & _)|[_ Hj]]; eauto. }
  intros _ _. keep.
Qed.

Lemma safe_queue_scan l f : forall p proc, safe l (queue_scan f p proc) l (fun o => proc_ptr o).
Proof.
  induction f as [|f IH]; intros p proc; cbn [queue_scan]; [keep|].
  eapply safe_bind; [apply safe_get_proc|]. intros x [Hx Hp]. destruct (queue_next x) as [q|].
  - destruct (p =? proc)%nat; [|apply IH]. eapply safe_weaken; [apply safe_ret|]. by intros ? ->.
  - eapply safe_weaken; [apply safe_ret|]. intros ? ->. by intros ? [= <-].
Qed.

Lemma ok_insert proc : (proc < NPROC)%nat -> ok (insert_to_ready_queue proc) (fun _ => True).
Proof.
  intros Hp. unfold insert_to_ready_queue. eapply safe_bind; [apply safe_lock_ready|]. intros _ _.
  eapply safe_bind; [apply safe_get|]. intros k Hk. destruct (ready_queue_head k) as [h|].
  - eapply safe_bind; [apply safe_queue_scan|]. intros r Hr.
    eapply safe_bind; [apply safe_unlock_ready|]. intros _ _. change (all_free <| l_ready := true |> <| l_ready := false |>) with all_free.
    destruct r as [p|]; [|keep]. specialize (Hr p eq_refl). keep.
  - keep1. eapply safe_bind; [|intros _ _; exact (safe_unlock_ready (all_free <| l_ready := true |>))].
    apply (safe_modify (all_free <| l_ready := true |>)). intros k' [[] Hl]. split; [|done]. split; try done. by intros ? [= <-].
Qed.
#[local] Hint Resolve ok_insert ok_switch_to : ok.

Lemma ok_schedule hart : ok (schedule hart) (fun _ => True).
Proof.
  unfold schedule. eapply safe_bind; [apply safe_lock_ready|]. intros _ _.
  eapply safe_bind; [apply safe_get|]. intros k [Hk _]. destruct (ready_queue_head k) as [i|] eqn:Eh; [|by destruct (forallb idle (procs k))].
  pose proof (ty_head _ Hk i Eh) as Hi.
  eapply safe_bind.
  { apply safe_modify. intros k' [[] Hl]. split; [|exact Hl]. split; try done; cbn; [by rewrite length_insert|].
    intros j o Hj. apply list_lookup_insert_Some in Hj as [(<- & <- & _)|[_ Hj]]; [by intros ? [= <-]|eauto]. }
  intros _ _. eapply safe_bind; [apply safe_get_proc|]. intros p [[? ? Hn ? ? ?] _]. keep1.
  eapply safe_bind.
  { apply safe_modify. intros k' [[] Hl]. split; [|exact Hl]. by split. }
  intros _ _. eapply safe_bind; [apply safe_unlock_ready|]. intros _ _.
  change (all_free <| l_ready := true |> <| l_ready := false |>) with all_free. keep1. apply ok_switch_to. by intros ? [= <-].
Qed.
#[local] Hint Resolve ok_schedule : ok.

(** * Semaphores *)

Lemma typed_waiting k sem o : typed k -> proc_ptr o -> typed (k <| waiting_queue := <[sem := o]> (waiting_queue k) |>).
Proof.
  intros [] Ho. split; try done; cbn; [by rewrite length_insert|].
  intros j o' Hj. apply list_lookup_insert_Some in Hj as [(<- & <- & _)|[_ Hj]]; eauto.
Qed.

(** The queues of the semaphores are changed with [queue_lock] held, whatever else is. *)
Lemma safe_waiting_push l proc sem : l_queue l = false -> (proc < NPROC)%nat ->
  safe l (waiting_queue_push proc sem) l (fun _ => True).
Proof.
  destruct l as [a b c d]. cbn. intros -> Hp. set (l := Build_locks _ _ _ _).
  pose proof (safe_unlock_queue (l <| l_queue := true |>)) as Hu. change (l <| l_queue := true |> <| l_queue := false |>) with l in Hu.
  unfold waiting_queue_push. keep1. eapply safe_bind; [apply safe_get|]. intros k [Hk _].
  eapply safe_bind; [apply safe_deref|]. intros w Hw. pose proof (ty_waiters _ Hk _ _ Hw) as Hwp. destruct w as [h|].
  - eapply safe_bind; [apply safe_queue_scan|]. intros r Hr. destruct r as [p|]; [|exact Hu]. specialize (Hr p eq_refl).
    destruct (p =? proc)%nat; [exact Hu|]. keep1. keep1. exact Hu.
  - keep1. eapply safe_bind; [|intros _ _; exact Hu].
    apply safe_modify. intros k' [Hk' Hl]. split; [|done]. apply typed_waiting; [done|]. by intros ? [= <-].
Qed.

Lemma safe_waiting_pop l sem : l_queue l = false -> safe l (waiting_queue_pop sem) l (fun i => (i < NPROC)%nat).
Proof.
  destruct l as [a b c d]. cbn. intros ->. set (l := Build_locks _ _ _ _).
  pose proof (safe_unlock_queue (l <| l_queue := true |>)) as Hu. change (l <| l_queue := true |> <| l_queue := false |>) with l in Hu.
  unfold waiting_queue_pop. keep1. do 2 keep1. keep1. eapply safe_bind; [apply safe_get_proc|]. intros p [[? ? Hn ? ? ?] Hi].
  eapply safe_bind; [|intros _ _; eapply safe_bind; [exact Hu|intros _ _]].
  - apply safe_modify. intros k' [Hk' Hl]. split; [|done]. by apply typed_waiting.
  - eapply safe_weaken; [apply safe_ret|]. by intros ? ->.
Qed.

Lemma typed_sem k i v : typed k -> i32 v = v -> typed (k <| sems := <[i := v]> (sems k) |>).
Proof.
  intros [] Hv. split; try done; cbn; [by rewrite length_insert|].
  intros j w Hj. apply list_lookup_insert_Some in Hj as [(_ & <- & _)|[_ Hj]]; eauto.
Qed.

Lemma safe_sem_value l i v : i32 v = v -> safe l (modify (fun k => k <| sems := <[i := v]> (sems k) |>)) l (fun _ => True).
Proof. intros Hv. apply safe_modify. intros k [Hk Hl]. split; [by apply typed_sem|done]. Qed.

Lemma i32_i32 z : i32 (i32 z) = i32 z.
Proof. apply i32_small, i32_range. Qed.

Lemma ok_sem_init v : i32 v = v -> ok (sem_init v) (fun _ => True).
Proof.
  intros Hv. pose proof (safe_unlock_cnt (all_free <| l_cnt := true |>)) as Hu.
  unfold sem_init. do 2 keep1. eapply safe_bind; [apply safe_get|]. intros k [Hk _].
  destruct (_ && _) eqn:E; [|done]. rewrite (ty_sems _ Hk) in E. bools.
  eapply safe_bind; [by apply safe_sem_value|]. intros _ _.
  eapply (safe_bind _ (all_free <| l_cnt := true |>) _ (fun _ => True)).
  { apply safe_modify. intros k' [[] Hl]. split; [|done]. split; try done. cbn.
    change SEM_MAX with 100%nat in *. rewrite i32_small; lia. }
  intros _ _. eapply safe_bind; [exact Hu|]. intros _ _. keep.
Qed.

(** [sem_lock[sem]] held, and nothing else. *)
Definition sem_locked (sem : nat) : locks := all_free <| l_sem := <[sem := true]> (l_sem all_free) |>.

Lemma safe_sem_section sem {A} (c : M kern A) (Q : A -> Prop) :
  (l_sem all_free !! sem = Some false -> safe (sem_locked sem) c all_free Q) ->
  ok (bind (lock_sem sem) (fun _ => c)) Q.
Proof. intros Hc. eapply safe_bind; [apply safe_lock_sem|]. intros a Hs. by apply Hc. Qed.

Lemma safe_sem_leave sem :
  l_sem all_free !! sem = Some false -> safe (sem_locked sem) (unlock_sem sem) all_free (fun _ => True).
Proof.
  intros Hs. eapply safe_locks; [apply safe_unlock_sem|]. unfold sem_locked. cbn. by rewrite list_insert_insert_eq, list_insert_id.
Qed.

Lemma safe_sem_again sem : l_sem all_free !! sem = Some false -> ok (unlock_sem sem) (fun _ => True).
Proof. intros Hs. eapply safe_locks; [apply safe_unlock_sem|]. cbn. by rewrite list_insert_id. Qed.

Lemma ok_acquire hart sem : ok (__acquire hart sem) (fun _ => True).
Proof.
  unfold __acquire. apply safe_sem_section. intros Hs. do 2 keep1.
  eapply safe_bind; [apply safe_sem_value, i32_i32|]. intros _ _. destruct (_ <? 0).
  - eapply (safe_bind _ all_free _ (fun _ => True)); [|intros _ _; by apply safe_sem_again].
    keep1. eapply safe_bind; [by apply safe_waiting_push|]. intros _ _.
    eapply safe_bind; [by apply safe_sem_leave|]. intros _ _. keep.
  - keep1. by apply safe_sem_leave.
Qed.

Lemma ok_release sem : ok (__release sem) (fun _ => True).
Proof.
  unfold __release. apply safe_sem_section. intros Hs. do 2 keep1.
  eapply safe_bind; [apply safe_sem_value, i32_i32|]. intros _ _. destruct (_ <=? 0).
  - eapply (safe_bind _ all_free _ (fun _ => True)); [|intros _ _; by apply safe_sem_again].
    eapply safe_bind; [by apply safe_sem_leave|]. intros _ _.
    eapply safe_bind; [by apply safe_waiting_pop|]. intros p Hp. keep.
  - keep1. by apply safe_sem_leave.
Qed.
#[local] Hint Resolve ok_acquire ok_release : ok.

(** * Processes *)

Lemma ok_for_range n : forall i body, (forall j, ok (body j) (fun _ => True)) -> ok (for_range n i body) (fun _ => True).
Proof. induction n as [|n IH]; intros i body Hb; cbn [for_range]; [keep|]. keep1. by apply IH. Qed.

Lemma ok_map_fixed i stk : ok (map_fixed_segments i stk) (fun _ => True).
Proof. unfold map_fixed_segments. keep. Qed.
#[local] Hint Resolve ok_map_fixed : ok.

Lemma ok_alloc_process stale : ok (alloc_process stale) (fun i => (i < NPROC)%nat).
Proof. unfold alloc_process. keep. Qed.

Lemma ok_wakeup o : ok (wakeup o) (fun _ => True).
Proof. destruct o as [i|]; [|by keep]. unfold wakeup. eapply safe_bind; [apply safe_get_proc|]. intros p [_ Hi]. keep. Qed.
#[local] Hint Resolve ok_alloc_process ok_wakeup : ok.

Lemma ok_free_process i : ok (free_process i) (fun _ => True).
Proof. unfold free_process. keep. Qed.

Lemma ok_do_wait fuel : forall hart wpid, ok (do_wait fuel hart wpid) (fun _ => True).
Proof. induction fuel as [|f IH]; intros hart wpid; cbn [do_wait]; keep. Qed.

Lemma ok_fork_heap n : forall block top bottom filter ppt cpt, ok (fork_heap n block top bottom filter ppt cpt) (fun _ => True).
Proof. induction n as [|n IH]; intros; cbn [fork_heap]; keep. Qed.

Lemma ok_add_region c r : ok (Process.add_region c r) (fun _ => True).
Proof. unfold Process.add_region. keep. Qed.
#[local] Hint Resolve ok_free_process ok_do_wait ok_fork_heap ok_add_region : ok.
#[local] Hint Extern 1 (safe _ (for_range _ _ _) _ _) => apply ok_for_range; intros ?; keep : ok.

Lemma ok_fork_region hart p c junk i : ok (fork_region hart p c junk i) (fun _ => True).
Proof. unfold fork_region, region. keep. Qed.
#[local] Hint Resolve ok_fork_region : ok.

Lemma ok_do_fork hart p stale junk : ok (do_fork hart p stale junk) (fun _ => True).
Proof. unfold do_fork. keep. Qed.

Lemma ok_clean i : ok (proc_clean_pagetable i) (fun _ => True).
Proof. unfold proc_clean_pagetable, region. keep. Qed.
#[local] Hint Resolve ok_do_fork ok_clean : ok.

Lemma ok_exec_clean i : ok (exec_clean i) (fun _ => True).
Proof. unfold exec_clean. keep. Qed.
#[local] Hint Resolve ok_exec_clean : ok.

(** * The heap *)

Lemma ok_grow_heap i : ok (grow_heap i) (fun _ => True).
Proof. unfold grow_heap. keep. Qed.
#[local] Hint Resolve ok_grow_heap : ok.
#[local] Hint Unfold block_at get_capacity get_next set_capacity set_next set_first_free : heap.
Ltac heap := autounfold with heap; keep.

Lemma ok_try_alloc i : ok (try_alloc_free_block i) (fun _ => True).
Proof. unfold try_alloc_free_block. heap. Qed.

Lemma ok_find_max fuel : forall pt cur pre mv mp, ok (find_max_block fuel pt cur pre mv mp) (fun _ => True).
Proof. induction fuel as [|f IH]; intros; cbn [find_max_block]; heap. Qed.

Lemma ok_grow_loop fuel : forall i n, ok (grow_loop fuel i n) (fun _ => True).
Proof. induction fuel as [|f IH]; intros; cbn [grow_loop]; keep. Qed.
#[local] Hint Resolve ok_try_alloc ok_find_max ok_grow_loop : ok.

Lemma ok_new_block fuel i n : ok (alloc_from_new_block fuel i n) (fun _ => True).
Proof. unfold alloc_from_new_block. heap. Qed.
#[local] Hint Resolve ok_new_block : ok.

Lemma ok_first_fit fuel nf : forall i n cur pre, ok (first_fit fuel nf i n cur pre) (fun _ => True).
Proof. induction fuel as [|f IH]; intros; cbn [first_fit]; heap. Qed.
#[local] Hint Resolve ok_first_fit : ok.

Lemma ok_vm_malloc fuel hart n : ok (vm_malloc fuel hart n) (fun _ => True).
Proof. unfold vm_malloc, alloc_from_free_block. keep. Qed.

Lemma ok_vm_free hart va : ok (vm_free hart va) (fun _ => True).
Proof. unfold vm_free. heap. Qed.
#[local] Hint Resolve ok_vm_malloc ok_vm_free : ok.

(** * Programs *)

Lemma ok_fpread f n o : ok (elf_fpread f n o) (fun _ => True).
Proof. unfold elf_fpread. keep. Qed.
#[local] Hint Resolve ok_fpread : ok.

Lemma ok_elf_init f p : ok (elf_init f p) (fun _ => True).
Proof. unfold elf_init. keep. Qed.

Lemma ok_alloc_mb ctx va n : ok (elf_alloc_mb ctx va n) (fun _ => True).
Proof. unfold elf_alloc_mb. keep. Qed.

Lemma ok_record p ph : ok (record_segment p ph) (fun _ => True).
Proof.
  unfold record_segment. do 2 keep1. keep1; [|keep]. apply safe_set_proc. typed_fields.
Qed.
#[local] Hint Resolve ok_elf_init ok_alloc_mb ok_record : ok.

Lemma ok_load_segment ctx buf off : ok (load_segment ctx buf off) (fun _ => True).
Proof. unfold load_segment. keep. Qed.
#[local] Hint Resolve ok_load_segment : ok.

Lemma ok_load_segments n : forall ctx buf off, ok (load_segments n ctx buf off) (fun _ => True).
Proof. induction n as [|n IH]; intros; cbn [load_segments]; keep. Qed.

Lemma ok_load_debug_line fuel ctx sh : ok (load_debug_line fuel ctx sh) (fun _ => True).
Proof. unfold load_debug_line. keep. Qed.
#[local] Hint Resolve ok_load_segments ok_load_debug_line : ok.

Lemma ok_scan_sections fuel n : forall i ctx st buf sym str, ok (scan_sections fuel n i ctx st buf sym str) (fun _ => True).
Proof. induction n as [|n IH]; intros; cbn [scan_sections]; unfold read_shdr, name_is; keep. Qed.

Lemma ok_scan_symbols n : forall i ctx sym str c, ok (scan_symbols n i ctx sym str c) (fun _ => True).
Proof. induction n as [|n IH]; intros; cbn [scan_symbols]; keep. Qed.
#[local] Hint Resolve ok_scan_sections ok_scan_symbols : ok.

Lemma ok_load_info fuel ctx : ok (elf_load_info fuel ctx) (fun _ => True).
Proof. unfold elf_load_info, read_shdr. keep. Qed.
#[local] Hint Resolve ok_load_info : ok.

Lemma ok_load_bincode fuel hart p path : ok (load_bincode_from_host_elf fuel hart p path) (fun _ => True).
Proof. unfold load_bincode_from_host_elf, elf_load. keep. Qed.
#[local] Hint Resolve ok_load_bincode : ok.

(** * Files *)

Lemma ok_cur_pfiles hart : ok (cur_pfiles hart) (fun _ => True).
Proof. unfold cur_pfiles. keep. Qed.
#[local] Hint Resolve ok_cur_pfiles : ok.

Lemma ok_cur_cwd hart : ok (cur_cwd hart) (fun _ => True).
Proof. unfold cur_cwd. keep. Qed.
Lemma ok_get_opened hart fd : ok (get_opened_file hart fd) (fun _ => True).
Proof. unfold get_opened_file. keep. Qed.
Lemma ok_set_opened hart i f : ok (set_opened_file hart i f) (fun _ => True).
Proof. unfold set_opened_file. keep. Qed.
Lemma ok_install hart i f : ok (install_file hart i f) (fun _ => True).
Proof. unfold install_file. keep. Qed.
#[local] Hint Resolve ok_cur_cwd ok_get_opened ok_set_opened ok_install : ok.

Lemma ok_do_open hart path flags : ok (do_open hart path flags) (fun _ => True).
Proof. unfold do_open. keep. Qed.
Lemma ok_do_read hart fd buf n : ok (do_read hart fd buf n) (fun _ => True).
Proof. unfold do_read. keep. Qed.
Lemma ok_do_write hart fd buf n : ok (do_write hart fd buf n) (fun _ => True).
Proof. unfold do_write. keep. Qed.
Lemma ok_do_exec fuel hart path arg : ok (do_exec fuel hart path arg) (fun _ => True).
Proof. unfold do_exec. keep. Qed.
Lemma ok_do_wait_call hart : ok (do_wait_call hart) (fun _ => True).
Proof. unfold do_wait_call. keep. Qed.
Lemma ok_do_test fuel hart stale path : ok (do_test fuel hart stale path) (fun _ => True).
Proof. unfold do_test. keep. Qed.
#[local] Hint Resolve ok_do_open ok_do_read ok_do_write ok_do_exec ok_do_wait_call ok_do_test : ok.

(** * System calls *)

Lemma ok_user_pa hart va : ok (user_pa hart va) (fun _ => True).
Proof. unfold user_pa, cur_proc. keep. Qed.
#[local] Hint Resolve ok_user_pa : ok.
Lemma ok_user_path hart va : ok (user_path hart va) (fun _ => True).
Proof. unfold user_path, ld_path. keep. Qed.
#[local] Hint Resolve ok_user_path : ok.

Lemma ok_exit hart code : ok (sys_user_exit hart code) (fun _ => True).
Proof. unfold sys_user_exit. keep. Qed.
Lemma ok_yield hart : ok (sys_user_yield hart) (fun _ => True).
Proof. unfold sys_user_yield. keep. Qed.

Lemma set_index_Some {T} (l l' : list T) i x : set_index l i x = Some l' -> 0 <= i < Z.of_nat (length l) /\ length l' = length l.
Proof. unfold set_index. destruct (_ && _) eqn:E; [|done]. intros [= <-]. bools. by rewrite length_insert. Qed.

(** A page comes from the list of pages given back as long as there is one, so the count
    stays within the array. *)
Lemma ok_allocate_page hart : ok (sys_user_allocate_page hart) (fun _ => True).
Proof. unfold sys_user_allocate_page. keep. Qed.

Lemma ok_free_page hart va : ok (sys_user_free_page hart va) (fun _ => True).
Proof.
  unfold sys_user_free_page. do 3 keep1. cbn zeta. eapply safe_bind; [apply safe_deref|]. intros l [Hi Hl]%set_index_Some. keep.
Qed.
#[local] Hint Resolve ok_exit ok_yield ok_allocate_page ok_free_page : ok.

Lemma ok_io_loop n io : (forall fd pa len, ok (io fd pa len) (fun _ => True)) ->
  forall hart fd buf count i, ok (io_loop n io hart fd buf count i) (fun _ => True).
Proof. intros Hio. induction n as [|n IH]; intros; cbn [io_loop]; unfold cur_proc; keep. Qed.

Lemma ok_backtrace n : forall hart fp, ok (backtrace n hart fp) (fun _ => True).
Proof. induction n as [|n IH]; intros; cbn [backtrace]; unfold print_name, put_text; keep. Qed.
Lemma ok_print_text fuel fmt : forall pos fo lg vl, ok (print_text fuel pos fmt fo lg vl) (fun _ => True).
Proof. induction fmt as [|c fmt IH]; intros; cbn [print_text]; keep. Qed.
#[local] Hint Resolve ok_backtrace ok_print_text : ok.
#[local] Hint Extern 1 (safe _ (io_loop _ _ _ _ _ _ _) _ _) => apply ok_io_loop; intros; keep : ok.
#[local] Hint Extern 1 (safe _ (sem_init (i32 _)) _ _) => apply ok_sem_init, i32_i32 : ok.


#[local] Hint Unfold put_text sys_user_print sys_user_printpa sys_user_gets sys_user_fork sys_user_exec sys_user_wait sys_user_test
  sys_user_malloc sys_user_free sys_user_open sys_user_read sys_user_write sys_user_lseek sys_user_stat sys_user_disk_stat
  sys_user_close sys_user_opendir sys_user_readdir sys_user_mkdir sys_user_closedir sys_user_link sys_user_unlink
  sys_user_ccwd sys_user_rcwd sys_user_sem_init sys_user_sem_acquire sys_user_sem_release sys_user_backtrace do_lseek do_stat
  do_disk_stat do_close do_opendir do_readdir do_mkdir do_closedir do_link do_unlink do_read_cwd do_change_cwd st_istat
  st_dir cur_proc : sys.

Lemma ok_do_syscall stale junk fuel hart a0 a1 a2 a3 a4 a5 a6 a7 :
  ok (do_syscall stale junk fuel hart a0 a1 a2 a3 a4 a5 a6 a7) (fun _ => True).
Proof. unfold do_syscall. cbn zeta. repeat (case_if; [autounfold with sys; keep|]). keep. Qed.
#[local] Hint Resolve ok_do_syscall : ok.

(** * Traps *)

Lemma ok_mtimer hart : ok (handle_mtimer_trap hart) (fun _ => True).
Proof. unfold handle_mtimer_trap. keep. Qed.
Lemma ok_rrsched hart : ok (rrsched hart) (fun _ => True).
Proof. unfold rrsched. keep. Qed.
Lemma ok_page_fault hart cause stval : ok (handle_user_page_fault hart cause stval) (fun _ => True).
Proof. unfold handle_user_page_fault. keep. Qed.
#[local] Hint Resolve ok_mtimer ok_rrsched ok_page_fault : ok.

Lemma ok_user_trap stale junk fuel hart cause stval : ok (user_trap stale junk fuel hart cause stval) (fun _ => True).
Proof.
  unfold user_trap, Strap.smode_trap_handler, handle_syscall, ld_arg. keep. apply ok_switch_to.
  match goal with H : at_locks _ ?k, E : current ?k !! _ = Some _ |- _ => exact (ty_running _ (proj1 H) _ _ E) end.
Qed.

Lemma ok_error_line hart a : ok (print_error_line hart a) (fun _ => True).
Proof. unfold print_error_line, line_string. keep. Qed.

(** * The start of the kernel *)

Context {PL : Platform}.
Variable fuel : nat.

Lemma ok_shift_args n : forall i argc, ok (shift_args n i argc) (fun _ => True).
Proof. induction n as [|n IH]; intros; cbn [shift_args]; keep. Qed.
#[local] Hint Resolve ok_shift_args : ok.

Lemma ok_load_user_program hart stale : ok (load_user_program fuel hart stale) (fun i => (i < NPROC)%nat).
Proof. unfold load_user_program, parse_args. keep. Qed.

(** The kernel before [init_proc_pool]: all but the pool has its initial values. *)
Definition pool : list process := (fun i => zero_process <| status := FREE |> <| pid := Z.of_nat i |>) <$> seq 0 NPROC.
Definition cold (k : kern) : Prop := kern_inv (k <| procs := pool |>).

(** [P] before, [R] after; the kernel is in order whenever a hart leaves for user mode. *)
Definition sound {A} (P : board -> Prop) (c : M board A) (R : A -> board -> Prop) : Prop := forall b, P b ->
  match c b with Ret a b' => R a b' | Switch b' => inited b' = true /\ kern_inv (b_kern b') | _ => True end.

Lemma sound_bind {A B} P R T (c : M board A) (f : A -> M board B) :
  sound P c R -> (forall a, sound (R a) (f a) T) -> sound P (bind c f) T.
Proof. intros Hc Hf b Hb. specialize (Hc b Hb). unfold bind. destruct (c b) as [a b'| | | | |]; try done. exact (Hf a b' Hc). Qed.

(** Before [init_proc_pool] of the first hart the kernel is [cold], later in order. *)
Definition board_inv (b : board) : Prop := if inited b then kern_inv (b_kern b) else cold (b_kern b).

Definition running (b : board) : Prop := inited b = true /\ kern_inv (b_kern b).
Definition starting (b : board) : Prop := inited b = true /\ cold (b_kern b).

Lemma sound_on_kern {A} (c : M kern A) Q : ok c Q -> sound running (on_kern c) (fun a b => running b /\ Q a).
Proof.
  intros Hc b [Hi Hk]. unfold on_kern, zoom. specialize (Hc _ Hk). destruct (c (b_kern b)); try done. by destruct Hc.
Qed.

Lemma sound_modify f (P : board -> Prop) : (forall b, P b -> P (f b)) -> sound P (modify f) (fun _ => P).
Proof. intros H b Hb. by apply H. Qed.
Lemma sound_ret {A} (a : A) P : sound P (ret a) (fun _ => P).
Proof. by intros b Hb. Qed.

Lemma sound_start {A} (c : M pmm A) : stays c -> sound starting (on_kern (on_pmm c)) (fun _ => starting).
Proof.
  intros Hc b [Hi Hk]. unfold on_kern, on_pmm, zoom. destruct (c (k_pmm (b_kern b))) eqn:E; try done; [|by destruct (Hc _ _ E)].
  split; [done|]. destruct Hk as [Hk Hl]. split; [exact (typed_fs _ _ Hk)|done].
Qed.

(** The two routines that run before the pool is initialized do not leave the kernel. *)
Lemma stays_st64 a v : stays (st64 a v).
Proof. intros s s'. unfold st64. by case_match. Qed.
Lemma stays_memset a v : stays (memset_page a v).
Proof. intros s s'. unfold memset_page. by case_match. Qed.
Lemma stays_ref_insert a : stays (ref_insert a).
Proof. intros s s'. unfold ref_insert. by case_match. Qed.
Lemma stays_ref_erase a : stays (ref_erase a).
Proof. intros s s'. unfold ref_erase. by case_match. Qed.
#[local] Hint Resolve stays_st64 stays_memset stays_ref_insert stays_ref_erase : stays.
Lemma stays_free_page a : stays (free_page a).
Proof. unfold free_page. eauto 12 with stays. Qed.
Lemma stays_alloc_page : stays alloc_page.
Proof. unfold alloc_page. eauto 12 with stays. Qed.
#[local] Hint Resolve stays_free_page stays_alloc_page : stays.

Lemma stays_pmm_init e : stays (pmm_init e).
Proof.
  assert (forall n p e, stays (create_freepage_loop n p e)) as H
    by (induction n; intros; cbn [create_freepage_loop]; eauto 12 with stays).
  unfold pmm_init, create_freepage_list. eauto 12 with stays.
Qed.

Lemma stays_walk pt va al : stays (page_walk pt va al).
Proof.
  assert (forall l pt, stays (page_walk_levels l pt va al)) as H
    by (induction l; intros; cbn [page_walk_levels]; eauto 14 with stays).
  unfold page_walk. eauto with stays.
Qed.
#[local] Hint Resolve stays_walk : stays.
Lemma stays_lookup pt va : stays (lookup_pa pt va).
Proof. unfold lookup_pa. eauto 12 with stays. Qed.
Lemma stays_map pt va pa sz perm : stays (kern_vm_map pt va pa sz perm).
Proof.
  assert (forall n first last pa, stays (map_pages_loop n pt first last pa perm)) as H
    by (induction n; intros; cbn [map_pages_loop]; eauto 14 with stays).
  unfold kern_vm_map, map_pages. eauto 12 with stays.
Qed.
#[local] Hint Resolve stays_lookup stays_map : stays.
Lemma stays_kern_vm_init e : stays (kern_vm_init e).
Proof. unfold kern_vm_init. eauto 20 with stays. Qed.

Lemma sound_weaken {A} (P P' : board -> Prop) (c : M board A) R R' :
  sound P c R -> (forall b, P' b -> P b) -> (forall a b, R a b -> R' a b) -> sound P' c R'.
Proof. intros Hc HP HR b Hb. specialize (Hc b (HP b Hb)). destruct (c b); try done. by apply HR. Qed.

Lemma sound_kern {A} (c : M kern A) : ok c (fun _ => True) -> sound running (on_kern c) (fun _ => running).
Proof. intros Hc. eapply sound_weaken; [by apply sound_on_kern|done|by intros ? ? []]. Qed.

Lemma sound_pool : sound starting (on_kern init_proc_pool) (fun _ => running).
Proof. intros b [Hi Hk]. by split. Qed.

(** The first hart brings the kernel from [cold] to its working state. *)
Lemma sound_init junk : sound (fun b => inited b = false /\ cold (b_kern b))
  (modify (fun b => b <| inited := true |>) ;;;
   on_kern (on_pmm (pmm_init kernel_end)) ;;;
   t <- on_kern (on_pmm (kern_vm_init kernel_etext)) ;;
   modify (fun b => b <| g_kernel_pagetable := t |>) ;;;
   on_kern init_proc_pool ;;;
   on_kern (on_fs (fs_init junk))) (fun _ => running).
Proof.
  eapply (sound_bind _ (fun _ => starting)); [by intros b [_ Hb]|]. intros ?.
  eapply sound_bind; [apply sound_start, stays_pmm_init|]. intros ?.
  eapply sound_bind; [apply sound_start, stays_kern_vm_init|]. intros t. cbn beta.
  eapply sound_bind; [by apply sound_modify|]. intros ?.
  eapply sound_bind; [apply sound_pool|]. intros ?. apply sound_kern. keep.
Qed.

Lemma sound_s_start hart stale junk : sound board_inv (s_start fuel hart stale junk) (fun _ => running).
Proof.
  unfold s_start. eapply (sound_bind _ (fun _ => board_inv)).
  { intros b Hb. unfold on_kern, zoom. destruct (mod_csrs _ _ _) eqn:E; try done.
    all: unfold mod_csrs, bind, gets, id, deref, ret, modify in E; destruct (k_csrs (b_kern b) !! hart); [|done]; simplify_eq.
    unfold board_inv in *. cbn. unfold cold in *.
    destruct (inited b); destruct Hb as [[] ?]; (split; [split; try assumption; cbn; by rewrite length_insert|assumption]). }
  intros ?. eapply (sound_bind _ (fun _ => board_inv)).
  { intros b Hb. unfold lock_latch. destruct (s_latch b); [done|exact Hb]. }
  intros ?. eapply (sound_bind _ (fun b0 b => b = b0 /\ board_inv b)); [intros b Hb; by split|]. intros b0.
  eapply (sound_bind _ (fun _ => running)).
  { unfold board_inv. destruct (inited b0) eqn:E.
    - eapply sound_weaken; [apply (sound_ret tt running)|intros b [-> Hb]; rewrite E in Hb; by split|done].
    - eapply sound_weaken; [apply sound_init|intros b [-> Hb]; by rewrite E in Hb|done]. }
  intros ?. eapply sound_bind; [by apply sound_modify|]. intros ?.
  eapply (sound_bind _ (fun _ => running)).
  { unfold enable_paging. eapply (sound_bind _ (fun _ => running)); [by intros b Hb|]. intros b. apply sound_kern. keep. }
  intros ?. eapply (sound_bind _ (fun _ => running)); [|intros ?; apply sound_ret].
  destruct (hart =? 0)%nat.
  - eapply sound_bind; [apply sound_on_kern, ok_load_user_program|]. intros p.
    eapply (sound_bind _ (fun _ => running)).
    { intros b [Hb Hp]. revert b Hb. apply sound_kern. by apply ok_insert. }
    intros ?. apply sound_kern. keep.
  - eapply sound_bind; [apply sound_kern, ok_do_wait_call|]. intros ?. apply sound_ret.
Qed.

Lemma sound_gets {A} (f : board -> A) P : sound P (gets f) (fun _ => P).
Proof. by intros b Hb. Qed.
Lemma sound_deref {A} (o : option A) P : sound P (deref o) (fun _ => P).
Proof. intros b Hb. by destruct o. Qed.
Lemma sound_panic {A} msg P R : sound (A := A) P (panic msg) R.
Proof. done. Qed.

(** The registers change rows; nothing else does. *)
Lemma swap_csrs_inv i j k : kern_inv k -> kern_inv (swap_csrs i j k).
Proof.
  intros [[] Hl]. split; [|done]. split; try done. cbn. unfold swap_rows. repeat case_match; rewrite ?length_insert; done.
Qed.

Lemma ok_as_hart {A} hart tp (c : nat -> M kern A) : (forall i, ok (c i) (fun _ => True)) -> ok (as_hart hart tp c) (fun _ => True).
Proof.
  intros Hc k Hk. unfold as_hart. case_if; [done|]. set (i := Z.to_nat (i32 tp)). unfold zoom.
  pose proof (Hc i (swap_csrs hart i k) (swap_csrs_inv hart i k Hk)) as H.
  destruct (c i (swap_csrs hart i k)); try done; [destruct H as [H _]; split; [|done]|]; by apply swap_csrs_inv.
Qed.

Lemma sound_take_trap stale junk hart cause stval : sound running (take_trap stale junk fuel hart cause stval) (fun _ => running).
Proof.
  assert (sound running (get_hart hart) (fun _ => running)) as Hg.
  { eapply sound_bind; [apply sound_gets|]. intros ?. apply sound_deref. }
  assert (forall f, sound running (mod_hart hart f) (fun _ => running)) as Hm.
  { intros f. eapply sound_bind; [exact Hg|]. intros r. by apply sound_modify. }
  assert (forall f, sound running (on_kern (mod_csrs hart f)) (fun _ => running)) as Hc by (intros f; apply sound_kern; keep).
  unfold take_trap. eapply sound_bind; [exact Hg|]. intros r. destruct (delegated r cause).
  - eapply sound_bind; [apply Hc|]. intros ?. apply sound_kern, ok_as_hart. intros i. apply ok_user_trap.
  - eapply sound_bind; [apply Hm|]. intros ?. unfold handle_mtrap. eapply sound_bind; [exact Hg|]. intros r'. cbn zeta.
    repeat case_if; try done.
    + unfold handle_timer. eapply sound_bind; [exact Hg|]. intros ?. eapply sound_bind; [apply sound_gets|]. intros ?.
      do 2 (eapply sound_bind; [apply sound_deref|]; intros ?). eapply sound_bind; [by apply sound_modify|]. intros ?. apply Hc.
    + eapply sound_bind; [apply sound_kern, ok_error_line|]. intros ?. done.
Qed.

(** * The machine at work *)

(** A user program has run: memory, the registers of the harts and the time are other ones. *)
Definition left_by_user (m : mem) (cs : list csrs) (hs : list hart_regs) (t : Z) (b : board) : board :=
  b <| b_kern := (set_pmm ((k_pmm (b_kern b)) <| pm_mem := m |>) (b_kern b)) <| k_csrs := cs |> |>
    <| b_harts := hs |> <| mtime := t |>.

(** What happens to the machine once the harts have left [m_start]: a hart starts the
    kernel; a hart in user mode traps, and is back in user mode; or a user program runs,
    which can leave anything in memory and in the registers. *)
Inductive board_step : board -> board -> Prop :=
  | step_start b b' hart stale junk : s_start fuel hart stale junk b = Switch b' -> board_step b b'
  | step_trap b b' hart stale junk cause stval : inited b = true ->
      take_trap stale junk fuel hart cause stval b = Switch b' -> board_step b b'
  | step_timer b b' hart stale junk cause stval : inited b = true ->
      take_trap stale junk fuel hart cause stval b = Ret tt b' -> board_step b b'
  | step_user b m cs hs t : length cs = NCPU -> board_step b (left_by_user m cs hs t b).

Lemma board_step_inv b b' : board_inv b -> board_step b b' -> board_inv b'.
Proof.
  intros Hb Hs. destruct Hs as [b b' hart stale junk E|b b' hart stale junk cause stval Hi E|b b' hart stale junk cause stval Hi E|b m cs hs t Hl].
  - pose proof (sound_s_start hart stale junk b Hb) as H. rewrite E in H. destruct H as [Hi Hk]. unfold board_inv. by rewrite Hi.
  - unfold board_inv in Hb. rewrite Hi in Hb. pose proof (sound_take_trap stale junk hart cause stval b (conj Hi Hb)) as H.
    rewrite E in H. destruct H as [Hi' Hk]. unfold board_inv. by rewrite Hi'.
  - unfold board_inv in Hb. rewrite Hi in Hb. pose proof (sound_take_trap stale junk hart cause stval b (conj Hi Hb)) as H.
    rewrite E in H. destruct H as [Hi' Hk]. unfold board_inv. by rewrite Hi'.
  - unfold board_inv, cold in *. cbn. destruct (inited b); destruct Hb as [[] ?]; (split; [by split|assumption]).
Qed.

(** ** Where the counters leave their arrays *)

(** [sems[cnt] = val] has no test: with the table full it stores behind the array. *)
Lemma sem_init_full val k : length (sems k) = SEM_MAX -> cnt_lock k = false -> sem_cnt k = Z.of_nat SEM_MAX -> sem_init val k = Fault.
Proof.
  intros Hl Hf Hc. unfold sem_init, lock_cnt, spinlock_lock, bind. rewrite Hf. cbn. rewrite Hc, Hl. done.
Qed.

Lemma stays_unmap pt va size fr : stays (user_vm_unmap pt va size fr).
Proof. unfold user_vm_unmap. eauto 14 with stays. Qed.

(** So has [free_pages_address[free_pages_count++] = va]. *)
Lemma free_page_full hart i p va k :
  current k !! hart = Some (Some i) -> procs k !! i = Some p -> length (free_pages_address (user_heap p)) = MAX_HEAP_PAGES ->
  free_pages_count (user_heap p) = Z.of_nat MAX_HEAP_PAGES -> stops (sys_user_free_page hart va k).
Proof.
  intros Hc Hp Hl Hn. unfold sys_user_free_page. step (get_current_eq k hart i Hc). step (get_proc_eq k i p Hp).
  apply stops_bind; [apply stays_zoom, stays_unmap|]. intros ? k'. cbn zeta. unfold set_index. rewrite Hn, Hl.
  change ((0 <=? Z.of_nat MAX_HEAP_PAGES) && (Z.of_nat MAX_HEAP_PAGES <? Z.of_nat MAX_HEAP_PAGES)) with false. done.
Qed.

Lemma board_inv_sems b : board_inv b -> length (sems (b_kern b)) = SEM_MAX /\ cnt_lock (b_kern b) = false.
Proof.
  unfold board_inv, cold. destruct (inited b); intros [H Hl]; (split; [exact (ty_sems _ H)|]);
    exact (f_equal l_cnt Hl).
Qed.

(** C1.  Whatever programs run, whatever traps they take and whatever they leave in memory
    and in their registers, the register [tp] included by which the kernel calls its hart, the
    kernel keeps its types: from the state the loader leaves, every table keeps its size,
    every pointer to a process is NULL or points into the table, process [i] has number [i],
    the values of the semaphores stay [int]s, and whenever a hart is in user mode no lock of
    the kernel is held.  A run is followed up to the first access outside an array, which C
    leaves undefined; so the number of semaphores and the list of free heap pages of a process
    are within their arrays in every state, but not because the code would see to it: from a
    state with all the semaphores taken [sem_init], and from one with 32 pages given back
    [sys_user_free_page], is such an access. *)
Theorem kernel_typed (b b' : board) : board_inv b -> rtc board_step b b' ->
  board_inv b' /\
  (sem_cnt (b_kern b') = Z.of_nat SEM_MAX -> forall val, sem_init val (b_kern b') = Fault) /\
  (inited b' = true -> forall hart i p va, current (b_kern b') !! hart = Some (Some i) -> procs (b_kern b') !! i = Some p ->
     free_pages_count (user_heap p) = Z.of_nat MAX_HEAP_PAGES -> stops (sys_user_free_page hart va (b_kern b'))).
Proof.
  intros Hb Hs. assert (board_inv b') as H by (induction Hs; eauto using board_step_inv). split_and!; [done|..].
  - intros Hc val. destruct (board_inv_sems b' H) as [Hl Hf]. by apply sem_init_full.
  - intros Hi hart i p va Hcur Hp Hn. unfold board_inv in H. rewrite Hi in H. apply (free_page_full hart i p va); try done.
    apply (pt_heap i). by apply (ty_procs _ (proj1 H)).
Qed.
End kernel.

(** * Witness *)

(** Out of reset with process 0 of the pool running on hart 0: the machine timer fires,
    then the software interrupt it raised is taken, and the process goes on. *)
#[local] Instance typed_symbols : Symbols := boot_symbols.
#[local] Instance typed_stale : Stale := small_stale.
#[local] Instance typed_host : Host := small_host.
#[local] Instance typed_platform : Platform := small_platform.

Definition first_process : process := zero_process <| status := RUNNING |> <| trapframe := KERN_BASE + 4096 |>.
Definition typed_kern : kern := small_kern <| procs := <[0%nat := first_process]> pool |> <| ready_queue_head := None |> <| k_csrs := replicate NCPU {| stvec := 0; sstatus := 0; sepc := 0; satp := 0; sip := 0 |} |>.
Definition typed_board : board := reset_board <| b_kern := typed_kern |> <| inited := true |>
  <| b_harts := [running_regs <| tp := 0 |>; running_regs] |>.

Definition next_board (o : outcome board unit) : board := match o with Ret _ b | Switch b => b | _ => typed_board end.
Definition board_1 : board := next_board (take_trap [] [] 100 0 CAUSE_MTIMER 0 typed_board).
Definition board_2 : board := next_board (take_trap [] [] 100 0 CAUSE_MTIMER_S_TRAP 0 board_1).

Lemma pool_typed i p : pool !! i = Some p -> proc_typed i p.
Proof.
  unfold pool. rewrite list_lookup_fmap. intros (j & E & ->)%fmap_Some. apply lookup_seq in E as [-> _].
  split; try done. by left.
Qed.

Lemma typed_board_inv : board_inv typed_board.
Proof.
  split; [|reflexivity]. split; try done.
  - intros i p Hp. change (<[0%nat := first_process]> pool !! i = Some p) in Hp.
    apply list_lookup_insert_Some in Hp as [(<- & <- & _)|[_ Hp]]; [|by apply pool_typed].
    split; try done. by left.
  - intros i o Ho. destruct i as [|[|i]]; cbn in Ho; simplify_eq; intros j Hj; simplify_eq. unfold NPROC. lia.
  - intros i o Ho. apply lookup_replicate in Ho as [-> _]. done.
  - intros i v Hv. destruct i as [|i]; [by injection Hv as <-|]. change (replicate 99 0 !! i = Some v) in Hv.
    apply lookup_replicate in Hv as [-> _]. done.
  - cbn. lia.
Qed.

(** The program on hart 1 puts 0 into its [tp] and traps: the kernel gives the time slice
    to the process of hart 0. *)
Definition board_3 : board := left_by_user (pm_mem (k_pmm (b_kern board_2))) (k_csrs (b_kern board_2))
  [running_regs <| tp := 0 |>; running_regs <| tp := 0 |>] 78 board_2.
Definition board_4 : board := next_board (take_trap [] [] 100 1 CAUSE_MTIMER_S_TRAP 0 board_3).

Lemma kernel_typed_witness :
  tick_count <$> procs (b_kern board_4) !! 0%nat = Some 0 /\ board_inv board_4 /\
  (sem_cnt (b_kern board_4) = Z.of_nat SEM_MAX -> sem_init 1 (b_kern board_4) = Fault).
Proof.
  assert (rtc (board_step 100) typed_board board_4) as Hs.
  { apply (rtc_l _ _ board_1); [by apply (step_timer _ _ _ 0 [] [] CAUSE_MTIMER 0)|].
    apply (rtc_l _ _ board_2); [apply (step_trap _ _ _ 0 [] [] CAUSE_MTIMER_S_TRAP 0); [done|by vm_compute]|].
    apply (rtc_l _ _ board_3); [apply step_user; by vm_compute|].
    apply rtc_once, (step_trap _ _ _ 1 [] [] CAUSE_MTIMER_S_TRAP 0); [done|by vm_compute]. }
  destruct (kernel_typed 100 typed_board board_4 typed_board_inv Hs) as (H & Hsem & _).
  split; [by vm_compute|]. split; [exact H|]. intros Hc. exact (Hsem Hc 1).
Defined.
