(* ===== verification/UserLib.v ===== *)
(** user/deps/user_lib.c: the library of the user programs.  Every call puts a number and
    arguments in registers and traps; what comes back is the low half of [a0]. *)

From S2P Require Import Prelude Mem CString Symbol Leb128 DebugLine PageAlloc Pmm Vmm HashTable SpikeFile FsData Hostfs Kernel Sched Process Elf ElfLoad ProcFile Syscall Strap.

(** * kernel/syscall.h *)

Definition SYS_user_print : Z := SYS_user_base + 0.
Definition SYS_user_exit : Z := SYS_user_base + 1.
Definition SYS_user_allocate_page : Z := SYS_user_base + 2.
Definition SYS_user_free_page : Z := SYS_user_base + 3.
Definition SYS_user_fork : Z := SYS_user_base + 4.
Definition SYS_user_yield : Z := SYS_user_base + 5.
Definition SYS_user_open : Z := SYS_user_base + 17.
Definition SYS_user_read : Z := SYS_user_base + 18.
Definition SYS_user_write : Z := SYS_user_base + 19.
Definition SYS_user_lseek : Z := SYS_user_base + 20.
Definition SYS_user_stat : Z := SYS_user_base + 21.
Definition SYS_user_disk_stat : Z := SYS_user_base + 22.
Definition SYS_user_close : Z := SYS_user_base + 23.
Definition SYS_user_opendir : Z := SYS_user_base + 24.
Definition SYS_user_readdir : Z := SYS_user_base + 25.
Definition SYS_user_mkdir : Z := SYS_user_base + 26.
Definition SYS_user_closedir : Z := SYS_user_base + 27.
Definition SYS_user_link : Z := SYS_user_base + 28.
Definition SYS_user_unlink : Z := SYS_user_base + 29.
Definition SYS_user_exec : Z := SYS_user_base + 30.
Definition SYS_user_wait : Z := SYS_user_base + 31.
Definition SYS_user_gets : Z := SYS_user_base + 32.
Definition SYS_user_sem_init : Z := SYS_user_base + 33.
Definition SYS_user_sem_P : Z := SYS_user_base + 34.
Definition SYS_user_sem_V : Z := SYS_user_base + 35.
Definition SYS_user_malloc : Z := SYS_user_base + 36.
Definition SYS_user_free : Z := SYS_user_base + 37.
Definition SYS_user_printpa : Z := SYS_user_base + 38.
Definition SYS_user_backtrace : Z := SYS_user_base + 39.
Definition SYS_user_rcwd : Z := SYS_user_base + 40.
Definition SYS_user_ccwd : Z := SYS_user_base + 41.
Definition SYS_user_test : Z := SYS_user_base + 42.

(** * The functions of the library *)

Section user_lib.
(** [do_user_call] *)
Variable call : Z -> Z -> Z -> Z -> Z -> Z -> Z -> Z -> M kern Z.

(** A function that returns [int]; an [int] argument is extended to a register. *)
Definition int_call (n a1 a2 a3 : Z) : M kern Z := r <- call n a1 a2 a3 0 0 0 0 ;; ret (i32 r).
Definition void_call (n a1 : Z) : M kern unit := call n a1 0 0 0 0 0 0 ;;; ret tt.

(** [res] is what [vsnprintf] returned and [out] the address of its buffer. *)
Definition printu (res out : Z) : M kern Z := int_call SYS_user_print out (if u64 res <? 256 then u64 res else 256) 0.
Definition exit (code : Z) : M kern Z := int_call SYS_user_exit (u64 code) 0 0.
Definition naive_malloc : M kern Z := call SYS_user_allocate_page 0 0 0 0 0 0 0.
Definition naive_free (va : Z) : M kern unit := void_call SYS_user_free_page va.
Definition fork : M kern Z := int_call SYS_user_fork 0 0 0.
Definition yield : M kern unit := void_call SYS_user_yield 0.
Definition open (pathname flags : Z) : M kern Z := int_call SYS_user_open pathname (u64 flags) 0.
Definition read_u (fd buf count : Z) : M kern Z := int_call SYS_user_read (u64 fd) buf count.
Definition write_u (fd buf count : Z) : M kern Z := int_call SYS_user_write (u64 fd) buf count.
Definition lseek_u (fd offset whence : Z) : M kern Z := int_call SYS_user_lseek (u64 fd) (u64 offset) (u64 whence).
Definition stat_u (fd istat : Z) : M kern Z := int_call SYS_user_stat (u64 fd) istat 0.
Definition disk_stat_u (fd istat : Z) : M kern Z := int_call SYS_user_disk_stat (u64 fd) istat 0.
Definition opendir_u (dirname : Z) : M kern Z := int_call SYS_user_opendir dirname 0 0.
Definition readdir_u (fd dir : Z) : M kern Z := int_call SYS_user_readdir (u64 fd) dir 0.
Definition mkdir_u (pathname : Z) : M kern Z := int_call SYS_user_mkdir pathname 0 0.
Definition closedir_u (fd : Z) : M kern Z := int_call SYS_user_closedir (u64 fd) 0 0.
Definition link_u (fn1 fn2 : Z) : M kern Z := int_call SYS_user_link fn1 fn2 0.
Definition unlink_u (fn : Z) : M kern Z := int_call SYS_user_unlink fn 0 0.
Definition close (fd : Z) : M kern Z := int_call SYS_user_close (u64 fd) 0 0.
Definition exec (path arg : Z) : M kern Z := int_call SYS_user_exec path arg 0.
Definition wait (pid : Z) : M kern Z := int_call SYS_user_wait (u64 pid) 0 0.
Definition gets_u (buf len : Z) : M kern Z := int_call SYS_user_gets buf (u64 len) 0.
Definition sem_new (sem : Z) : M kern Z := int_call SYS_user_sem_init (u64 sem) 0 0.
Definition sem_P (sem : Z) : M kern unit := void_call SYS_user_sem_P (u64 sem).
Definition sem_V (sem : Z) : M kern unit := void_call SYS_user_sem_V (u64 sem).
Definition better_malloc (n : Z) : M kern Z := call SYS_user_malloc (u64 n) 0 0 0 0 0 0.
Definition better_free (va : Z) : M kern unit := void_call SYS_user_free va.
Definition printpa (va : Z) : M kern unit := void_call SYS_user_printpa va.
Definition print_backtrace (depth : Z) : M kern unit := void_call SYS_user_backtrace (u64 depth).
Definition read_cwd (path : Z) : M kern Z := int_call SYS_user_rcwd path 0 0.
Definition change_cwd (path : Z) : M kern Z := int_call SYS_user_ccwd path 0 0.
Definition test (path : Z) : M kern Z := int_call SYS_user_test path 0 0.
End user_lib.

(** * The call itself *)

Section ecall.
Context {SYM : Symbols} {ST : Stale} {HO : Host}.
Variables (stale : list file) (junk : list Z) (fuel : nat) (hart : nat).

(** The trap vector stores [a0] to [a7] in the trapframe, with the other registers. *)
Fixpoint store_args (tf n : Z) (args : list Z) : M kern unit :=
  match args with
  | [] => ret tt
  | a :: l => on_pmm (st64 (tf + TF_a0 + 8 * n) a) ;;; store_args tf (n + 1) l
  end.

Definition resume : M kern Z := p <- cur_proc hart ;; a0 <- on_pmm (ld64 (trapframe p + TF_a0)) ;; ret (u64 (i32 a0)).

(** [ecall] followed by [sw a0, ret].  When the kernel goes back to the process the result
    is the low half of its [a0]; when it goes to another process that one runs on. *)
Definition do_user_call (sysnum a1 a2 a3 a4 a5 a6 a7 : Z) : M kern Z := fun k =>
  match (p <- cur_proc hart ;; store_args (trapframe p) 0 [sysnum; a1; a2; a3; a4; a5; a6; a7] ;;;
         user_trap stale junk fuel hart CAUSE_USER_ECALL 0) k with
  | Ret _ k' | Switch k' => if decide (current k' !! hart = current k !! hart) then resume k' else Switch k'
  | Shutdown code => Shutdown code
  | Panic msg => Panic msg
  | Hang => Hang
  | Fault => Fault
  end.

(** The same call as a plain call of the dispatcher of kernel/syscall.c. *)
Definition direct_call (sysnum a1 a2 a3 a4 a5 a6 a7 : Z) : M kern Z :=
  r <- do_syscall stale junk fuel hart sysnum a1 a2 a3 a4 a5 a6 a7 ;; ret (u64 (i32 r)).
End ecall.

(** * Properties *)

Lemma i32_u64 z : i32 (u64 z) = i32 z.
Proof. unfold i32, u64. f_equal. rewrite <- Z.add_mod_idemp_l, <- Znumtheory.Zmod_div_mod, Z.add_mod_idemp_l by (try done; by exists 4294967296). done. Qed.

(** ** Which handler a function reaches *)

Section library.
Context {SYM : Symbols} {ST : Stale} {HO : Host}.
Variables (stale : list file) (junk : list Z) (fuel : nat) (hart : nat).

(** What the program sees of a handler: an [int], an address, or nothing. *)
Definition as_int (h : M kern Z) : M kern Z := r <- h ;; ret (i32 r).
Definition as_addr (h : M kern Z) : M kern Z := r <- h ;; ret (u64 (i32 r)).
Definition as_void (h : M kern Z) : M kern unit := h ;;; ret tt.

(** Routines with the same outcome in every state. *)
Definition same {A} (c c' : M kern A) : Prop := forall k, c k = c' k.

#[local] Notation D := (direct_call stale junk fuel hart).

Lemma int_dispatch n a1 a2 a3 h :
  do_syscall stale junk fuel hart n a1 a2 a3 0 0 0 0 = h -> same (int_call D n a1 a2 a3) (as_int h).
Proof.
  intros <- k. unfold int_call, direct_call, as_int. rewrite bind_assoc. apply bind_ext. intros r k' _.
  unfold bind, ret. by rewrite i32_u64, i32_small by apply i32_range.
Qed.

Lemma void_dispatch n a1 h : do_syscall stale junk fuel hart n a1 0 0 0 0 0 0 = h -> same (void_call D n a1) (as_void h).
Proof. intros <- k. unfold void_call, direct_call, as_void. rewrite bind_assoc. by apply bind_ext. Qed.

(** C36.  The library and the dispatcher of the kernel agree on the numbers and the
    arguments of the system calls: each of the thirty-two functions runs the handler of
    its name with the arguments it was given, integers extended to a register and cut to
    [int] again, and sees the low half of its result. *)
Theorem user_library (p q n x y z : Z) :
  same (printu D x p) (as_int (sys_user_print fuel hart p)) /\
  same (exit D x) (as_int (sys_user_exit hart (u64 x))) /\
  same (naive_malloc D) (as_addr (sys_user_allocate_page hart)) /\
  same (naive_free D p) (as_void (sys_user_free_page hart p)) /\
  same (fork D) (as_int (sys_user_fork stale junk hart)) /\
  same (yield D) (as_void (sys_user_yield hart)) /\
  same (open D p x) (as_int (sys_user_open hart p (i32 x))) /\
  same (read_u D x p n) (as_int (sys_user_read fuel hart (i32 x) p n)) /\
  same (write_u D x p n) (as_int (sys_user_write fuel hart (i32 x) p n)) /\
  same (lseek_u D x y z) (as_int (sys_user_lseek hart (i32 x) (i32 y) (i32 z))) /\
  same (stat_u D x p) (as_int (sys_user_stat hart (i32 x) p)) /\
  same (disk_stat_u D x p) (as_int (sys_user_disk_stat hart (i32 x) p)) /\
  same (opendir_u D p) (as_int (sys_user_opendir hart p)) /\
  same (readdir_u D x p) (as_int (sys_user_readdir hart (i32 x) p)) /\
  same (mkdir_u D p) (as_int (sys_user_mkdir hart p)) /\
  same (closedir_u D x) (as_int (sys_user_closedir hart (i32 x))) /\
  same (link_u D p q) (as_int (sys_user_link hart p q)) /\
  same (unlink_u D p) (as_int (sys_user_unlink hart p)) /\
  same (close D x) (as_int (sys_user_close hart (i32 x))) /\
  same (exec D p q) (as_int (sys_user_exec fuel hart p q)) /\
  same (wait D x) (as_int (sys_user_wait fuel hart (i32 x))) /\
  same (gets_u D p x) (as_int (sys_user_gets hart p (u64 x))) /\
  same (sem_new D x) (as_int (sys_user_sem_init (i32 x))) /\
  same (sem_P D x) (as_void (sys_user_sem_acquire hart (u64 x))) /\
  same (sem_V D x) (as_void (sys_user_sem_release (u64 x))) /\
  same (better_malloc D x) (as_addr (sys_user_malloc fuel hart (u64 x))) /\
  same (better_free D p) (as_void (sys_user_free hart p)) /\
  same (printpa D p) (as_void (sys_user_printpa hart p)) /\
  same (print_backtrace D x) (as_void (sys_user_backtrace hart (u64 x))) /\
  same (read_cwd D p) (as_int (sys_user_rcwd hart p)) /\
  same (change_cwd D p) (as_int (sys_user_ccwd hart p)) /\
  same (test D p) (as_int (sys_user_test stale fuel hart p)).
Proof.
  rewrite <- (i32_u64 x), <- (i32_u64 y), <- (i32_u64 z). split_and!; first [by apply int_dispatch | by apply void_dispatch | done].
Qed.
End library.

(** ** The way through the trap *)

(** The memory after [store_args]. *)
Fixpoint args_mem (m : mem) (tf n : Z) (args : list Z) : mem :=
  match args with [] => m | a :: l => args_mem (store64 m (tf + TF_a0 + 8 * n) a) tf (n + 1) l end.

Lemma args_mem_frame args : forall m tf n,
  unchanged_outside (tf + TF_a0 + 8 * n) (tf + TF_a0 + 8 * (n + Z.of_nat (length args))) m (args_mem m tf n args).
Proof.
  induction args as [|a l IH]; intros m tf n; [intros b _; done|]. cbn [args_mem length]. rewrite Nat2Z.inj_succ.
  eapply unchanged_trans; eapply unchanged_mono; [| |apply unchanged_store64| | |apply IH]; lia.
Qed.

Lemma args_mem_load args : forall m tf n j a, args !! j = Some a ->
  load64 (args_mem m tf n args) (tf + TF_a0 + 8 * (n + Z.of_nat j)) = u64 a.
Proof.
  induction args as [|b l IH]; intros m tf n j a Hj; [done|]. cbn [args_mem]. destruct j as [|j].
  - injection Hj as ->. rewrite (unchanged_load64 _ _ _ _ _ (args_mem_frame l _ tf (n + 1))) by lia.
    rewrite Z.add_0_r. apply load64_store64_eq.
  - rewrite <- (IH (store64 m (tf + TF_a0 + 8 * n) b) tf (n + 1) j a Hj). f_equal. lia.
Qed.

Definition set_mem (m : mem) (k : kern) : kern := set_pmm ((k_pmm k) <| pm_mem := m |>) k.

Lemma set_mem_set m m' k : set_mem m (set_mem m' k) = set_mem m k.
Proof. by destruct k as [[]]. Qed.

Lemma frame_dram tf o : in_dram tf TF_SIZE = true -> 0 <= o -> o + 8 <= TF_SIZE -> in_dram (tf + o) 8 = true.
Proof. intros H Ho Ho'. unfold in_dram in *. bools. apply andb_true_intro. split; apply Z.leb_le; lia. Qed.

Lemma st64_set m k a v : in_dram a 8 = true -> on_pmm (st64 a v) (set_mem m k) = Ret tt (set_mem (store64 m a v) k).
Proof. intros Hd. by rewrite (on_pmm_st64 _ _ _ Hd). Qed.

Lemma store_args_run args : forall tf n m k, in_dram tf TF_SIZE = true -> 0 <= n -> n + Z.of_nat (length args) <= 8 ->
  store_args tf n args (set_mem m k) = Ret tt (set_mem (args_mem m tf n args) k).
Proof.
  induction args as [|a l IH]; intros tf n m k Hd Hn Hl; [done|]. cbn [store_args args_mem length] in *.
  step (st64_set m k (tf + TF_a0 + 8 * n) a ltac:(rewrite <- Z.add_assoc; apply frame_dram; unfold TF_SIZE, TF_a0; [done|lia|lia])).
  apply IH; [done|lia|lia].
Qed.

Section trap.
Context {SYM : Symbols} {ST : Stale} {HO : Host}.
Variables (stale : list file) (junk : list Z) (fuel : nat) (hart : nat).

Lemma ld_arg_set m k tf n : in_dram tf TF_SIZE = true -> 0 <= n < 8 ->
  ld_arg tf n (set_mem m k) = Ret (load64 m (tf + TF_a0 + 8 * n)) (set_mem m k).
Proof.
  intros Hd Hn. unfold ld_arg. apply on_pmm_ld64. rewrite <- Z.add_assoc. apply frame_dram; unfold TF_SIZE, TF_a0; [done|lia|lia].
Qed.

(** The memory when the dispatcher starts. *)
Definition call_mem (m : mem) (tf sepc : Z) (args : list Z) : mem :=
  let m1 := store64 (args_mem m tf 0 args) (tf + TF_epc) sepc in store64 m1 (tf + TF_epc) (u64 (load64 m1 (tf + TF_epc) + 4)).

Lemma call_mem_arg m tf sepc args j a : length args = 8%nat -> args !! j = Some a -> 0 <= a < 2 ^ 64 ->
  load64 (call_mem m tf sepc args) (tf + TF_a0 + 8 * Z.of_nat j) = a.
Proof.
  intros Hl Hj Ha. apply lookup_lt_Some in Hj as Hlt. unfold call_mem. rewrite !load64_store64_ne by (unfold TF_epc, TF_a0; lia).
  rewrite <- (Z.add_0_l (Z.of_nat j)). rewrite (args_mem_load args m tf 0 j a Hj). by apply u64_small.
Qed.

Lemma call_mem_frame m tf sepc args : length args = 8%nat ->
  unchanged_outside (tf + TF_a0) (tf + TF_SIZE) m (call_mem m tf sepc args) /\
  load64 (call_mem m tf sepc args) (tf + TF_epc) = u64 (sepc + 4).
Proof.
  intros Hl. split.
  - unfold call_mem. eapply unchanged_trans; [|eapply unchanged_trans]; eapply unchanged_mono;
      [..|apply (args_mem_frame args m tf 0)| | |apply unchanged_store64| | |apply unchanged_store64];
      rewrite ?Hl; unfold TF_a0, TF_epc, TF_SIZE; lia.
  - unfold call_mem. rewrite !load64_store64_eq. unfold u64. by rewrite Z.mod_mod, Z.add_mod_idemp_l.
Qed.

Lemma bind_cong {S A B} (c c' : M S A) (f : A -> M S B) s s' : c s = c' s' -> bind c f s = bind c' f s'.
Proof. intros E. unfold bind. by rewrite E. Qed.

(** [handle_syscall] up to the dispatcher. *)
Lemma handle_syscall_enter (n a1 a2 a3 a4 a5 a6 a7 : Z) m k tf sepc :
  let args := [n; a1; a2; a3; a4; a5; a6; a7] in
  in_dram tf TF_SIZE = true -> Forall (fun a => 0 <= a < 2 ^ 64) args ->
  handle_syscall (do_syscall stale junk fuel) hart tf (set_mem (store64 (args_mem m tf 0 args) (tf + TF_epc) sepc) k) =
  bind (do_syscall stale junk fuel hart n a1 a2 a3 a4 a5 a6 a7) (fun r => on_pmm (st64 (tf + TF_a0) r))
    (set_mem (call_mem m tf sepc args) k).
Proof.
  intros args Hd Ha. assert (in_dram (tf + TF_epc) 8 = true) as He by (apply frame_dram; unfold TF_SIZE, TF_epc; [done|lia|lia]).
  unfold handle_syscall. set (mb := store64 (args_mem m tf 0 args) (tf + TF_epc) sepc).
  step (on_pmm_ld64 (set_mem mb k) (tf + TF_epc) He).
  step (st64_set mb k (tf + TF_epc) (u64 (load64 (pm_mem (k_pmm (set_mem mb k))) (tf + TF_epc) + 4)) He).
  change (pm_mem (k_pmm (set_mem mb k))) with mb. change (store64 mb (tf + TF_epc) _) with (call_mem m tf sepc args).
  set (mc := call_mem m tf sepc args).
  assert (forall j a, args !! j = Some a -> ld_arg tf (Z.of_nat j) (set_mem mc k) = Ret a (set_mem mc k)) as Hld.
  { intros j a Hj. pose proof (lookup_lt_Some _ _ _ Hj) as Hlt. rewrite ld_arg_set by (try done; cbn in Hlt; lia).
    unfold mc. rewrite (call_mem_arg m tf sepc args j a) by (try done; by apply (Forall_lookup_1 _ _ _ _ Ha Hj)). done. }
  step (Hld 0%nat n eq_refl). step (Hld 1%nat a1 eq_refl). step (Hld 2%nat a2 eq_refl). step (Hld 3%nat a3 eq_refl).
  step (Hld 4%nat a4 eq_refl). step (Hld 5%nat a5 eq_refl). step (Hld 6%nat a6 eq_refl). step (Hld 7%nat a7 eq_refl). done.
Qed.

(** A trap up to the dispatcher. *)
Lemma call_enter (n a1 a2 a3 a4 a5 a6 a7 : Z) k i p c :
  let args := [n; a1; a2; a3; a4; a5; a6; a7] in
  let tf := trapframe p in
  current k !! hart = Some (Some i) -> procs k !! i = Some p -> k_csrs k !! hart = Some c ->
  has (sstatus c) SSTATUS_SPP = false -> in_dram tf TF_SIZE = true -> Forall (fun a => 0 <= a < 2 ^ 64) args ->
  (p <- cur_proc hart ;; store_args (trapframe p) 0 args ;;; user_trap stale junk fuel hart CAUSE_USER_ECALL 0) k =
  bind (bind (do_syscall stale junk fuel hart n a1 a2 a3 a4 a5 a6 a7) (fun r => on_pmm (st64 (tf + TF_a0) r)))
    (fun _ => k <- gets id ;; cur <- deref (current k !! hart) ;; switch_to hart cur)
    (set_mem (call_mem (pm_mem (k_pmm k)) tf (sepc c) args) k).
Proof.
  intros args tf Hc Hp Hcs Hspp Hd Ha. set (m := pm_mem (k_pmm k)).
  assert (set_mem m k = k) as E0 by (by destruct k as [[[]]]).
  assert (cur_proc hart k = Ret p k) as Ep.
  { unfold cur_proc. assert (get_current hart k = Ret i k) as Eg by (unfold get_current, bind, gets, id; by rewrite Hc).
    step Eg. exact (get_proc_eq k i p Hp). }
  step Ep. fold tf. rewrite <- E0 at 1. step (store_args_run args tf 0 m k Hd ltac:(lia) ltac:(cbn; lia)).
  set (ma := args_mem m tf 0 args). unfold user_trap, Strap.smode_trap_handler.
  step (eq_refl : gets id (set_mem ma k) = Ret (set_mem ma k) (set_mem ma k)).
  change (k_csrs (set_mem ma k)) with (k_csrs k). rewrite Hcs.
  step (eq_refl : deref (Some c) (set_mem ma k) = Ret c (set_mem ma k)). rewrite Hspp.
  change (current (set_mem ma k)) with (current k). rewrite Hc. step (get_proc_eq (set_mem ma k) i p Hp). fold tf.
  assert (in_dram (tf + TF_epc) 8 = true) as He by (apply frame_dram; unfold TF_SIZE, TF_epc; [done|lia|lia]).
  step (st64_set ma k (tf + TF_epc) (sepc c) He). rewrite Z.eqb_refl.
  apply bind_cong. by apply handle_syscall_enter.
Qed.

(** C8.  A system call is a call of the kernel: the registers the library loads
    reach the handler through the trapframe unchanged, with the program counter moved
    past the [ecall] and nothing but the trapframe touched; and when the handler returns
    to the process, the process goes on there with the low half of the result, sign-
    extended, and memory differs from what the handler left at most in the trapframe. *)
Theorem user_call_returns (n a1 a2 a3 a4 a5 a6 a7 : Z) k i p c :
  let args := [n; a1; a2; a3; a4; a5; a6; a7] in
  let tf := trapframe p in
  current k !! hart = Some (Some i) -> procs k !! i = Some p -> k_csrs k !! hart = Some c ->
  has (sstatus c) SSTATUS_SPP = false -> in_dram tf TF_SIZE = true -> Forall (fun a => 0 <= a < 2 ^ 64) args ->
  exists m1, unchanged_outside (tf + TF_a0) (tf + TF_SIZE) (pm_mem (k_pmm k)) m1 /\
    load64 m1 (tf + TF_epc) = u64 (sepc c + 4) /\
    forall r k2 p2, do_syscall stale junk fuel hart n a1 a2 a3 a4 a5 a6 a7 (set_mem m1 k) = Ret r k2 ->
      current k2 !! hart = Some (Some i) -> procs k2 !! i = Some p2 -> trapframe p2 = tf -> (hart < length (k_csrs k2))%nat ->
      exists k3, do_user_call stale junk fuel hart n a1 a2 a3 a4 a5 a6 a7 k = Ret (u64 (i32 r)) k3 /\
        procs k3 = procs k2 /\ current k3 = current k2 /\
        sepc <$> k_csrs k3 !! hart = Some (load64 (pm_mem (k_pmm k2)) (tf + TF_epc)) /\
        unchanged_outside tf (tf + TF_SIZE) (pm_mem (k_pmm k2)) (pm_mem (k_pmm k3)).
Proof.
  intros args tf Hc Hp Hcs Hspp Hd Ha. destruct (call_mem_frame (pm_mem (k_pmm k)) tf (sepc c) args eq_refl) as [Hf He].
  exists (call_mem (pm_mem (k_pmm k)) tf (sepc c) args). split; [done|]. split; [done|].
  intros r k2 p2 Er Hc2 Hp2 Htf Hh. pose proof (call_enter n a1 a2 a3 a4 a5 a6 a7 k i p c Hc Hp Hcs Hspp Hd Ha) as E.
  assert (in_dram (tf + TF_a0) 8 = true) as Ha0 by (apply frame_dram; unfold TF_SIZE, TF_a0; [done|lia|lia]).
  set (m2 := pm_mem (k_pmm k2)). set (kr := set_mem (store64 m2 (tf + TF_a0) r) k2).
  destruct (switch_to_run kr hart i p2 Hp2 Hh ltac:(by rewrite Htf)) as (k3 & Es & [Scur (c' & Sc & _ & Ssepc & _) (m3 & Sk & _ & _ & Sfr & _)]).
  rewrite Htf in *. exists k3.
  assert (current k3 = current k2) as Hc3 by (rewrite Scur; by rewrite list_insert_id).
  assert (pm_mem (k_pmm k3) = m3) as Hm3 by (by rewrite Sk).
  split; [|split_and!].
  - unfold do_user_call. rewrite E. rewrite (bind_ret_eq _ _ _ tt kr).
    2:{ rewrite (bind_ret_eq _ _ _ _ _ Er). apply on_pmm_st64, Ha0. }
    step (eq_refl : gets id kr = Ret kr kr). change (current kr) with (current k2). rewrite Hc2.
    step (eq_refl : deref (Some (Some i)) kr = Ret (Some i) kr). rewrite Es, Hc3, Hc2, Hc, decide_True by done.
    unfold resume. assert (cur_proc hart k3 = Ret p2 k3) as Ep.
    { unfold cur_proc. assert (get_current hart k3 = Ret i k3) as Eg by (unfold get_current, bind, gets, id; by rewrite Hc3, Hc2).
      step Eg. apply get_proc_eq. by rewrite Sk. }
    step Ep. rewrite Htf. step (on_pmm_ld64 k3 _ Ha0). rewrite Hm3.
    rewrite (unchanged_load64 _ _ _ _ _ Sfr) by (unfold TF_a0, TF_kernel_sp; lia).
    change (pm_mem (k_pmm kr)) with (store64 m2 (tf + TF_a0) r). by rewrite load64_store64_eq, i32_u64.
  - by rewrite Sk.
  - done.
  - rewrite Sc. cbn. rewrite Ssepc. f_equal. apply load64_store64_ne. unfold TF_a0, TF_epc. lia.
  - rewrite Hm3. eapply unchanged_trans; eapply unchanged_mono; [| |apply unchanged_store64| | |exact Sfr];
      unfold TF_a0, TF_kernel_sp, TF_SIZE; lia.
Qed.
End trap.

(** * Witness *)

(** Process 0 creates a semaphore with value 5 and gets its number, 1. *)
Definition call_kern : kern := small_kern <| k_csrs := replicate NCPU {| stvec := 0; sstatus := 0; sepc := 65536; satp := 0; sip := 0 |} |>.

#[local] Instance call_symbols : Symbols := {| smode_trap_vector := 0; Sched.smode_trap_handler := 0; trap_sec_start := 0; debug_line := 0 |}.

Lemma sem_init_any F : do_syscall (ST := small_stale) (HO := small_host) [] [] 10 0 SYS_user_sem_init 5 0 0 0 0 0 0 (call_kern <| k_fs := F |>) =
  Ret 1 (call_kern <| k_fs := F |> <| sems := [1; 5] ++ replicate 98 0 |> <| sem_cnt := 2 |>).
Proof. by vm_compute. Qed.

Lemma user_call_returns_witness :
  exists k', do_user_call (ST := small_stale) (HO := small_host) [] [] 10 0 SYS_user_sem_init 5 0 0 0 0 0 0 call_kern = Ret 1 k' /\
    procs k' = procs call_kern.
Proof.
  destruct (user_call_returns (ST := small_stale) (HO := small_host) [] [] 10 0 SYS_user_sem_init 5 0 0 0 0 0 0 call_kern 0
    (blank_process 0 RUNNING) {| stvec := 0; sstatus := 0; sepc := 65536; satp := 0; sip := 0 |}) as (m1 & _ & _ & H);
    [reflexivity..| |].
  - repeat (constructor; [by split|]). constructor.
  - destruct (H 1 _ (blank_process 0 RUNNING) (sem_init_any (k_fs (set_mem m1 call_kern))) eq_refl eq_refl eq_refl)
      as (k3 & E & Hp & _); [cbn; lia|].
    exists k3. split; [exact E|exact Hp].
Defined.
