(* ===== verification/UserProg.v ===== *)
(** user/*.c: the programs that run on the kernel, but for the shell.  A program works on
    its own memory and calls the library; what the kernel answers is an argument. *)

From S2P Require Import Prelude Mem CString Fdt SpikeFile FsData Hostfs.

(** * The library as the programs see it *)

(** An argument of [printu]: a number or the characters of a string. *)
Inductive uarg := UInt (z : Z) | UStr (l : list Z).

(** The calls of user/deps/user_lib.c.  A path or a buffer that is read is given by its
    bytes. *)
Inductive ucall :=
  | u_print (fmt : list Z) (args : list uarg)
  | u_exit (code : Z)
  | u_naive_malloc
  | u_naive_free (va : Z)
  | u_fork
  | u_yield
  | u_open (path : list Z) (flags : Z)
  | u_read (fd count : Z)
  | u_write (fd : Z) (bytes : list Z) (count : Z)
  | u_close (fd : Z)
  | u_opendir (path : list Z)
  | u_readdir (fd : Z)
  | u_mkdir (path : list Z)
  | u_closedir (fd : Z)
  | u_exec (path arg : list Z)
  | u_wait (pid : Z)
  | u_gets (len : Z)
  | u_sem_new (v : Z)
  | u_sem_P (sem : Z)
  | u_sem_V (sem : Z)
  | u_better_malloc (n : Z)
  | u_better_free (va : Z)
  | u_printpa (va : Z)
  | u_backtrace (depth : Z)
  | u_read_cwd
  | u_change_cwd (path : list Z)
  | u_test (path : list Z).

(** The kernel: the result of a call and the bytes it stores for the program, after the
    calls of the list. *)
Class System := { sys_reply : list ucall -> ucall -> Z * list Z }.

(** A program: its memory and the calls it has made. *)
Record user := { u_mem : mem; u_log : list ucall }.
#[export] Instance eta_user : Eta user := fun u => Build_user (u_mem u) (u_log u).

(** The NUL-terminated string at [a], of less than [n] bytes. *)
Fixpoint str_at (n : nat) (m : mem) (a : Z) : option (list Z) :=
  match n with
  | O => None
  | S n' => let c := load8 m a in if c =? 0 then Some [] else cons c <$> str_at n' m (a + 1)
  end.

(** The longest string a program handles: a page. *)
Definition STR_MAX : nat := 4096.

Section lib.
Context {SYS : System}.

(** A call whose answer goes to the [room] bytes at [dst]. *)
Definition sys (c : ucall) (dst room : Z) : M user Z := fun u =>
  let '(r, b) := sys_reply (u_log u) c in
  if Z.of_nat (length b) <=? room
  then Ret r (u <| u_mem := store_bytes (u_mem u) dst b |> <| u_log := u_log u ++ [c] |>) else Fault.

(** A call without an answer in memory. *)
Definition sys0 (c : ucall) : M user Z := fun u =>
  Ret (fst (sys_reply (u_log u) c)) (u <| u_log := u_log u ++ [c] |>).

Definition print (fmt : list Z) (args : list uarg) : M user unit := sys0 (u_print fmt args) ;;; ret tt.

(** [exit] does not return. *)
Definition exit_with (code : Z) : M user unit := sys0 (u_exit code) ;;; fun u => Switch u.

Definition ustring (a : Z) : M user (list Z) := u <- gets id ;; deref (str_at STR_MAX (u_mem u) a).
Definition ld_byte (a : Z) : M user Z := gets (fun u => load8 (u_mem u) a).
Definition st_byte (a v : Z) : M user unit := modify (fun u => u <| u_mem := store8 (u_mem u) a v |>).
Definition st_str (a : Z) (l : list Z) : M user unit := modify (fun u => u <| u_mem := store_bytes (u_mem u) a l |>).
Definition ld_int (a : Z) : M user Z := gets (fun u => i32 (load32 (u_mem u) a)).
Definition st_int (a v : Z) : M user unit := modify (fun u => u <| u_mem := store32 (u_mem u) a v |>).
Definition ld_buf (a n : Z) : M user (list Z) := gets (fun u => (fun i => load8 (u_mem u) (a + i)) <$> seqZ 0 n).

Definition line (s : string) : list Z := text s ++ [10].
End lib.

(** Where the local variables of a program lie. *)
Class Frame := { buf_at : Z; str_var : Z; name_at : Z; dir_at : Z; path_at : Z; array_at : Z }.

Section programs.
Context {SYS : System} {FR : Frame}.
Implicit Types argv : Z.

(** * cat.c, echo.c, touch.c, mkdir.c *)

(** [argv] is [argv[0]]. *)
Definition cat_main argv : M user unit :=
  filename <- ustring argv ;;
  print ([10] ++ line "======== cat command ========") [] ;;;
  print (line "cat: %s") [UStr filename] ;;;
  fd <- sys0 (u_open filename O_RDWR) ;;
  print (line "file descriptor fd: %d") [UInt fd] ;;;
  sys (u_read fd 512) buf_at 512 ;;;
  b <- ustring buf_at ;;
  print (text "read content: " ++ [10] ++ line "%s") [UStr b] ;;;
  sys0 (u_close fd) ;;;
  exit_with 0.

Definition hello : list Z := text "hello world".

Definition echo_main argv : M user unit :=
  st_str str_var (hello ++ [0]) ;;;
  filename <- ustring argv ;;
  print ([10] ++ line "======== echo command ========") [] ;;;
  print (line "echo: %s") [UStr filename] ;;;
  fd <- sys0 (u_open filename (Z.lor O_RDWR O_CREAT)) ;;
  print (line "file descriptor fd: %d") [UInt fd] ;;;
  s <- ustring str_var ;;
  b <- ld_buf str_var (Z.of_nat (length s)) ;;
  sys0 (u_write fd b (Z.of_nat (length s))) ;;;
  s <- ustring str_var ;;
  print (text "write content: " ++ [10] ++ line "%s") [UStr s] ;;;
  sys0 (u_close fd) ;;;
  exit_with 0.

Definition touch_main argv : M user unit :=
  filename <- ustring argv ;;
  print ([10] ++ line "======== touch command ========") [] ;;;
  print (line "touch: %s") [UStr filename] ;;;
  fd <- sys0 (u_open filename O_CREAT) ;;
  print (line "file descriptor fd: %d") [UInt fd] ;;;
  sys0 (u_close fd) ;;;
  exit_with 0.

Definition mkdir_main argv : M user unit :=
  new_dir <- ustring argv ;;
  sys0 (u_mkdir new_dir) ;;;
  print (line "mkdir: %s") [UStr new_dir] ;;;
  exit_with 0.

(** * ls.c *)

Definition width : Z := 20.

(** One entry: the name is padded to [width] when it is shorter.  [strcpy] and [strlen] are
    those of util/string.c. *)
Definition ls_entry : M user unit :=
  modify (fun u => u <| u_mem := memset (u_mem u) name_at 32 (width + 1) |>) ;;;
  st_byte (name_at + width) 0 ;;;
  n <- ustring dir_at ;;
  inum <- ld_int (dir_at + 32) ;;
  if Z.of_nat (length n) <? width then
    u <- gets id ;;
    m <- deref (strcpy STR_MAX (u_mem u) name_at dir_at) ;;
    modify (fun u => u <| u_mem := m |>) ;;;
    st_byte (name_at + Z.of_nat (length n)) 32 ;;;
    name <- ustring name_at ;;
    print (line "%s %d") [UStr name; UInt inum]
  else print (line "%s %d") [UStr n; UInt inum].

(** The [dir] of a program has 36 bytes. *)
Fixpoint ls_loop (fuel : nat) (dir_fd : Z) : M user unit :=
  match fuel with
  | O => hang
  | S f =>
      r <- sys (u_readdir dir_fd) dir_at 36 ;;
      if r =? 0 then ls_entry ;;; ls_loop f dir_fd else ret tt
  end.

Definition ls_main (fuel : nat) argv : M user unit :=
  path <- ustring argv ;;
  dir_fd <- sys0 (u_opendir path) ;;
  print (line "---------- ls command -----------") [] ;;;
  print (text "ls " ++ [34] ++ text "%s" ++ [34; 58; 10]) [UStr path] ;;;
  print (line "[name]               [inode_num]") [] ;;;
  ls_loop fuel dir_fd ;;;
  print (line "------------------------------") [] ;;;
  sys0 (u_closedir dir_fd) ;;;
  exit_with 0.

(** * alloc.c and test.c *)

Fixpoint alloc_pages (n : nat) (i base : Z) (fmt : list Z) : M user (list Z) :=
  match n with
  | O => ret []
  | S n' =>
      p <- sys0 u_naive_malloc ;;
      st_int p (base + i) ;;;
      print fmt [UInt p] ;;;
      l <- alloc_pages n' (i + 1) base fmt ;;
      ret (p :: l)
  end.

Fixpoint free_pages (l : list Z) (fmt : list Z) : M user unit :=
  match l with
  | [] => ret tt
  | p :: l' =>
      v <- ld_int p ;;
      print fmt [UInt v] ;;;
      sys0 (u_naive_free p) ;;;
      free_pages l' fmt
  end.

Definition alloc_main : M user unit :=
  l <- alloc_pages 5 0 0 (line "=== user alloc 0 @ vaddr 0x%x") ;;
  free_pages l (line "=== user0: %d") ;;;
  exit_with 0.

Definition test_main : M user unit :=
  st_str path_at (text "/bin/alloc" ++ replicate 20 0) ;;;
  pid <- sys0 u_fork ;;
  (if pid =? 0 then path <- ustring path_at ;; sys0 (u_test path) ;;; ret tt
   else
     sys0 u_yield ;;;
     l <- alloc_pages 5 0 5 (line ">>> user alloc 1 @ vaddr 0x%x") ;;
     free_pages l (line ">>> user 1: %d") ;;;
     sys0 (u_wait pid) ;;;
     ret tt) ;;;
  exit_with 0.

(** * The challenges of labs 1 and 2 *)

(** c_1_1.c: [main] to [f8] do nothing but call each other. *)
Definition backtrace_main : M user unit :=
  print (line "back trace the user app in the following:") [] ;;;
  sys0 (u_backtrace 10) ;;;
  exit_with 0.

(** c_1_2.c: the instruction is illegal in user mode. *)
Definition illegal_main : M user unit :=
  print (line "Going to hack the system by running privilege instructions.") [] ;;;
  fault.

(** c_2_1.c: the sum is stored as an [int], and what is stored is returned. *)
Fixpoint sum_sequence (n : nat) (p : Z) : M user Z :=
  match n with
  | O => ret 0
  | S n' =>
      r <- sum_sequence n' (p + 4) ;;
      let v := i32 (r + Z.of_nat n) in
      st_int p v ;;;
      ret (u64 v)
  end.

Definition sum_main : M user unit :=
  print (line "Allocating a page size array to store the result of every step") [] ;;;
  ans <- sys0 u_naive_malloc ;;
  s <- sum_sequence 1025 ans ;;
  print (line "Summation of an arithmetic sequence from 0 to %ld is: %ld ") [UInt 1024; UInt s] ;;;
  exit_with 0.

(** c_2_2.c, with a [strcpy] of its own. *)
Definition malloc_main : M user unit :=
  st_str str_var (text "hello, world!!!" ++ replicate 5 0) ;;;
  m <- sys0 (u_better_malloc 100) ;;
  p <- sys0 (u_better_malloc 50) ;;
  (if 512 <? u64 (p - m) then print (text "you need to manage the vm space precisely!") [] ;;; exit_with (-1) else ret tt) ;;;
  sys0 (u_better_free m) ;;;
  u <- gets id ;;
  w <- deref (strcpy STR_MAX (u_mem u) p str_var) ;;
  modify (fun u => u <| u_mem := w |>) ;;;
  s <- ustring p ;;
  print (line "%s") [UStr s] ;;;
  n <- sys0 (u_better_malloc 50) ;;
  (if negb (m =? n) then print (line "your malloc is not complete.") [] ;;; exit_with (-1) else ret tt) ;;;
  exit_with 0.

(** * c_3_3.c *)

Definition cow_main : M user unit :=
  heap_data <- sys0 u_naive_malloc ;;
  print (text "the physical address of parent process heap is: ") [] ;;;
  sys0 (u_printpa heap_data) ;;;
  pid <- sys0 u_fork ;;
  (if pid =? 0 then
     print (text "the physical address of child process heap before copy on write is: ") [] ;;;
     sys0 (u_printpa heap_data) ;;;
     st_int heap_data 0 ;;;
     print (text "the physical address of child process heap after copy on write is: ") [] ;;;
     sys0 (u_printpa heap_data) ;;;
     ret tt
   else ret tt) ;;;
  exit_with 0.

(** * c_4_1.c *)

Definition pwd : M user unit :=
  sys u_read_cwd path_at 30 ;;;
  path <- ustring path_at ;;
  print (line "cwd:%s") [UStr path].

Definition cd (path : list Z) : M user unit :=
  r <- sys0 (u_change_cwd path) ;;
  if r =? 0 then ret tt else print (line "cd failed") [].

Definition title (s : string) : list Z := [10] ++ text "======== " ++ text s ++ line "  ========".

Definition read_print (fd : Z) : M user unit :=
  sys (u_read fd 512) buf_at 512 ;;;
  b <- ustring buf_at ;;
  print (text "read content: " ++ [10] ++ line "%s") [UStr b] ;;;
  sys0 (u_close fd) ;;; ret tt.

Definition cwd_main : M user unit :=
  st_str str_var (hello ++ [0]) ;;;
  print (title "Test 1: change current directory") [] ;;;
  pwd ;;;
  cd (text "./RAMDISK0") ;;;
  print (line "change current directory to ./RAMDISK0") [] ;;;
  pwd ;;;
  print (title "Test 2: Go to parent directory") [] ;;;
  pwd ;;;
  cd (text "..") ;;;
  print (line "change current directory to ..") [] ;;;
  pwd ;;;
  print (line "read: ./hostfile.txt") [] ;;;
  fd <- sys0 (u_open (text "./hostfile.txt") O_RDONLY) ;;
  print (line "file descriptor fd: %d") [UInt fd] ;;;
  read_print fd ;;;
  print (title "Test 3: write/read file by relative path") [] ;;;
  cd (text "./RAMDISK0") ;;;
  print (line "change current directory to ./RAMDISK0") [] ;;;
  print (line "write: ./ramfile") [] ;;;
  fd <- sys0 (u_open (text "./ramfile") (Z.lor O_RDWR O_CREAT)) ;;
  print (line "file descriptor fd: %d") [UInt fd] ;;;
  s <- ustring str_var ;;
  b <- ld_buf str_var (Z.of_nat (length s)) ;;
  sys0 (u_write fd b (Z.of_nat (length s))) ;;;
  print (text "write content: " ++ [10] ++ line "%s") [UStr s] ;;;
  sys0 (u_close fd) ;;;
  fd <- sys0 (u_open (text "./ramfile") O_RDWR) ;;
  print (line "read: ./ramfile") [] ;;;
  read_print fd ;;;
  print ([10] ++ line "All tests passed!" ++ [10]) [] ;;;
  exit_with 0.
End programs.
