(* ===== verification/UserSim.v ===== *)
(** Programs and what they mean on strings: a specification that only makes calls, the
    strings and bytes a program keeps in memory, and the simulation between the two. *)

From S2P Require Import Prelude Mem CString UserProg.

(** The bytes before the first that stops, and the string of a buffer. *)
Definition until (stop : Z -> bool) (b : list Z) : list Z := fst (span (fun c => negb (stop c)) b).
Definition cstring (b : list Z) : list Z := until (fun c => c =? 0) b.

(** The entries read since the last directory was opened. *)
Definition entries_read (l : list ucall) : nat :=
  fold_left (fun n c => match c with u_opendir _ => O | u_readdir _ => S n | _ => n end) l O.

(** * Bytes and strings in memory *)

Definition bytes_at (m : mem) (p : Z) (l : list Z) : Prop :=
  forall k c, l !! k = Some c -> load8 m (p + Z.of_nat k) = c.

Lemma bytes_at_cons m p c l : bytes_at m p (c :: l) <-> load8 m p = c /\ bytes_at m (p + 1) l.
Proof.
  split.
  - intros H. split; [by rewrite <- (H 0%nat c eq_refl); f_equal; lia|].
    intros k d Hk. rewrite <- (H (S k) d Hk). f_equal. lia.
  - intros [H1 H2] [|k] d Hk; cbn in Hk; simplify_eq; [f_equal; lia|].
    rewrite <- (H2 k d Hk). f_equal. lia.
Qed.

Lemma bytes_at_ext m m' p l :
  (forall a, p <= a < p + Z.of_nat (length l) -> load8 m' a = load8 m a) -> bytes_at m p l -> bytes_at m' p l.
Proof. intros H Hb k c Hk. rewrite H; [by apply Hb|]. apply lookup_lt_Some in Hk. lia. Qed.

Lemma bytes_at_app m p l1 l2 :
  bytes_at m p (l1 ++ l2) -> bytes_at m p l1 /\ bytes_at m (p + Z.of_nat (length l1)) l2.
Proof.
  intros H. split; intros k c Hk.
  - apply H. by apply lookup_app_l_Some.
  - rewrite <- (H (length l1 + k)%nat c); [f_equal; lia|].
    by rewrite lookup_app_r, Nat.add_comm, Nat.add_sub by lia.
Qed.

Lemma bytes_at_store m p b : Forall (fun c => 0 <= c < 256) b -> bytes_at (store_bytes m p b) p b.
Proof.
  intros Hb k c Hk. rewrite (load8_store_bytes b m p k c Hk). apply Z.mod_small.
  exact (Forall_lookup_1 _ _ _ _ Hb Hk).
Qed.

Lemma cstr_bytes m p l :
  bytes_at m p l -> Forall (fun c => c <> 0) l -> load8 m (p + Z.of_nat (length l)) = 0 -> cstr m p l.
Proof.
  revert p. induction l as [|c l IH]; intros p Hb Hz H0; cbn [cstr length] in *; [by rewrite Z.add_0_r in H0|].
  apply bytes_at_cons in Hb as [Hc Hb]. apply Forall_cons in Hz as [Hz1 Hz].
  split_and!; [done..|]. apply IH; [done..|]. rewrite <- H0. f_equal. lia.
Qed.

Lemma cstr_str_at n m a l : cstr m a l -> (length l < n)%nat -> str_at n m a = Some l.
Proof.
  revert a l. induction n as [|n IH]; intros a l Hs Hn; [lia|].
  destruct l as [|c l]; cbn [cstr str_at length] in *.
  - by rewrite Hs.
  - destruct Hs as (-> & Hc & Hs). apply Z.eqb_neq in Hc. rewrite Hc.
    rewrite (IH (a + 1) l Hs) by lia. done.
Qed.

(** The bytes before the first that stops. *)
Lemma until_split stop b :
  existsb stop b = true ->
  exists t r, b = until stop b ++ t :: r /\ stop t = true /\ Forall (fun c => stop c = false) (until stop b).
Proof.
  unfold until. induction b as [|c b IH]; [done|]. cbn [existsb span]. destruct (stop c) eqn:Ec; cbn.
  - intros _. exists c, b. auto.
  - intros H. destruct (IH H) as (t & r & E & Ht & HF).
    destruct (span (fun c => negb (stop c)) b) as [x y]. cbn in *. exists t, r.
    split_and!; [congruence|done|by constructor].
Qed.

Lemma until_split_end stop b :
  existsb stop b = false -> until stop b = b /\ Forall (fun c => stop c = false) b.
Proof.
  unfold until. induction b as [|c b IH]; [by split|]. cbn [existsb span]. intros H.
  apply orb_false_iff in H as [Ec H]. rewrite Ec. destruct (IH H) as [E HF].
  destruct (span (fun c => negb (stop c)) b). cbn in *. split; [congruence|by constructor].
Qed.

(** A string that is answered is the one that is read. *)
Lemma cstr_stored m p b :
  Forall (fun c => 0 <= c < 256) b -> existsb (fun c => c =? 0) b = true ->
  cstr (store_bytes m p b) p (cstring b) /\ (length (cstring b) < length b)%nat.
Proof.
  intros Hb Hz. destruct (until_split _ b Hz) as (t & r & E & Ht & HF). fold (cstring b) in *.
  pose proof (bytes_at_store m p b Hb) as H. rewrite E in H at 2.
  apply bytes_at_app in H as [H1 H2]. apply bytes_at_cons in H2 as [H2 _]. split.
  - apply cstr_bytes; [done| |by rewrite H2; apply Z.eqb_eq].
    eapply Forall_impl; [exact HF|]. intros c Hc. by apply Z.eqb_neq.
  - rewrite E at 2. rewrite length_app. cbn. lia.
Qed.

Lemma cstr_line m p l : cstr m p l -> bytes_at m p l /\ load8 m (p + Z.of_nat (length l)) = 0.
Proof.
  revert p. induction l as [|c l IH]; intros p; cbn [cstr length].
  - rewrite Z.add_0_r. intros H. split; [|done]. intros k c Hk. by rewrite lookup_nil in Hk.
  - intros (Hc & _ & H). apply IH in H as [H1 H2]. split; [by apply bytes_at_cons|]. rewrite <- H2. f_equal. lia.
Qed.

(** * The simulation *)

Section simulation.
Context {SYS : System}.

(** A specification makes calls; it has no memory. *)
Definition ask (c : ucall) : M (list ucall) (Z * list Z) := fun l => Ret (sys_reply l c) (l ++ [c]).

(** From memories that satisfy [P] the program and the specification end alike, after the
    same calls, with results and a memory in [Q]. *)
Definition sim {A B} (P : mem -> Prop) (c : M user A) (s : M (list ucall) B) (Q : A -> B -> mem -> Prop) : Prop :=
  forall u, P (u_mem u) ->
  match c u, s (u_log u) with
  | Ret a u', Ret b l => u_log u' = l /\ Q a b (u_mem u')
  | Switch u', Switch l => u_log u' = l
  | Hang, Hang => True
  | _, _ => False
  end.

Lemma sim_bind {A B A' B'} P (c : M user A) (s : M (list ucall) B) Q (k : A -> M user A') (k' : B -> M (list ucall) B') R :
  sim P c s Q -> (forall a b, sim (Q a b) (k a) (k' b) R) -> sim P (bind c k) (bind s k') R.
Proof.
  intros Hc Hk u Hu. specialize (Hc u Hu). unfold bind.
  destruct (c u) as [a u'| | | | |], (s (u_log u)) as [b l| | | | |]; try done.
  destruct Hc as [<- HQ]. by apply Hk.
Qed.

Lemma sim_ret {A B} (P : mem -> Prop) (a : A) (b : B) (Q : A -> B -> mem -> Prop) :
  (forall m, P m -> Q a b m) -> sim P (ret a) (ret b) Q.
Proof. intros H u Hu. split; [done|by apply H]. Qed.

Lemma sim_mono {A B} (P P' : mem -> Prop) (c : M user A) (s : M (list ucall) B) (Q Q' : A -> B -> mem -> Prop) :
  (forall m, P' m -> P m) -> (forall a b m, Q a b m -> Q' a b m) -> sim P c s Q -> sim P' c s Q'.
Proof.
  intros HP HQ H u Hu. specialize (H u (HP _ Hu)). destruct (c u), (s (u_log u)); try done.
  destruct H. split; auto.
Qed.

(** A step of the program alone: no call is made. *)
Lemma sim_local {A A' B} (P : mem -> Prop) (c : M user A) (k : A -> M user A') (s : M (list ucall) B) (a : A) (P' : mem -> Prop) Q :
  (forall u, P (u_mem u) -> exists m', c u = Ret a (u <| u_mem := m' |>) /\ P' m') ->
  sim P' (k a) s Q -> sim P (bind c k) s Q.
Proof.
  intros Hc Hk u Hu. destruct (Hc u Hu) as (m' & E & HP'). rewrite (bind_ret_eq _ _ _ _ _ E).
  exact (Hk (u <| u_mem := m' |>) HP').
Qed.

(** The program goes on as another one does. *)
Lemma sim_run_l {A B} (P P' : mem -> Prop) (c c' : M user A) (s : M (list ucall) B) Q :
  (forall u, P (u_mem u) -> exists m', c u = c' (u <| u_mem := m' |>) /\ P' m') -> sim P' c' s Q -> sim P c s Q.
Proof. intros Hc Hs u Hu. destruct (Hc u Hu) as (m' & -> & HP). exact (Hs (u <| u_mem := m' |>) HP). Qed.

Lemma sim_sys0 P c : sim P (sys0 c) (ask c) (fun r b m => r = fst b /\ P m).
Proof. intros u Hu. unfold sys0, ask. done. Qed.

Lemma sim_sys P c dst room :
  (forall l, Z.of_nat (length (snd (sys_reply l c))) <= room) ->
  sim P (sys c dst room) (ask c) (fun r b m =>
    r = fst b /\ exists m0 l, P m0 /\ b = sys_reply l c /\ m = store_bytes m0 dst (snd b)).
Proof.
  intros Hroom u Hu. unfold sys, ask. specialize (Hroom (u_log u)).
  destruct (sys_reply (u_log u) c) as [r b] eqn:E. cbn [snd] in Hroom. apply Z.leb_le in Hroom as ->.
  split; [done|]. split; [done|]. eauto.
Qed.

Lemma sim_print P fmt args (f : M (list ucall) unit) :
  (forall l, f l = Ret tt l) ->
  sim P (print fmt args) (ask (u_print fmt args) ;;; f) (fun _ _ m => P m).
Proof. intros Hf u Hu. unfold print, ask, bind, sys0. cbn. rewrite Hf. done. Qed.

Lemma sim_string {A B} (P : mem -> Prop) a l (k : list Z -> M user A) (s : M (list ucall) B) Q :
  (forall m, P m -> cstr m a l) -> (length l < STR_MAX)%nat ->
  sim P (k l) s Q -> sim P (bind (ustring a) k) s Q.
Proof.
  intros Hs Hl. apply sim_local. intros u Hu. exists (u_mem u). split; [|done].
  unfold ustring, bind, gets. cbn [id]. rewrite (cstr_str_at _ _ _ _ (Hs _ Hu) Hl). by destruct u.
Qed.

Lemma sim_ext {A B} P (c : M user A) (s s' : M (list ucall) B) Q :
  (forall l, s l = s' l) -> sim P c s' Q -> sim P c s Q.
Proof. intros E H u Hu. rewrite E. by apply H. Qed.

Lemma sim_ext_l {A B} P (c c' : M user A) (s : M (list ucall) B) Q :
  (forall u, c u = c' u) -> sim P c' s Q -> sim P c s Q.
Proof. intros E H u Hu. rewrite E. by apply H. Qed.

Lemma sim_pre {A B} (P : mem -> Prop) (c : M user A) (s : M (list ucall) B) Q :
  (forall m, P m -> sim (fun m' => m' = m) c s Q) -> sim P c s Q.
Proof. intros H u Hu. exact (H _ Hu u eq_refl). Qed.

(** A call that answers in memory, with what is done next. *)
Lemma sim_sys_bind {A B} (P : mem -> Prop) c dst room (k : Z -> M user A) (k' : Z * list Z -> M (list ucall) B) Q :
  (forall l, Z.of_nat (length (snd (sys_reply l c))) <= room) ->
  (forall m l, P m -> sim (fun m' => m' = store_bytes m dst (snd (sys_reply l c))) (k (fst (sys_reply l c))) (k' (sys_reply l c)) Q) ->
  sim P (bind (sys c dst room) k) (bind (ask c) k') Q.
Proof.
  intros Hr Hk. eapply sim_bind; [by apply sim_sys|]. intros r b. apply sim_pre.
  intros m (-> & m0 & l & HP & -> & ->). by apply Hk.
Qed.

Lemma sim_sys0_bind {A B} (P : mem -> Prop) c (k : Z -> M user A) (k' : Z * list Z -> M (list ucall) B) Q :
  (forall b, sim P (k (fst b)) (k' b) Q) -> sim P (bind (sys0 c) k) (bind (ask c) k') Q.
Proof.
  intros Hk. eapply sim_bind; [apply sim_sys0|]. intros r b. apply sim_pre. intros m [-> HP].
  eapply sim_mono; [intros m' ->; exact HP|by intros ??? H; exact H|apply Hk].
Qed.

Lemma sim_print_bind {A B} (P : mem -> Prop) fmt args (k : unit -> M user A) (k' : Z * list Z -> M (list ucall) B) Q :
  (forall b, sim P (k tt) (k' b) Q) -> sim P (bind (print fmt args) k) (bind (ask (u_print fmt args)) k') Q.
Proof.
  intros Hk u Hu. unfold print. rewrite bind_assoc. exact (sim_sys0_bind P _ (fun _ => ret tt ;;; k tt) k' Q Hk u Hu).
Qed.
End simulation.
