(* ===== verification/Ls.v ===== *)
(** user/ls.c: the table that the program lays out in its memory is the list of the entries,
    each name padded to the width of the column. *)

From S2P Require Import Prelude Mem CString Fdt UserProg UserSim.

(** * ls on strings *)

(** A name that is shorter than the column is filled up with spaces. *)
Definition padded (n : list Z) : list Z :=
  if Z.of_nat (length n) <? width then n ++ replicate (Z.to_nat width - length n) 32 else n.

(** The inode number behind the 32 bytes of the name. *)
Definition inum_of (b : list Z) : Z :=
  let byte i := default 0 (b !! i) in
  i32 (byte 32%nat + 256 * (byte 33%nat + 256 * (byte 34%nat + 256 * byte 35%nat))).

Section spec.
Context {SYS : System}.

Fixpoint spec_entries (fuel : nat) (fd : Z) : M (list ucall) unit :=
  match fuel with
  | O => hang
  | S f =>
      r <- ask (u_readdir fd) ;;
      if fst r =? 0 then
        ask (u_print (line "%s %d") [UStr (padded (cstring (snd r))); UInt (inum_of (snd r))]) ;;; spec_entries f fd
      else ret tt
  end.

Definition spec_ls (fuel : nat) (path : list Z) : M (list ucall) unit :=
  fd <- ask (u_opendir path) ;;
  ask (u_print (line "---------- ls command -----------") []) ;;;
  ask (u_print (text "ls " ++ [34] ++ text "%s" ++ [34; 58; 10]) [UStr path]) ;;;
  ask (u_print (line "[name]               [inode_num]") []) ;;;
  spec_entries fuel (fst fd) ;;;
  ask (u_print (line "------------------------------") []) ;;;
  ask (u_closedir (fst fd)) ;;;
  ask (u_exit 0) ;;;
  fun l => Switch l.
End spec.

(** An entry that is read fills [dir], with a name that ends in it; the variables of the
    program do not overlap. *)
Class Entries {SYS : System} {FR : Frame} : Prop := {
  entry_bytes l fd : Forall (fun b => 0 <= b < 256) (snd (sys_reply l (u_readdir fd)));
  entry_room l fd : (length (snd (sys_reply l (u_readdir fd))) <= 36)%nat;
  entry_full l fd : fst (sys_reply l (u_readdir fd)) = 0 -> length (snd (sys_reply l (u_readdir fd))) = 36%nat;
  entry_name l fd : fst (sys_reply l (u_readdir fd)) = 0 ->
    existsb (fun c => c =? 0) (take 32 (snd (sys_reply l (u_readdir fd)))) = true;
  vars_apart : name_at + 21 <= dir_at \/ dir_at + 36 <= name_at }.

Section ls_ok.
Context {SYS : System} {FR : Frame} {EN : Entries}.

(** The padded name is what is left in [name]. *)
Lemma padded_string m n :
  cstr m dir_at n -> Z.of_nat (length n) < width -> (length n < STR_MAX)%nat ->
  name_at + 21 <= dir_at \/ dir_at + Z.of_nat (length n) < name_at ->
  exists m', strcpy STR_MAX (store8 (memset m name_at 32 (width + 1)) (name_at + width) 0) name_at dir_at = Some m' /\
    cstr (store8 m' (name_at + Z.of_nat (length n)) 32) name_at (padded n).
Proof.
  intros Hn Hw Hmax Hap. unfold width in *. set (m1 := store8 _ _ 0).
  assert (forall a, a < name_at \/ name_at + 21 <= a -> load8 m1 a = load8 m a) as Hout.
  { intros a Ha. unfold m1. rewrite load8_store8_ne by lia. apply memset_unchanged; lia. }
  assert (forall a, name_at <= a < name_at + 20 -> load8 m1 a = 32) as Hin.
  { intros a Ha. unfold m1. rewrite load8_store8_ne, load8_memset by lia.
    destruct (Z.leb_spec name_at a), (Z.ltb_spec a (name_at + (20 + 1))); try lia. done. }
  destruct (strcpy_spec STR_MAX m1 name_at dir_at n) as (m' & E & Hcp & Hs); [|done|lia|].
  { eapply cstr_ext; [|exact Hn]. intros. apply Hout. lia. }
  exists m'. split; [done|]. apply cstr_line in Hs as [Hb Hz].
  assert (forall a, a < name_at \/ name_at + Z.of_nat (length n) < a -> load8 m' a = load8 m1 a) as Hcp2.
  { intros a Ha. rewrite Hcp. destruct (Z.leb_spec name_at a), (Z.ltb_spec a (name_at + (Z.of_nat (length n) + 1))); try lia; done. }
  unfold padded, width. destruct (Z.ltb_spec (Z.of_nat (length n)) 20); [|lia].
  apply cstr_bytes.
  - intros k c Hk. destruct (decide (k < length n)%nat).
    + rewrite lookup_app_l in Hk by done. rewrite load8_store8_ne by lia. by apply Hb.
    + rewrite lookup_app_r in Hk by lia. apply lookup_replicate in Hk as [-> Hk].
      rewrite load8_store8. destruct (Z.eqb_spec (name_at + Z.of_nat k) (name_at + Z.of_nat (length n))); [done|].
      rewrite Hcp2 by lia. apply Hin. lia.
  - apply Forall_app. split; [|apply Forall_replicate; lia].
    clear -Hn. revert Hn. generalize dir_at. induction n as [|c n IH]; intros a; [constructor|]. cbn [cstr].
    intros (_ & Hc & Hn). constructor; [done|]. by apply (IH (a + 1)).
  - rewrite length_app, length_replicate.
    replace (Z.of_nat (length n + (Z.to_nat 20 - length n))) with 20 by lia.
    rewrite load8_store8_ne, Hcp2 by lia. unfold m1, width. by rewrite load8_store8_eq.
Qed.

Lemma inum_loaded m b :
  bytes_at m dir_at b -> length b = 36%nat -> i32 (load32 m (dir_at + 32)) = inum_of b.
Proof.
  intros Hb Hl. unfold load32, inum_of. cbn [load_le]. f_equal.
  assert (forall i, (i < 36)%nat -> load8 m (dir_at + Z.of_nat i) = default 0 (b !! i)) as H.
  { intros i Hi. destruct (lookup_lt_is_Some_2 b i) as [c Hc]; [lia|]. rewrite Hc. by apply Hb. }
  rewrite <- (H 32%nat), <- (H 33%nat), <- (H 34%nat), <- (H 35%nat) by lia.
  replace (dir_at + 32 + 1 + 1 + 1) with (dir_at + Z.of_nat 35) by lia.
  replace (dir_at + 32 + 1 + 1) with (dir_at + Z.of_nat 34) by lia.
  replace (dir_at + 32 + 1) with (dir_at + Z.of_nat 33) by lia.
  change (dir_at + 32) with (dir_at + Z.of_nat 32). lia.
Qed.

Lemma until_take stop k b :
  existsb stop (take k b) = true -> existsb stop b = true /\ (length (until stop b) < k)%nat.
Proof.
  revert k. unfold until. induction b as [|c b IH]; intros [|k]; try done. cbn [take existsb span].
  destruct (stop c); cbn [orb negb]; [intros _; split; [done|cbn; lia]|]. intros H. destruct (IH k H) as [He Hl].
  destruct (span _ b). cbn in *. split; [done|lia].
Qed.

(** An entry is one line. *)
Lemma ls_entry_run u m0 l fd :
  fst (sys_reply l (u_readdir fd)) = 0 -> u_mem u = store_bytes m0 dir_at (snd (sys_reply l (u_readdir fd))) ->
  let b := snd (sys_reply l (u_readdir fd)) in
  exists m', ls_entry u = print (line "%s %d") [UStr (padded (cstring b)); UInt (inum_of b)] (u <| u_mem := m' |>).
Proof.
  intros E0 Hm b. fold b in Hm. destruct (until_take _ 32 b (entry_name l fd E0)) as [Hz Hshort]. fold (cstring b) in Hshort.
  pose proof (bytes_at_store m0 dir_at b (entry_bytes l fd)) as Hb. rewrite <- Hm in Hb.
  destruct (cstr_stored m0 dir_at b (entry_bytes l fd) Hz) as [Hc _]. rewrite <- Hm in Hc.
  pose proof (entry_full l fd E0) as Hlen. fold b in Hlen. pose proof vars_apart as Hap.
  set (m1 := store8 (memset (u_mem u) name_at 32 (width + 1)) (name_at + width) 0).
  assert (forall a, dir_at <= a < dir_at + 36 -> load8 m1 a = load8 (u_mem u) a) as Hsame.
  { intros a Ha. unfold m1. unfold width. rewrite load8_store8_ne by lia. apply memset_unchanged; lia. }
  assert (cstr m1 dir_at (cstring b)) as Hc1 by (eapply cstr_ext; [|exact Hc]; intros; apply Hsame; lia).
  assert (bytes_at m1 dir_at b) as Hb1 by (eapply bytes_at_ext; [|exact Hb]; intros; apply Hsame; lia).
  unfold ls_entry.
  rewrite (bind_ret_eq (modify _) _ _ tt (u <| u_mem := memset (u_mem u) name_at 32 (width + 1) |>)) by done.
  rewrite (bind_ret_eq (st_byte _ _) _ _ tt (u <| u_mem := m1 |>)) by done.
  rewrite (bind_ret_eq (ustring dir_at) _ _ (cstring b) (u <| u_mem := m1 |>))
    by (unfold ustring, bind, gets; cbn [u_mem id]; rewrite (cstr_str_at _ _ _ _ Hc1) by (unfold STR_MAX; lia); done).
  rewrite (bind_ret_eq (ld_int _) _ _ (inum_of b) (u <| u_mem := m1 |>)) by (unfold ld_int, gets; change (u_mem (u <| u_mem := m1 |>)) with m1; by rewrite (inum_loaded m1 b)).
  destruct (Z.ltb_spec (Z.of_nat (length (cstring b))) width) as [Hw|Hw].
  - destruct (padded_string (u_mem u) (cstring b)) as (m2 & E2 & Hp); [done|done|unfold STR_MAX; lia|lia|]. fold m1 in E2.
    rewrite (bind_ret_eq (gets id) _ _ (u <| u_mem := m1 |>) (u <| u_mem := m1 |>)) by done. cbn [u_mem]. 
    rewrite (bind_ret_eq (deref _) _ _ m2 (u <| u_mem := m1 |>)) by (change (u_mem (u <| u_mem := m1 |>)) with m1; by rewrite E2).
    rewrite (bind_ret_eq (modify _) _ _ tt (u <| u_mem := m2 |>)) by done.
    set (m3 := store8 m2 (name_at + Z.of_nat (length (cstring b))) 32) in *.
    rewrite (bind_ret_eq (st_byte _ _) _ _ tt (u <| u_mem := m3 |>)) by done.
    exists m3. rewrite (bind_ret_eq (ustring name_at) _ _ (padded (cstring b)) (u <| u_mem := m3 |>)); [done|].
    unfold ustring, bind, gets. cbn [u_mem id]. change (u_mem (u <| u_mem := m3 |>)) with m3.
    rewrite (cstr_str_at _ _ _ _ Hp); [done|]. unfold padded, width in *. rewrite (proj2 (Z.ltb_lt _ _) Hw), length_app, length_replicate.
    unfold STR_MAX. lia.
  - exists m1. unfold padded. rewrite (proj2 (Z.ltb_ge _ _) Hw). done.
Qed.

Lemma sim_entries fuel fd : sim (fun _ => True) (ls_loop fuel fd) (spec_entries fuel fd) (fun _ _ _ => True).
Proof.
  induction fuel as [|f IH]; cbn [ls_loop spec_entries]; [by intros u _|].
  apply sim_sys_bind; [intros l; pose proof (entry_room l fd); lia|]. intros m l _.
  destruct (Z.eqb_spec (fst (sys_reply l (u_readdir fd))) 0) as [E|E]; [|by apply sim_ret].
  apply (sim_run_l _ (fun _ => True) _ (print (line "%s %d") [UStr (padded (cstring (snd (sys_reply l (u_readdir fd))))); UInt (inum_of (snd (sys_reply l (u_readdir fd))))] ;;; ls_loop f fd)).
  - intros u Hu. destruct (ls_entry_run u m l fd E Hu) as [m' Em]. exists m'. split; [|done].
    unfold bind at 1. rewrite Em. done.
  - apply sim_print_bind. intros _. exact IH.
Qed.

Lemma sim_ls fuel argv path :
  (length path < STR_MAX)%nat ->
  sim (fun m => cstr m argv path) (ls_main fuel argv) (spec_ls fuel path) (fun _ _ _ => False).
Proof.
  intros Hp. unfold ls_main, spec_ls. eapply sim_string; [intros m H; exact H|done|].
  apply sim_sys0_bind. intros b. do 3 (apply sim_print_bind; intros _).
  eapply sim_bind; [eapply sim_mono; [| |apply sim_entries]; done|]. intros ? ?.
  apply sim_print_bind. intros _. apply sim_sys0_bind. intros _. unfold exit_with. apply sim_sys0_bind. intros _. by intros u _.
Qed.
End ls_ok.

(** A directory of [d] entries is read to its end. *)
Lemma spec_entries_end {SYS : System} d fuel fd l :
  (forall l fd, (d <= entries_read l)%nat -> fst (sys_reply l (u_readdir fd)) <> 0) ->
  (d < fuel + entries_read l)%nat -> (0 < fuel)%nat -> exists l', spec_entries fuel fd l = Ret tt l'.
Proof.
  intros Hd. revert l. induction fuel as [|f IH]; intros l Hf Hpos; [lia|]. cbn [spec_entries].
  rewrite (bind_ret_eq (ask _) _ l (sys_reply l (u_readdir fd)) (l ++ [u_readdir fd])) by done.
  destruct (Z.eqb_spec (fst (sys_reply l (u_readdir fd))) 0) as [E|E]; [|by eexists].
  assert (entries_read l < d)%nat.
  { destruct (decide (d <= entries_read l)%nat) as [Hle|]; [|lia]. by apply (Hd l fd) in Hle. }
  set (p := u_print _ _). rewrite (bind_ret_eq (ask p) _ _ (sys_reply (l ++ [u_readdir fd]) p) ((l ++ [u_readdir fd]) ++ [p])) by done.
  apply IH; [|lia]. unfold entries_read in *. rewrite !fold_left_app. cbn. lia.
Qed.

(** * Claims *)

(** C39.  The program ls lays each name out in a buffer of its stack; what it prints is the
    list of the entries of the directory in their order, each name filled up with spaces to
    20 characters (and whole when it is longer) with the inode number behind it, between
    a header and a footer.  It closes the directory and exits, for a directory of any
    number [d] of entries. *)
Theorem ls_refines {SYS : System} {FR : Frame} {EN : Entries} (d fuel : nat) (argv : Z) (path : list Z) (u : user) :
  cstr (u_mem u) argv path -> (length path < STR_MAX)%nat ->
  (forall l fd, (d <= entries_read l)%nat -> fst (sys_reply l (u_readdir fd)) <> 0) -> (d < fuel)%nat ->
  exists u' l, ls_main fuel argv u = Switch u' /\ spec_ls fuel path (u_log u) = Switch l /\ u_log u' = l.
Proof.
  intros Hp Hl Hd Hf. pose proof (sim_ls fuel argv path Hl u Hp) as Hs.
  assert (exists l, spec_ls fuel path (u_log u) = Switch l) as [l El].
  { unfold spec_ls. rewrite (bind_ret_eq (ask _) _ _ _ _ eq_refl). do 3 rewrite (bind_ret_eq (ask _) _ _ _ _ eq_refl).
    edestruct (spec_entries_end d fuel) as [l' El']; [exact Hd| |lia|rewrite (bind_ret_eq _ _ _ _ _ El')].
    - lia.
    - do 3 rewrite (bind_ret_eq (ask _) _ _ _ _ eq_refl). by eexists. }
  rewrite El in Hs. destruct (ls_main fuel argv u); try done. eauto.
Qed.

(** ** Witness *)

(** A directory with a short name and one that is wider than the column. *)
Definition entry_of (n : list Z) (i : Z) : list Z := n ++ replicate (32 - length n) 0 ++ [i; 0; 0; 0].
Definition long_name : list Z := text "a-name-of-21-letters!".
Definition two_entries : System := {|
  sys_reply l c :=
    match c with
    | u_readdir _ => match entries_read l with 0%nat => (0, entry_of (text "a") 5) | 1%nat => (0, entry_of long_name 7) | _ => (-1, []) end
    | u_opendir _ => (3, [])
    | _ => (0, [])
    end |}.
Definition ls_frame : Frame := {| buf_at := 0; str_var := 0; name_at := 1024; dir_at := 2048; path_at := 0; array_at := 0 |}.
Definition ls_user : user := {| u_mem := store_bytes ∅ 100 (text "/x" ++ [0]); u_log := [] |}.

Lemma two_entries_ok : @Entries two_entries ls_frame.
Proof.
  split; [intros l fd; cbn; destruct (entries_read l) as [|[|n]]; cbn; repeat (constructor; [lia|]); constructor| | | |].
  - intros l fd. cbn. destruct (entries_read l) as [|[|n]]; cbn; lia.
  - intros l fd. cbn. by destruct (entries_read l) as [|[|n]].
  - intros l fd. cbn. by destruct (entries_read l) as [|[|n]].
  - left. cbn. lia.
Qed.

Lemma ls_refines_witness :
  exists u', @ls_main two_entries ls_frame 3 100 ls_user = Switch u' /\
    u_log u' = [u_opendir (text "/x"); u_print (line "---------- ls command -----------") [];
      u_print (text "ls " ++ [34] ++ text "%s" ++ [34; 58; 10]) [UStr (text "/x")]; u_print (line "[name]               [inode_num]") [];
      u_readdir 3; u_print (line "%s %d") [UStr (text "a                   "); UInt 5];
      u_readdir 3; u_print (line "%s %d") [UStr long_name; UInt 7]; u_readdir 3;
      u_print (line "------------------------------") []; u_closedir 3; u_exit 0].
Proof.
  destruct (@ls_refines two_entries ls_frame two_entries_ok 2 3 100 (text "/x") ls_user) as (u' & l & E1 & E2 & E3).
  - vm_compute. split_and!; (reflexivity || discriminate).
  - cbn. unfold STR_MAX. lia.
  - intros l fd Hl. cbn. destruct (entries_read l) as [|[|n]]; [lia..|done].
  - lia.
  - exists u'. split; [exact E1|]. rewrite E3. vm_compute in E2. injection E2 as <-. vm_compute. reflexivity.
Defined.
