(* ===== verification/Shell.v ===== *)
(** user/sh.c: the shell.  A command line is cut into a word and the rest, a word that is not
    built in is run by a child; the shell that works on its pages implements the shell that
    works on strings. *)

From S2P Require Import Prelude Mem CString Fdt UserProg UserSim.

Definition MAXBUF : Z := 1024.

(** [strncmp(s, "lit", n)] for a literal of [n] characters. *)
Fixpoint strncmp_text (m : mem) (s : Z) (lit : list Z) : Z :=
  match lit with
  | [] => 0
  | c2 :: l =>
      let c1 := load8 m s in
      if (c1 =? 0) || negb (c1 =? c2) then c1 - c2 else strncmp_text m (s + 1) l
  end.

Section shell.
Context {SYS : System} {FR : Frame}.

(** [while (!stop(cmd[i])) dst[j] = cmd[i], i++, j++;] the final [i] and [j]. *)
Fixpoint copy_until (fuel : nat) (stop : Z -> bool) (cmd i dst j : Z) : M user (Z * Z) :=
  match fuel with
  | O => hang
  | S f =>
      c <- ld_byte (cmd + i) ;;
      if stop c then ret (i, j) else st_byte (dst + j) c ;;; copy_until f stop cmd (i + 1) dst (j + 1)
  end.

Definition line_end (c : Z) : bool := (c =? 0) || (c =? 10).
Definition word_end (c : Z) : bool := (c =? 32) || line_end c.

Definition get_args (cmd args exec_cmd : Z) : M user unit :=
  ij <- copy_until STR_MAX word_end cmd 0 exec_cmd 0 ;;
  let i := fst ij in
  st_byte (exec_cmd + i) 0 ;;;
  c <- ld_byte (cmd + i) ;;
  if line_end c then st_byte args 0
  else
    ij <- copy_until STR_MAX line_end cmd (i + 1) args 0 ;;
    st_byte (args + snd ij) 0.

(** [strncmp(s, "lit", n) == 0]. *)
Definition is_prefix (s : Z) (lit : string) : M user bool :=
  gets (fun u => strncmp_text (u_mem u) s (text lit) =? 0).

Fixpoint list_dir (fuel : nat) (dir_fd : Z) : M user unit :=
  match fuel with
  | O => hang
  | S f =>
      r <- sys (u_readdir dir_fd) dir_at 36 ;;
      if r =? 0 then name <- ustring dir_at ;; print (line "%s") [UStr name] ;;; list_dir f dir_fd else ret tt
  end.

(** [arg] is not [NULL]: it is a page of the shell. *)
Definition run_help_cmd (fuel : nat) (cmd arg : Z) : M user bool :=
  b <- is_prefix cmd "cd" ;;
  if b then path <- ustring arg ;; sys0 (u_change_cwd path) ;;; ret true
  else
    b <- is_prefix cmd "pwd" ;;
    if b then pwd ;;; ret true
    else
      b <- is_prefix cmd "ls" ;;
      if b then
        a <- ustring arg ;;
        dir_fd <- sys0 (u_opendir (if (Z.of_nat (length a) =? 0)%Z then text "." else a)) ;;
        list_dir fuel dir_fd ;;;
        sys0 (u_closedir dir_fd) ;;;
        ret true
      else ret false.

(** [exec] returns when it fails; the answer 0 stands for a program that is loaded, which
    does not come back. *)
Definition exec_call (path arg : list Z) : M user Z :=
  r <- sys0 (u_exec path arg) ;;
  if r =? 0 then fun u => Switch u else ret r.

(** The loop of [main], up to its [break]. *)
Fixpoint shell_loop (fuel : nat) (cmd arg exec_cmd : Z) : M user unit :=
  match fuel with
  | O => hang
  | S f =>
      print (text "shell> ") [] ;;;
      n <- sys (u_gets MAXBUF) cmd MAXBUF ;;
      if n =? 0 then print (line "EOF") []
      else
        get_args cmd arg exec_cmd ;;;
        b <- is_prefix cmd "exit" ;;
        if b then print (line "exit") []
        else
          modify (fun u => u <| u_mem := memset (u_mem u) cmd 0 MAXBUF |>) ;;;
          s <- ustring exec_cmd ;;
          print (line "%s") [UStr s] ;;;
          b <- run_help_cmd fuel exec_cmd arg ;;
          if b then shell_loop f cmd arg exec_cmd
          else
            s <- ustring exec_cmd ;;
            if (Z.of_nat (length s) =? 0)%Z then shell_loop f cmd arg exec_cmd
            else
              pid <- sys0 u_fork ;;
              (if pid =? 0 then
                 path <- ustring exec_cmd ;;
                 a <- ustring arg ;;
                 r <- exec_call path a ;;
                 if r =? -1 then print (line "exec failed!") [] else ret tt
               else sys0 (u_wait pid) ;;; ret tt) ;;;
              shell_loop f cmd arg exec_cmd
  end.

Definition sh_main (fuel : nat) : M user unit :=
  print ([10] ++ line "======== Shell Start ========" ++ [10]) [] ;;;
  cmd <- sys0 u_naive_malloc ;;
  arg <- sys0 u_naive_malloc ;;
  exec_cmd <- sys0 u_naive_malloc ;;
  shell_loop fuel cmd arg exec_cmd ;;;
  exit_with 0.

(** * The shell on strings *)

Definition first_line (b : list Z) : list Z := until line_end b.

(** The command is the text before the first space, its argument all that comes after it. *)
Definition word_of (l : list Z) : list Z := until (fun c => c =? 32) l.
Definition rest_of (l : list Z) : list Z := drop (S (length (word_of l))) l.

Definition starts (lit : string) (l : list Z) : bool := bool_decide (text lit `prefix_of` l).

Fixpoint spec_dir (fuel : nat) (fd : Z) : M (list ucall) unit :=
  match fuel with
  | O => hang
  | S f =>
      r <- ask (u_readdir fd) ;;
      if fst r =? 0 then ask (u_print (line "%s") [UStr (cstring (snd r))]) ;;; spec_dir f fd else ret tt
  end.

(** What a line does that is not run by a child: [true] when it is built in. *)
Definition spec_builtin (fuel : nat) (cmd arg : list Z) : M (list ucall) bool :=
  if starts "cd" cmd then ask (u_change_cwd arg) ;;; ret true
  else if starts "pwd" cmd then
    r <- ask u_read_cwd ;; ask (u_print (line "cwd:%s") [UStr (cstring (snd r))]) ;;; ret true
  else if starts "ls" cmd then
    r <- ask (u_opendir (if decide (arg = []) then text "." else arg)) ;;
    spec_dir fuel (fst r) ;;;
    ask (u_closedir (fst r)) ;;; ret true
  else ret false.

(** A child runs the command; the shell waits for it. *)
Definition spec_run (cmd arg : list Z) : M (list ucall) unit :=
  if decide (cmd = []) then ret tt
  else
    pid <- ask u_fork ;;
    if fst pid =? 0 then
      r <- ask (u_exec cmd arg) ;;
      if fst r =? 0 then fun l => Switch l
      else if fst r =? -1 then ask (u_print (line "exec failed!") []) ;;; ret tt else ret tt
    else ask (u_wait (fst pid)) ;;; ret tt.

Fixpoint spec_loop (fuel : nat) : M (list ucall) unit :=
  match fuel with
  | O => hang
  | S f =>
      ask (u_print (text "shell> ") []) ;;;
      r <- ask (u_gets MAXBUF) ;;
      if fst r =? 0 then ask (u_print (line "EOF") []) ;;; ret tt
      else
        let l := first_line (snd r) in
        if starts "exit" l then ask (u_print (line "exit") []) ;;; ret tt
        else
          ask (u_print (line "%s") [UStr (word_of l)]) ;;;
          b <- spec_builtin fuel (word_of l) (rest_of l) ;;
          (if b then ret tt else spec_run (word_of l) (rest_of l)) ;;;
          spec_loop f
  end.
End shell.

(** A command line: its bytes, up to a NUL or a newline. *)
Record line_at (m : mem) (p : Z) (l : list Z) : Prop := {
  la_bytes : bytes_at m p l;
  la_end : line_end (load8 m (p + Z.of_nat (length l))) = true;
  la_plain : Forall (fun c => line_end c = false) l;
  la_len : Z.of_nat (length l) < MAXBUF }.

Lemma line_at_stored m p b :
  Forall (fun c => 0 <= c < 256) b -> existsb line_end b = true -> Z.of_nat (length b) <= MAXBUF ->
  line_at (store_bytes m p b) p (first_line b).
Proof.
  intros Hb He Hlen. destruct (until_split _ b He) as (t & r & E & Ht & HF). fold (first_line b) in *.
  pose proof (bytes_at_store m p b Hb) as H. rewrite E in H at 2.
  apply bytes_at_app in H as [H1 H2]. apply bytes_at_cons in H2 as [H2 _].
  split; [done|by rewrite H2|done|]. rewrite E, length_app in Hlen. cbn in Hlen. lia.
Qed.

Lemma line_at_ext m m' p l :
  (forall a, p <= a < p + MAXBUF -> load8 m' a = load8 m a) -> line_at m p l -> line_at m' p l.
Proof.
  intros H [Hb He Hp Hl]. split; [|rewrite H by lia; done|done..].
  eapply bytes_at_ext; [|done]. intros. apply H. lia.
Qed.

(** A string is a line that ends in a NUL. *)
Lemma strncmp_text_spec m s lit l :
  bytes_at m s l -> line_end (load8 m (s + Z.of_nat (length l))) = true ->
  Forall (fun c => line_end c = false) l -> Forall (fun c => line_end c = false) lit ->
  (strncmp_text m s lit =? 0) = bool_decide (lit `prefix_of` l).
Proof.
  revert s l. induction lit as [|c2 lit IH]; intros s l Hb He Hl Hlit; cbn [strncmp_text].
  - symmetry. apply bool_decide_eq_true. apply prefix_nil.
  - apply Forall_cons in Hlit as [Hc2 Hlit]. unfold line_end in Hc2. bools.
    destruct l as [|c1 l]; cbn [length] in He.
    + rewrite Z.add_0_r in He. rewrite bool_decide_false by apply prefix_nil_not.
      apply Z.eqb_neq. unfold line_end in He. apply orb_true_iff in He. rewrite !Z.eqb_eq in He.
      destruct He as [-> | ->]; [cbn; lia|]. destruct (Z.eqb_spec 10 c2) as [<-|]; [done|]. cbn. lia.
    + apply bytes_at_cons in Hb as [-> Hb]. apply Forall_cons in Hl as [Hc1 Hl]. unfold line_end in Hc1. bools.
      destruct (Z.eqb_spec c1 0); [done|]. cbn [orb]. destruct (Z.eqb_spec c1 c2) as [->|Hne]; cbn [negb].
      * rewrite (IH (s + 1) l); [|done| |done..].
        -- apply bool_decide_ext. split; [apply prefix_cons|apply prefix_cons_inv_2].
        -- rewrite <- He. do 2 f_equal. lia.
      * rewrite bool_decide_false; [apply Z.eqb_neq; lia|]. intros Hp. by apply prefix_cons_inv_1 in Hp.
Qed.

(** The comparison is the library's [strncmp], where the literal lies in memory. *)
Lemma strncmp_text_lit m s p lit :
  cstr m p lit -> strncmp_text m s lit = strncmp (length lit) m s p.
Proof.
  revert s p. induction lit as [|c lit IH]; intros s p; cbn [cstr length strncmp_text strncmp]; [done|].
  intros (-> & _ & H). by rewrite <- IH.
Qed.

(** * The words of a line *)

Section refinement.
Context {SYS : System}.


Lemma copy_until_spec fuel stop cmd i dst j a u :
  bytes_at (u_mem u) (cmd + i) a -> Forall (fun c => stop c = false) a ->
  stop (load8 (u_mem u) (cmd + i + Z.of_nat (length a))) = true -> (length a < fuel)%nat ->
  cmd + i + Z.of_nat (length a) < dst + j \/ dst + j + Z.of_nat (length a) <= cmd + i ->
  exists m', copy_until fuel stop cmd i dst j u =
    Ret (i + Z.of_nat (length a), j + Z.of_nat (length a)) (u <| u_mem := m' |>) /\
    unchanged_outside (dst + j) (dst + j + Z.of_nat (length a)) (u_mem u) m' /\ bytes_at m' (dst + j) a.
Proof.
  revert fuel i j u. induction a as [|c a IH]; intros fuel i j u Hb Hst He Hf Hd;
    (destruct fuel as [|f]; [cbn in Hf; lia|]); cbn [copy_until length] in *; unfold ld_byte, gets, bind, ret.
  - rewrite Z.add_0_r in He. rewrite He, !Z.add_0_r. exists (u_mem u). destruct u. split; [done|].
    split; [by intros x _|]. intros k c Hk. by rewrite lookup_nil in Hk.
  - apply bytes_at_cons in Hb as [Ec Hb]. rewrite Ec. apply Forall_cons in Hst as [-> Hst].
    pose proof (load8_range (u_mem u) (cmd + i)) as Hc. rewrite Ec in Hc. unfold st_byte, modify.
    destruct (IH f (i + 1) (j + 1) (u <| u_mem := store8 (u_mem u) (dst + j) c |>)) as (m' & E & Hun & Hb');
      [|done| |lia|lia|].
    + rewrite Z.add_assoc. eapply bytes_at_ext; [|done]. intros. apply load8_store8_ne. lia.
    + rewrite <- He. f_equal. cbn [u_mem]. replace (cmd + (i + 1) + Z.of_nat (length a)) with (cmd + i + Z.of_nat (S (length a))) by lia.
      apply load8_store8_ne. lia.
    + exists m'. rewrite E. split_and!.
      * f_equal. f_equal; lia.
      * intros x Hx. rewrite Hun by lia. apply load8_store8_ne. lia.
      * apply bytes_at_cons. rewrite Z.add_assoc in Hb'. split; [|done].
        rewrite Hun by lia. etrans; [apply load8_store8_eq|]. by apply Z.mod_small.
Qed.

(** The word, and what comes after the space when there is one. *)
Lemma word_rest l :
  Forall (fun c => line_end c = false) l ->
  Forall (fun c => word_end c = false) (word_of l) /\
  (l = word_of l /\ rest_of l = [] \/ l = word_of l ++ 32 :: rest_of l).
Proof.
  intros Hl. unfold rest_of, word_of. destruct (existsb (fun c => c =? 32) l) eqn:E.
  - destruct (until_split _ l E) as (t & r & El & Ht & HF). apply Z.eqb_eq in Ht as ->.
    set (w := until (fun c => c =? 32) l) in *. rewrite El, Forall_app in Hl. split.
    + apply Forall_forall. intros c Hc. unfold word_end. apply orb_false_iff.
      split; [by apply (proj1 (Forall_forall _ _) HF)|by apply (proj1 (Forall_forall _ _) (proj1 Hl))].
    + right. rewrite El at 2. f_equal. rewrite El, drop_app_ge by lia.
      by replace (S (length w) - length w)%nat with 1%nat by lia.
  - apply until_split_end in E as [-> HF]. split.
    + apply Forall_forall. intros c Hc. unfold word_end. apply orb_false_iff.
      split; [by apply (proj1 (Forall_forall _ _) HF)|by apply (proj1 (Forall_forall _ _) Hl)].
    + left. split; [done|]. apply drop_ge. lia.
Qed.

Definition bufs_apart (p q : Z) : Prop := p + MAXBUF <= q \/ q + MAXBUF <= p.

Record parsed (cmd arg exec_cmd : Z) (l : list Z) (m : mem) : Prop := {
  ps_line : line_at m cmd l;
  ps_word : cstr m exec_cmd (word_of l);
  ps_rest : cstr m arg (rest_of l) }.

(** A copied word, closed by a NUL, is a string; the line is still there. *)
Lemma copy_word_string fuel stop cmd i dst l a u :
  line_at (u_mem u) cmd l -> bufs_apart cmd dst -> 0 <= i -> i + Z.of_nat (length a) <= Z.of_nat (length l) ->
  bytes_at (u_mem u) (cmd + i) a -> Forall (fun c => stop c = false) a -> Forall (fun c => c <> 0) a ->
  stop (load8 (u_mem u) (cmd + i + Z.of_nat (length a))) = true -> (length a < fuel)%nat ->
  exists m', copy_until fuel stop cmd i dst 0 u = Ret (i + Z.of_nat (length a), Z.of_nat (length a)) (u <| u_mem := m' |>) /\
    let m2 := store8 m' (dst + Z.of_nat (length a)) 0 in
    cstr m2 dst a /\ line_at m2 cmd l /\ unchanged_outside dst (dst + MAXBUF) (u_mem u) m2.
Proof.
  intros Hl Hap Hi Hle Hb Hst Hz He Hf. pose proof (la_len _ _ _ Hl) as Hlen. unfold bufs_apart in Hap.
  destruct (copy_until_spec fuel stop cmd i dst 0 a u) as (m' & E & Hun & Hb'); [done..|lia|].
  rewrite Z.add_0_r in *. exists m'. split; [done|]. cbn zeta.
  assert (unchanged_outside dst (dst + MAXBUF) (u_mem u) (store8 m' (dst + Z.of_nat (length a)) 0)) as Hout.
  { intros x Hx. rewrite load8_store8_ne by lia. apply Hun. lia. }
  split_and!; [|eapply line_at_ext; [|done]; intros; apply Hout; lia|done].
  apply cstr_bytes; [|done|by rewrite load8_store8_eq].
  eapply bytes_at_ext; [|done]. intros. apply load8_store8_ne. lia.
Qed.

Lemma line_end_nz l : Forall (fun c => line_end c = false) l -> Forall (fun c => c <> 0) l.
Proof. intros H. eapply Forall_impl; [exact H|]. unfold line_end. intros c Hc. by bools. Qed.

Lemma line_parts m cmd l :
  line_at m cmd l -> let w := word_of l in let n := Z.of_nat (length w) in
  Forall (fun c => word_end c = false) w /\ Forall (fun c => line_end c = false) (rest_of l) /\ bytes_at m cmd w /\
  (line_end (load8 m (cmd + n)) = true /\ rest_of l = [] /\ n = Z.of_nat (length l) \/
   load8 m (cmd + n) = 32 /\ bytes_at m (cmd + (n + 1)) (rest_of l) /\ n + 1 + Z.of_nat (length (rest_of l)) = Z.of_nat (length l)).
Proof.
  intros [Hb He Hp Hl]. cbn zeta. destruct (word_rest l Hp) as [Hw [[El Er]|El]].
  - rewrite Er. rewrite <- El. split_and!; [by rewrite El|done..|]. left. done.
  - pose proof Hp as Hp'. rewrite El in Hb, Hp'. apply bytes_at_app in Hb as [Hb1 Hb2]. apply bytes_at_cons in Hb2 as [Hb2 Hb3].
    apply Forall_app in Hp' as [_ Hp']. apply Forall_cons in Hp' as [_ Hp']. split_and!; [done..|]. right.
    pose proof (f_equal (@length Z) El) as Elen. rewrite length_app in Elen. cbn [length] in Elen.
    split_and!; [done|by rewrite Z.add_assoc|lia].
Qed.

Lemma get_args_spec cmd arg exec_cmd l u :
  line_at (u_mem u) cmd l -> bufs_apart cmd arg -> bufs_apart cmd exec_cmd -> bufs_apart exec_cmd arg ->
  exists m', get_args cmd arg exec_cmd u = Ret tt (u <| u_mem := m' |>) /\ parsed cmd arg exec_cmd l m'.
Proof.
  intros Hl Hca Hce Hea. pose proof (la_len _ _ _ Hl) as Hlen. unfold MAXBUF in Hlen.
  destruct (line_parts _ _ _ Hl) as (Hw & Hr & Hbw & Hcase). cbn zeta in Hcase.
  assert (Forall (fun c => line_end c = false) (word_of l)) as Hw0.
  { eapply Forall_impl; [exact Hw|]. unfold word_end. intros c Hc. by bools. }
  destruct (copy_word_string STR_MAX word_end cmd 0 exec_cmd l (word_of l) u) as (m1 & E1 & Hs1 & Hl1 & Hun1);
    [done|done|lia|lia|by rewrite Z.add_0_r|done|by apply line_end_nz| |unfold STR_MAX; lia|].
  { rewrite Z.add_0_r. unfold word_end. destruct Hcase as [(-> & _)|(-> & _)]; [apply orb_true_r|done]. }
  unfold get_args. rewrite (bind_ret_eq _ _ _ _ _ E1). cbn [fst]. rewrite Z.add_0_l.
  set (n := Z.of_nat (length (word_of l))) in *. set (m2 := store8 m1 (exec_cmd + n) 0) in *.
  rewrite (bind_ret_eq (st_byte _ _) _ _ tt (u <| u_mem := m2 |>)) by done.
  rewrite (bind_ret_eq (ld_byte _) _ _ (load8 m2 (cmd + n)) (u <| u_mem := m2 |>)) by done.
  destruct (line_parts _ _ _ Hl1) as (_ & _ & _ & Hcase1). cbn zeta in Hcase1. fold n in Hcase1.
  assert (forall m3, unchanged_outside arg (arg + MAXBUF) m2 m3 -> line_at m3 cmd l -> cstr m3 arg (rest_of l) ->
    parsed cmd arg exec_cmd l m3) as Hdone.
  { intros m3 Hun Hl3 Hc. split; [done| |done]. eapply cstr_ext; [|exact Hs1]. intros x Hx. apply Hun.
    unfold bufs_apart, MAXBUF in *. lia. }
  destruct Hcase1 as [(-> & Er & _)|(-> & Hb & Elen)].
  - exists (store8 m2 arg 0). split; [done|].
    assert (unchanged_outside arg (arg + MAXBUF) m2 (store8 m2 arg 0)) as Hun.
    { intros x Hx. apply load8_store8_ne. unfold MAXBUF in Hx. lia. }
    apply Hdone; [done| |rewrite Er; apply load8_store8_eq].
    eapply line_at_ext; [|exact Hl1]. intros x Hx. apply Hun. unfold bufs_apart in *. lia.
  - change (line_end 32) with false. cbn iota.
    destruct (copy_word_string STR_MAX line_end cmd (n + 1) arg l (rest_of l) (u <| u_mem := m2 |>)) as (m3 & E3 & Hs3 & Hl3 & Hun3);
      [done|done|lia|lia|done|done|by apply line_end_nz| |unfold STR_MAX; lia|].
    { replace (cmd + (n + 1) + Z.of_nat (length (rest_of l))) with (cmd + Z.of_nat (length l)) by lia. apply Hl1. }
    rewrite (bind_ret_eq _ _ _ _ _ E3). cbn [snd]. eexists. split; [done|]. by apply Hdone.
Qed.

Lemma sim_prefix {A B} (P : mem -> Prop) s lit l (k : bool -> M user A) (t : M (list ucall) B) Q :
  (forall m, P m -> bytes_at m s l /\ line_end (load8 m (s + Z.of_nat (length l))) = true /\ Forall (fun c => line_end c = false) l) ->
  Forall (fun c => line_end c = false) (text lit) ->
  sim P (k (starts lit l)) t Q -> sim P (bind (is_prefix s lit) k) t Q.
Proof.
  intros Hl Hlit. apply sim_local. intros u Hu. exists (u_mem u). split; [|done].
  destruct (Hl _ Hu) as (Hb & He & Hp). unfold is_prefix, gets, starts.
  rewrite (strncmp_text_spec _ _ _ _ Hb He Hp Hlit). by destruct u.
Qed.

End refinement.

(** * What the shell relies on *)

(** The answers that are stored fit their variables and are bytes; a line that is read holds
    its end, a path and a name their NUL; two pages that are allocated differ. *)
Class Replies {SYS : System} : Prop := {
  reply_bytes l c : Forall (fun b => 0 <= b < 256) (snd (sys_reply l c));
  gets_room l : Z.of_nat (length (snd (sys_reply l (u_gets MAXBUF)))) <= MAXBUF;
  gets_line l : fst (sys_reply l (u_gets MAXBUF)) <> 0 -> existsb line_end (snd (sys_reply l (u_gets MAXBUF))) = true;
  cwd_room l : Z.of_nat (length (snd (sys_reply l u_read_cwd))) <= 30;
  cwd_string l : existsb (fun c => c =? 0) (snd (sys_reply l u_read_cwd)) = true;
  dir_room l fd : Z.of_nat (length (snd (sys_reply l (u_readdir fd)))) <= 36;
  dir_string l fd : fst (sys_reply l (u_readdir fd)) = 0 -> existsb (fun c => c =? 0) (snd (sys_reply l (u_readdir fd))) = true;
  pages_apart l l' : Forall (fun c => forall va, c <> u_naive_free va) l' ->
    let p := fst (sys_reply l u_naive_malloc) in let q := fst (sys_reply (l ++ u_naive_malloc :: l') u_naive_malloc) in
    p + PGSIZE <= q \/ q + PGSIZE <= p }.

Section shell_ok.
Context {SYS : System} {FR : Frame} {RP : Replies}.

Lemma sim_dir fuel fd : sim (fun _ => True) (list_dir fuel fd) (spec_dir fuel fd) (fun _ _ _ => True).
Proof.
  induction fuel as [|f IH]; cbn [list_dir spec_dir]; [by intros u _|].
  apply sim_sys_bind; [intros; apply dir_room|]. intros m l _.
  destruct (Z.eqb_spec (fst (sys_reply l (u_readdir fd))) 0) as [E|E]; [|by apply sim_ret].
  destruct (cstr_stored m dir_at _ (reply_bytes l _) (dir_string l fd E)) as [Hs Hlen]. pose proof (dir_room l fd).
  eapply sim_string; [intros m' ->; exact Hs|unfold STR_MAX; lia|].
  apply sim_print_bind. intros _. by eapply sim_mono; [| |exact IH].
Qed.

Lemma sim_pwd : sim (fun _ => True) pwd (r <- ask u_read_cwd ;; ask (u_print (line "cwd:%s") [UStr (cstring (snd r))]) ;;; ret tt) (fun _ _ _ => True).
Proof.
  apply sim_sys_bind; [intros; apply cwd_room|]. intros m l _.
  destruct (cstr_stored m path_at _ (reply_bytes l _) (cwd_string l)) as [Hs Hlen]. pose proof (cwd_room l).
  eapply sim_string; [intros m' ->; exact Hs|unfold STR_MAX; lia|].
  apply (sim_mono (fun _ => True) _ _ _ (fun _ _ _ => True)); [done..|]. by apply sim_print.
Qed.

(** The two strings of a command. *)
Definition command (exec_cmd arg : Z) (w r : list Z) (m : mem) : Prop := cstr m exec_cmd w /\ cstr m arg r.

Lemma sim_builtin fuel exec_cmd arg w r :
  Forall (fun c => line_end c = false) w -> (length w < STR_MAX)%nat -> (length r < STR_MAX)%nat ->
  sim (command exec_cmd arg w r) (run_help_cmd fuel exec_cmd arg) (spec_builtin fuel w r)
    (fun a b m => a = b /\ (b = false -> command exec_cmd arg w r m)).
Proof.
  intros Hw Hlw Hlr.
  assert (forall m, command exec_cmd arg w r m -> bytes_at m exec_cmd w /\
    line_end (load8 m (exec_cmd + Z.of_nat (length w))) = true /\ Forall (fun c => line_end c = false) w) as HP.
  { intros m [Hc _]. apply cstr_line in Hc as [? ->]. done. }
  unfold run_help_cmd, spec_builtin.
  apply (sim_prefix _ _ _ w); [done|by repeat constructor|]. destruct (starts "cd" w).
  { eapply sim_string; [by intros m [_ H]; exact H|done|]. apply sim_sys0_bind. intros b. by apply sim_ret. }
  apply (sim_prefix _ _ _ w); [done|by repeat constructor|]. destruct (starts "pwd" w).
  { eapply sim_ext; [|eapply sim_bind; [eapply sim_mono; [| |exact sim_pwd]; done|]; intros; by apply sim_ret].
    intros l. unfold bind. by destruct (ask u_read_cwd l). }
  apply (sim_prefix _ _ _ w); [done|by repeat constructor|]. destruct (starts "ls" w).
  - eapply sim_string; [by intros m [_ H]; exact H|done|].
    replace (if (Z.of_nat (length r) =? 0)%Z then text "." else r) with (if decide (r = []) then text "." else r)
      by (destruct r; done).
    apply sim_sys0_bind. intros b. eapply sim_bind; [eapply sim_mono; [| |apply sim_dir]; done|].
    intros ? ?. apply sim_sys0_bind. intros ?. by apply sim_ret.
  - apply sim_ret. auto.
Qed.

Lemma length_word l : (length (word_of l) <= length l)%nat /\ (length (rest_of l) <= length l)%nat.
Proof.
  unfold rest_of, word_of. split; [|rewrite length_drop; lia].
  destruct (existsb (fun c => c =? 32) l) eqn:E.
  - destruct (until_split _ l E) as (t & r & El & _ & _). rewrite El at 2. rewrite length_app. lia.
  - by destruct (until_split_end _ l E) as [-> _].
Qed.

(** The child, and the shell that waits for it. *)
Lemma sim_run exec_cmd arg w r (k : unit -> M user unit) (k' : unit -> M (list ucall) unit) :
  (length w < STR_MAX)%nat -> (length r < STR_MAX)%nat -> w <> [] ->
  sim (fun _ => True) (k tt) (k' tt) (fun _ _ _ => True) ->
  sim (command exec_cmd arg w r)
    (pid <- sys0 u_fork ;;
     (if pid =? 0 then
        path <- ustring exec_cmd ;;
        a <- ustring arg ;;
        r <- exec_call path a ;;
        if r =? -1 then print (line "exec failed!") [] else ret tt
      else sys0 (u_wait pid) ;;; ret tt) ;;;
     k tt) (spec_run w r ;;; k' tt) (fun _ _ _ => True).
Proof.
  intros Hw Hr Hne Hk. unfold spec_run. destruct (decide (w = [])) as [|_]; [done|].
  eapply sim_ext; [intros l; apply bind_assoc|]. apply sim_sys0_bind. intros b.
  apply (sim_bind _ _ _ (fun _ _ _ => True)); [|intros [] []; exact Hk].
  destruct (fst b =? 0).
  - eapply sim_string; [by intros m [H _]; exact H|done|].
    eapply sim_string; [by intros m [_ H]; exact H|done|].
    unfold exec_call. eapply sim_ext_l; [intros u; apply bind_assoc|]. apply sim_sys0_bind. intros e.
    destruct (fst e =? 0); [by intros u _|].
    apply (sim_local _ _ _ _ (fst e) (fun _ => True)); [intros u _; exists (u_mem u); by destruct u|].
    destruct (fst e =? -1); [|by apply sim_ret].
    apply (sim_mono (fun _ => True) _ _ _ (fun _ _ _ => True)); [done..|]. by apply sim_print.
  - apply sim_sys0_bind. intros _. by apply sim_ret.
Qed.

Lemma sim_loop fuel cmd arg exec_cmd :
  bufs_apart cmd arg -> bufs_apart cmd exec_cmd -> bufs_apart exec_cmd arg ->
  sim (fun _ => True) (shell_loop fuel cmd arg exec_cmd) (spec_loop fuel) (fun _ _ _ => True).
Proof.
  intros Hca Hce Hea. induction fuel as [|f IH]; cbn [shell_loop spec_loop]; [by intros u _|].
  apply sim_print_bind. intros _. apply sim_sys_bind; [apply gets_room|]. intros m l _.
  destruct (Z.eqb_spec (fst (sys_reply l (u_gets MAXBUF))) 0) as [E|E].
  { apply (sim_mono (fun _ => True) _ _ _ (fun _ _ _ => True)); [done..|]. by apply sim_print. }
  cbn zeta. set (b := snd (sys_reply l (u_gets MAXBUF))). set (L := first_line b).
  assert (line_at (store_bytes m cmd b) cmd L) as HL.
  { apply line_at_stored; [apply reply_bytes|by apply gets_line|apply gets_room]. }
  pose proof (la_plain _ _ _ HL) as Hp. pose proof (la_len _ _ _ HL) as Hlen. unfold MAXBUF in Hlen.
  destruct (length_word L) as [Hlw Hlr].
  apply (sim_local _ _ _ _ tt (parsed cmd arg exec_cmd L)).
  { intros u Hu. apply get_args_spec; [by rewrite Hu|done..]. }
  apply (sim_prefix _ _ _ L); [by intros m' [[? ? _ _] _ _]|by repeat constructor|]. destruct (starts "exit" L).
  { apply (sim_mono (fun _ => True) _ _ _ (fun _ _ _ => True)); [done..|]. by apply sim_print. }
  apply (sim_local _ _ _ _ tt (command exec_cmd arg (word_of L) (rest_of L))).
  { intros u [_ Hw Hr]. eexists. split; [done|].
    split; (eapply cstr_ext; [|eassumption]); intros a Ha; apply memset_unchanged;
      unfold bufs_apart, MAXBUF in *; lia. }
  eapply sim_string; [by intros m' [H _]; exact H|unfold STR_MAX; lia|].
  apply sim_print_bind. intros _.
  eapply sim_bind; [apply sim_builtin; [|unfold STR_MAX; lia..]|].
  { destruct (word_rest L Hp) as [Hw _]. eapply Forall_impl; [exact Hw|]. unfold word_end. intros c Hc. by bools. }
  intros a c. apply sim_pre. intros m' [-> HP]. destruct c; [by eapply sim_mono; [| |exact IH]|].
  specialize (HP eq_refl). apply (sim_mono (command exec_cmd arg (word_of L) (rest_of L)) _ _ _ (fun _ _ _ => True)); [by intros ? ->|done|].
  eapply sim_string; [by intros m'' [H _]; exact H|unfold STR_MAX; lia|].
  destruct (Z.eqb_spec (Z.of_nat (length (word_of L))) 0) as [Ew|Ew].
  - destruct (word_of L) as [|x y] eqn:Ew'; [|cbn in Ew; lia]. by eapply sim_mono; [| |exact IH].
  - apply (sim_run _ _ _ _ (fun _ => shell_loop f cmd arg exec_cmd) (fun _ => spec_loop f));
      [unfold STR_MAX; lia..|by intros Hn; rewrite Hn in Ew|done].
Qed.

Definition spec_main (fuel : nat) : M (list ucall) unit :=
  ask (u_print ([10] ++ line "======== Shell Start ========" ++ [10]) []) ;;;
  ask u_naive_malloc ;;;
  ask u_naive_malloc ;;;
  ask u_naive_malloc ;;;
  spec_loop fuel ;;;
  ask (u_exit 0) ;;;
  fun l => Switch l.

Lemma apart_pages p q : p + PGSIZE <= q \/ q + PGSIZE <= p -> bufs_apart p q.
Proof. unfold bufs_apart, MAXBUF, PGSIZE. lia. Qed.

Lemma sim_main fuel : sim (fun _ => True) (sh_main fuel) (spec_main fuel) (fun _ _ _ => False).
Proof.
  unfold sh_main, spec_main. apply sim_print_bind. intros _ u _.
  set (L := u_log u). set (x := u_naive_malloc).
  rewrite (bind_ret_eq (sys0 x) _ _ (fst (sys_reply L x)) (u <| u_log := L ++ [x] |>)) by done.
  rewrite (bind_ret_eq (sys0 x) _ _ (fst (sys_reply (L ++ [x]) x)) (u <| u_log := (L ++ [x]) ++ [x] |>)) by done.
  rewrite (bind_ret_eq (sys0 x) _ _ (fst (sys_reply ((L ++ [x]) ++ [x]) x)) (u <| u_log := ((L ++ [x]) ++ [x]) ++ [x] |>)) by done.
  rewrite (bind_ret_eq (ask x) _ L (sys_reply L x) (L ++ [x])) by done.
  rewrite (bind_ret_eq (ask x) _ (L ++ [x]) (sys_reply (L ++ [x]) x) ((L ++ [x]) ++ [x])) by done.
  rewrite (bind_ret_eq (ask x) _ ((L ++ [x]) ++ [x]) (sys_reply ((L ++ [x]) ++ [x]) x) (((L ++ [x]) ++ [x]) ++ [x])) by done.
  refine (sim_bind (fun _ => True) _ _ _ _ _ (fun _ _ _ => False) (sim_loop fuel _ _ _ _ _ _) _ (u <| u_log := ((L ++ [x]) ++ [x]) ++ [x] |>) I).
  - apply apart_pages. by apply (pages_apart L []).
  - apply apart_pages. rewrite <- app_assoc. by apply (pages_apart L [x]); repeat constructor.
  - apply apart_pages. destruct (pages_apart (L ++ [x]) []); [done|right|left]; done.
  - intros _ _. unfold exit_with. apply sim_sys0_bind. intros _. by intros v _.
Qed.

(** ** The shell ends with its input *)

(** The lines read. *)
Definition lines_read (l : list ucall) : nat :=
  fold_left (fun n c => match c with u_gets _ => S n | _ => n end) l O.

(** [spec_ends s n]: the specification ends, after at least [n] lines in all. *)
Definition spec_ends {A} (s : M (list ucall) A) (n : nat) (l : list ucall) : Prop :=
  match s l with
  | Ret _ l' => (n <= lines_read l')%nat
  | Switch _ => True
  | _ => False
  end.

Lemma spec_ends_bind {A B} (s : M (list ucall) A) (k : A -> M (list ucall) B) n n' l :
  spec_ends s n l -> (forall a l', (n <= lines_read l')%nat -> spec_ends (k a) n' l') -> spec_ends (bind s k) n' l.
Proof. unfold spec_ends, bind. intros H Hk. destruct (s l); try done. by apply Hk. Qed.

Lemma lines_read_snoc l c : (lines_read l <= lines_read (l ++ [c]))%nat.
Proof. unfold lines_read. rewrite fold_left_app. cbn. destruct c; lia. Qed.

Lemma spec_ends_call c n l : (n <= lines_read l)%nat -> spec_ends (ask c) n l.
Proof. intros H. unfold spec_ends, ask. pose proof (lines_read_snoc l c). lia. Qed.

Lemma spec_ends_step {A} c (f : Z * list Z -> M (list ucall) A) n l :
  spec_ends (f (sys_reply l c)) n (l ++ [c]) -> spec_ends (bind (ask c) f) n l.
Proof. done. Qed.

Lemma spec_ends_mono {A} (s : M (list ucall) A) n n' l : (n' <= n)%nat -> spec_ends s n l -> spec_ends s n' l.
Proof. unfold spec_ends. intros Hn H. destruct (s l); [lia|done..]. Qed.

Lemma spec_ends_ret {A} (a : A) n l : (n <= lines_read l)%nat -> spec_ends (ret a) n l.
Proof. done. Qed.

Context (k d : nat).
Hypothesis input_ends : forall l, (k <= lines_read l)%nat -> fst (sys_reply l (u_gets MAXBUF)) = 0.
Hypothesis dir_ends : forall l fd, (d <= entries_read l)%nat -> fst (sys_reply l (u_readdir fd)) <> 0.

Lemma spec_dir_ends fuel fd n l :
  (n <= lines_read l)%nat -> (d < fuel + entries_read l)%nat -> (0 < fuel)%nat -> spec_ends (spec_dir fuel fd) n l.
Proof.
  revert l. induction fuel as [|f IH]; intros l Hn Hd Hf; [lia|]. cbn [spec_dir].
  apply spec_ends_step.
  assert (entries_read (l ++ [u_readdir fd]) = S (entries_read l)) as Er by (unfold entries_read; by rewrite fold_left_app).
  pose proof (lines_read_snoc l (u_readdir fd)).
  destruct (Z.eqb_spec (fst (sys_reply l (u_readdir fd))) 0) as [E|E]; [|cbn; lia].
  apply spec_ends_step.
  set (p := u_print _ _). pose proof (lines_read_snoc (l ++ [u_readdir fd]) p).
  assert (entries_read ((l ++ [u_readdir fd]) ++ [p]) = S (entries_read l)) as Er'
    by (unfold entries_read in *; by rewrite fold_left_app).
  assert (entries_read l < d)%nat.
  { destruct (decide (d <= entries_read l)%nat) as [Hle|]; [|lia]. by apply (dir_ends l fd) in Hle. }
  apply IH; lia.
Qed.

Lemma spec_builtin_ends fuel w r n l :
  (n <= lines_read l)%nat -> (d < fuel)%nat -> spec_ends (spec_builtin fuel w r) n l.
Proof.
  intros Hn Hf. unfold spec_builtin.
  destruct (starts "cd" w); [|destruct (starts "pwd" w); [|destruct (starts "ls" w)]].
  - eapply spec_ends_bind; [by apply spec_ends_call|]. auto using spec_ends_ret.
  - do 2 (eapply spec_ends_bind; [by apply spec_ends_call|]; intros). by apply spec_ends_ret.
  - eapply spec_ends_bind; [by apply spec_ends_call|]. intros a l1 H1.
    eapply spec_ends_bind; [apply spec_dir_ends; [exact H1|lia..]|]. intros _ l2 H2.
    eapply spec_ends_bind; [by apply spec_ends_call|]. auto using spec_ends_ret.
  - by apply spec_ends_ret.
Qed.

Lemma spec_run_ends w r n l : (n <= lines_read l)%nat -> spec_ends (spec_run w r) n l.
Proof.
  intros Hn. unfold spec_run. destruct (decide (w = [])); [by apply spec_ends_ret|].
  eapply spec_ends_bind; [by apply spec_ends_call|]. intros a l1 H1. destruct (fst a =? 0).
  - eapply spec_ends_bind; [by apply spec_ends_call|]. intros b l2 H2.
    destruct (fst b =? 0); [done|]. destruct (fst b =? -1); [|by apply spec_ends_ret].
    eapply spec_ends_bind; [by apply spec_ends_call|]. auto using spec_ends_ret.
  - eapply spec_ends_bind; [by apply spec_ends_call|]. auto using spec_ends_ret.
Qed.

Lemma spec_loop_ends fuel n l :
  (n <= lines_read l)%nat -> (k + d < fuel + n)%nat -> (d < fuel)%nat -> spec_ends (spec_loop fuel) n l.
Proof.
  revert n l. induction fuel as [|f IH]; intros n l Hn Hk Hd; [lia|]. cbn [spec_loop].
  eapply spec_ends_bind; [by apply spec_ends_call|]. intros _ l1 H1.
  apply spec_ends_step.
  assert (S n <= lines_read (l1 ++ [u_gets MAXBUF]))%nat as H2.
  { unfold lines_read in *. rewrite fold_left_app. cbn. lia. }
  destruct (Z.eqb_spec (fst (sys_reply l1 (u_gets MAXBUF))) 0) as [E|E].
  { eapply spec_ends_bind; [apply spec_ends_call; exact H2|]. intros; apply spec_ends_ret; lia. }
  assert (n < k)%nat.
  { destruct (decide (k <= lines_read l1)%nat) as [Hle|]; [|lia]. by apply input_ends in Hle. }
  cbn zeta. destruct (starts _ _).
  { eapply spec_ends_bind; [apply spec_ends_call; exact H2|]. intros; apply spec_ends_ret; lia. }
  eapply spec_ends_bind; [apply spec_ends_call; exact H2|]. intros _ l2 H3.
  eapply spec_ends_bind; [apply spec_builtin_ends; [exact H3|lia]|]. intros b l3 H4.
  eapply (spec_ends_bind _ _ (S n)); [destruct b; [by apply spec_ends_ret|by apply spec_run_ends]|].
  intros _ l4 H5. eapply spec_ends_mono; [|apply (IH (S n)); [done|lia..]]. lia.
Qed.
End shell_ok.

(** C7.  The shell works on three pages and a stack, yet what it does is a function of the
    strings it reads: the calls of sh.c are those of the shell on strings, in order.  It
    prints the prompt, reads a line, takes the text up to the first space as the command and
    all that follows as its argument, leaves at a line that starts with "exit", runs "cd",
    "pwd" and "ls" itself, and lets a child that it waits for run any other command; an empty
    command does nothing.  With input of [k] lines and directories of at most [d] entries it
    ends. *)
Theorem sh_refines {SYS : System} {FR : Frame} {RP : Replies} (k d fuel : nat) (u : user) :
  (forall l, (k <= lines_read l)%nat -> fst (sys_reply l (u_gets MAXBUF)) = 0) ->
  (forall l fd, (d <= entries_read l)%nat -> fst (sys_reply l (u_readdir fd)) <> 0) ->
  (k + d < fuel)%nat ->
  exists u' l, sh_main fuel u = Switch u' /\ spec_main fuel (u_log u) = Switch l /\ u_log u' = l.
Proof.
  intros Hk Hd Hf. pose proof (sim_main fuel u I) as Hs.
  assert (spec_ends (spec_main fuel) 0 (u_log u)) as He.
  { unfold spec_main. do 4 (eapply (spec_ends_bind _ _ 0); [apply spec_ends_call; lia|]; intros).
    eapply (spec_ends_bind _ _ 0); [apply (spec_loop_ends k d); [done..|lia|lia|lia]|]. intros.
    eapply (spec_ends_bind _ _ 0); [apply spec_ends_call; lia|]. done. }
  unfold spec_ends in He. destruct (sh_main fuel u), (spec_main fuel (u_log u)); try done; [by destruct Hs|eauto].
Qed.

(** ** A scripted system *)

Definition pages_given (l : list ucall) : nat :=
  fold_left (fun n c => match c with u_naive_malloc => S n | _ => n end) l O.

(** The input is a list of lines, every directory holds the files [a] and [b]; a page is
    never given twice. *)
Definition scripted (script : list (list Z)) : System := {|
  sys_reply l c :=
    match c with
    | u_gets _ => match script !! lines_read l with Some s => (Z.of_nat (length s) + 1, s ++ [10]) | None => (0, []) end
    | u_naive_malloc => (PGSIZE * Z.of_nat (pages_given l), [])
    | u_read_cwd => (0, [47; 0])
    | u_readdir _ => match entries_read l with 0%nat => (0, [97; 0]) | 1%nat => (0, [98; 0]) | _ => (-1, []) end
    | u_fork => (2, [])
    | _ => (0, [])
    end |}.

Lemma pages_given_app l l' : (pages_given l <= pages_given (l ++ l'))%nat.
Proof.
  unfold pages_given. rewrite fold_left_app. generalize (fold_left (fun n c => match c with u_naive_malloc => S n | _ => n end) l 0%nat).
  induction l' as [|c l' IH]; intros n; cbn; [done|]. etrans; [|apply IH]. destruct c; lia.
Qed.

Lemma scripted_replies script :
  Forall (fun s => Z.of_nat (length s) < MAXBUF /\ Forall (fun b => 0 <= b < 256) s) script -> @Replies (scripted script).
Proof.
  intros HF. assert (forall n s, script !! n = Some s -> Z.of_nat (length s) < MAXBUF /\ Forall (fun b => 0 <= b < 256) s) as Hs.
  { intros n s Hn. exact (Forall_lookup_1 _ _ _ _ HF Hn). }
  split; unfold MAXBUF in *; cbn.
  - intros l c. destruct c; cbn; try (repeat constructor; lia).
    + destruct (entries_read l) as [|[|n]]; cbn; [by repeat (constructor; [lia|])..|constructor].
    + destruct (script !! lines_read l) eqn:E; [|done]. apply Hs in E as [_ ?]. apply Forall_app. split; [done|]. repeat constructor; lia.
  - intros l. destruct (script !! lines_read l) eqn:E; cbn; [|lia]. apply Hs in E as [? _]. rewrite length_app. cbn. lia.
  - intros l. destruct (script !! lines_read l) eqn:E; cbn; [|done]. rewrite existsb_app. cbn. by rewrite orb_true_r.
  - lia.
  - done.
  - intros l fd. destruct (entries_read l) as [|[|n]]; cbn; lia.
  - intros l fd. by destruct (entries_read l) as [|[|n]].
  - intros l l' _. left. pose proof (pages_given_app (l ++ [u_naive_malloc]) l') as H. rewrite <- app_assoc in H. cbn in H.
    assert (pages_given (l ++ [u_naive_malloc]) = S (pages_given l)) as E by (unfold pages_given; by rewrite fold_left_app).
    unfold PGSIZE. lia.
Qed.

Definition demo_script : list (list Z) := [text "cd bin"; text "ls"; text "cat a b"; []; text "pwd"; text "exit now"].
Definition demo_frame : Frame := {| buf_at := 65536; str_var := 66560; name_at := 66624; dir_at := 66688; path_at := 66752; array_at := 66816 |}.
Definition demo_user : user := {| u_mem := ∅; u_log := [] |}.


(** What the shell does with that input. *)
Definition demo_calls : list ucall :=
  [u_print ([10] ++ line "======== Shell Start ========" ++ [10]) []; u_naive_malloc; u_naive_malloc; u_naive_malloc;
   u_print (text "shell> ") []; u_gets 1024; u_print (line "%s") [UStr (text "cd")]; u_change_cwd (text "bin");
   u_print (text "shell> ") []; u_gets 1024; u_print (line "%s") [UStr (text "ls")]; u_opendir (text ".");
   u_readdir 0; u_print (line "%s") [UStr (text "a")]; u_readdir 0; u_print (line "%s") [UStr (text "b")]; u_readdir 0; u_closedir 0;
   u_print (text "shell> ") []; u_gets 1024; u_print (line "%s") [UStr (text "cat")]; u_fork; u_wait 2;
   u_print (text "shell> ") []; u_gets 1024; u_print (line "%s") [UStr []];
   u_print (text "shell> ") []; u_gets 1024; u_print (line "%s") [UStr (text "pwd")]; u_read_cwd; u_print (line "cwd:%s") [UStr (text "/")];
   u_print (text "shell> ") []; u_gets 1024; u_print (line "exit") []; u_exit 0].

Lemma sh_refines_witness :
  exists u', @sh_main (scripted demo_script) demo_frame 16 demo_user = Switch u' /\ u_log u' = demo_calls.
Proof.
  destruct (@sh_refines (scripted demo_script) demo_frame (scripted_replies demo_script ltac:(repeat constructor; lia)) 6 3 16 demo_user)
    as (u' & l & E1 & E2 & E3).
  - intros l Hl. cbn. rewrite (lookup_ge_None_2 demo_script); [done|exact Hl].
  - intros l fd Hl. cbn. destruct (entries_read l) as [|[|n]]; [lia..|done].
  - lia.
  - exists u'. split; [exact E1|]. rewrite E3. vm_compute in E2. injection E2 as <-. vm_compute. reflexivity.
Defined.
