(* ===== verification/SemOrder.v ===== *)
(** user/c_3_2.c: three processes that print in turn, ordered by three semaphores.  The
    processes interleave; a semaphore is the value of [Semaphore], its counter and its queue,
    and [sem_down] and [sem_up] are what [Sched.acquire_sem_down] and [Sched.release_sem_up] prove of
    [__acquire] and [__release]. *)

From stdpp Require Import relations functions.
From S2P Require Import Prelude Semaphore.

(** [Child b] is the process with [(pid == 0) = b] after the second [fork]. *)
Inductive proc := Parent | Child (b : bool).
Inductive sem := main_sem | child_sem (b : bool).
#[export] Instance proc_eq_dec : EqDecision proc.
Proof. solve_decision. Defined.
#[export] Instance sem_eq_dec : EqDecision sem.
Proof. solve_decision. Defined.

(** Where a process is in round [i] of its loop. *)
Inductive pc := Forking | Acquiring (i : Z) | Blocked (i : Z) | Printing (i : Z) | Releasing (i : Z) | Exited.

Record world := {
  w_pc : proc -> option pc;
  w_val : sem -> Z;
  w_wait : sem -> list proc;
  w_out : list (proc * Z) }.
#[export] Instance eta_world : Eta world := fun w => Build_world (w_pc w) (w_val w) (w_wait w) (w_out w).

Definition ROUNDS : Z := 10.

(** [sem_P(main_sem)], [sem_P(child_sem[pid == 0])]. *)
Definition sem_P_of (p : proc) : sem := match p with Parent => main_sem | Child b => child_sem b end.
(** [sem_V(child_sem[0])] of the parent; the child releases [child_sem[1]] and the grandchild
    [main_sem]. *)
Definition sem_V_of (p : proc) : sem :=
  match p with Parent => child_sem false | Child b => if b then main_sem else child_sem true end.

Definition set_pc (p : proc) (c : pc) (w : world) : world := w <| w_pc := <[p := Some c]> (w_pc w) |>.

(** [i++] and the test of the loop, then [exit(0)]. *)
Definition next_round (i : Z) : pc := if i + 1 <? ROUNDS then Acquiring (i + 1) else Exited.

(** The semaphore [s] gets the value [x]. *)
Definition set_sem (s : sem) (x : Z * list proc) (w : world) : world :=
  w <| w_val := <[s := fst x]> (w_val w) |> <| w_wait := <[s := snd x]> (w_wait w) |>.

(** The call [sem_P] of process [p] ends in [__acquire]: it goes on to print, or waits. *)
Definition acquire (p : proc) (i : Z) (w : world) : world :=
  let s := sem_P_of p in
  let r := sem_down p (w_val w s, w_wait w s) in
  set_pc p (if fst r then Printing i else Blocked i) (set_sem s (snd r) w).

(** A process that is woken goes on behind its [sem_P]. *)
Definition wake (q : proc) (w : world) : world :=
  match w_pc w q with Some (Blocked j) => set_pc q (Printing j) w | _ => w end.

(** The call [sem_V] ends in [__release]. *)
Definition release (p : proc) (i : Z) (w : world) : world :=
  let s := sem_V_of p in
  let r := sem_up (w_val w s, w_wait w s) in
  set_pc p (next_round i)
    (match fst r with Some q => wake q (set_sem s (snd r) w) | None => set_sem s (snd r) w end).

(** One step of process [p]. *)
Definition run (p : proc) (w : world) : option world :=
  match w_pc w p with
  | Some Forking =>
      match p with
      | Parent => Some (set_pc (Child false) Forking (set_pc Parent (Acquiring 0) w))
      | Child _ => Some (set_pc (Child true) (Acquiring 0) (set_pc p (Acquiring 0) w))
      end
  | Some (Acquiring i) => Some (acquire p i w)
  | Some (Printing i) => Some (set_pc p (Releasing i) (w <| w_out := w_out w ++ [(p, i)] |>))
  | Some (Releasing i) => Some (release p i w)
  | Some (Blocked _) | Some Exited | None => None
  end.

Definition step (w w' : world) : Prop := exists p, run p w = Some w'.

(** After [sem_new(1)], [sem_new(0)] and [sem_new(0)]. *)
Definition start : world := {|
  w_pc p := match p with Parent => Some Forking | _ => None end;
  w_val s := match s with main_sem => 1 | _ => 0 end;
  w_wait _ := [];
  w_out := [] |}.

(** The order the comment of the program promises. *)
Definition round (i : Z) : list (proc * Z) := [(Parent, i); (Child false, i); (Child true, i)].
Definition in_order : list (proc * Z) := seqZ 0 ROUNDS ≫= round.

(** * The invariant *)

(** How many times a process has got through its [sem_P], printed, and done its [sem_V]. *)
Definition acquired (c : option pc) : Z :=
  match c with
  | Some (Acquiring i) | Some (Blocked i) => i
  | Some (Printing i) | Some (Releasing i) => i + 1
  | Some Exited => ROUNDS
  | _ => 0
  end.
Definition prints_done (c : option pc) : Z :=
  match c with
  | Some (Acquiring i) | Some (Blocked i) | Some (Printing i) => i
  | Some (Releasing i) => i + 1
  | Some Exited => ROUNDS
  | _ => 0
  end.
Definition released (c : option pc) : Z :=
  match c with
  | Some (Acquiring i) | Some (Blocked i) | Some (Printing i) | Some (Releasing i) => i
  | Some Exited => ROUNDS
  | _ => 0
  end.
Definition in_round (c : option pc) : Prop :=
  match c with
  | Some (Acquiring i) | Some (Blocked i) | Some (Printing i) | Some (Releasing i) => 0 <= i < ROUNDS
  | _ => True
  end.
Definition is_blocked (c : option pc) : bool := match c with Some (Blocked _) => true | _ => false end.
(** The counter of a semaphore has been lowered for a process that waits. *)
Definition owed (c : option pc) : Z := if is_blocked c then 1 else 0.

(** The process that waits on a semaphore and the one that releases it. *)
Definition waiter (s : sem) : proc := match s with main_sem => Parent | child_sem b => Child b end.
Definition giver (s : sem) : proc := match s with main_sem => Child true | child_sem b => if b then Child false else Parent end.
Definition units (s : sem) : Z := match s with main_sem => 1 | child_sem _ => 0 end.

(** The forks that have been made. *)
Definition born (p a b : option pc) : bool :=
  match p, a, b with
  | Some Forking, None, None => true
  | Some Forking, _, _ => false
  | Some _, Some Forking, None => true
  | Some _, Some Forking, _ => false
  | Some _, Some _, Some Forking => false
  | Some _, Some _, Some _ => true
  | _, _, _ => false
  end.

Definition lines_out (w : world) : Z :=
  prints_done (w_pc w Parent) + prints_done (w_pc w (Child false)) + prints_done (w_pc w (Child true)).

Record inv (w : world) : Prop := {
  inv_round p : in_round (w_pc w p);
  inv_val s : w_val w s = units s + released (w_pc w (giver s)) - acquired (w_pc w (waiter s)) - owed (w_pc w (waiter s));
  inv_pos s : 0 <= w_val w s + owed (w_pc w (waiter s));
  inv_wait s : w_wait w s = if is_blocked (w_pc w (waiter s)) then [waiter s] else [];
  inv_blocked s : is_blocked (w_pc w (waiter s)) = true -> w_val w s = -1;
  inv_born : born (w_pc w Parent) (w_pc w (Child false)) (w_pc w (Child true)) = true;
  inv_out : w_out w = take (Z.to_nat (lines_out w)) in_order }.

Lemma inv_start : inv start.
Proof. split; try done; by intros [|[]]. Qed.

(** The lines of round [i] in the order. *)
Lemma in_order_round i :
  0 <= i < ROUNDS ->
  in_order !! Z.to_nat (3 * i) = Some (Parent, i) /\
  in_order !! Z.to_nat (3 * i + 1) = Some (Child false, i) /\
  in_order !! Z.to_nat (3 * i + 2) = Some (Child true, i).
Proof.
  intros Hi. unfold ROUNDS in Hi.
  assert (i = 0 \/ i = 1 \/ i = 2 \/ i = 3 \/ i = 4 \/ i = 5 \/ i = 6 \/ i = 7 \/ i = 8 \/ i = 9) as H by lia.
  repeat destruct H as [-> |H]; [by vm_compute..|]. subst. by vm_compute.
Qed.

(** The facts of an invariant, one by one. *)
Ltac facts H :=
  pose proof (inv_round _ H Parent); pose proof (inv_round _ H (Child false)); pose proof (inv_round _ H (Child true));
  pose proof (inv_val _ H main_sem); pose proof (inv_val _ H (child_sem false)); pose proof (inv_val _ H (child_sem true));
  pose proof (inv_pos _ H main_sem); pose proof (inv_pos _ H (child_sem false)); pose proof (inv_pos _ H (child_sem true));
  pose proof (inv_wait _ H main_sem); pose proof (inv_wait _ H (child_sem false)); pose proof (inv_wait _ H (child_sem true));
  pose proof (inv_blocked _ H main_sem); pose proof (inv_blocked _ H (child_sem false)); pose proof (inv_blocked _ H (child_sem true));
  pose proof (inv_born _ H); pose proof (inv_out _ H); unfold lines_out in *; cbn [units giver waiter] in *.

(** Every field of the invariant at every process and semaphore, by computation. *)
Ltac look :=
  repeat first [rewrite fn_lookup_insert | rewrite fn_lookup_insert_ne by discriminate].
Ltac counts := unfold owed in *; cbn [acquired prints_done released in_round is_blocked born] in *.
Ltac settle :=
  split; unfold lines_out; cbn [w_pc w_val w_wait w_out upd set_pc eta_world];
  try (intros [|[]]); cbn [units giver waiter]; look;
  repeat match goal with E : ?x = Some _ |- context [?x] => rewrite E | E : ?x = None |- context [?x] => rewrite E end;
  counts; try solve [assumption | unfold ROUNDS in *; lia].

(** The process [p] of [w] is at [Ep]. *)
Ltac at_step w H Ep :=
  facts H; clear H; destruct w as [P V W O]; cbn [w_pc w_val w_wait w_out] in *; rewrite Ep in *; counts.

Lemma inv_acquire p i w : inv w -> w_pc w p = Some (Acquiring i) -> inv (acquire p i w).
Proof.
  intros H Ep. unfold acquire, set_pc, set_sem, sem_down.
  destruct p as [|[]]; at_step w H Ep; cbn [sem_P_of w_val w_wait fst snd];
    match goal with |- context [?a <? ?b] => destruct (Z.ltb_spec a b) end; cbn [fst snd]; settle.
  all: first [by match goal with E : ?x = [] |- context [?x] => rewrite E end | intros _; lia].
Qed.

Lemma inv_fork p w w' : inv w -> w_pc w p = Some Forking -> run p w = Some w' -> inv w'.
Proof.
  intros H Ep Hr. unfold run in Hr. rewrite Ep in Hr. unfold set_pc in Hr.
  destruct p as [|[]]; at_step w H Ep; injection Hr as <-.
  - destruct (P (Child false)) eqn:Ea, (P (Child true)) eqn:Eb; try discriminate. counts. settle.
  - destruct (P Parent) as [[]|], (P (Child false)) as [[]|]; discriminate.
  - destruct (P Parent) as [x|] eqn:Ea, (P (Child true)) eqn:Eb; try discriminate; try (destruct x; discriminate). counts. settle.
Qed.

(** Each semaphore keeps its two processes within a round. *)
Lemma inv_counts w :
  inv w ->
  let p := w_pc w Parent in let a := w_pc w (Child false) in let b := w_pc w (Child true) in
  released b <= prints_done b <= acquired b /\ released a <= prints_done a <= acquired a /\ released p <= prints_done p <= acquired p /\
  acquired b <= released a /\ acquired a <= released p /\ acquired p <= released b + 1.
Proof.
  intros H. cbn zeta. facts H.
  assert (forall c, released c <= prints_done c <= acquired c) as Hc by (intros [[]|]; cbn; lia).
  pose proof (Hc (w_pc w Parent)). pose proof (Hc (w_pc w (Child false))). pose proof (Hc (w_pc w (Child true))). lia.
Qed.

(** The line that is printed is the next one of the order. *)
Lemma next_line p i w :
  inv w -> w_pc w p = Some (Printing i) -> in_order !! Z.to_nat (lines_out w) = Some (p, i) /\ 0 <= lines_out w.
Proof.
  intros H Ep. pose proof (inv_counts w H) as Hc. pose proof (inv_round w H p) as Hi. rewrite Ep in Hi. cbn in Hi.
  destruct (in_order_round i Hi) as (H1 & H2 & H3). unfold lines_out. cbn zeta in Hc.
  assert (forall c, in_round c -> 0 <= prints_done c) as Hz by (unfold ROUNDS in *; intros [[]|]; cbn; unfold ROUNDS; lia).
  pose proof (Hz _ (inv_round w H Parent)). pose proof (Hz _ (inv_round w H (Child false))). pose proof (Hz _ (inv_round w H (Child true))).
  destruct p as [|[]]; rewrite Ep in *; cbn [acquired prints_done released] in *; (split; [|lia]);
    [rewrite <- H1|rewrite <- H3|rewrite <- H2]; do 2 f_equal; lia.
Qed.

Lemma inv_print p i w :
  inv w -> w_pc w p = Some (Printing i) -> inv (set_pc p (Releasing i) (w <| w_out := w_out w ++ [(p, i)] |>)).
Proof.
  intros H Ep. destruct (next_line p i w H Ep) as [Hl Hz]. apply take_S_r in Hl. unfold lines_out in *.
  unfold set_pc. destruct p as [|[]]; at_step w H Ep; settle.
  all: subst O; rewrite <- Hl; f_equal; lia.
Qed.

Lemma is_blocked_inv c : is_blocked c = true -> exists j, c = Some (Blocked j).
Proof. destruct c as [[]|]; try discriminate. eauto. Qed.

(** The semaphore of the next process, with its waiter and without. *)
Ltac give_unit P q i :=
  let Eb := fresh in let j := fresh "j" in let Eq := fresh in
  destruct (is_blocked (P q)) eqn:Eb;
  [destruct (is_blocked_inv _ Eb) as [j Eq]; rewrite Eq in *|]; counts;
  match goal with |- context [?a <=? ?b] => destruct (Z.leb_spec a b); try lia end;
  match goal with E : ?x = _ |- context [match ?x with [] => _ | _ :: _ => _ end] => rewrite E | _ => idtac end; cbn [fst snd];
  unfold wake, set_pc; cbn [w_pc w_val w_wait w_out upd eta_world]; try rewrite Eq;
  destruct (Z.ltb_spec (i + 1) ROUNDS); counts; settle;
  first [reflexivity | assumption | rewrite Eb; first [assumption | discriminate | lia] | lia | etrans; [eassumption|f_equal; unfold ROUNDS in *; lia]].

Lemma inv_release p i w : inv w -> w_pc w p = Some (Releasing i) -> inv (release p i w).
Proof.
  intros H Ep. unfold release, set_pc, set_sem, sem_up, next_round. destruct p as [|[]]; at_step w H Ep; cbn [sem_V_of w_val w_wait fst snd].
  - give_unit P (Child false) i.
  - give_unit P Parent i.
  - give_unit P (Child true) i.
Qed.

Lemma inv_step w w' : inv w -> step w w' -> inv w'.
Proof.
  intros H [p Hr]. destruct (w_pc w p) as [c|] eqn:Ep; [destruct c|]; try (by apply (inv_fork p w));
    unfold run in Hr; rewrite Ep in Hr; simplify_eq; auto using inv_acquire, inv_print, inv_release.
Qed.

Lemma inv_reachable w : rtc step start w -> inv w.
Proof. intros H. apply (rtc_ind_r _ start) with (1 := inv_start) (3 := H). eauto using inv_step. Qed.

(** A world in which nobody can step is one in which all have left. *)
Lemma stuck_done w :
  inv w -> (forall p, run p w = None) -> w_pc w Parent = Some Exited /\ w_pc w (Child false) = Some Exited /\ w_pc w (Child true) = Some Exited.
Proof.
  intros H Hs. pose proof (Hs Parent) as S1. pose proof (Hs (Child false)) as S2. pose proof (Hs (Child true)) as S3.
  unfold run in *. facts H. clear H Hs. unfold ROUNDS in *.
  destruct (w_pc w Parent) as [[]|], (w_pc w (Child false)) as [[]|], (w_pc w (Child true)) as [[]|];
    try discriminate; counts; unfold ROUNDS in *; try done; lia.
Qed.

(** ** Every run ends *)

(** The steps a process has before it; the forks bring the steps of the children. *)
Definition steps_left (p : proc) (c : option pc) : Z :=
  match c with
  | None => 0
  | Some Forking => match p with Parent => 4 * ROUNDS + 8 * ROUNDS + 2 | _ => 8 * ROUNDS + 1 end
  | Some (Acquiring i) => 4 * (ROUNDS - i)
  | Some (Blocked i) => 4 * (ROUNDS - i) - 1
  | Some (Printing i) => 4 * (ROUNDS - i) - 2
  | Some (Releasing i) => 4 * (ROUNDS - i) - 3
  | Some Exited => 0
  end.
Definition work (w : world) : Z :=
  steps_left Parent (w_pc w Parent) + steps_left (Child false) (w_pc w (Child false)) + steps_left (Child true) (w_pc w (Child true)).

Lemma steps_left_pos p c : in_round c -> 0 <= steps_left p c.
Proof. unfold ROUNDS. destruct c as [[]|]; cbn; unfold ROUNDS; destruct p; lia. Qed.

Lemma work_pos w : inv w -> 0 <= work w.
Proof.
  intros H. unfold work. pose proof (steps_left_pos Parent _ (inv_round w H Parent)).
  pose proof (steps_left_pos (Child false) _ (inv_round w H (Child false))).
  pose proof (steps_left_pos (Child true) _ (inv_round w H (Child true))). lia.
Qed.

Lemma work_set_pc p c w : work (set_pc p c w) = work w - steps_left p (w_pc w p) + steps_left p (Some c).
Proof. unfold work, set_pc. destruct p as [|[]]; cbn [w_pc upd eta_world]; look; lia. Qed.

Lemma work_wake q w : work (wake q w) <= work w /\ forall p, is_blocked (w_pc w p) = false -> w_pc (wake q w) p = w_pc w p.
Proof.
  unfold wake. destruct (w_pc w q) as [[]|] eqn:E; try done. rewrite work_set_pc, E. cbn [steps_left]. split; [lia|].
  intros p Hp. unfold set_pc. cbn [w_pc upd eta_world]. rewrite fn_lookup_insert_ne; [done|]. intros ->. by rewrite E in Hp.
Qed.

Lemma work_step w w' : inv w -> step w w' -> work w' < work w.
Proof.
  intros H [p Hr]. pose proof (inv_round w H p) as Hp. unfold run in Hr.
  destruct (w_pc w p) as [[|i| |i|i|]|] eqn:Ep; try discriminate; cbn [in_round] in Hp; unfold ROUNDS in Hp.
  - pose proof (steps_left_pos (Child false) _ (inv_round w H (Child false))).
    pose proof (steps_left_pos (Child true) _ (inv_round w H (Child true))).
    destruct p as [|b]; injection Hr as <-; rewrite !work_set_pc, Ep; unfold set_pc; cbn [w_pc upd eta_world]; [|destruct b];
      look; cbn [steps_left]; unfold ROUNDS; lia.
  - injection Hr as <-. unfold acquire, set_sem. cbn zeta. rewrite work_set_pc. cbn [w_pc upd eta_world]. rewrite Ep. unfold work.
    case_if; cbn [w_pc upd eta_world steps_left]; lia.
  - injection Hr as <-. rewrite work_set_pc. cbn [w_pc upd eta_world]. rewrite Ep. unfold work. cbn [w_pc upd eta_world steps_left]. lia.
  - injection Hr as <-. unfold release. cbn zeta. rewrite work_set_pc.
    set (r := sem_up _). set (w1 := match fst r with Some _ => _ | _ => _ end).
    assert (work w1 <= work w /\ w_pc w1 p = w_pc w p) as [Hw ->].
    { unfold w1. destruct (fst r) as [q|]; [|done].
      destruct (work_wake q (set_sem (sem_V_of p) (snd r) w)) as [H1 H2]. split; [done|].
      apply H2. unfold set_sem. cbn [w_pc upd eta_world]. by rewrite Ep. }
    rewrite Ep. unfold next_round. case_if; cbn [steps_left]; unfold ROUNDS in *; lia.
Qed.

Lemma work_nsteps n w w' : inv w -> nsteps step n w w' -> Z.of_nat n + work w' <= work w.
Proof.
  revert w. induction n as [|n IH]; intros w H Hn; inversion Hn as [|? ? y ? Hs Hr]; subst; [lia|].
  pose proof (work_step _ _ H Hs). pose proof (IH _ (inv_step _ _ H Hs) Hr). lia.
Qed.

(** C40.  However the three processes of c_3_2.c are scheduled, what is printed so far is a
    beginning of: the parent, the child, the grandchild, round by round.  No run is longer
    than 122 steps, and when no process can go on, each has left and all thirty lines are
    printed: there is no deadlock and no line is lost. *)
Theorem semaphores_order (n : nat) (w : world) :
  nsteps step n start w ->
  w_out w `prefix_of` in_order /\ (n <= 122)%nat /\
  ((forall p, run p w = None) ->
    w_out w = in_order /\ w_pc w Parent = Some Exited /\ w_pc w (Child false) = Some Exited /\ w_pc w (Child true) = Some Exited).
Proof.
  intros Hn. pose proof (inv_reachable w (rtc_nsteps_2 _ _ _ Hn)) as H. split_and!.
  - rewrite (inv_out w H). eexists. symmetry. apply take_drop.
  - pose proof (work_nsteps n start w inv_start Hn). pose proof (work_pos w H).
    change (work start) with 122 in *. lia.
  - intros Hs. destruct (stuck_done w H Hs) as (E1 & E2 & E3). rewrite (inv_out w H). unfold lines_out. rewrite E1, E2, E3. done.
Qed.

(** The run in which the first process that can goes on. *)
Definition any_step (w : world) : option world :=
  match run Parent w with
  | Some w' => Some w'
  | None => match run (Child false) w with Some w' => Some w' | None => run (Child true) w end
  end.
Fixpoint any_run (n : nat) (w : world) : nat * world :=
  match n with
  | O => (O, w)
  | S n' => match any_step w with Some w' => let '(k, w2) := any_run n' w' in (S k, w2) | None => (O, w) end
  end.

Lemma any_run_steps n w : nsteps step (fst (any_run n w)) w (snd (any_run n w)).
Proof.
  revert w. induction n as [|n IH]; intros w; cbn [any_run]; [constructor|].
  destruct (any_step w) as [w'|] eqn:E; [|constructor].
  specialize (IH w'). destruct (any_run n w') as [m w2]. cbn in *. econstructor; [|exact IH].
  unfold any_step in E. unfold step. repeat case_match; simplify_eq; eauto.
Qed.

Lemma semaphores_order_witness :
  exists n w, nsteps step n start w /\ (forall p, run p w = None) /\ (n <= 122)%nat /\ w_out w = in_order.
Proof.
  exists (fst (any_run 122 start)), (snd (any_run 122 start)).
  assert (forall p, run p (snd (any_run 122 start)) = None) as Hs by (intros [|[]]; vm_compute; reflexivity).
  destruct (semaphores_order _ _ (any_run_steps 122 start)) as (_ & Hn & Hd).
  split_and!; [apply any_run_steps|exact Hs|exact Hn|apply (Hd Hs)].
Defined.
