(* ===== verification/Console.v ===== *)
(** The console of spike_interface/spike_utils.c: text that is formatted in a buffer on the
    stack and handed to the host, and the messages the kernel dies with. *)

From S2P Require Import Prelude Mem CString Fdt Htif SpikeFile Snprintf.

(** Where the locals and the literals lie: the buffer of [vprintk] and of [vprintm], the
    registers [do_panic] saves for its [va_list], and what the argument registers behind it
    hold when it calls [sprint]. *)
Class Layout := { out_at : Z; va_area : Z; stale_regs : list Z; literal : string -> Z }.

(** The memory and the host. *)
Record cons_io := { c_mem : mem; c_host : host }.
#[export] Instance eta_cons_io : Eta cons_io := fun c => Build_cons_io (c_mem c) (c_host c).

Definition shutdown_format : string := "System is shutting down with exit code %d.
".
Definition assert_format : string := "assertion failed @ %p: %s
".

Section console.
Context {HO : Host} {LA : Layout} {SIM : Simulator}.

(** The bytes of a buffer that is handed over. *)
Definition buffer (m : mem) (a n : Z) : list Z := (fun i => load8 m (a + i)) <$> seqZ 0 n.

Definition to_host {A} (c : M host A) : M cons_io A := zoom c_host (fun h c => c <| c_host := h |>) c.

(** [fuel] bounds the format and its strings. *)
Definition vprintk (fuel : nat) (s : Z) (vl : list Z) : M cons_io unit :=
  c <- gets id ;;
  r <- deref (vsnprintf out_at OUT_SIZE fuel (c_mem c) s vl) ;;
  modify (fun c => c <| c_mem := fst r |>) ;;;
  let res := u64 (snd r) in
  let n := if res <? OUT_SIZE then res else OUT_SIZE in
  to_host (spike_file_write spike_stderr (buffer (fst r) out_at n) n) ;;; ret tt.

(** The arguments of a variadic function are its [va_list]. *)
Definition printk (fuel : nat) (s : Z) (args : list Z) : M cons_io unit := vprintk fuel s args.
Definition sprint (fuel : nat) (s : Z) (args : list Z) : M cons_io unit := vprintk fuel s args.

(** The text goes to the console of the simulator, character by character. *)
Definition vprintm (fuel : nat) (s : Z) (vl : list Z) : M htif_io unit :=
  m <- gets io_mem ;;
  r <- deref (vsnprintf out_at OUT_SIZE fuel m s vl) ;;
  modify (fun i => i <| io_mem := fst r |>) ;;;
  n <- deref (strlen 256 (fst r) out_at) ;;
  putstring fuel (buffer (fst r) out_at n).

(** [HTIFSYS_exit] stops the simulator; should the host answer it, [while (1)] follows:
    nothing returns. *)
Definition shutdown_with (fuel : nat) (code : Z) : M cons_io unit :=
  sprint fuel (literal shutdown_format) [code] ;;;
  to_host (frontend_syscall (host_exit code)) ;;;
  fun c => Switch c.

Fixpoint save_regs (m : mem) (a : Z) (l : list Z) : mem :=
  match l with [] => m | r :: l' => save_regs (store64 m a r) (a + 8) l' end.

(** [sprint(s, vl)]: the argument of [sprint] is the pointer. *)
Definition do_panic (fuel : nat) (s : Z) (args : list Z) : M cons_io unit :=
  modify (fun c => c <| c_mem := save_regs (c_mem c) va_area args |>) ;;;
  sprint fuel s (va_area :: stale_regs) ;;;
  shutdown_with fuel (-1).

Definition kassert_fail (fuel : nat) (ra s : Z) : M cons_io unit :=
  do_panic fuel (literal assert_format) [ra; s] ;;;
  shutdown_with fuel (-1).
End console.

(** * What the host receives *)

(** The format [fmt] at [s] and its arguments make the text [txt]; none of them lies in the
    buffer. *)
Record printable {LA : Layout} (m : mem) (fuel : nat) (s : Z) (fmt : list Z) (args : list arg) (txt : list Z) : Prop := {
  pr_format : cstr m s fmt;
  pr_apart : Snprintf.apart out_at OUT_SIZE s fmt;
  pr_args : Forall (arg_ok out_at OUT_SIZE m) args;
  pr_fuel : (length fmt < fuel)%nat;
  pr_fuels : forall a, a ∈ args -> (length fmt + arg_len a < fuel)%nat;
  pr_text : render OUT_SIZE 0 fmt false false args = Some txt;
  pr_size : Z.of_nat (length txt) < 2147483648 }.

Section console_ok.
Context {HO : Host} {LA : Layout} {SIM : Simulator}.

Lemma buffer_eq m a l :
  (forall i c, l !! i = Some c -> load8 m (a + Z.of_nat i) = c) -> buffer m a (Z.of_nat (length l)) = l.
Proof.
  intros H. apply list_eq. intros i. unfold buffer. rewrite list_lookup_fmap. destruct (l !! i) as [c|] eqn:E.
  - pose proof (lookup_lt_Some _ _ _ E). rewrite lookup_seqZ_lt by lia. cbn. rewrite Z.add_0_l. f_equal. by apply H.
  - apply lookup_ge_None_1 in E. by rewrite lookup_seqZ_ge by lia.
Qed.

(** What [vsnprintf] leaves in the buffer is what is sent. *)
Lemma buffer_sent m' txt :
  (forall i c, txt !! i = Some c -> Z.of_nat i + 1 < OUT_SIZE -> load8 m' (out_at + Z.of_nat i) = u8 c) ->
  load8 m' (out_at + Z.min (Z.of_nat (length txt)) (OUT_SIZE - 1)) = 0 ->
  let n := if Z.of_nat (length txt) <? OUT_SIZE then Z.of_nat (length txt) else OUT_SIZE in
  n = Z.of_nat (length (sent txt)) /\ buffer m' out_at n = sent txt.
Proof.
  intros Hb H0. cbn zeta. unfold sent, OUT_SIZE in *. destruct (Z.ltb_spec (Z.of_nat (length txt)) 256).
  - rewrite length_fmap. split; [done|]. rewrite <- (length_fmap u8 txt). apply buffer_eq. intros i c Hc.
    apply list_lookup_fmap_Some in Hc as (d & -> & Hd). pose proof (lookup_lt_Some _ _ _ Hd). apply Hb; [done|lia].
  - set (l := (u8 <$> take 255 txt) ++ [0]). assert (length l = 256%nat) as Hl.
    { unfold l. rewrite length_app, length_fmap, length_take. cbn [length]. lia. }
    rewrite Hl. split; [done|]. change 256 with (Z.of_nat 256). rewrite <- Hl. apply buffer_eq. intros i c Hc. unfold l in Hc.
    pose proof (lookup_lt_Some _ _ _ Hc) as Hi. fold l in Hi. destruct (decide (i < 255)%nat).
    + rewrite lookup_app_l in Hc by (rewrite length_fmap, length_take; lia).
      apply list_lookup_fmap_Some in Hc as (d & -> & Hd). rewrite lookup_take_lt in Hd by lia. apply Hb; [done|lia].
    + assert (i = 255%nat) as -> by lia.
      rewrite lookup_app_r in Hc by (rewrite length_fmap, length_take; lia).
      rewrite length_fmap, length_take, Nat.min_l in Hc by lia. injection Hc as <-. rewrite Z.min_r in H0 by lia. exact H0.
Qed.

(** A message leaves the kernel as one write to the standard error of the host. *)
Definition written (c : cons_io) (m' : mem) (f : spike_file_t) (txt : list Z) : cons_io :=
  c <| c_mem := m' |> <| c_host := (c_host c) <| host_log := host_log (c_host c) ++ [host_write (kfd f) (sent txt) (Z.of_nat (length (sent txt)))] |> |>.

Lemma vprintk_run c fuel s fmt args txt f :
  printable (c_mem c) fuel s fmt args txt -> spike_files (c_host c) !! 2%nat = Some f ->
  exists m', vprintk fuel s (raw <$> args) c = Ret tt (written c m' f txt) /\
    unchanged_outside out_at (out_at + OUT_SIZE) (c_mem c) m'.
Proof.
  intros [Hf Ha Hargs Hfu Hfus Ht Hs] Hstd.
  destruct (vsnprintf_run out_at OUT_SIZE fuel (c_mem c) s fmt args txt) as (m' & E & Hu & Hb & H0); [done..|].
  specialize (H0 ltac:(done)). destruct (buffer_sent m' txt Hb H0) as [Hn Hbuf]. cbn zeta in *.
  exists m'. split; [|done]. unfold vprintk.
  rewrite (bind_ret_eq (gets id) _ _ c c) by done. rewrite E. cbn [deref].
  rewrite (bind_ret_eq (ret _) _ _ (m', Z.of_nat (length txt)) c) by done. cbn [fst snd].
  rewrite (bind_ret_eq (modify _) _ _ tt (c <| c_mem := m' |>)) by done. rewrite u64_small by lia.
  rewrite Hbuf, Hn. unfold to_host, spike_file_write, zoom. unfold bind at 1.
  rewrite (bind_ret_eq _ _ _ _ _ (get_spike_eq (c_host (c <| c_mem := m' |>)) 2 f Hstd)). done.
Qed.
End console_ok.

(** The message with which the simulator is stopped. *)
Definition last_words : list Z := text "System is shutting down with exit code -1." ++ [10].

(** * Claims *)

(** C38.  [do_panic] hands its [va_list] to [sprint] as an argument: the message is
    formatted with the address of the saved registers and what the next argument registers
    happen to hold, and not with the arguments of the panic, which only lie in memory.  The
    text goes to the host, the shutdown message follows, and the last call the host gets is
    the exit with -1. *)
Theorem do_panic_spec {HO : Host} {LA : Layout} c fuel s fmt args misread txt f :
  raw <$> misread = va_area :: stale_regs ->
  printable (save_regs (c_mem c) va_area args) fuel s fmt misread txt ->
  (forall m, unchanged_outside out_at (out_at + OUT_SIZE) (save_regs (c_mem c) va_area args) m ->
    printable m fuel (literal shutdown_format) (text shutdown_format) [Num (-1)] last_words) ->
  spike_files (c_host c) !! 2%nat = Some f ->
  exists c', do_panic fuel s args c = Switch c' /\
    host_log (c_host c') = host_log (c_host c) ++
      [host_write (kfd f) (sent txt) (Z.of_nat (length (sent txt)));
       host_write (kfd f) (sent last_words) (Z.of_nat (length (sent last_words)));
       host_exit (-1)].
Proof.
  intros Hraw Hp Hlast Hstd. set (c1 := c <| c_mem := save_regs (c_mem c) va_area args |>).
  destruct (vprintk_run c1 fuel s fmt misread txt f Hp Hstd) as (m1 & E1 & U1). rewrite Hraw in E1.
  destruct (vprintk_run (written c1 m1 f txt) fuel (literal shutdown_format) (text shutdown_format) [Num (-1)] last_words f (Hlast m1 U1) Hstd)
    as (m2 & E2 & _).
  eexists. unfold do_panic. split.
  - rewrite (bind_ret_eq (modify _) _ _ tt c1) by done. unfold sprint. rewrite (bind_ret_eq _ _ _ _ _ E1).
    unfold shutdown_with, sprint. rewrite (bind_ret_eq _ _ _ _ _ E2). done.
  - cbn. by rewrite <- !app_assoc.
Qed.

(** ** Witness *)

Definition demo_literals : Layout := {| out_at := 4096; va_area := 5000; stale_regs := []; literal _ := 600 |}.

Definition place (a : Z) (l : list Z) : mem := list_to_map (imap (fun i c => (a + Z.of_nat i, c)) (l ++ [0])).

(** The format of [shutdown] at 600 and that of a panic at 800. *)
Definition demo_text : mem := place 600 (text shutdown_format) ∪ place 800 (text "pid %d" ++ [10]).

Definition demo_console : cons_io := {|
  c_mem := demo_text;
  c_host := {| spike_files := [{| kfd := 0; refcnt := 3 |}; {| kfd := 1; refcnt := 3 |}; {| kfd := 2; refcnt := 3 |}]; spike_fds := []; host_log := [] |} |}.

(** The panic [pid %d] of process 7 reports process 5000. *)
Lemma do_panic_spec_witness :
  exists c', @do_panic small_host demo_literals 60 800 [7] demo_console = Switch c' /\
    exists w, host_log (c_host c') = [host_write 2 (text "pid 5000" ++ [10]) 9; w; host_exit (-1)].
Proof.
  destruct (@do_panic_spec small_host demo_literals demo_console 60 800 (text "pid %d" ++ [10]) [7] [Num 5000]
    (text "pid 5000" ++ [10]) {| kfd := 2; refcnt := 3 |}) as (c' & E & El).
  - reflexivity.
  - split; [vm_compute; split_and!; (reflexivity || discriminate)|left; cbn; lia| |cbn; lia| |reflexivity|cbn; lia].
    + apply Forall_cons_2; [vm_compute; discriminate|apply Forall_nil_2].
    + intros a Hin. apply list_elem_of_singleton in Hin as ->. cbn. lia.
  - intros m Hm. split; [|left; cbn; lia| |cbn; lia| |reflexivity|cbn; lia].
    + eapply cstr_ext; [intros a Ha; apply Hm; left; cbn in *; lia|]. vm_compute; split_and!; (reflexivity || discriminate).
    + apply Forall_cons_2; [vm_compute; discriminate|apply Forall_nil_2].
    + intros a Hin. apply list_elem_of_singleton in Hin as ->. cbn. lia.
  - reflexivity.
  - exists c'. split; [exact E|]. eexists. rewrite El. reflexivity.
Defined.
